(* ===== verification/_CoqProject ===== *)
-Q . S2P
Prelude.v
Text.v
Common.v
IpText.v
Helpers.v
LowLevel.v
LowLevelFacts.v
LowLevelProps.v
Wire.v
WireProps.v
Conn.v
ConnProps.v
Buckets.v
CatchUp.v
Queues.v
QueuesProps.v
Config.v
Container.v
GrpcTypes.v
GrpcTransactions.v
FloatFacts.v
ConfigProps.v
Bans.v
BansProps.v
Node.v
Callbacks.v
Queries.v
QueriesProps.v
Connectivity.v
Consensus.v
CallbacksProps.v
Handlers.v
Maintenance.v
Stats.v
Dumper.v
Grpc.v
GrpcServer.v
NodeInv.v
NodeSteps.v
NodeProps.v
Housekeeping.v
ConfigEffects.v
PeerProps.v
GrpcProps.v
GrpcEffects.v
Health.v
NodeWitnesses.v
Import.v
Main.v
Collector.v
CollectorProps.v
Agent.v
AgentProps.v
GrpcWitnesses.v
WinPath.v
WinConfig.v
WinNode.v
WinService.v
WinProps.v
WinNodeProps.v
WinConfigProps.v
WinWitnesses.v
Installer.v
Build.v
BuildProps.v
Logging.v
LoggingProps.v
Boot.v
Services.v
Abi.v
AbiRust.v
AbiHaskell.v
AbiProps.v
AbiCodes.v
AbiCodesProps.v
