(* ===== verification/Prelude.v ===== *)
(** * Verification library of the Concordium node

    The Rust program under [src/concordium-node] is a peer-to-peer node: it
    keeps Noise-encrypted connections to other nodes, exchanges handshakes, peer
    lists and consensus packets with them, and passes the packets between the
    network and a consensus library (Haskell, behind an FFI).  A gRPC server
    answers queries, most of them by asking consensus, and lets clients submit
    transactions and manage peers.  Collectors ([src/collector]) ask nodes for
    their state and report it to a backend ([src/collector-backend]).  On Windows a
    service ([src/service/windows]) reads which nodes to run, starts them with
    their collectors, watches and stops them.  This library models the network
    side, the server with the calls of and the callbacks from the consensus
    library, the collector, the backend, the service with its installer, the
    build script and logging as pure functions of explicit state, in the structure
    of the source, and proves them correct.

    ** How the program is modelled

    - A fallible function returns an [outcome]: [Ok], [Err] (an I/O error, a gRPC
      status or any other), or [Panic].  A function that also changes state is an [M St A], that
      is [St -> outcome A * St]; the state after an error is part of the result.
    - Integers are [Z] with the wrap-around of the release build written out
      ([u64_wrap] and so on); only subtractions of lengths and positions are checked
      ([sub_usize]), as the theorems show that they do not underflow; [f64] is the binary64 of [Floats.SpecFloat]; bytes
      are [Byte.byte]; a [HashMap] is a [gmap].
    - Code that is not in the repository is a class, with what the node relies on
      as its laws: the iteration order of hash maps ([HashOrder]), random choices
      ([Rng]), the layout of a [VecDeque], the Noise library ([Noise]),
      flatbuffers, circular queues and hashes, channels ([Channels]), the
      key-value store ([Rkv]), text formats of addresses, the consensus library
      ([ConsensusLib] for the plugin, [ConsensusRuntime] for the container),
      [concordium_base] ([ConcordiumBase], [ChainTypes]), Prometheus, the parser of
      TOML ([Toml]), the names of log levels, the case of the names of environment
      variables on Windows ([EnvNames]), the properties of the Windows
      installer ([Msi]), and the C types of the target ([ForeignTypes]).  [External]
      bundles those of the node.  Every class that a property depends on has an
      instance with which the theorems are instantiated.
    - The functions of the consensus library that queries call are one argument,
      [ffi], that maps a call with its arguments ([ffi_call]) and the state of the
      library to an answer.
    - Readings of clocks, random seeds, the answers of the operating system and
      of DNS, and the answers of consensus are arguments.

    ** Files

    - [Prelude]: outcomes, the state monad, machine integers, big-endian bytes,
      iteration of maps, slices; the hint databases and tactics.
    - [Text]: Rust strings.
    - [Common]: addresses, identifiers with their text form, peers
      ([common/p2p_peer.rs], [common/p2p_node_id.rs]).
    - [IpText]: the text form of IP addresses in Rust's standard library, with its
      round trip.
    - [Helpers]: packet types, codes of the consensus library and consensus
      messages ([consensus_ffi/helpers.rs], [consensus_ffi/messaging.rs]).
    - [LowLevel]: the Noise handshake, framing, encryption, socket buffers and
      queues of a connection ([connection/low_level.rs]); a socket is a script of
      the answers of the operating system.  [LowLevelFacts], [LowLevelProps]: its
      lemmas and theorems.
    - [Wire], [WireProps]: network messages and their serialization
      ([network/mod.rs], [network/serialization/fbs.rs]).
    - [Conn], [ConnProps]: deduplication, statistics, message queues and sending
      ([connection/mod.rs]).
    - [Buckets]: the nodes known to a bootstrapper ([network/buckets.rs]).
    - [CatchUp]: the list of peers to catch up with
      ([consensus_ffi/catch_up.rs], [plugins/consensus.rs]).
    - [Queues], [QueuesProps]: the queues to and from consensus and the threads
      that serve them ([consensus_ffi/consensus.rs], [bin/cli.rs]).
    - [Config], [ConfigProps]: options, their validation, credentials and the
      persistent node id ([configuration.rs]).  [FloatFacts]: the rounding that the
      limit on peers is computed with.
    - [Container]: starting and stopping the consensus library, its baker, and the
      calls that pass messages ([ConsensusContainer] of
      [consensus_ffi/consensus.rs] and [consensus_ffi/ffi.rs]).
    - [GrpcTypes]: how parts of requests are passed to the library ([types] of
      [grpc2.rs]), and how the library reads them ([External/Helpers.hs]).
      [GrpcTransactions]: transactions in requests, and their bytes.
    - [Bans], [BansProps]: persisted bans and peers ([p2p/bans.rs],
      [p2p/peers.rs]).
    - [Node]: the state of the node ([P2PNode] of [p2p/maintenance.rs]), finding
      and removing connections.
    - [Callbacks]: the Haskell runtime, the callbacks of the library for messages,
      protocol updates, notifications and logging, and the streams of answers
      ([consensus_ffi/ffi.rs], [External/GRPC2.hs]).  [CallbacksProps]: theorems.
    - [Queries]: the queries and dry runs ([consensus_ffi/ffi.rs]).
      [QueriesProps]: what they pass to the library, and that they do not panic.
    - [Connectivity]: sending, accepting and opening connections, housekeeping,
      bootstrapping, throughput ([p2p/connectivity.rs], [p2p/peers.rs]).
    - [Consensus]: the consensus plugin ([plugins/consensus.rs]).
    - [Handlers]: the handlers of messages ([connection/message_handlers.rs]); a
      connection that is served is taken out of the node.
    - [Maintenance]: the poll loop, connection changes, creation and shutdown
      ([p2p/maintenance.rs]).
    - [Stats]: the metrics and their registration, collectors and the push gateway
      ([stats_export_service.rs]).
    - [Dumper]: the network dump ([dumper.rs]).
    - [Grpc]: the handlers of all endpoints, dry-run sessions and relays of blocks
      ([grpc2.rs]); [serve] answers any request.  [GrpcServer]: the limit on
      connections, the middleware for statistics, set-up and shutdown.
    - [NodeInv]: the invariant of the node and that serving and opening
      connections keep it.  [NodeSteps]: elementary steps of all threads, and
      that the operations of the node are sequences of steps.
    - [NodeProps], [Housekeeping], [PeerProps]: the theorems on the node.
      [ConfigEffects]: what the checks of the options mean for it.
      [Health]: the health service, over the state of the node ([health.rs]).
      [NodeWitnesses]: concrete nodes the theorems are applied to.
    - [GrpcProps]: safety of all requests.  [GrpcEffects]: what blocks,
      transactions, bans and dry-run sessions amount to.
    - [Import]: out-of-band catch-up ([bin/cli.rs]).
    - [Main]: start-up and shutdown of the process ([main] of [bin/cli.rs],
      [plugins/consensus.rs]).
    - [Collector], [CollectorProps]: the collector backend
      ([collector-backend/src/lib.rs] and [bin/node-collector-backend.rs]); reports
      are checked and stored in two steps, which interleave with those of other
      requests and with the cleanup.
    - [Agent], [AgentProps]: the collector ([collector/src/bin/collector.rs]), and
      what the backend makes of the reports that it collects from a node.
    - [GrpcWitnesses]: concrete servers, sessions and reports.
    - [WinPath]: paths of Windows.  [WinConfig], [WinConfigProps]: the configuration
      file of the service ([service/windows/src/config.rs]).  [WinNode],
      [WinNodeProps]: nodes as processes, what they are started with, and the end of
      their error output ([service/windows/src/node.rs], [subprocess.rs]).
      [WinService], [WinProps]: the states of the service, its loops and its command
      line ([service/windows/src/main.rs], [manager.rs]).  [WinWitnesses]: a
      configuration file, and a run of the service with it.
    - [Installer]: the custom actions of the installer
      ([service/windows/installer/custom-actions/src/lib.rs]).
    - [Build], [BuildProps]: the build script with the description of the gRPC
      service ([concordium-node/build.rs]), and the codec of answers ([grpc2.rs]).
    - [Logging], [LoggingProps]: the logger for macOS
      ([macos_logger_wrapper/src/lib.rs]), with the steps of its calls, and the
      set-up of logging ([utils.rs]).
    - [Boot]: the bootstrapper and the bootstrap checker ([bin/bootstrapper.rs],
      [bin/bootstrap_checker.rs]), the joining of threads, and the pages of the
      exporter of metrics ([stats_export_service.rs]).
    - [Services]: the services of the gRPC server, its endpoints for dumps, signals
      ([bin/cli.rs]), and the routes and start of the collector backend.
    - [Abi]: the C types of the interface to the consensus library, and how values
      are passed.  [AbiRust]: the node's declarations of its functions
      ([consensus_ffi/ffi.rs]).  [AbiHaskell]: what the library exports
      ([External.hs], [External/GRPC2.hs], [External/DryRun.hs], [lib.def]).
      [AbiProps]: that they agree.  [AbiCodes], [AbiCodesProps]: the codes that the
      library returns, and what the node makes of them.

    ** What is shown

    - A connection: messages that one end writes arrive at the other, in order
      and unchanged, however the socket splits them; a receiver reassembles
      frames from any sequence of reads and does not panic; encryption in place
      agrees with its specification; length prefixes out of range are errors; the
      output queue is flushed first in, first out; messages with priority go
      first.
    - The wire format: what is serialized is deserialized, but for the parts that
      are not transmitted.
    - Deduplication: a packet is a duplicate exactly within the window of the
      queue; an invalidated one is admitted again.
    - The consensus threads: every queued message is handled once and in order;
      high priority comes first and low priority is not starved.
    - Catch-up and buckets: their invariants, the exact effect of updating the
      list of peers, and the choice of nodes.
    - Bans and persisted peers: the operations on the store refine operations on
      two sets, whichever of them fail.
    - Configuration: with options that are accepted, the node may have as many peers
      as it desires, whichever way the limit is computed, keeps peers that it hears
      from, and its buffers are large enough; the id of a node survives a restart.
    - The node: its invariant holds after any operations of its threads, for any
      input from the network, so that the unwrapping of peer ids is safe; who may
      connect and to whom the node connects; the connection limit; the queue of
      changes is processed to its end; which connections survive housekeeping;
      two nodes complete a handshake exactly if their chains agree; a broadcast
      is relayed to exactly the nodes that are not skipped.
    - The consensus library: the declarations of its functions on both sides of the
      FFI describe the same calls, and the node understands all codes that it
      returns but one; what a request names is what the library reads; the
      baker is started and stopped in turn, and the library never stopped with a
      baker running; what a callback sends is what the library of the receiving
      node is called with; a stream delivers its items in order, each once, to a
      receiver that keeps up or waits, and its box is freed exactly once.
    - The gRPC server: whatever clients send, the library is only passed what it
      can read and within the limit on energy, the node keeps its invariant and
      nothing panics; a disabled endpoint has no effect; a submitted transaction is
      accepted by consensus and reaches the consensus of the peers; announced
      blocks reach the clients; the ban list reported is the one stored; the limits
      on connections and dry-run sessions hold and no permit is lost; with options
      that are accepted, no combination keeps the server from starting.
    - Statistics and dumps: all metrics can be registered; what a scrape reads; a
      dump holds every item in order.
    - The collector: its report says what the node says of itself, and passes the
      backend's checks unless it exceeds their limits.
    - The health service: both services answer in every state that satisfies the
      invariant, and agree with the criterion of health.
    - Start-up and shutdown: on every path of [main] the Haskell runtime is stopped
      last and once; a regular shutdown stops the baker, the library and the runtime
      in this order, with the threads of the node ended; what else may use the
      library then is exactly the metrics exporter and what is left of the gRPC
      server.
    - Out-of-band catch-up: exactly the chunks from the first that is needed are
      imported, in order and with the contents that were downloaded, and an initial
      part of them if it is interrupted.
    - The collector backend: what it stores passed all checks when it was received
      and is filed under its id, however requests interleave; outliers cannot move the averages it compares heights with.
    - The Windows service: it ends within the time that it announces after a stop is
      requested, with all reports in order and no process left running, unless a
      report fails; each node
      that is not disabled is read, with its settings from where they should come;
      a node is started with exactly its settings, in a form that it reads back,
      whatever variables are configured under names that differ in case; a
      collector is started exactly if it should be; the actions of the installer
      close all handles and act only on what they are given.
    - The interface: the methods that the build script describes are the endpoints
      that the server implements, each reached by its own path, and streams exactly
      where the server answers with streams.
    - Logging: with any interleaving of the steps of threads each message that is
      asked for is written once, in the order of its thread, and no logger of the
      system is lost.
    - The bootstrapper and its checker: what a bootstrapper starts with; the checker
      decides by the first poll after ten seconds.
    - Theorems on behaviour that departs from what the code or its documentation
      intends: the pre-shared key is not compared, fragments of handshake
      messages are read twice, repeated handshakes inflate a gauge, a gauge is not
      updated with the buckets, a relay percentage below one selects the wrong
      peers, short packets panic, oversized blocks and housekeeping intervals that
      overflow pass the validation, chunks of
      a later genesis are skipped, an error ends a download as if complete, an
      unusual status of an answer panics, failed
      queries leak the sender of a stream, the push gateway gets the same values
      forever, a dump cannot be restarted, the exporter of metrics and queries may
      call the library after it is stopped, a node that cannot be signalled, or a
      report that fails, keeps the service from stopping the nodes, a cut inside a character loses the error output,
      documented entries of the configuration of the service are ignored, an account
      map that cannot be read is an unknown error, filters of
      categories cannot make the log more verbose, and the configuration is printed
      before there is a logger.

    ** Fuel and bounds

    - [read_stream] takes fuel, one unit for each read from the socket buffer; one
      more than the number of bytes that the socket delivers is enough, once the
      handshake is complete ([LowLevelProps]).  Loops over queues ([flush_loop],
      [encrypt_loop], [send_pending_loop], [process_changes]) take the length of
      what they consume; that it is enough is part of their theorems.
      [poll_thread] runs for as long as it is given inputs, as do the loops of the
      Windows service, which is shown to end if the inputs cover the time that it
      allows for its shutdown.
    - Tokens of connections are 64 bits wide and wrap around; the invariant of the
      node is shown until they are used up, which the counter of connections of
      the node bounds.
    - Gauges and counters of the statistics export are unbounded integers.
    - Messages are serialized whatever their size; the limit of two gigabytes of the
      builder of flatbuffers is not modelled.

    ** Not modelled

    What the consensus library computes, which is an argument; the transport of
    the gRPC server (HTTP, TLS, the layers of tower and tonic), and that of the
    HTTP servers of the statistics export and of the collector backend; parsing of
    the command line, which is generated from attributes; the logging libraries;
    and the Haskell sources apart from the types of the exported functions, the
    codes they return, how arguments are read and how streams are filled.
    [bin/genesis_tester.rs] and [bin/network_stress_test.rs] are not built.  The
    behaviour of processes, of the manager of services and of the installer of
    Windows are inputs.  Times that calls of the system take are not modelled
    except where the code reads the clock.
    Connections are served in parallel by the source, one after
    the other in an arbitrary order by the model; the threads share the node
    through locks and atomics only, and the steps of [NodeSteps] interleave
    arbitrarily.  Socket options are not modelled except for their failure. *)

From stdpp Require Import base tactics list gmap strings option numbers.
From Stdlib Require Import ZArith.
From Stdlib Require Strings.Byte.

Open Scope Z_scope.

(** ** Notations and hint databases of the development *)

Declare Scope node_scope.
Delimit Scope node_scope with node.

Create HintDb node discriminated.
Create Rewrite HintDb node.
#[export] Hint Constants Opaque : node.
#[export] Hint Variables Opaque : node.

(** ** Machine integers

    A [w]-bit unsigned integer is a [Z]; [wrap w] is the value the release
    build of the node computes when an operation leaves the range. *)

Definition wrap (w : Z) (z : Z) : Z := z mod 2 ^ w.

Abbreviation u8_wrap := (wrap 8).
Abbreviation u16_wrap := (wrap 16).
Abbreviation u32_wrap := (wrap 32).
Abbreviation u64_wrap := (wrap 64).
(** [usize] on the 64-bit targets the node is built for. *)
Abbreviation usize_wrap := (wrap 64).

(** Two's complement wrap-around for [i64]. *)
Definition i64_wrap (z : Z) : Z := (z + 2 ^ 63) mod 2 ^ 64 - 2 ^ 63.

Definition in_u (w z : Z) : Prop := 0 <= z < 2 ^ w.
Abbreviation in_u16 := (in_u 16).
Abbreviation in_u32 := (in_u 32).
Abbreviation in_u64 := (in_u 64).

(** [u64::saturating_sub]. *)
Definition saturating_sub (a b : Z) : Z := Z.max 0 (a - b).

Lemma wrap_small w z : in_u w z -> wrap w z = z.
Proof. unfold wrap, in_u. intros. by rewrite Z.mod_small. Qed.

Lemma wrap_in_u w z : 0 <= w -> in_u w (wrap w z).
Proof. intros. unfold in_u, wrap. apply Z.mod_pos_bound. lia. Qed.

Lemma i64_wrap_small z : - 2 ^ 63 <= z < 2 ^ 63 -> i64_wrap z = z.
Proof. intros. unfold i64_wrap. rewrite Z.mod_small; lia. Qed.

#[export] Hint Resolve wrap_in_u : node.

(** ** Bytes *)

Abbreviation byte := Byte.byte.

#[export] Instance byte_eq_dec : EqDecision byte := Byte.byte_eq_dec.

#[export] Instance byte_countable : Countable byte.
Proof.
  refine (inj_countable Byte.to_N Byte.of_N _).
  intros b. apply Byte.of_to_N.
Defined.

Definition byte_to_Z (b : byte) : Z := Z.of_N (Byte.to_N b).

(** [x as u8]. *)
Definition byte_of_Z (z : Z) : byte :=
  default Byte.x00 (Byte.of_N (Z.to_N (z mod 256))).

Lemma byte_to_Z_bound b : 0 <= byte_to_Z b < 256.
Proof.
  unfold byte_to_Z. pose proof (Byte.to_N_bounded b). lia.
Qed.

Lemma byte_to_of_Z z : byte_to_Z (byte_of_Z z) = z mod 256.
Proof.
  unfold byte_of_Z, byte_to_Z.
  pose proof (Z.mod_pos_bound z 256 ltac:(lia)).
  destruct (Byte.of_N (Z.to_N (z mod 256))) as [b|] eqn:E; simpl.
  - apply Byte.to_of_N in E. rewrite E, Z2N.id; lia.
  - apply Byte.of_N_None_iff in E. lia.
Qed.

Lemma byte_of_to_Z b : byte_of_Z (byte_to_Z b) = b.
Proof.
  unfold byte_of_Z. rewrite Z.mod_small by apply byte_to_Z_bound.
  unfold byte_to_Z. by rewrite N2Z.id, Byte.of_to_N.
Qed.

(** The bits of a positive number, one per byte, least significant first. *)
Fixpoint pos_bytes (p : positive) : list byte :=
  match p with
  | xH => []
  | xO p' => Byte.x00 :: pos_bytes p'
  | xI p' => Byte.x01 :: pos_bytes p'
  end.

Fixpoint bytes_pos (l : list byte) : positive :=
  match l with
  | [] => xH
  | b :: l' => if bool_decide (b = Byte.x00) then xO (bytes_pos l') else xI (bytes_pos l')
  end.

Lemma bytes_pos_bytes p : bytes_pos (pos_bytes p) = p.
Proof. induction p; simpl; congruence. Qed.

(** Big-endian encoding of [n] bytes ([u32::to_be_bytes] is [n = 4]). *)
Fixpoint be_bytes (n : nat) (z : Z) : list byte :=
  match n with
  | O => []
  | S n' => byte_of_Z (Z.shiftr z (8 * Z.of_nat n')) :: be_bytes n' z
  end.

(** [from_be_bytes]. *)
Fixpoint be_value_acc (acc : Z) (l : list byte) : Z :=
  match l with
  | [] => acc
  | b :: l' => be_value_acc (acc * 256 + byte_to_Z b) l'
  end.

Definition be_value (l : list byte) : Z := be_value_acc 0 l.

Lemma length_be_bytes n z : length (be_bytes n z) = n.
Proof. induction n; simpl; congruence. Qed.

Lemma be_value_acc_bytes n : forall acc z,
  be_value_acc acc (be_bytes n z)
  = acc * 2 ^ (8 * Z.of_nat n) + z mod 2 ^ (8 * Z.of_nat n).
Proof.
  induction n as [|n IH]; intros acc z.
  - simpl. rewrite Z.mod_1_r. lia.
  - cbn [be_bytes be_value_acc].
    rewrite IH, byte_to_of_Z, Z.shiftr_div_pow2 by lia.
    replace (8 * Z.of_nat (S n)) with (8 * Z.of_nat n + 8) by lia.
    rewrite Z.pow_add_r by lia. change (2 ^ 8) with 256.
    set (m := 2 ^ (8 * Z.of_nat n)). assert (0 < m) by (subst m; lia).
    rewrite (Z.rem_mul_r z m 256) by lia. lia.
Qed.

Lemma be_value_bytes n z : be_value (be_bytes n z) = z mod 2 ^ (8 * Z.of_nat n).
Proof. unfold be_value. rewrite be_value_acc_bytes. lia. Qed.

Lemma be_value_acc_bound l : forall acc k,
  0 <= acc < 2 ^ (8 * Z.of_nat k) ->
  0 <= be_value_acc acc l < 2 ^ (8 * Z.of_nat (k + length l)).
Proof.
  induction l as [|b l IH]; intros acc k H; simpl.
  - by rewrite Nat.add_0_r.
  - rewrite Nat.add_succ_r, <- Nat.add_succ_l. apply IH.
    pose proof (byte_to_Z_bound b).
    replace (8 * Z.of_nat (S k)) with (8 * Z.of_nat k + 8) by lia.
    rewrite Z.pow_add_r by lia. lia.
Qed.

Lemma be_value_bound l : 0 <= be_value l < 2 ^ (8 * Z.of_nat (length l)).
Proof. apply (be_value_acc_bound l 0 0). simpl. lia. Qed.

Lemma be_value_acc_split l : forall acc,
  be_value_acc acc l = acc * 2 ^ (8 * Z.of_nat (length l)) + be_value l.
Proof.
  unfold be_value. induction l as [|b l IH]; intros acc; cbn [be_value_acc length]; [lia|].
  rewrite IH, (IH (0 * 256 + _)).
  replace (8 * Z.of_nat (S (length l))) with (8 * Z.of_nat (length l) + 8) by lia.
  rewrite Z.pow_add_r by lia. lia.
Qed.

Lemma be_bytes_value_acc l : forall acc, be_bytes (length l) (be_value_acc acc l) = l.
Proof.
  induction l as [|b l IH]; intros acc; cbn [be_bytes be_value_acc length]; [done|].
  f_equal; [|apply IH]. rewrite be_value_acc_split, Z.shiftr_div_pow2 by lia.
  pose proof (be_value_bound l).
  rewrite Z.div_add_l, Z.div_small, Z.add_0_r by lia.
  rewrite <- (byte_of_to_Z b) at 2. unfold byte_of_Z.
  rewrite Z.add_comm, Z.mod_add, (Z.mod_small (byte_to_Z b)) by (try apply byte_to_Z_bound; lia).
  done.
Qed.

Lemma be_bytes_value l : be_bytes (length l) (be_value l) = l.
Proof. apply be_bytes_value_acc. Qed.

#[export] Hint Rewrite length_be_bytes be_value_bytes : node.

(** ** Outcomes

    A Rust function that returns [anyhow::Result<A>] and may panic has an
    [outcome A].  Errors keep what the callers distinguish: the event loop
    downcasts an error to [io::Error] and treats all others as a breach of
    the protocol; the handlers of the gRPC server return a [tonic::Status],
    which has a code. *)

(** [tonic::Code]. *)
Module Code.
Inductive t :=
| Ok
| Cancelled
| Unknown
| InvalidArgument
| DeadlineExceeded
| NotFound
| AlreadyExists
| PermissionDenied
| ResourceExhausted
| FailedPrecondition
| Aborted
| OutOfRange
| Unimplemented
| Internal
| Unavailable
| DataLoss
| Unauthenticated.

#[export] Instance eq_dec : EqDecision t.
Proof. solve_decision. Defined.
End Code.
Export (hints) Code.

Inductive error :=
| IoError (what : string)
| OtherError (what : string)
| Status (code : Code.t) (what : string).

Inductive outcome (A : Type) :=
| Ok (a : A)
| Err (e : error)
| Panic.
Arguments Ok {A} a.
Arguments Err {A} e.
Arguments Panic {A}.

#[export] Instance error_eq_dec : EqDecision error.
Proof. solve_decision. Defined.

#[export] Instance outcome_ret : MRet outcome := fun A a => Ok a.
#[export] Instance outcome_bind : MBind outcome := fun A B f m =>
  match m with Ok a => f a | Err e => Err e | Panic => Panic end.
#[export] Instance outcome_fmap : FMap outcome := fun A B f m =>
  match m with Ok a => Ok (f a) | Err e => Err e | Panic => Panic end.

(** [anyhow::bail!] and [anyhow::ensure!]. *)
Definition bail {A} (what : string) : outcome A := Err (OtherError what).
Definition ensure (b : bool) (what : string) : outcome unit :=
  if b then Ok tt else bail what.
(** [Err(tonic::Status::new(code, ..))]. *)
Definition fail_with {A} (code : Code.t) (what : string) : outcome A := Err (Status code what).
(** [Option::context] and [Option::ok_or]. *)
Definition context {A} (o : option A) (what : string) : outcome A :=
  match o with Some a => Ok a | None => bail what end.

Definition is_ok {A} (o : outcome A) : bool :=
  match o with Ok _ => true | _ => false end.

Definition ok_or {A} (d : A) (o : outcome A) : A :=
  match o with Ok a => a | _ => d end.

(** A method on [&mut self]: the state survives an error return. *)
Definition M (St A : Type) : Type := St -> outcome A * St.

#[export] Instance M_ret {St} : MRet (M St) := fun A a s => (Ok a, s).
#[export] Instance M_bind {St} : MBind (M St) := fun A B f m s =>
  match m s with
  | (Ok a, s') => f a s'
  | (Err e, s') => (Err e, s')
  | (Panic, s') => (Panic, s')
  end.

Definition lift {St A} (o : outcome A) : M St A := fun s => (o, s).
Definition get {St} : M St St := fun s => (Ok s, s).
Definition modify {St} (f : St -> St) : M St unit := fun s => (Ok tt, f s).

(** [if let Err(e) = m { error!(..) }]: errors are logged, panics are not
    caught. *)
Definition log_error {St A} (m : M St A) : M St unit := fun s =>
  match m s with
  | (Panic, s') => (Panic, s')
  | (_, s') => (Ok tt, s')
  end.

(** [for x in l { f(x)?; }]. *)
Fixpoint for_each {St A} (f : A -> M St unit) (l : list A) : M St unit := fun s =>
  match l with
  | [] => (Ok tt, s)
  | x :: l' =>
      match f x s with
      | (Ok _, s') => for_each f l' s'
      | (Err e, s') => (Err e, s')
      | (Panic, s') => (Panic, s')
      end
  end.

Lemma log_error_state {St A} (m : M St A) s : (log_error m s).2 = (m s).2.
Proof. unfold log_error. by destruct (m s) as [[]]. Qed.

Lemma outcome_bind_Ok {A B} (m : outcome A) (f : A -> outcome B) b :
  m ≫= f = Ok b <-> exists a, m = Ok a /\ f a = Ok b.
Proof. destruct m; naive_solver. Qed.

Lemma ensure_Ok b what u : ensure b what = Ok u <-> b = true.
Proof. destruct u. unfold ensure. by destruct b. Qed.

(** The function of an application. *)
Ltac head_of t := lazymatch t with ?f _ => head_of f | _ => t end.

(** Case analysis on the scrutinee of the first stuck [match] of the goal or
    of a hypothesis, with its equation. *)
Ltac case_goal :=
  match goal with
  | |- context [match ?x with _ => _ end] =>
      lazymatch x with
      | context [match _ with _ => _ end] => fail
      | _ => destruct x eqn:?
      end
  end.

Ltac case_hyp H :=
  match type of H with
  | context [match ?x with _ => _ end] =>
      lazymatch x with
      | context [match _ with _ => _ end] => fail
      | _ => destruct x eqn:?
      end
  end.

(** Turns boolean tests in the context into propositions. *)
Ltac bool_hyps :=
  repeat match goal with
  | H : _ && _ = true |- _ => apply andb_true_iff in H as [? ?]
  | H : _ || _ = false |- _ => apply orb_false_iff in H as [? ?]
  | H : negb _ = true |- _ => apply negb_true_iff in H
  | H : negb _ = false |- _ => apply negb_false_iff in H
  | H : (_ =? _) = true |- _ => apply Z.eqb_eq in H
  | H : (_ =? _) = false |- _ => apply Z.eqb_neq in H
  | H : (_ <? _) = true |- _ => apply Z.ltb_lt in H
  | H : (_ <? _) = false |- _ => apply Z.ltb_ge in H
  | H : (_ <=? _) = true |- _ => apply Z.leb_le in H
  | H : (_ <=? _) = false |- _ => apply Z.leb_gt in H
  | H : bool_decide _ = true |- _ => apply bool_decide_eq_true in H
  | H : bool_decide _ = false |- _ => apply bool_decide_eq_false in H
  end.

(** ** HashMap and HashSet iteration

    A Rust [HashMap] is a [gmap], a [HashSet] a [gset].  Rust leaves the
    iteration order unspecified, so every loop over a map or a set takes it
    from this class; theorems hold for every order. *)

Class HashOrder := {
  iter_map : forall {K V : Type} `{Countable K}, gmap K V -> list (K * V);
  iter_map_perm : forall (K V : Type) `{Countable K} (m : gmap K V),
    iter_map m ≡ₚ map_to_list m;
  iter_set : forall {K : Type} `{Countable K}, gset K -> list K;
  iter_set_perm : forall (K : Type) `{Countable K} (s : gset K),
    iter_set s ≡ₚ elements s;
}.

(** One possible order, used to evaluate the model. *)
#[export] Instance canonical_order : HashOrder | 100 := {|
  iter_map := fun K V _ _ m => map_to_list m;
  iter_map_perm := fun K V _ _ m => Permutation_refl _;
  iter_set := fun K _ _ s => elements s;
  iter_set_perm := fun K _ _ s => Permutation_refl _;
|}.

Section hash_order.
  Context `{HashOrder} {K V : Type} `{Countable K}.

Definition values (m : gmap K V) : list V := (iter_map m).*2.
Definition keys (m : gmap K V) : list K := (iter_map m).*1.

Lemma elem_of_iter_map (m : gmap K V) k v :
    (k, v) ∈ iter_map m <-> m !! k = Some v.
  Proof. rewrite iter_map_perm. apply elem_of_map_to_list. Qed.

Lemma elem_of_values (m : gmap K V) v :
    v ∈ values m <-> exists k, m !! k = Some v.
  Proof.
    unfold values. rewrite list_elem_of_fmap. split.
    - intros ([k v'] & -> & Hin). exists k. by apply elem_of_iter_map.
    - intros [k Hk]. exists (k, v). split; [done|]. by apply elem_of_iter_map.
  Qed.

Lemma NoDup_keys (m : gmap K V) : NoDup (keys m).
  Proof. unfold keys. rewrite iter_map_perm. apply NoDup_fst_map_to_list. Qed.

Lemma length_iter_map (m : gmap K V) : length (iter_map m) = size m.
  Proof. rewrite iter_map_perm. apply length_map_to_list. Qed.

Lemma length_values (m : gmap K V) : length (values m) = size m.
  Proof. unfold values. by rewrite length_fmap, length_iter_map. Qed.

Lemma elem_of_iter_set (s : gset K) k : k ∈ iter_set s <-> k ∈ s.
  Proof. rewrite iter_set_perm. apply elem_of_elements. Qed.

Lemma NoDup_iter_set (s : gset K) : NoDup (iter_set s).
  Proof. rewrite iter_set_perm. apply NoDup_elements. Qed.
End hash_order.

#[export] Hint Resolve NoDup_keys NoDup_iter_set : node.
#[export] Hint Rewrite @length_iter_map @length_values : node.

(** ** Random choices (crate [rand])

    Every use of the random number generator takes the value [seed] that was
    drawn; theorems hold for every value. *)

Class Rng := {
  choose_multiple : forall {A : Type}, Z -> nat -> list A -> list A;
  choose_submseteq : forall A seed n (l : list A), choose_multiple seed n l ⊆+ l;
  choose_length : forall A seed n (l : list A),
    length (choose_multiple seed n l) = Nat.min n (length l);
  shuffle : forall {A : Type}, Z -> list A -> list A;
  shuffle_perm : forall A seed (l : list A), shuffle seed l ≡ₚ l;
  (** [Bernoulli::sample], for the probability with the given index. *)
  coin : Z -> bool;
}.

Lemma submseteq_NoDup {A} (l k : list A) : l ⊆+ k -> NoDup k -> NoDup l.
Proof. intros [r Hr]%submseteq_Permutation Hk. rewrite Hr in Hk. apply list.NoDup_app in Hk. tauto. Qed.

Lemma elem_of_choose `{Rng} {A} seed n (l : list A) x : x ∈ choose_multiple seed n l -> x ∈ l.
Proof. intros Hx. eapply elem_of_submseteq; [done|apply choose_submseteq]. Qed.

#[export] Instance first_choice : Rng | 100 := {|
  choose_multiple A _ n l := take n l;
  choose_submseteq A _ n l := sublist_submseteq _ _ (sublist_take l n);
  choose_length A _ n l := length_take l n;
  shuffle A _ l := l;
  shuffle_perm A _ l := Permutation_refl l;
  coin _ := false;
|}.

(** ** Lists *)

(** [v[a..][..n]] on a slice: out of range is a panic. *)
Definition slice {A} (l : list A) (a n : nat) : outcome (list A) :=
  if decide (a + n <= length l)%nat then Ok (take n (drop a l)) else Panic.

(** [v[a..a+len(x)].copy_from_slice(x)]. *)
Definition splice {A} (l : list A) (a : nat) (x : list A) : list A :=
  take a l ++ x ++ drop (a + length x) l.

Lemma slice_Ok {A} (l : list A) a n :
  (a + n <= length l)%nat -> slice l a n = Ok (take n (drop a l)).
Proof. intros. unfold slice. by rewrite decide_True. Qed.

Lemma length_splice {A} (l : list A) a x :
  (a + length x <= length l)%nat -> length (splice l a x) = length l.
Proof. intros. unfold splice. rewrite !length_app, length_take, length_drop. lia. Qed.

Lemma slice_splice {A} (l : list A) a x :
  (a + length x <= length l)%nat -> take (length x) (drop a (splice l a x)) = x.
Proof.
  intros. unfold splice.
  rewrite drop_app_length' by (rewrite length_take; lia).
  by rewrite take_app_length.
Qed.

Lemma take_splice {A} (l : list A) a x :
  (a <= length l)%nat -> take (a + length x) (splice l a x) = take a l ++ x.
Proof.
  intros. unfold splice. rewrite app_assoc, take_app_length'; [done|].
  rewrite length_app, length_take. lia.
Qed.

Lemma drop_splice {A} (l : list A) a b x :
  (a + length x <= length l)%nat -> (a + length x <= b)%nat ->
  drop b (splice l a x) = drop b l.
Proof.
  intros. unfold splice. rewrite app_assoc, drop_app_ge.
  - rewrite drop_drop, length_app, length_take. f_equal. lia.
  - rewrite length_app, length_take. lia.
Qed.

(** [usize] subtraction: an underflow is a panic (a debug build stops there,
    a release build wraps; the theorems show that neither happens). *)
Definition sub_usize (a b : nat) : outcome nat :=
  if decide (b <= a)%nat then Ok (a - b)%nat else Panic.

Lemma sub_usize_Ok a b : (b <= a)%nat -> sub_usize a b = Ok (a - b)%nat.
Proof. intros. unfold sub_usize. by rewrite decide_True. Qed.
