(* ===== verification/Text.v ===== *)
(** * Text

    Rust strings as sequences of Unicode scalar values, with the operations of
    the standard library that the program uses. *)

From stdpp Require Import base tactics list gmap strings option numbers.
From Stdlib Require Import ZArith.
From S2P Require Import Prelude.

Abbreviation text := (list Z).

(** A string literal of ASCII characters. *)
Definition lit (s : string) : text :=
  Z.of_nat ∘ Ascii.nat_of_ascii <$> String.list_ascii_of_string s.

(** [char::len_utf8]. *)
Definition len_utf8 (c : Z) : nat :=
  if c <? 128 then 1 else if c <? 2048 then 2 else if c <? 65536 then 3 else 4.

(** [String::len]: the number of bytes. *)
Definition text_len (s : text) : nat := sum_list (len_utf8 <$> s).

(** [char::is_whitespace]. *)
Definition is_whitespace (c : Z) : bool :=
  ((9 <=? c) && (c <=? 13)) || (c =? 32) || (c =? 133) || (c =? 160) || (c =? 5760)
  || ((8192 <=? c) && (c <=? 8202)) || (c =? 8232) || (c =? 8233) || (c =? 8239) || (c =? 8287)
  || (c =? 12288).

Fixpoint trim_start (s : text) : text :=
  match s with
  | c :: s' => if is_whitespace c then trim_start s' else s
  | [] => []
  end.
(** [str::trim]. *)
Definition trim (s : text) : text := reverse (trim_start (reverse (trim_start s))).

Definition LF : Z := 10.
Definition CR : Z := 13.

(** A line that ended with a line feed loses a carriage return before it. *)
Definition strip_cr (s : text) : text :=
  match reverse s with
  | c :: s' => if decide (c = CR) then reverse s' else s
  | [] => []
  end.

(** [str::lines]: [acc] is the line being read, reversed. *)
Fixpoint lines_from (acc s : text) : list text :=
  match s with
  | [] => match acc with [] => [] | _ => [reverse acc] end
  | c :: s' =>
      if decide (c = LF) then strip_cr (reverse acc) :: lines_from [] s' else lines_from (c :: acc) s'
  end.
Definition lines (s : text) : list text := lines_from [] s.

(** [str::strip_prefix]. *)
Fixpoint strip_prefix (p s : text) : option text :=
  match p, s with
  | [], _ => Some s
  | x :: p', y :: s' => if decide (x = y) then strip_prefix p' s' else None
  | _ :: _, [] => None
  end.


Lemma strip_prefix_Some p s t : strip_prefix p s = Some t <-> s = p ++ t.
Proof.
  revert s. induction p as [|x p IH]; intros s; simpl; [naive_solver|].
  destruct s as [|y s]; [naive_solver|]. destruct (decide (x = y)) as [->|Hn]; [|naive_solver].
  rewrite IH. naive_solver.
Qed.

(** ** Paths *)

(** [Path::join]: an absolute path replaces what it is joined to. *)
Definition SLASH : Z := 47.
Definition path_join (base path : text) : text :=
  match path with
  | [] => match base with
          | [] => []
          | _ => if decide (list.last base = Some SLASH) then base else base ++ [SLASH]
          end
  | c :: _ =>
      if c =? SLASH then path
      else match base with
           | [] => path
           | _ => (if decide (list.last base = Some SLASH) then base else base ++ [SLASH]) ++ path
           end
  end.
