(* ===== verification/Common.v ===== *)
(** * Peers, addresses and identifiers

    Models [concordium-node/src/common]: the peer type, the local and the
    self-chosen identifiers of peers with their hexadecimal text form, socket
    addresses, and the records [RemotePeer], [P2PPeer] and [PeerStats].
    Timestamps are read by the callers and passed in ([get_current_stamp] is a
    clock read). *)

From stdpp Require Import base tactics list gmap strings option numbers vector.
From Stdlib Require Import ZArith Ascii.
From S2P Require Import Prelude.

(** ** Addresses ([std::net]) *)

Inductive IpAddr :=
| V4 (octets : vec byte 4)
| V6 (octets : vec byte 16).

(** A socket address.  [SocketAddr::new] sets the IPv6 flow label and scope to
    zero; no other value is modelled. *)
Record SocketAddr := mkSocketAddr { ip : IpAddr; port : Z }.

#[export] Instance IpAddr_eq_dec : EqDecision IpAddr.
Proof. solve_decision. Defined.

#[export] Instance IpAddr_countable : Countable IpAddr.
Proof.
  refine (inj_countable'
    (fun a => match a with V4 o => inl o | V6 o => inr o end)
    (fun s => match s with inl o => V4 o | inr o => V6 o end) _).
  by intros [].
Defined.

#[export] Instance SocketAddr_eq_dec : EqDecision SocketAddr.
Proof. solve_decision. Defined.

#[export] Instance SocketAddr_countable : Countable SocketAddr.
Proof.
  refine (inj_countable' (fun a => (ip a, port a))
            (fun p => mkSocketAddr p.1 p.2) _).
  by intros [].
Defined.

(** ** Peer types and identifiers *)

Inductive PeerType := Node | Bootstrapper.

#[export] Instance PeerType_eq_dec : EqDecision PeerType.
Proof. solve_decision. Defined.

(** [P2PNodeId(u64)], [RemotePeerId(usize)] and [mio::Token(usize)]. *)
Abbreviation P2PNodeId := Z.
Abbreviation RemotePeerId := Z.
Abbreviation Token := Z.

(** [RemotePeerId::to_token] and [From<mio::Token> for RemotePeerId]. *)
Definition to_token (id : RemotePeerId) : Token := id.
Definition from_token (t : Token) : RemotePeerId := t.

(** [Display for RemotePeerId] and [Display for P2PNodeId]: [{:016x}]. *)
Definition hex_digit (d : Z) : ascii :=
  let n := Z.to_nat d in
  if (d <? 10) then ascii_of_nat (48 + n) else ascii_of_nat (87 + n).

(** The [n] least significant hexadecimal digits of [z], most significant
    first. *)
Fixpoint hex_digits (n : nat) (z : Z) : list ascii :=
  match n with
  | O => []
  | S n' => hex_digits n' (z / 16) ++ [hex_digit (z mod 16)]
  end.

(** Number of digits of the shortest hexadecimal form of [z > 0], at least
    one. *)
Definition hex_width (z : Z) : nat := S (Z.to_nat (Z.log2 z / 4)).

(** [write!(f, "{:016x}", z)]: zero padded to 16 digits. *)
Definition fmt_016x (z : Z) : list ascii := hex_digits (Nat.max 16 (hex_width z)) z.

(** [char::to_digit(16)]. *)
Definition to_digit_16 (c : ascii) : option Z :=
  let n := Z.of_nat (nat_of_ascii c) in
  if (48 <=? n) && (n <=? 57) then Some (n - 48)
  else if (97 <=? n) && (n <=? 102) then Some (n - 87)
  else if (65 <=? n) && (n <=? 70) then Some (n - 55)
  else None.

(** The digit loop of [u64::from_str_radix], with its overflow check. *)
Fixpoint parse_digits (acc : Z) (s : list ascii) : option Z :=
  match s with
  | [] => Some acc
  | c :: s' =>
      match to_digit_16 c with
      | None => None
      | Some d =>
          let acc' := acc * 16 + d in
          if acc' <? 2 ^ 64 then parse_digits acc' s' else None
      end
  end.

(** [u64::from_str_radix(s, 16)]: an empty string and a lone sign are errors,
    a leading plus sign is skipped. *)
Definition from_str_radix_16 (s : list ascii) : option Z :=
  match s with
  | [] => None
  | c :: s' =>
      if (c =? "+")%char then
        match s' with [] => None | _ => parse_digits 0 s' end
      else parse_digits 0 s
  end.

(** [FromStr for RemotePeerId]. *)
Definition RemotePeerId_from_str (s : list ascii) : outcome RemotePeerId :=
  context (from_str_radix_16 s) "Invalid Remote Peer Id".

(** [FromStr for P2PNodeId]. *)
Definition P2PNodeId_from_str (s : list ascii) : outcome P2PNodeId :=
  context (from_str_radix_16 s) "Invalid Node Id".

(** ** Peers *)

(** A remote node in the network. *)
Record RemotePeer := mkRemotePeer {
  self_id : option P2PNodeId;
  addr : SocketAddr;
  local_id : RemotePeerId;
  external_port : Z;
  peer_type : PeerType;
}.

(** Information about a peer that is transmitted over the network. *)
Record P2PPeer := mkP2PPeer {
  peer_id : P2PNodeId;
  peer_addr : SocketAddr;
  peer_peer_type : PeerType;
}.

#[export] Instance RemotePeer_eq_dec : EqDecision RemotePeer.
Proof. solve_decision. Defined.
#[export] Instance P2PPeer_eq_dec : EqDecision P2PPeer.
Proof. solve_decision. Defined.

(** [RemotePeer::external_addr]. *)
Definition external_addr (p : RemotePeer) : SocketAddr :=
  mkSocketAddr (ip (addr p)) (external_port p).

(** [RemotePeer::peer]. *)
Definition remote_peer_to_peer (p : RemotePeer) : option P2PPeer :=
  (fun id => mkP2PPeer id (external_addr p) (peer_type p)) <$> self_id p.

(** Statistics of a peer. *)
Record PeerStats := mkPeerStats {
  ps_self_id : P2PNodeId;
  ps_addr : SocketAddr;
  ps_external_port : Z;
  ps_local_id : RemotePeerId;
  ps_peer_type : PeerType;
  ps_latency : Z;
  ps_msgs_sent : Z;
  ps_msgs_received : Z;
  ps_bytes_sent : Z;
  ps_bytes_received : Z;
}.

(** [PeerStats::external_address]. *)
Definition external_address (s : PeerStats) : SocketAddr :=
  mkSocketAddr (ip (ps_addr s)) (ps_external_port s).

(** ** Lemmas *)

Lemma to_digit_hex_digit d : 0 <= d < 16 -> to_digit_16 (hex_digit d) = Some d.
Proof.
  intros Hd.
  assert (d ∈ seqZ 0 16) as Hin by (apply elem_of_seqZ; lia).
  revert Hin. clear Hd. change (seqZ 0 16) with [0;1;2;3;4;5;6;7;8;9;10;11;12;13;14;15].
  rewrite !elem_of_cons, elem_of_nil. intros H.
  repeat (destruct H as [->|H]; [reflexivity|]). done.
Qed.

Lemma hex_digit_not_plus d : 0 <= d < 16 -> hex_digit d <> "+"%char.
Proof.
  intros Hd E. pose proof (to_digit_hex_digit d Hd) as H. rewrite E in H. done.
Qed.

Lemma length_hex_digits n : forall z, length (hex_digits n z) = n.
Proof. induction n; intros; simpl; [done|]. rewrite length_app, IHn. simpl. lia. Qed.

Lemma parse_digits_app s1 : forall acc s2,
  parse_digits acc (s1 ++ s2) = parse_digits acc s1 ≫= fun a => parse_digits a s2.
Proof.
  induction s1 as [|c s1 IH]; intros acc s2; simpl; [done|].
  destruct (to_digit_16 c); simpl; [|done]. case_match; [apply IH | done].
Qed.

(** Parsing the digits of [z] in front of which the value [0] was read gives
    [z]. *)
Lemma parse_hex_digits n : forall z,
  0 <= z < 16 ^ Z.of_nat n -> z < 2 ^ 64 -> parse_digits 0 (hex_digits n z) = Some z.
Proof.
  induction n as [|n IH]; intros z Hz H64.
  - simpl in *. f_equal. lia.
  - replace (16 ^ Z.of_nat (S n)) with (16 * 16 ^ Z.of_nat n) in Hz
      by (rewrite Nat2Z.inj_succ, Z.pow_succ_r; lia).
    pose proof (Z.div_mod z 16 ltac:(lia)).
    pose proof (Z.mod_pos_bound z 16 ltac:(lia)).
    cbn [hex_digits]. rewrite parse_digits_app, IH by (split_and?; nia). simpl.
    rewrite to_digit_hex_digit by done.
    replace (z / 16 * 16 + z mod 16) with z by lia.
    by rewrite (proj2 (Z.ltb_lt _ _)).
Qed.

Lemma hex_width_u64 z : in_u64 z -> (hex_width z <= 16)%nat.
Proof.
  unfold in_u, hex_width. intros Hz.
  destruct (decide (z = 0)) as [->|]; [vm_compute; lia|].
  assert (Z.log2 z < 64) by (apply Z.log2_lt_pow2; lia).
  pose proof (Z.log2_nonneg z).
  pose proof (Z.div_lt_upper_bound (Z.log2 z) 4 16 ltac:(lia) ltac:(lia)).
  pose proof (Z.div_pos (Z.log2 z) 4 ltac:(lia) ltac:(lia)). lia.
Qed.

Lemma from_str_radix_fmt z : in_u64 z -> from_str_radix_16 (fmt_016x z) = Some z.
Proof.
  intros Hz. unfold fmt_016x.
  replace (Nat.max 16 (hex_width z)) with 16%nat
    by (pose proof (hex_width_u64 z Hz); lia).
  pose proof (parse_hex_digits 16 z Hz ltac:(unfold in_u in Hz; lia)) as HP.
  destruct (hex_digits 16 z) as [|c s] eqn:E.
  { pose proof (length_hex_digits 16 z) as HL. by rewrite E in HL. }
  unfold from_str_radix_16.
  destruct (Ascii.eqb_spec c "+"%char) as [->|]; [|done].
  simpl in HP. done.
Qed.
