(* ===== verification/IpText.v ===== *)
(** * Addresses as text

    [FromStr] and [Display] of [IpAddr] in the Rust standard library, by which the
    gRPC server reads and shows the addresses of peers; what is shown can be read
    back. *)

From stdpp Require Import base tactics list gmap strings option numbers vector.
From Stdlib Require Import ZArith.
From S2P Require Import Prelude Text Common.

Definition COLON : Z := 58.
Definition DOT : Z := 46.

(** ** Numbers *)

(** [char::to_digit]. *)
Definition to_digit (radix c : Z) : option Z :=
  let d := if (48 <=? c) && (c <=? 57) then Some (c - 48)
           else if (97 <=? c) && (c <=? 122) then Some (c - 87)
           else if (65 <=? c) && (c <=? 90) then Some (c - 55)
           else None in
  match d with Some v => if v <? radix then Some v else None | None => None end.
Definition digit_char (d : Z) : Z := if d <? 10 then 48 + d else 87 + d.

(** The longest sequence of digits. *)
Fixpoint take_digits (radix : Z) (s : text) : list Z * text :=
  match s with
  | [] => ([], [])
  | c :: s' =>
      match to_digit radix c with
      | Some d => let '(ds, rest) := take_digits radix s' in (d :: ds, rest)
      | None => ([], s)
      end
  end.
Definition number_of (radix : Z) (ds : list Z) : Z := foldl (fun acc d => acc * radix + d) 0 ds.

(** [Parser::read_number], for a type with numbers below [bound]. *)
Definition read_number (radix : Z) (max_digits : nat) (allow_zero_prefix : bool) (bound : Z)
    (s : text) : option (Z * text) :=
  let '(ds, rest) := take_digits radix s in
  let has_leading_zero := bool_decide (head ds = Some 0) in
  if bool_decide (ds = []) || bool_decide (max_digits < length ds)%nat then None
  else if negb allow_zero_prefix && has_leading_zero && bool_decide (1 < length ds)%nat then None
  else if bound <=? number_of radix ds then None
  else Some (number_of radix ds, rest).

(** [{}] and [{:x}], with at most [fuel] digits. *)
Fixpoint fmt_number (radix : Z) (fuel : nat) (z : Z) : text :=
  match fuel with
  | O => []
  | S fuel' =>
      if z <? radix then [digit_char z]
      else fmt_number radix fuel' (z / radix) ++ [digit_char (z mod radix)]
  end.

(** ** IPv4 *)

Definition read_char (c : Z) (s : text) : option text :=
  match s with x :: s' => if x =? c then Some s' else None | [] => None end.
Definition read_octet : text -> option (Z * text) := read_number 10 3 false 256.

(** [Parser::read_ipv4_addr]. *)
Definition read_ipv4 (s : text) : option (list Z * text) :=
  '(a, s) ← read_octet s; s ← read_char DOT s;
  '(b, s) ← read_octet s; s ← read_char DOT s;
  '(c, s) ← read_octet s; s ← read_char DOT s;
  '(d, s) ← read_octet s;
  Some ([a; b; c; d], s).

(** The elements with a separator between them. *)
Fixpoint join (sep : text) (l : list text) : text :=
  match l with
  | [] => []
  | [x] => x
  | x :: l' => x ++ sep ++ join sep l'
  end.
Definition fmt_ipv4 (octets : list Z) : text := join [DOT] (fmt_number 10 3 <$> octets).

(** ** IPv6 *)

(** [Parser::read_separator] before all but the first. *)
Definition read_separator {A} (first : bool) (f : text -> option (A * text)) (s : text)
    : option (A * text) :=
  if first then f s else s' ← read_char COLON s; f s'.

(** [read_groups], with [left] groups to fill: the groups that are read, and
    whether they end with an IPv4 address. *)
Fixpoint read_groups (left : nat) (first : bool) (s : text) : list Z * bool * text :=
  match left with
  | O => ([], false, s)
  | S left' =>
      match (if bool_decide (0 < left')%nat then read_separator first read_ipv4 s else None) with
      | Some ([a; b; c; d], s') => ([a * 256 + b; c * 256 + d], true, s')
      | _ =>
          match read_separator first (read_number 16 4 true 65536) s with
          | Some (g, s') =>
              let '(gs, v4, s'') := read_groups left' false s' in (g :: gs, v4, s'')
          | None => ([], false, s)
          end
      end
  end.

(** [Parser::read_ipv6_addr]. *)
Definition read_ipv6 (s : text) : option (list Z * text) :=
  let '(groups, ipv4, s1) := read_groups 8 true s in
  if bool_decide (length groups = 8%nat) then Some (groups, s1)
  else if ipv4 then None
  else
    s2 ← read_char COLON s1 ≫= read_char COLON;
    let '(tail, _, s3) := read_groups (7 - length groups) true s2 in
    Some (groups ++ replicate (8 - length groups - length tail) 0 ++ tail, s3).

(** The longest run of zeros, the first of them: its start and its length. *)
Fixpoint zeros_from (i : nat) (current longest : nat * nat) (segments : list Z) : nat * nat :=
  match segments with
  | [] => longest
  | g :: segments' =>
      let current' :=
        if g =? 0 then ((if bool_decide (current.2 = 0%nat) then i else current.1), S current.2)
        else (0%nat, 0%nat) in
      zeros_from (S i) current'
        (if (g =? 0) && bool_decide (longest.2 < current'.2)%nat then current' else longest) segments'
  end.
Definition longest_zeros : list Z -> nat * nat := zeros_from 0 (0, 0)%nat (0, 0)%nat.

Definition fmt_subslice (segments : list Z) : text := join [COLON] (fmt_number 16 4 <$> segments).

(** [Ipv6Addr::to_ipv4_mapped]. *)
Definition to_ipv4_mapped (segments : list Z) : option (list Z) :=
  match segments with
  | [0; 0; 0; 0; 0; 65535; ab; cd] => Some [ab / 256; ab mod 256; cd / 256; cd mod 256]
  | _ => None
  end.
Definition fmt_ipv6 (segments : list Z) : text :=
  match to_ipv4_mapped segments with
  | Some ipv4 => lit "::ffff:" ++ fmt_ipv4 ipv4
  | None =>
      let '(start, len) := longest_zeros segments in
      if bool_decide (1 < len)%nat
      then fmt_subslice (take start segments) ++ lit "::" ++ fmt_subslice (drop (start + len) segments)
      else fmt_subslice segments
  end.

(** ** Addresses *)

Definition octets_of (l : list Z) : list byte := byte_of_Z <$> l.
Fixpoint segments_of (l : list byte) : list Z :=
  match l with
  | a :: b :: l' => byte_to_Z a * 256 + byte_to_Z b :: segments_of l'
  | _ => []
  end.
Definition segment_octets (segments : list Z) : list byte :=
  segments ≫= fun g => [byte_of_Z (g / 256); byte_of_Z (g mod 256)].

(** [IpAddr::to_string]. *)
Definition ip_to_string (a : IpAddr) : text :=
  match a with
  | V4 o => fmt_ipv4 (byte_to_Z <$> vec_to_list o)
  | V6 o => fmt_ipv6 (segments_of (vec_to_list o))
  end.

Definition to_vec {A} (n : nat) (l : list A) : option (vec A n) :=
  match decide (length l = n) with
  | left E => Some (eq_rect _ (vec A) (list_to_vec l) _ E)
  | right _ => None
  end.

(** [str::parse::<IpAddr>]: all of the text is to be read. *)
Definition ip_from_str (s : text) : option IpAddr :=
  '(a, rest) ← match read_ipv4 s with
               | Some (octets, rest) => a ← to_vec 4 (octets_of octets); Some (V4 a, rest)
               | None =>
                   '(segments, rest) ← read_ipv6 s;
                   a ← to_vec 16 (segment_octets segments); Some (V6 a, rest)
               end;
  match rest with [] => Some a | _ => None end.

(** ** What is shown can be read *)

(** Not the start of a number. *)
Definition no_digit (radix : Z) (s : text) : Prop :=
  match s with c :: _ => to_digit radix c = None | [] => True end.

Lemma to_digit_char radix d :
  1 < radix <= 16 -> 0 <= d < radix -> to_digit radix (digit_char d) = Some d.
Proof.
  intros Hr Hd. unfold to_digit, digit_char. destruct (d <? 10) eqn:E; bool_hyps.
  - rewrite !(proj2 (Z.leb_le _ _)) by lia. cbn [andb].
    rewrite (proj2 (Z.ltb_lt _ _)) by lia. f_equal. lia.
  - rewrite (proj2 (Z.leb_le 48 _)), (proj2 (Z.leb_gt _ 57)) by lia. cbn [andb].
    rewrite !(proj2 (Z.leb_le _ _)) by lia. cbn [andb].
    rewrite (proj2 (Z.ltb_lt _ _)) by lia. f_equal. lia.
Qed.

Lemma take_digits_chars radix ds rest :
  1 < radix <= 16 -> Forall (fun d => 0 <= d < radix) ds -> no_digit radix rest ->
  take_digits radix ((digit_char <$> ds) ++ rest) = (ds, rest).
Proof.
  intros Hr Hds Hrest. induction Hds as [|d ds Hd _ IH]; cbn [fmap list_fmap app take_digits].
  - destruct rest as [|c rest]; [done|]. simpl in Hrest. cbn [take_digits]. by rewrite Hrest.
  - by rewrite to_digit_char, IH.
Qed.

Lemma number_of_app radix ds d : number_of radix (ds ++ [d]) = number_of radix ds * radix + d.
Proof. unfold number_of. by rewrite foldl_app. Qed.

(** The digits of a number. *)
Lemma fmt_number_digits radix fuel z :
  1 < radix <= 16 -> 0 <= z < radix ^ Z.of_nat (S fuel) ->
  exists ds, fmt_number radix (S fuel) z = digit_char <$> ds /\
    Forall (fun d => 0 <= d < radix) ds /\ number_of radix ds = z /\
    (1 <= length ds <= S fuel)%nat /\ (head ds = Some 0 -> length ds = 1%nat).
Proof.
  intros Hr. revert z. induction fuel as [|fuel IH]; intros z Hz.
  - exists [z]. cbn [fmt_number]. rewrite (proj2 (Z.ltb_lt _ _)) by lia.
    split_and!; [done| |unfold number_of; simpl; lia|simpl; lia..|done]. constructor; [lia|done].
  - change (fmt_number radix (S (S fuel)) z) with
      (if z <? radix then [digit_char z]
       else fmt_number radix (S fuel) (z / radix) ++ [digit_char (z mod radix)]).
    destruct (z <? radix) eqn:E; bool_hyps.
    { exists [z]. split_and!; [done| |unfold number_of; simpl; lia|simpl; lia..|done].
      constructor; [lia|done]. }
    destruct (IH (z / radix)) as (ds & -> & Hds & Hn & Hl & Hz0).
    { rewrite (Nat2Z.inj_succ (S fuel)), Z.pow_succ_r in Hz by lia.
      split; [apply Z.div_pos; lia|apply Z.div_lt_upper_bound; lia]. }
    exists (ds ++ [z mod radix]). rewrite fmap_app, number_of_app, length_app. cbn [length].
    pose proof (Z.mod_pos_bound z radix). pose proof (Z.div_mod z radix).
    split_and!; [done| |lia|lia|lia|].
    { apply Forall_app. split; [done|]. constructor; [lia|done]. }
    destruct ds as [|d [|d' ds]]; cbn [head app] in *; [simpl in *; lia| |by intros ?%Hz0].
    intros [= ->]. unfold number_of in Hn. simpl in Hn.
    pose proof (Z.div_str_pos z radix). lia.
Qed.

Lemma read_fmt_number radix fuel zero_prefix bound z rest :
  1 < radix <= 16 -> 0 <= z < radix ^ Z.of_nat (S fuel) -> z < bound -> no_digit radix rest ->
  read_number radix (S fuel) zero_prefix bound (fmt_number radix (S fuel) z ++ rest) = Some (z, rest).
Proof.
  intros Hr Hz Hb Hrest. destruct (fmt_number_digits radix fuel z Hr Hz) as (ds & -> & Hds & Hn & Hl & H0).
  unfold read_number. rewrite take_digits_chars by done. rewrite Hn.
  rewrite (bool_decide_eq_false_2 (ds = [])) by (intros ->; simpl in Hl; lia).
  rewrite (bool_decide_eq_false_2 (_ < _)%nat) by lia. cbn [orb].
  rewrite (proj2 (Z.leb_gt _ _)) by lia.
  destruct (bool_decide (head ds = Some 0)) eqn:E; [|by rewrite andb_false_r].
  apply bool_decide_eq_true in E. rewrite (bool_decide_eq_false_2 (1 < _)%nat) by (rewrite H0 by done; lia).
  by rewrite andb_false_r.
Qed.

Lemma read_octet_fmt z rest :
  0 <= z < 256 -> no_digit 10 rest -> read_octet (fmt_number 10 3 z ++ rest) = Some (z, rest).
Proof. intros. apply read_fmt_number; [lia| |lia|done]. change (10 ^ Z.of_nat 3) with 1000. lia. Qed.
Lemma read_group_fmt z rest :
  0 <= z < 65536 -> no_digit 16 rest ->
  read_number 16 4 true 65536 (fmt_number 16 4 z ++ rest) = Some (z, rest).
Proof. intros. apply read_fmt_number; [lia| |lia|done]. change (16 ^ Z.of_nat 4) with 65536. lia. Qed.

Lemma read_ipv4_fmt a b c d rest :
  Forall (fun z => 0 <= z < 256) [a; b; c; d] -> no_digit 10 rest ->
  read_ipv4 (fmt_ipv4 [a; b; c; d] ++ rest) = Some ([a; b; c; d], rest).
Proof.
  intros Hall Hrest. rewrite !Forall_cons in Hall. destruct Hall as (Ha & Hb & Hc & Hd & _).
  unfold fmt_ipv4. cbn [fmap list_fmap join]. rewrite <- !app_assoc. unfold read_ipv4.
  rewrite read_octet_fmt by done. cbn [mbind option_bind app read_char Z.eqb Pos.eqb DOT].
  rewrite read_octet_fmt by done. cbn [mbind option_bind app read_char Z.eqb Pos.eqb DOT].
  rewrite read_octet_fmt by done. cbn [mbind option_bind app read_char Z.eqb Pos.eqb DOT].
  by rewrite read_octet_fmt by done.
Qed.

(** The end of the text, or a colon. *)
Definition ends (s : text) : Prop := match s with [] => True | c :: _ => c = COLON end.
Lemma ends_no_digit radix s : ends s -> no_digit radix s.
Proof. by destruct s; [|intros ->]. Qed.

(** A group of hexadecimal digits is not taken for the start of an IPv4 address. *)
Lemma take_digits_no_dot ds rest :
  Forall (fun d => 0 <= d < 16) ds -> ends rest ->
  read_char DOT (take_digits 10 ((digit_char <$> ds) ++ rest)).2 = None.
Proof.
  intros Hds Hrest. induction Hds as [|d ds Hd _ IH]; cbn [fmap list_fmap app].
  - destruct rest as [|c rest]; [done|]. simpl in Hrest. by rewrite Hrest.
  - cbn [take_digits]. destruct (to_digit 10 (digit_char d)) eqn:E.
    + by destruct (take_digits 10 _) as [ds' r].
    + cbn [snd read_char]. rewrite (proj2 (Z.eqb_neq _ _)); [done|].
      unfold digit_char, DOT. destruct (d <? 10); lia.
Qed.
Lemma read_ipv4_group g rest :
  0 <= g < 65536 -> ends rest -> read_ipv4 (fmt_number 16 4 g ++ rest) = None.
Proof.
  intros Hg Hrest. destruct (fmt_number_digits 16 3 g) as (ds & -> & Hds & _);
    [lia|by change (16 ^ Z.of_nat 4) with 65536|].
  pose proof (take_digits_no_dot ds rest Hds Hrest) as Hd.
  unfold read_ipv4, read_octet, read_number. destruct (take_digits 10 _) as [ds' r]. cbn [snd] in Hd.
  repeat case_match; try done; simplify_eq/=. by rewrite Hd.
Qed.
Lemma read_ipv4_colon s : ends s -> read_ipv4 s = None.
Proof. by destruct s as [|c s]; [|intros ->]. Qed.
Lemma read_group_colon s : ends s -> read_number 16 4 true 65536 s = None.
Proof. by destruct s as [|c s]; [|intros ->]. Qed.

(** The end of the text, or two colons: no further group. *)
Definition stops (s : text) : Prop :=
  match s with [] => True | c :: s' => c = COLON /\ exists s'', s' = COLON :: s'' end.
Lemma stops_ends s : stops s -> ends s.
Proof. destruct s; [done|]. by intros [-> _]. Qed.

Lemma read_separator_stops {A} (f : text -> option (A * text)) first s :
  (forall s, ends s -> f s = None) -> stops s -> read_separator first f s = None.
Proof.
  intros Hf Hs. unfold read_separator. destruct first; [by apply Hf, stops_ends|].
  destruct s as [|c s]; [done|]. destruct Hs as [-> [s' ->]]. simpl. by rewrite Hf.
Qed.
(** One more group. *)
Lemma read_groups_S left first s :
  read_groups (S left) first s =
    match (if bool_decide (0 < left)%nat then read_separator first read_ipv4 s else None) with
    | Some ([a; b; c; d], s') => ([a * 256 + b; c * 256 + d], true, s')
    | _ =>
        match read_separator first (read_number 16 4 true 65536) s with
        | Some (g, s') =>
            let '(gs, v4, s'') := read_groups left false s' in (g :: gs, v4, s'')
        | None => ([], false, s)
        end
    end.
Proof. done. Qed.
Lemma read_groups_stops left first s : stops s -> read_groups left first s = ([], false, s).
Proof.
  intros Hs. destruct left as [|left]; [done|]. rewrite read_groups_S.
  rewrite !read_separator_stops by (done || apply read_ipv4_colon || apply read_group_colon).
  by destruct (bool_decide _).
Qed.

(** The text of groups, with a colon before each but the first of all. *)
Definition groups_text (first : bool) (gs : list Z) : text :=
  match gs with [] => [] | _ => (if first then [] else [COLON]) ++ fmt_subslice gs end.

Lemma groups_text_cons first g gs :
  groups_text first (g :: gs) =
    (if first then [] else [COLON]) ++ fmt_number 16 4 g ++ groups_text false gs.
Proof.
  unfold groups_text, fmt_subslice. cbn [fmap list_fmap]. f_equal. destruct gs as [|g' gs]; [|done].
  cbn [fmap list_fmap join]. by rewrite app_nil_r.
Qed.
Lemma groups_text_ends gs rest : ends rest -> ends (groups_text false gs ++ rest).
Proof. by destruct gs. Qed.

Lemma read_groups_fmt gs left first rest :
  Forall (fun g => 0 <= g < 65536) gs -> (length gs <= left)%nat -> stops rest ->
  read_groups left first (groups_text first gs ++ rest) = (gs, false, rest).
Proof.
  intros Hgs. revert left first. induction Hgs as [|g gs Hg _ IH]; intros left first Hl Hrest.
  { by apply read_groups_stops. }
  destruct left as [|left]; [simpl in Hl; lia|]. simpl in Hl.
  rewrite groups_text_cons, <- !app_assoc, read_groups_S.
  assert (He : ends (groups_text false gs ++ rest)) by by apply groups_text_ends, stops_ends.
  assert (Hsep : forall A (f : text -> option (A * text)) s,
            read_separator first f ((if first then [] else [COLON]) ++ s) = f s) by by destruct first.
  rewrite !Hsep, read_ipv4_group, read_group_fmt, IH by (done || lia || by apply ends_no_digit).
  by destruct (bool_decide _).
Qed.

(** ** Runs of zeros *)

(** A run of zeros in [l]. *)
Definition zero_run (l : list Z) (r : nat * nat) : Prop :=
  take r.2 (drop r.1 l) = replicate r.2 0.

Lemma zero_run_app l l' r : zero_run l r -> zero_run (l ++ l') r.
Proof.
  unfold zero_run. intros E. destruct (decide (r.1 <= length l)%nat) as [Hl|Hl].
  - rewrite drop_app_le, take_app_le by
      (try done; apply (f_equal length) in E; rewrite length_take, length_replicate in E; lia).
    done.
  - rewrite drop_ge in E by lia. destruct r.2; [done|]. by rewrite take_nil in E.
Qed.

Lemma zeros_from_run l seen current longest :
  zero_run seen longest -> zero_run seen current ->
  (current.2 <> 0%nat -> (current.1 + current.2 = length seen)%nat) ->
  zero_run (seen ++ l) (zeros_from (length seen) current longest l).
Proof.
  revert seen current longest. induction l as [|g l IH]; intros seen current longest Hlong Hcur Hend.
  { by rewrite app_nil_r. }
  cbn [zeros_from]. rewrite cons_middle, app_assoc.
  replace (S (length seen)) with (length (seen ++ [g])) by (rewrite length_app; simpl; lia).
  set (current' := if g =? 0 then _ else _).
  assert (Hc : zero_run (seen ++ [g]) current' /\
               (current'.2 <> 0%nat -> (current'.1 + current'.2 = length (seen ++ [g]))%nat)).
  { subst current'. destruct (g =? 0) eqn:E; [|done]. bool_hyps. subst g.
    rewrite length_app. destruct current as [st len]; cbn [fst snd] in *.
    destruct (decide (len = 0%nat)) as [->|Hn].
    - rewrite bool_decide_eq_true_2 by done. cbn [fst snd]. split; [|simpl; lia].
      unfold zero_run. cbn [fst snd]. rewrite drop_app_le, drop_ge by lia. done.
    - rewrite bool_decide_eq_false_2 by done. cbn [fst snd]. specialize (Hend Hn). split; [|simpl; lia].
      unfold zero_run in *. cbn [fst snd] in *. rewrite drop_app_le by lia.
      rewrite take_app_ge by (rewrite length_drop; lia). rewrite length_drop.
      replace (S len - (length seen - st))%nat with 1%nat by lia.
      rewrite take_ge in Hcur by (rewrite length_drop; lia). rewrite Hcur.
      symmetry. apply (replicate_S_end len 0). }
  destruct Hc as [Hc Hc']. apply IH; [|done|done].
  case_match; [done|]. by apply zero_run_app.
Qed.

Lemma longest_zeros_split segments start len :
  longest_zeros segments = (start, len) -> (0 < len)%nat ->
  segments = take start segments ++ replicate len 0 ++ drop (start + len) segments /\
  (start + len <= length segments)%nat.
Proof.
  intros E Hl. pose proof (zeros_from_run segments [] (0, 0)%nat (0, 0)%nat) as H.
  unfold longest_zeros in E. simpl in H. rewrite E in H. specialize (H eq_refl eq_refl).
  unfold zero_run in H. cbn [fst snd] in H.
  specialize (H ltac:(done)). rewrite <- H. split.
  - by rewrite <- drop_drop, take_drop, take_drop.
  - apply (f_equal length) in H. rewrite length_take, length_drop, length_replicate in H. lia.
Qed.

Lemma to_ipv4_mapped_Some segments ipv4 :
  to_ipv4_mapped segments = Some ipv4 ->
  exists ab cd, segments = [0; 0; 0; 0; 0; 65535; ab; cd] /\
    ipv4 = [ab / 256; ab mod 256; cd / 256; cd mod 256].
Proof. unfold to_ipv4_mapped. repeat case_match; intros [= <-]. by do 2 eexists. Qed.

Lemma read_mapped ab cd :
  0 <= ab < 65536 -> 0 <= cd < 65536 ->
  read_ipv6 (lit "::ffff:" ++ fmt_ipv4 [ab / 256; ab mod 256; cd / 256; cd mod 256]) =
    Some ([0; 0; 0; 0; 0; 65535; ab; cd], []).
Proof.
  intros Ha Hc. set (v4 := [ab / 256; ab mod 256; cd / 256; cd mod 256]).
  assert (Hv : Forall (fun z => 0 <= z < 256) v4).
  { repeat constructor; try apply Z.mod_pos_bound; try apply Z.div_pos; try apply Z.div_lt_upper_bound; lia. }
  unfold read_ipv6. rewrite (read_groups_stops 8 true) by (split; [done|]; by eexists).
  rewrite bool_decide_eq_false_2 by done. cbn [length].
  change (lit "::ffff:" ++ fmt_ipv4 v4) with (COLON :: COLON :: fmt_number 16 4 65535 ++ COLON :: fmt_ipv4 v4).
  cbn [read_char mbind option_bind Z.eqb Pos.eqb COLON Nat.sub].
  rewrite <- (app_nil_r (fmt_ipv4 v4)).
  assert (E : read_groups 7 true (fmt_number 16 4 65535 ++ COLON :: fmt_ipv4 v4 ++ [])
              = ([65535; ab; cd], true, [])); [|by rewrite E].
  rewrite read_groups_S. unfold read_separator.
  rewrite read_ipv4_group, read_group_fmt by (done || lia).
  rewrite read_groups_S. unfold read_separator.
  cbn [read_char Z.eqb Pos.eqb COLON mbind option_bind]. unfold v4.
  rewrite read_ipv4_fmt by done. rewrite !bool_decide_eq_true_2 by lia.
  by rewrite !(Z.mul_comm _ 256), <- !Z.div_mod by lia.
Qed.

Lemma read_ipv6_fmt segments :
  length segments = 8%nat -> Forall (fun g => 0 <= g < 65536) segments ->
  read_ipv6 (fmt_ipv6 segments) = Some (segments, []).
Proof.
  intros Hl Hall. unfold fmt_ipv6.
  destruct (to_ipv4_mapped segments) as [v4|] eqn:Em.
  { apply to_ipv4_mapped_Some in Em as (ab & cd & -> & ->). rewrite !Forall_cons in Hall.
    apply read_mapped; apply Hall. }
  destruct (longest_zeros segments) as [start len] eqn:Ez. case_bool_decide as Hlen.
  - destruct (longest_zeros_split _ _ _ Ez) as [Hs Hb]; [lia|].
    assert (Hh : Forall (fun g => 0 <= g < 65536) (take start segments)) by by apply Forall_take.
    assert (Ht : Forall (fun g => 0 <= g < 65536) (drop (start + len) segments)) by by apply Forall_drop.
    set (h := take start segments) in *. set (t := drop (start + len) segments) in *.
    assert (Hlh : length h = start) by (unfold h; rewrite length_take; lia).
    assert (Hlt : length t = (8 - start - len)%nat) by (unfold t; rewrite length_drop; lia).
    assert (Eh : forall gs, fmt_subslice gs = groups_text true gs) by by intros [].
    unfold read_ipv6. rewrite !Eh.
    rewrite (read_groups_fmt h 8 true) by (done || lia || (split; [done|]; eexists; done)).
    rewrite (bool_decide_eq_false_2 (length h = _)) by lia.
    change (lit "::" ++ groups_text true t) with (COLON :: COLON :: groups_text true t).
    cbn [read_char mbind option_bind Z.eqb Pos.eqb COLON].
    rewrite <- (app_nil_r (groups_text true t)).
    rewrite (read_groups_fmt t _ true) by (done || lia).
    replace (8 - length h - length t)%nat with len by lia. by rewrite <- Hs.
  - unfold read_ipv6. rewrite <- (app_nil_r (fmt_subslice segments)).
    replace (fmt_subslice segments) with (groups_text true segments) by by destruct segments.
    rewrite (read_groups_fmt segments 8 true) by (done || lia).
    by rewrite bool_decide_eq_true_2.
Qed.

Lemma read_ipv4_groups gs rest :
  Forall (fun g => 0 <= g < 65536) gs -> ends rest -> read_ipv4 (fmt_subslice gs ++ rest) = None.
Proof.
  intros Hgs Hr. replace (fmt_subslice gs) with (groups_text true gs) by by destruct gs.
  destruct Hgs as [|g gs Hg _]; [by apply read_ipv4_colon|].
  rewrite groups_text_cons, <- app_assoc. cbn [app]. rewrite <- app_assoc.
  by apply read_ipv4_group, groups_text_ends.
Qed.
Lemma read_ipv4_not_ipv6 segments :
  Forall (fun g => 0 <= g < 65536) segments -> read_ipv4 (fmt_ipv6 segments) = None.
Proof.
  intros Hall. unfold fmt_ipv6. destruct (to_ipv4_mapped segments); [done|].
  destruct (longest_zeros segments) as [start len]. case_bool_decide.
  - by apply read_ipv4_groups; [apply Forall_take|].
  - rewrite <- (app_nil_r (fmt_subslice segments)). by apply read_ipv4_groups.
Qed.

Lemma to_vec_list {A n} (v : vec A n) : to_vec n (vec_to_list v) = Some v.
Proof.
  unfold to_vec. destruct (decide _) as [E|E]; [|by rewrite length_vec_to_list in E].
  f_equal. apply vec_to_list_inj2. transitivity (vec_to_list (list_to_vec (vec_to_list v))).
  - by destruct E.
  - apply vec_to_list_to_vec.
Qed.

Lemma octets_of_bytes (l : list byte) : octets_of (byte_to_Z <$> l) = l.
Proof.
  unfold octets_of. rewrite <- list_fmap_compose. rewrite <- (list_fmap_id l) at 2.
  apply list_fmap_ext. intros i b _. apply byte_of_to_Z.
Qed.

Lemma segments_of_ok (l : list byte) n :
  length l = (2 * n)%nat ->
  length (segments_of l) = n /\ Forall (fun g => 0 <= g < 65536) (segments_of l) /\
  segment_octets (segments_of l) = l.
Proof.
  revert l. induction n as [|n IH]; intros l Hl.
  { by destruct l. }
  destruct l as [|a [|b l]]; simpl in Hl; [lia..|]. destruct (IH l) as (H1 & H2 & H3); [lia|].
  pose proof (byte_to_Z_bound a). pose proof (byte_to_Z_bound b). cbn [segments_of]. split_and!.
  - simpl. lia.
  - constructor; [lia|done].
  - unfold segment_octets in *. rewrite bind_cons, H3. cbn [app].
    rewrite Z.div_add_l, Z.div_small, Z.add_0_r by lia.
    rewrite Z.add_comm, Z.mod_add, Z.mod_small by lia. by rewrite !byte_of_to_Z.
Qed.

(** Any address that is shown is read as itself. *)
Lemma ip_from_to_string a : ip_from_str (ip_to_string a) = Some a.
Proof.
  unfold ip_from_str, ip_to_string. destruct a as [o|o].
  - assert (Hr : Forall (fun z => 0 <= z < 256) (byte_to_Z <$> vec_to_list o)).
    { apply Forall_fmap, Forall_true. apply byte_to_Z_bound. }
    pose proof (octets_of_bytes (vec_to_list o)) as Ho.
    pose proof (length_vec_to_list o) as Hl. rewrite <- (length_fmap byte_to_Z) in Hl.
    destruct (byte_to_Z <$> vec_to_list o) as [|a [|b [|c [|d []]]]]; try done.
    rewrite <- (app_nil_r (fmt_ipv4 _)), read_ipv4_fmt by done. rewrite Ho, to_vec_list. done.
  - destruct (segments_of_ok (vec_to_list o) 8) as (Hl & Hr & Ho); [apply length_vec_to_list|].
    rewrite read_ipv4_not_ipv6, read_ipv6_fmt by done. cbn [mbind option_bind]. by rewrite Ho, to_vec_list.
Qed.
