(* ===== verification/Helpers.v ===== *)
(** * Consensus messages and response codes

    Models [concordium-node/src/consensus_ffi/helpers.rs] and [messaging.rs]:
    the packet types with their tags, the response codes of the consensus
    layer with their classification, and the messages that travel between the
    network layer and consensus. *)

From stdpp Require Import base tactics list gmap strings option numbers.
From Stdlib Require Import ZArith.
From S2P Require Import Prelude Common.

(** ** Packet types *)

Inductive PacketType :=
| Block
| Transaction
| FinalizationRecord
| FinalizationMessage
| CatchUpStatus.

#[export] Instance PacketType_eq_dec : EqDecision PacketType.
Proof. solve_decision. Defined.

(** [p as u8]: the discriminant of the variant. *)
Definition packet_type_tag (p : PacketType) : byte :=
  match p with
  | Block => Byte.x00
  | Transaction => Byte.x01
  | FinalizationRecord => Byte.x02
  | FinalizationMessage => Byte.x03
  | CatchUpStatus => Byte.x04
  end.

Definition PACKET_TYPE_FROM_INT : list PacketType :=
  [Block; Transaction; FinalizationRecord; FinalizationMessage; CatchUpStatus].

(** [TryFrom<u8> for PacketType]. *)
Definition PacketType_try_from (value : byte) : outcome PacketType :=
  context (PACKET_TYPE_FROM_INT !! Z.to_nat (byte_to_Z value))
    "Unsupported packet type".

(** [PacketType::is_rebroadcastable]. *)
Definition packet_is_rebroadcastable (p : PacketType) : bool :=
  match p with
  | Block => true
  | Transaction => true
  | FinalizationRecord => true
  | FinalizationMessage => true
  | CatchUpStatus => false
  end.

(** [PacketType::label] and [Display for PacketType] print the same names. *)
Definition packet_label (p : PacketType) : string :=
  match p with
  | Block => "block"
  | Transaction => "transaction"
  | FinalizationRecord => "finalization record"
  | FinalizationMessage => "finalization message"
  | CatchUpStatus => "catch-up status message"
  end.

(** ** Responses of the consensus layer *)

Inductive ConsensusFfiResponse :=
| BakerNotFound
| Success
| DeserializationError
| InvalidResult
| PendingBlock
| PendingFinalization
| Asynchronous
| DuplicateEntry
| Stale
| IncorrectFinalizationSession
| Unverifiable
| ContinueCatchUp
| BlockTooEarly
| MissingImportFile
| ConsensusShutDown
| ExpiryTooLate
| VerificationFailed
| NonexistingSenderAccount
| DuplicateNonce
| NonceTooLarge
| TooLowEnergy
| InvalidGenesisIndex
| DuplicateAccountRegistrationID
| CredentialDeploymentInvalidSignatures
| CredentialDeploymentInvalidIP
| CredentialDeploymentInvalidAR
| CredentialDeploymentExpired
| ChainUpdateInvalidEffectiveTime
| ChainUpdateSequenceNumberTooOld
| ChainUpdateInvalidSignatures
| MaxBlockEnergyExceeded
| InsufficientFunds
| DoubleSign.

#[export] Instance ConsensusFfiResponse_eq_dec : EqDecision ConsensusFfiResponse.
Proof. solve_decision. Defined.

(** The discriminant of a response: [BakerNotFound = -1], then counting up. *)
Definition response_code (r : ConsensusFfiResponse) : Z :=
  match r with
  | BakerNotFound => -1
  | Success => 0
  | DeserializationError => 1
  | InvalidResult => 2
  | PendingBlock => 3
  | PendingFinalization => 4
  | Asynchronous => 5
  | DuplicateEntry => 6
  | Stale => 7
  | IncorrectFinalizationSession => 8
  | Unverifiable => 9
  | ContinueCatchUp => 10
  | BlockTooEarly => 11
  | MissingImportFile => 12
  | ConsensusShutDown => 13
  | ExpiryTooLate => 14
  | VerificationFailed => 15
  | NonexistingSenderAccount => 16
  | DuplicateNonce => 17
  | NonceTooLarge => 18
  | TooLowEnergy => 19
  | InvalidGenesisIndex => 20
  | DuplicateAccountRegistrationID => 21
  | CredentialDeploymentInvalidSignatures => 22
  | CredentialDeploymentInvalidIP => 23
  | CredentialDeploymentInvalidAR => 24
  | CredentialDeploymentExpired => 25
  | ChainUpdateInvalidEffectiveTime => 26
  | ChainUpdateSequenceNumberTooOld => 27
  | ChainUpdateInvalidSignatures => 28
  | MaxBlockEnergyExceeded => 29
  | InsufficientFunds => 30
  | DoubleSign => 31
  end.

(** [TryFrom<i64> for ConsensusFfiResponse]. *)
Definition ConsensusFfiResponse_try_from (value : Z) : outcome ConsensusFfiResponse :=
  if value =? -1 then Ok BakerNotFound
  else if value =? 0 then Ok Success
  else if value =? 1 then Ok DeserializationError
  else if value =? 2 then Ok InvalidResult
  else if value =? 3 then Ok PendingBlock
  else if value =? 4 then Ok PendingFinalization
  else if value =? 5 then Ok Asynchronous
  else if value =? 6 then Ok DuplicateEntry
  else if value =? 7 then Ok Stale
  else if value =? 8 then Ok IncorrectFinalizationSession
  else if value =? 9 then Ok Unverifiable
  else if value =? 10 then Ok ContinueCatchUp
  else if value =? 11 then Ok BlockTooEarly
  else if value =? 12 then Ok MissingImportFile
  else if value =? 13 then Ok ConsensusShutDown
  else if value =? 14 then Ok ExpiryTooLate
  else if value =? 15 then Ok VerificationFailed
  else if value =? 16 then Ok NonexistingSenderAccount
  else if value =? 17 then Ok DuplicateNonce
  else if value =? 18 then Ok NonceTooLarge
  else if value =? 19 then Ok TooLowEnergy
  else if value =? 20 then Ok InvalidGenesisIndex
  else if value =? 21 then Ok DuplicateAccountRegistrationID
  else if value =? 22 then Ok CredentialDeploymentInvalidSignatures
  else if value =? 23 then Ok CredentialDeploymentInvalidIP
  else if value =? 24 then Ok CredentialDeploymentInvalidAR
  else if value =? 25 then Ok CredentialDeploymentExpired
  else if value =? 26 then Ok ChainUpdateInvalidEffectiveTime
  else if value =? 27 then Ok ChainUpdateSequenceNumberTooOld
  else if value =? 28 then Ok ChainUpdateInvalidSignatures
  else if value =? 29 then Ok MaxBlockEnergyExceeded
  else if value =? 30 then Ok InsufficientFunds
  else if value =? 31 then Ok DoubleSign
  else bail "Unsupported FFI return code".

(** [ConsensusFfiResponse::is_successful]. *)
Definition is_successful (r : ConsensusFfiResponse) : bool :=
  match r with
  | Success | PendingBlock | PendingFinalization | Asynchronous => true
  | _ => false
  end.

(** [ConsensusFfiResponse::is_pending]. *)
Definition is_pending (r : ConsensusFfiResponse) : bool :=
  match r with
  | PendingBlock | PendingFinalization | InvalidGenesisIndex | Unverifiable => true
  | _ => false
  end.

(** [ConsensusFfiResponse::is_acceptable]. *)
Definition is_acceptable (r : ConsensusFfiResponse) : bool :=
  negb match r with
  | BakerNotFound
  | DeserializationError
  | InvalidResult
  | Unverifiable
  | BlockTooEarly
  | ExpiryTooLate
  | VerificationFailed
  | NonexistingSenderAccount
  | DuplicateNonce
  | NonceTooLarge
  | TooLowEnergy
  | ConsensusShutDown
  | InvalidGenesisIndex
  | InsufficientFunds => true
  | _ => false
  end.

(** [ConsensusFfiResponse::is_rebroadcastable]. *)
Definition response_is_rebroadcastable (r : ConsensusFfiResponse)
    (packet_type : PacketType) : bool :=
  match r with
  | DeserializationError
  | InvalidResult
  | Unverifiable
  | DuplicateEntry
  | Stale
  | IncorrectFinalizationSession
  | BlockTooEarly
  | ExpiryTooLate
  | VerificationFailed
  | NonexistingSenderAccount
  | DuplicateNonce
  | NonceTooLarge
  | TooLowEnergy
  | ConsensusShutDown
  | InvalidGenesisIndex
  | DuplicateAccountRegistrationID
  | CredentialDeploymentInvalidSignatures
  | CredentialDeploymentInvalidIP
  | CredentialDeploymentInvalidAR
  | CredentialDeploymentExpired
  | ChainUpdateInvalidEffectiveTime
  | ChainUpdateSequenceNumberTooOld
  | ChainUpdateInvalidSignatures
  | MaxBlockEnergyExceeded
  | InsufficientFunds
  | BakerNotFound
  | MissingImportFile
  | ContinueCatchUp
  | DoubleSign => false
  | PendingBlock => bool_decide (packet_type <> Block)
  | Success | PendingFinalization | Asynchronous => true
  end.

(** [ConsensusFfiResponse::label]. *)
Definition response_label (r : ConsensusFfiResponse) : string :=
  if is_successful r || bool_decide (r = ContinueCatchUp) then "valid"
  else if bool_decide (r = DuplicateEntry) then "duplicate"
  else "invalid".

(** ** Committee responses *)

Inductive BakingCommitteeResponse :=
| ActiveInCommittee
| NotInCommittee
| AddedButNotActiveInCommittee
| AddedButWrongKeys.

#[export] Instance BakingCommitteeResponse_eq_dec : EqDecision BakingCommitteeResponse.
Proof. solve_decision. Defined.

(** [TryFrom<u8> for ConsensusIsInBakingCommitteeResponse]. *)
Definition BakingCommitteeResponse_try_from (value : Z)
    : outcome BakingCommitteeResponse :=
  if value =? 0 then Ok ActiveInCommittee
  else if value =? 1 then Ok NotInCommittee
  else if value =? 2 then Ok AddedButNotActiveInCommittee
  else if value =? 3 then Ok AddedButWrongKeys
  else bail "Unsupported FFI return code for committee status".

Inductive FinalizationCommitteeResponse :=
| FinNotInCommittee
| FinAddedButNotActiveInCommittee
| FinActiveInCommittee.

(** [TryFrom<u8> for ConsensusIsInFinalizationCommitteeResponse]. *)
Definition FinalizationCommitteeResponse_try_from (value : Z)
    : outcome FinalizationCommitteeResponse :=
  if value =? 0 then Ok FinNotInCommittee
  else if value =? 1 then Ok FinAddedButNotActiveInCommittee
  else if value =? 2 then Ok FinActiveInCommittee
  else bail "Unsupported FFI return code for committee status".

(** ** Responses to queries *)

Inductive ConsensusQueryResponse :=
| QInvalidArgument
| QInternalError
| QOk
| QNotFound
| QUnavailable
| QFutureEpoch.

(** [TryFrom<i64> for ConsensusQueryResponse], with the conversion of its error to
    a [tonic::Status]. *)
Definition ConsensusQueryResponse_try_from (value : Z)
    : outcome ConsensusQueryResponse :=
  if value =? -2 then Ok QInvalidArgument
  else if value =? -1 then Ok QInternalError
  else if value =? 0 then Ok QOk
  else if value =? 1 then Ok QNotFound
  else if value =? 2 then Ok QUnavailable
  else if value =? 3 then Ok QFutureEpoch
  else fail_with Code.Internal "Unexpected response from internal query".

(** [ConsensusQueryResponse::ensure_ok]; [msg] names what has been queried. *)
Definition ensure_ok (r : ConsensusQueryResponse) (msg : string) : outcome unit :=
  match r with
  | QInvalidArgument => fail_with Code.InvalidArgument "Invalid argument."
  | QInternalError => fail_with Code.Internal ("Internal error: " +:+ msg)
  | QOk => Ok tt
  | QNotFound => fail_with Code.NotFound (msg +:+ " not found.")
  | QUnavailable =>
      fail_with Code.Unavailable "The service is not available at the current protocol version."
  | QFutureEpoch => fail_with Code.Unavailable "Future epoch."
  end.

(** ** Messages between the network layer and consensus *)

Inductive PeerStatus := CatchingUp | Pending | UpToDate.

#[export] Instance PeerStatus_eq_dec : EqDecision PeerStatus.
Proof. solve_decision. Defined.

Inductive DistributionMode := Direct | Broadcast.

#[export] Instance DistributionMode_eq_dec : EqDecision DistributionMode.
Proof. solve_decision. Defined.

Inductive MessageType :=
| Inbound (source : RemotePeerId) (mode : DistributionMode)
| Outbound (target : option RemotePeerId).

#[export] Instance MessageType_eq_dec : EqDecision MessageType.
Proof. solve_decision. Defined.

Record ConsensusMessage := mkConsensusMessage {
  direction : MessageType;
  variant : PacketType;
  msg_payload : list byte;
  msg_dont_relay_to : list RemotePeerId;
  omit_status : option PeerStatus;
}.

#[export] Instance ConsensusMessage_eq_dec : EqDecision ConsensusMessage.
Proof. solve_decision. Defined.

(** [ConsensusMessage::distribution_mode]. *)
Definition distribution_mode (m : ConsensusMessage) : DistributionMode :=
  match direction m with
  | Inbound _ mode => mode
  | Outbound (Some _) => Direct
  | Outbound None => Broadcast
  end.

(** [ConsensusMessage::target_peer] panics on an inbound message. *)
Definition target_peer (m : ConsensusMessage) : outcome (option RemotePeerId) :=
  match direction m with Outbound target => Ok target | Inbound _ _ => Panic end.

(** [ConsensusMessage::source_peer] panics on an outbound message. *)
Definition source_peer (m : ConsensusMessage) : outcome RemotePeerId :=
  match direction m with Inbound source _ => Ok source | Outbound _ => Panic end.

(** [QueueMsg]: a message relayed through a channel or the stop signal. *)
Inductive QueueMsg (T : Type) :=
| Relay (m : T)
| Stop.
Arguments Relay {T} m.
Arguments Stop {T}.

(** ** Lemmas *)

Lemma PacketType_try_from_tag p : PacketType_try_from (packet_type_tag p) = Ok p.
Proof. by destruct p. Qed.

Lemma PacketType_try_from_Ok b p : PacketType_try_from b = Ok p -> b = packet_type_tag p.
Proof.
  destruct b; unfold PacketType_try_from; simpl; intros [= <-]; reflexivity.
Qed.

Lemma response_try_from_code r : ConsensusFfiResponse_try_from (response_code r) = Ok r.
Proof. by destruct r. Qed.

Lemma response_code_range r : -1 <= response_code r <= 31.
Proof. destruct r; simpl; lia. Qed.

Lemma response_try_from_Ok value r :
  ConsensusFfiResponse_try_from value = Ok r -> value = response_code r.
Proof.
  unfold ConsensusFfiResponse_try_from. intros H.
  repeat (case_hyp H; bool_hyps; [injection H as <-; done|]). done.
Qed.

Lemma rebroadcastable_successful r p :
  response_is_rebroadcastable r p = true -> is_successful r = true.
Proof. by destruct r. Qed.

Lemma successful_acceptable r : is_successful r = true -> is_acceptable r = true.
Proof. by destruct r. Qed.
