(* ===== verification/LowLevel.v ===== *)
(** * The low level of a connection: framing, noise session and socket

    Models [concordium-node/src/connection/low_level.rs]: the socket buffer,
    the XX handshake, the reader that reassembles length-prefixed messages
    from arbitrary socket reads and decrypts them chunk by chunk in place, and
    the writer that encrypts, frames and flushes the output queue.

    The noise session is code outside the repository: it is the class [Noise],
    its documented behaviour the classes [NoiseLaws] and [NoiseTransport].
    The socket is a script of the answers the operating system gives. *)

From stdpp Require Import base tactics list gmap strings option numbers.
From Stdlib Require Import ZArith.
From S2P Require Import Prelude.

(** ** The noise session (crate [noiseexplorer_xx])

    [send_message] and [recv_message] work in place on a mutable slice; they
    return whether they succeeded, the slice and the session afterwards. *)

Class Noise := {
  Session : Type;
  Keypair : Type;
  DHLEN : nat;
  MAC_LENGTH : nat;
  init_session : bool -> list byte -> Keypair -> Session;
  is_initiator : Session -> bool;
  get_message_count : Session -> nat;
  send_message : Session -> list byte -> bool * list byte * Session;
  recv_message : Session -> list byte -> bool * list byte * Session;
}.

(** What the code relies on: a slice keeps its length, the role of a session
    never changes, and every message sent or received counts. *)
Class NoiseLaws `{Noise} := {
  init_is_initiator i p k : is_initiator (init_session i p k) = i;
  init_message_count i p k : get_message_count (init_session i p k) = 0%nat;
  send_length s b ok b' s' :
    send_message s b = (ok, b', s') -> length b' = length b;
  recv_length s b ok b' s' :
    recv_message s b = (ok, b', s') -> length b' = length b;
  send_role s b ok b' s' :
    send_message s b = (ok, b', s') -> is_initiator s' = is_initiator s;
  recv_role s b ok b' s' :
    recv_message s b = (ok, b', s') -> is_initiator s' = is_initiator s;
  send_count s b b' s' :
    send_message s b = (true, b', s') ->
    get_message_count s' = S (get_message_count s);
  recv_count s b b' s' :
    recv_message s b = (true, b', s') ->
    get_message_count s' = S (get_message_count s);
  (** an accepted message carries an authentication tag *)
  recv_min_length s b b' s' :
    recv_message s b = (true, b', s') -> (MAC_LENGTH <= length b)%nat;
  mac_length : MAC_LENGTH = 16%nat;
}.

(** Transport mode: [in_sync k s r] holds of a sender and its peer's receiver
    when the next [k] messages [s] encrypts are the next ones [r] decrypts (a
    session serves a bounded number of messages).  A message has at most 65535
    bytes, the last [MAC_LENGTH] of which are room for the tag. *)
Class NoiseTransport `{Noise} := {
  in_sync : nat -> Session -> Session -> Prop;
  transport_roundtrip k s r plain room :
    in_sync (S k) s r -> length room = MAC_LENGTH ->
    Z.of_nat (length (plain ++ room)) <= 65535 ->
    exists cipher s' room' r',
      send_message s (plain ++ room) = (true, cipher, s') /\
      recv_message r cipher = (true, plain ++ room', r') /\
      in_sync k s' r';
}.

(** ** [VecDeque::as_slices]

    The two halves of the ring buffer; where it is split depends on the
    history of the queue. *)
Class VecDequeLayout := { deque_split : list byte -> nat }.
#[export] Instance contiguous_layout : VecDequeLayout | 100 :=
  {| deque_split := fun q => length q |}.

Definition as_slices `{VecDequeLayout} (q : list byte) : list byte * list byte :=
  (take (deque_split q) q, drop (deque_split q) q).

(** ** Constants *)

Definition PAYLOAD_SIZE : nat := 4.
Definition PROLOGUE : list byte := [Byte.x43; Byte.x50; Byte.x32; Byte.x50].
Definition NOISE_MAX_MESSAGE_LEN : nat := Z.to_nat (64 * 1024 - 1).
Definition NOISE_AUTH_TAG_LEN : nat := 16.
Definition NOISE_MAX_PAYLOAD_LEN : nat := NOISE_MAX_MESSAGE_LEN - NOISE_AUTH_TAG_LEN.
Definition HANDSHAKE_SIZE_LIMIT : Z := 1024.
(** The batch size of [flush_socket_once] during the handshake. *)
Definition HANDSHAKE_WRITE_SIZE : nat := Z.to_nat 4096.
(** [configuration::PROTOCOL_MAX_MESSAGE_SIZE]: 20 MiB. *)
Definition PROTOCOL_MAX_MESSAGE_SIZE : Z := 20971520.
(** b6461bd246843f70ac1328401405b2b4e725994d7d144a75bff1a04a247d64b7 *)
Definition PSK : list byte :=
  byte_of_Z ∘ Z.of_nat ∘ Ascii.nat_of_ascii <$>
    String.list_ascii_of_string
      "b6461bd246843f70ac1328401405b2b4e725994d7d144a75bff1a04a247d64b7".

(** ** The socket *)

Inductive RxEvent :=
| RxData (bytes : list byte)
| RxWouldBlock
| RxError.

Inductive TxEvent :=
| TxAccept (n : nat)
| TxWouldBlock
| TxError.

(** What the operating system answers to the next reads and writes, and what
    was written so far.  [setopt_ok] is the answer to [set_nodelay]. *)
Record Socket := mkSocket {
  rx : list RxEvent;
  tx_script : list TxEvent;
  tx : list byte;
  nodelay : bool;
  setopt_ok : bool;
  linger : option Z;
}.

Inductive IoResult (A : Type) := IoOk (a : A) | IoWouldBlock | IoErr.
Arguments IoOk {A} a.
Arguments IoWouldBlock {A}.
Arguments IoErr {A}.

(** [socket.read(&mut buf[..len])]. *)
Definition sock_read (len : nat) (s : Socket) : IoResult (list byte) * Socket :=
  let with_rx r := mkSocket r (tx_script s) (tx s) (nodelay s) (setopt_ok s) (linger s) in
  match rx s with
  | [] => (IoWouldBlock, s)
  | RxWouldBlock :: rest => (IoWouldBlock, with_rx rest)
  | RxError :: rest => (IoErr, with_rx rest)
  | RxData l :: rest =>
      if decide (length l <= len)%nat then (IoOk l, with_rx rest)
      else (IoOk (take len l), with_rx (RxData (drop len l) :: rest))
  end.

(** [socket.write(data)]. *)
Definition sock_write (data : list byte) (s : Socket) : IoResult nat * Socket :=
  let with_tx sc w := mkSocket (rx s) sc w (nodelay s) (setopt_ok s) (linger s) in
  match tx_script s with
  | [] => (IoWouldBlock, s)
  | TxWouldBlock :: rest => (IoWouldBlock, with_tx rest (tx s))
  | TxError :: rest => (IoErr, with_tx rest (tx s))
  | TxAccept n :: rest =>
      let n' := Nat.min n (length data) in
      (IoOk n', with_tx rest (tx s ++ take n' data))
  end.

(** ** State *)

(** A single encrypted message currently being read from the socket. *)
Record IncomingMessage := mkIncoming {
  size_bytes : list byte;
  pending_bytes : nat;
  message : list byte;
}.

(** A buffer used to handle reads/writes to the socket. *)
Record SocketBuffer := mkBuffer {
  buf : list byte;
  offset : nat;
  remaining : nat;
}.

Inductive ReadResult :=
| Complete (payload : list byte)
| Incomplete
| WouldBlock
| Closed.

Section low_level.
Context `{Noise} `{VecDequeLayout}.

(** [ConnectionLowLevel], less the reference to the node. *)
Record LowLevel := mkLowLevel {
  socket : Socket;
  noise_session : Session;
  noise_buffer : list byte;
  socket_buffer : SocketBuffer;
  incoming_msg : IncomingMessage;
  output_queue : list byte;
  write_size : nat;
  is_writable : bool;
  is_initialized : bool;
  so_linger : option Z;
}.

Definition set_socket (x : Socket) (c : LowLevel) : LowLevel :=
  mkLowLevel x (noise_session c) (noise_buffer c) (socket_buffer c) (incoming_msg c)
    (output_queue c) (write_size c) (is_writable c) (is_initialized c) (so_linger c).
Definition set_session (x : Session) (c : LowLevel) : LowLevel :=
  mkLowLevel (socket c) x (noise_buffer c) (socket_buffer c) (incoming_msg c)
    (output_queue c) (write_size c) (is_writable c) (is_initialized c) (so_linger c).
Definition set_noise_buffer (x : list byte) (c : LowLevel) : LowLevel :=
  mkLowLevel (socket c) (noise_session c) x (socket_buffer c) (incoming_msg c)
    (output_queue c) (write_size c) (is_writable c) (is_initialized c) (so_linger c).
Definition set_socket_buffer (x : SocketBuffer) (c : LowLevel) : LowLevel :=
  mkLowLevel (socket c) (noise_session c) (noise_buffer c) x (incoming_msg c)
    (output_queue c) (write_size c) (is_writable c) (is_initialized c) (so_linger c).
Definition set_incoming (x : IncomingMessage) (c : LowLevel) : LowLevel :=
  mkLowLevel (socket c) (noise_session c) (noise_buffer c) (socket_buffer c) x
    (output_queue c) (write_size c) (is_writable c) (is_initialized c) (so_linger c).
Definition set_output_queue (x : list byte) (c : LowLevel) : LowLevel :=
  mkLowLevel (socket c) (noise_session c) (noise_buffer c) (socket_buffer c)
    (incoming_msg c) x (write_size c) (is_writable c) (is_initialized c) (so_linger c).
Definition set_writable (x : bool) (c : LowLevel) : LowLevel :=
  mkLowLevel (socket c) (noise_session c) (noise_buffer c) (socket_buffer c)
    (incoming_msg c) (output_queue c) (write_size c) x (is_initialized c) (so_linger c).
Definition set_initialized (x : bool) (c : LowLevel) : LowLevel :=
  mkLowLevel (socket c) (noise_session c) (noise_buffer c) (socket_buffer c)
    (incoming_msg c) (output_queue c) (write_size c) (is_writable c) x (so_linger c).

(** [SocketBuffer::new]. *)
Definition new_buffer (socket_read_size : nat) : SocketBuffer :=
  mkBuffer (replicate socket_read_size Byte.x00) 0 0.

(** [ConnectionLowLevel::new].  The node passes its configured linger time;
    [Keypair::default] is a fresh key pair. *)
Definition new (socket : Socket) (initiator : bool) (kp : Keypair)
    (config_so_linger : option Z) (read_size write_size : nat) : LowLevel :=
  mkLowLevel socket (init_session initiator PROLOGUE kp)
    (replicate NOISE_MAX_MESSAGE_LEN Byte.x00)
    (new_buffer read_size) (mkIncoming [] 0 []) [] write_size false false
    (if initiator then config_so_linger else None).

(** *** The socket buffer *)

(** [SocketBuffer::is_exhausted]. *)
Definition is_exhausted (sb : SocketBuffer) : bool :=
  bool_decide (offset sb = length (buf sb)).

(** [SocketBuffer::slice] and [SocketBuffer::slice_mut]. *)
Definition sb_slice (sb : SocketBuffer) (len : nat) : outcome (list byte) :=
  slice (buf sb) (offset sb) len.

(** [SocketBuffer::shift]. *)
Definition shift (sb : SocketBuffer) (n : nat) : outcome SocketBuffer :=
  r ← sub_usize (remaining sb) n;
  let o := (offset sb + n)%nat in
  Ok (mkBuffer (buf sb) (if decide (r = 0%nat) then 0%nat else o) r).

(** [SocketBuffer::reset]. *)
Definition reset (sb : SocketBuffer) : SocketBuffer := mkBuffer (buf sb) 0 0.

(** [ConnectionLowLevel::read_size]. *)
Definition read_size (c : LowLevel) : nat := length (buf (socket_buffer c)).

(** *** Initialization *)

(** [initialize] with [set_linger]; failures are only logged. *)
Definition initialize (c : LowLevel) : LowLevel :=
  let s := socket c in
  let l := match so_linger c with Some t => Some t | None => linger s end in
  let nd := if setopt_ok s then true else nodelay s in
  set_initialized true
    (set_socket (mkSocket (rx s) (tx_script s) (tx s) nd (setopt_ok s) l) c).

(** [notify_writable]. *)
Definition notify_writable (c : LowLevel) : LowLevel :=
  set_writable true (if is_initialized c then c else initialize c).

(** [self.socket.set_nodelay(false)?]. *)
Definition set_nodelay_false : M LowLevel unit := fun c =>
  let s := socket c in
  if setopt_ok s then
    (Ok tt, set_socket (mkSocket (rx s) (tx_script s) (tx s) false true (linger s)) c)
  else (Err (IoError "set_nodelay"), c).

(** *** Output *)

(** [is_post_handshake]. *)
Definition is_post_handshake (c : LowLevel) : bool :=
  if is_initiator (noise_session c) then bool_decide (1 < get_message_count (noise_session c))%nat
  else bool_decide (2 < get_message_count (noise_session c))%nat.

(** [flush_socket_once]: copies a batch of the queue into the socket buffer
    and writes it. *)
Definition flush_socket_once : M LowLevel nat := fun c =>
  let q := output_queue c in
  let size := if is_post_handshake c then Nat.min (write_size c) (length q)
              else Nat.min HANDSHAKE_WRITE_SIZE (length q) in
  let '(front, back) := as_slices q in
  let front_len := Nat.min (length front) size in
  let back_len := (size - front_len)%nat in
  let b := buf (socket_buffer c) in
  if decide (size <= length b)%nat then
    let b1 := splice b 0 (take front_len front) in
    let b2 := if decide (0 < back_len)%nat
              then splice b1 front_len (take back_len back) else b1 in
    let c1 := set_socket_buffer
                (mkBuffer b2 (offset (socket_buffer c)) (remaining (socket_buffer c))) c in
    let '(r, s') := sock_write (take size b2) (socket c) in
    let c2 := set_socket s' c1 in
    match r with
    | IoOk written => (Ok written, set_output_queue (drop written q) c2)
    | IoWouldBlock => (Ok 0%nat, set_writable false c2)
    | IoErr => (Err (IoError "write"), c2)
    end
  else (Panic, c).

(** The loop of [flush_socket]; the queue shrinks in every iteration but the
    last. *)
Fixpoint flush_loop (fuel : nat) : M LowLevel unit := fun c =>
  match fuel with
  | O => (Ok tt, c)
  | S fuel' =>
      match output_queue c with
      | [] => (Ok tt, c)
      | _ =>
          (n ← flush_socket_once;
           if decide (n = 0%nat) then mret tt else flush_loop fuel') c
      end
  end.

(** [flush_socket]. *)
Definition flush_socket : M LowLevel unit := fun c =>
  if is_writable c then flush_loop (S (length (output_queue c))) c else (Ok tt, c).

(** [encrypt_chunk] on an input cursor at [pos]; returns the new position. *)
Definition encrypt_chunk (input : list byte) (pos : nat) : M LowLevel nat := fun c =>
  let remaining_len := (length input - pos)%nat in
  let chunk_size := Nat.min NOISE_MAX_PAYLOAD_LEN remaining_len in
  let nb := splice (noise_buffer c) 0 (take chunk_size (drop pos input)) in
  let encrypted_len := (chunk_size + MAC_LENGTH)%nat in
  if decide (encrypted_len <= length nb)%nat then
    let '(ok, out, s') := send_message (noise_session c) (take encrypted_len nb) in
    let c1 := set_session s' (set_noise_buffer (splice nb 0 out) c) in
    if ok then (Ok (pos + chunk_size)%nat, set_output_queue (output_queue c ++ out) c1)
    else (Err (OtherError "noise"), c1)
  else (Panic, set_noise_buffer nb c).

(** The loop of [encrypt_and_enqueue]; every iteration consumes input. *)
Fixpoint encrypt_loop (fuel : nat) (input : list byte) (pos : nat) : M LowLevel unit :=
  match fuel with
  | O => mret tt
  | S fuel' =>
      if decide (pos = length input) then mret tt
      else
        pos' ← encrypt_chunk input pos;
        c ← get;
        (if decide (write_size c <= length (output_queue c))%nat
         then flush_socket_once ≫= fun _ => mret tt else mret tt) ≫= fun _ =>
        encrypt_loop fuel' input pos'
  end.

(** [encrypt_and_enqueue], which [write_to_socket] calls. *)
Definition encrypt_and_enqueue (input : list byte) : M LowLevel unit :=
  let num_full_chunks := (length input `div` NOISE_MAX_PAYLOAD_LEN)%nat in
  let rem := (length input `mod` NOISE_MAX_PAYLOAD_LEN)%nat in
  let last_chunk_len := if decide (rem = 0%nat) then 0%nat else (rem + MAC_LENGTH)%nat in
  let full_msg_len := (num_full_chunks * NOISE_MAX_MESSAGE_LEN + last_chunk_len)%nat in
  c ← get;
  modify (set_output_queue (output_queue c ++ be_bytes 4 (u32_wrap (Z.of_nat full_msg_len))))
    ≫= fun _ =>
  encrypt_loop (S (length input)) input 0.

Definition write_to_socket (input : list byte) : M LowLevel unit :=
  encrypt_and_enqueue input.

(** *** The XX handshake *)

(** The macro [send_xx_msg!]. *)
Definition send_xx_msg (prefix_len : nat) (payload : list byte) (suffix_len : nat)
    : M LowLevel unit := fun c =>
  let body := replicate prefix_len Byte.x00 ++ payload ++ replicate suffix_len Byte.x00 in
  let len := be_bytes 4 (u32_wrap (Z.of_nat (prefix_len + length payload + suffix_len))) in
  let '(ok, out, s') := send_message (noise_session c) body in
  let c1 := set_session s' c in
  if ok then flush_socket (set_output_queue (output_queue c ++ len ++ out) c1)
  else (Err (OtherError "noise"), c1).

(** The macro [recv_xx_msg!]: decrypts [len] bytes in the socket buffer. *)
Definition recv_xx_msg (len : nat) : M LowLevel unit := fun c =>
  let sb := socket_buffer c in
  match sb_slice sb len with
  | Ok msg =>
      let '(ok, out, s') := recv_message (noise_session c) msg in
      let c1 := set_session s'
        (set_socket_buffer
           (mkBuffer (splice (buf sb) (offset sb) out) (offset sb) (remaining sb)) c) in
      if ok then (Ok tt, c1) else (Err (OtherError "noise"), c1)
  | Err e => (Err e, c)
  | Panic => (Panic, c)
  end.

(** [slice(len)[a..][..n].to_vec()]. *)
Definition sub_slice (len a n : nat) : M LowLevel (list byte) := fun c =>
  (match sb_slice (socket_buffer c) len with
   | Ok l => if decide (a <= length l)%nat then slice l a n else Panic
   | Err e => Err e
   | Panic => Panic
   end, c).

(** [send_handshake_message_a]. *)
Definition send_handshake_message_a : M LowLevel unit := send_xx_msg DHLEN PSK 16.

(** [process_msg_a]; [request] is the answer of
    [P2PNode::produce_handshake_request]. *)
Definition process_msg_a (request : outcome (list byte)) (len : nat)
    : M LowLevel (list byte) :=
  recv_xx_msg len ≫= fun _ =>
  n1 ← lift (sub_usize len DHLEN);
  n2 ← lift (sub_usize n1 16);
  payload_in ← sub_slice len DHLEN n2;
  payload_out ← lift request;
  send_xx_msg (DHLEN * 2 + MAC_LENGTH) payload_out MAC_LENGTH ≫= fun _ =>
  mret payload_in.

(** [process_msg_b]. *)
Definition process_msg_b (request : outcome (list byte)) (len : nat)
    : M LowLevel (list byte) :=
  recv_xx_msg len ≫= fun _ =>
  n1 ← lift (sub_usize len (DHLEN * 2));
  n2 ← lift (sub_usize n1 (MAC_LENGTH * 2));
  payload_in ← sub_slice len (DHLEN * 2 + MAC_LENGTH) n2;
  payload_out ← lift request;
  send_xx_msg (DHLEN + MAC_LENGTH) payload_out MAC_LENGTH ≫= fun _ =>
  set_nodelay_false ≫= fun _ =>
  mret payload_in.

(** [process_msg_c]. *)
Definition process_msg_c (len : nat) : M LowLevel (list byte) :=
  recv_xx_msg len ≫= fun _ =>
  n1 ← lift (sub_usize len DHLEN);
  n2 ← lift (sub_usize n1 (MAC_LENGTH * 2));
  payload ← sub_slice len (DHLEN + MAC_LENGTH) n2;
  set_nodelay_false ≫= fun _ =>
  mret payload.

(** *** Input *)

(** [decrypt_chunk]: the [i]-th chunk of [msg] is decrypted and written back
    at the [i]-th payload position of the same vector. *)
Definition decrypt_chunk (msg : list byte) (i : nat) : M LowLevel (list byte) := fun c =>
  let start := (i * NOISE_MAX_MESSAGE_LEN)%nat in
  let size := Nat.min NOISE_MAX_MESSAGE_LEN (length msg - start) in
  if decide (start <= length msg /\ size <= length (noise_buffer c))%nat then
    let nb := splice (noise_buffer c) 0 (take size (drop start msg)) in
    let '(ok, out, s') := recv_message (noise_session c) (take size nb) in
    let c1 := set_session s' (set_noise_buffer (splice nb 0 out) c) in
    if ok then
      (match sub_usize size MAC_LENGTH with
       | Ok n => Ok (splice msg (i * NOISE_MAX_PAYLOAD_LEN) (take n out))
       | Err e => Err e
       | Panic => Panic
       end, c1)
    else (Err (OtherError "noise"), c1)
  else (Panic, c).

Fixpoint decrypt_loop (n : nat) (i : nat) (msg : list byte) : M LowLevel (list byte) :=
  match n with
  | O => mret msg
  | S n' => msg' ← decrypt_chunk msg i; decrypt_loop n' (S i) msg'
  end.

(** [decrypt]. *)
Definition decrypt : M LowLevel (list byte) :=
  c ← get;
  let im := incoming_msg c in
  let msg := message im in
  modify (set_incoming (mkIncoming (size_bytes im) (pending_bytes im) [])) ≫= fun _ =>
  let len := length msg in
  let num_full_chunks := (len `div` NOISE_MAX_MESSAGE_LEN)%nat in
  let last_chunk_size := (len `mod` NOISE_MAX_MESSAGE_LEN)%nat in
  let num_all_chunks :=
    (num_full_chunks + if decide (0 < last_chunk_size)%nat then 1 else 0)%nat in
  msg' ← decrypt_loop num_all_chunks 0 msg;
  keep ← lift (sub_usize len (num_all_chunks * MAC_LENGTH));
  mret (take keep msg').

(** [attempt_to_read_length]. *)
Definition attempt_to_read_length : M LowLevel unit :=
  c ← get;
  let sb := socket_buffer c in
  let im := incoming_msg c in
  missing ← lift (sub_usize PAYLOAD_SIZE (length (size_bytes im)));
  let n := Nat.min (remaining sb) missing in
  bytes ← lift (sb_slice sb n);
  sb' ← lift (shift sb n);
  let sz := size_bytes im ++ bytes in
  modify (set_socket_buffer sb' ∘
          set_incoming (mkIncoming sz (pending_bytes im) (message im))) ≫= fun _ =>
  if decide (length sz = PAYLOAD_SIZE) then
    let expected_size := be_value sz in
    modify (set_incoming (mkIncoming [] (pending_bytes im) (message im))) ≫= fun _ =>
    if expected_size =? 0 then lift (bail "I got a zero-sized message")
    else if negb (is_post_handshake c) && (HANDSHAKE_SIZE_LIMIT <=? expected_size) then
      lift (bail "expected message size exceeds the handshake size limit")
    else if PROTOCOL_MAX_MESSAGE_SIZE <? expected_size then
      lift (bail "expected message size exceeds the maximum protocol size")
    else modify (set_incoming (mkIncoming [] (Z.to_nat expected_size) []))
  else mret tt.

(** The handshake message that is due, by message count and role. *)
Definition process_handshake_msg (request : outcome (list byte)) (to_read : nat)
    : M LowLevel (list byte) := fun c =>
  let s := noise_session c in
  match get_message_count s, is_initiator s with
  | 0%nat, false => process_msg_a request to_read c
  | 1%nat, true => process_msg_b request to_read c
  | 2%nat, false => process_msg_c to_read c
  | _, _ => (bail "invalid XX handshake", c)
  end.

(** [process_incoming_msg]. *)
Definition process_incoming_msg (request : outcome (list byte)) : M LowLevel ReadResult :=
  c ← get;
  let sb := socket_buffer c in
  let im := incoming_msg c in
  let to_read := Nat.min (pending_bytes im) (remaining sb) in
  bytes ← lift (sb_slice sb to_read);
  pending ← lift (sub_usize (pending_bytes im) to_read);
  modify (set_incoming (mkIncoming (size_bytes im) pending (message im ++ bytes))) ≫= fun _ =>
  (if is_post_handshake c then
     sb' ← lift (shift sb to_read); modify (set_socket_buffer sb')
   else mret tt) ≫= fun _ =>
  if decide (pending = 0%nat) then
    if negb (is_post_handshake c) then
      payload ← process_handshake_msg request to_read;
      c' ← get;
      let count := get_message_count (noise_session c') in
      let responder := negb (is_initiator (noise_session c')) in
      if responder && bool_decide (count = 1%nat) && bool_decide (payload <> PSK) then
        lift (bail "Invalid PSK")
      else if responder && bool_decide (count = 2%nat) then
        modify (set_socket_buffer (reset (socket_buffer c'))) ≫= fun _ =>
        mret Incomplete
      else
        sb' ← lift (shift (socket_buffer c') to_read);
        modify (set_socket_buffer sb') ≫= fun _ =>
        mret (Complete payload)
    else
      payload ← decrypt;
      mret (Complete payload)
  else mret Incomplete.

(** The first part of [read_from_socket]: reads from the socket unless bytes
    are left over; [Some r] is an early return. *)
Definition refill : M LowLevel (option ReadResult) := fun c =>
  let sb := if is_exhausted (socket_buffer c) then reset (socket_buffer c)
            else socket_buffer c in
  let c := set_socket_buffer sb c in
  if decide (remaining sb = 0%nat) then
    match sub_usize (read_size c) (offset sb) with
    | Ok len =>
        let '(r, s') := sock_read len (socket c) in
        let c1 := set_socket s' c in
        match r with
        | IoOk [] => (Ok (Some Closed), c1)
        | IoOk data =>
            (Ok None,
             set_socket_buffer
               (mkBuffer (splice (buf sb) (offset sb) data) (offset sb) (length data)) c1)
        | IoWouldBlock => (Ok (Some WouldBlock), c1)
        | IoErr => (Err (IoError "read"), c1)
        end
    | _ => (Panic, c)
    end
  else (Ok None, c).

(** [read_from_socket]. *)
Definition read_from_socket (request : outcome (list byte)) : M LowLevel ReadResult :=
  early ← refill;
  match early with
  | Some r => mret r
  | None =>
      c ← get;
      (if decide (pending_bytes (incoming_msg c) = 0%nat)
       then attempt_to_read_length else mret tt) ≫= fun _ =>
      c' ← get;
      if decide (pending_bytes (incoming_msg c') = 0%nat) then mret Incomplete
      else process_incoming_msg request
  end.

(** [Connection::read_stream], over the rest [H] of the connection and its
    node: [request] is the handshake request the node would produce and
    [process] is [Connection::process_message].  Running out of [fuel] is a
    [Panic]. *)
Fixpoint read_stream {H} (request : H -> outcome (list byte))
    (process : list byte -> M H unit) (fuel : nat) : M (LowLevel * H) bool := fun st =>
  match fuel with
  | O => (Panic, st)
  | S fuel' =>
      let '(c, h) := st in
      match read_from_socket (request h) c with
      | (Ok (Complete msg), c') =>
          match process msg h with
          | (Ok _, h') => read_stream request process fuel' (c', h')
          | (Err e, h') => (Err e, (c', h'))
          | (Panic, h') => (Panic, (c', h'))
          end
      | (Ok Incomplete, c') => read_stream request process fuel' (c', h)
      | (Ok WouldBlock, c') => (Ok true, (c', h))
      | (Ok Closed, c') => (Ok false, (c', h))
      | (Err e, c') => (Err e, (c', h))
      | (Panic, c') => (Panic, (c', h))
      end
  end.

End low_level.
