(* ===== verification/LowLevelFacts.v ===== *)
(** * Facts about the low level of a connection

    Reference definitions of framing and of chunked encryption, and the
    invariant and lemmas of the operations of [LowLevel]. *)

From stdpp Require Import base tactics list gmap strings option numbers.
From Stdlib Require Import ZArith.
From S2P Require Import Prelude LowLevel.

Lemma noise_lens :
  NOISE_MAX_MESSAGE_LEN = (NOISE_MAX_PAYLOAD_LEN + 16)%nat /\
  (0 < NOISE_MAX_PAYLOAD_LEN)%nat.
Proof.
  unfold NOISE_MAX_PAYLOAD_LEN, NOISE_MAX_MESSAGE_LEN, NOISE_AUTH_TAG_LEN. lia.
Qed.

Lemma noise_max_Z : Z.of_nat NOISE_MAX_MESSAGE_LEN = 65535.
Proof. unfold NOISE_MAX_MESSAGE_LEN. lia. Qed.

Lemma noise_max_4096 : (HANDSHAKE_WRITE_SIZE <= NOISE_MAX_MESSAGE_LEN)%nat.
Proof. unfold NOISE_MAX_MESSAGE_LEN, HANDSHAKE_WRITE_SIZE. lia. Qed.

#[global] Opaque NOISE_MAX_MESSAGE_LEN NOISE_MAX_PAYLOAD_LEN HANDSHAKE_WRITE_SIZE.

Section facts.
Context `{Noise} `{VecDequeLayout} `{!NoiseLaws}.

(** ** Invariant

    The buffers have the sizes the configuration guarantees
    ([Config.parse_config]); the unread bytes lie inside the socket buffer; a
    length prefix is being collected or a message is, never both. *)
Record wf (c : LowLevel) : Prop := {
  wf_noise_buffer : length (noise_buffer c) = NOISE_MAX_MESSAGE_LEN;
  wf_read_size : (NOISE_MAX_MESSAGE_LEN <= read_size c)%nat;
  wf_write_size : (write_size c <= read_size c)%nat;
  wf_bounds : (offset (socket_buffer c) + remaining (socket_buffer c) <= read_size c)%nat;
  wf_offset : remaining (socket_buffer c) = 0%nat -> offset (socket_buffer c) = 0%nat;
  wf_size_bytes : (length (size_bytes (incoming_msg c)) < PAYLOAD_SIZE)%nat;
  wf_pending : pending_bytes (incoming_msg c) <> 0%nat -> size_bytes (incoming_msg c) = [];
  wf_message : Z.of_nat (length (message (incoming_msg c)) + pending_bytes (incoming_msg c))
               <= PROTOCOL_MAX_MESSAGE_SIZE;
}.

Lemma wf_new s i kp l r w :
  (NOISE_MAX_MESSAGE_LEN <= r)%nat -> (w <= r)%nat -> wf (new s i kp l r w).
Proof.
  intros. split; unfold read_size; simpl; rewrite ?length_replicate; auto;
    unfold PAYLOAD_SIZE, PROTOCOL_MAX_MESSAGE_SIZE; lia.
Qed.

(** The bytes given to the socket so far followed by those still queued. *)
Definition wire (c : LowLevel) : list byte := tx (socket c) ++ output_queue c.

(** What the writing side leaves alone. *)
Record input_unchanged (c c' : LowLevel) : Prop := {
  iu_incoming : incoming_msg c' = incoming_msg c;
  iu_offset : offset (socket_buffer c') = offset (socket_buffer c);
  iu_remaining : remaining (socket_buffer c') = remaining (socket_buffer c);
  iu_rx : rx (socket c') = rx (socket c);
}.

#[export] Instance input_unchanged_refl : Reflexive input_unchanged.
Proof. by intros c. Qed.
#[export] Instance input_unchanged_trans : Transitive input_unchanged.
Proof. intros c1 c2 c3 [] []. split; congruence. Qed.

(** The script of the socket contains no write failure. *)
Definition tx_no_error (s : Socket) : Prop := TxError ∉ tx_script s.

(** ** Flushing *)

(** The batch that is copied into the socket buffer is a prefix of the queue,
    wherever the ring buffer is split. *)
Lemma flush_batch (q b : list byte) size :
  (size <= length q)%nat -> (size <= length b)%nat ->
  let '(front, back) := as_slices q in
  let front_len := Nat.min (length front) size in
  let back_len := (size - front_len)%nat in
  let b1 := splice b 0 (take front_len front) in
  let b2 := if decide (0 < back_len)%nat
            then splice b1 front_len (take back_len back) else b1 in
  take size b2 = take size q /\ length b2 = length b.
Proof.
  intros Hq Hb. unfold as_slices. set (k := deque_split q).
  set (f := Nat.min (length (take k q)) size).
  assert (Hf : (f <= size)%nat) by (subst f; lia).
  assert (Hfk : (f <= length (take k q))%nat) by (subst f; lia).
  assert (Htf : take f (take k q) = take f q).
  { rewrite take_take. f_equal. rewrite length_take in Hfk. lia. }
  assert (HL1 : length (splice b 0 (take f (take k q))) = length b).
  { apply length_splice. rewrite length_take. lia. }
  cbn zeta. rewrite Htf in *. destruct (decide (0 < size - f)%nat).
  - assert (Hback : take f q ++ take (size - f) (drop k q) = take size q).
    { assert (f = length (take k q)) as Ef by (subst f; lia).
      rewrite length_take in Ef.
      assert (f = k) as -> by lia. rewrite <- (take_drop k q) at 3.
      rewrite take_app, take_take, length_take. f_equal; f_equal; lia. }
    assert (length (take (size - f) (drop k q)) = (size - f)%nat) as Hlb.
    { apply (f_equal length) in Hback. rewrite length_app, !length_take in Hback. 
      rewrite length_take. lia. }
    split; [|rewrite length_splice, HL1; [done|]; rewrite HL1, Hlb; lia].
    unfold splice at 1. rewrite app_assoc.
    assert (take f (splice b 0 (take f q)) = take f q) as ->.
    { unfold splice. rewrite take_0. simpl. rewrite take_app_length'; [done|].
      rewrite length_take. lia. }
    rewrite Hback. rewrite take_app_length'; [done|]. rewrite length_take. lia.
  - assert (f = size) as -> by lia. split; [|done].
    unfold splice. rewrite take_0. simpl. rewrite take_app_length'; [done|].
    rewrite length_take. lia.
Qed.

Record flush_post (c : LowLevel) (r : outcome nat) (c' : LowLevel) : Prop := {
  fp_wf : wf c -> wf c';
  fp_input : input_unchanged c c';
  fp_session : noise_session c' = noise_session c;
  fp_wire : wire c' = wire c;
  fp_no_panic : r <> Panic;
  fp_shorter n : r = Ok n ->
    (length (output_queue c') + n = length (output_queue c))%nat;
  fp_no_error : tx_no_error (socket c) -> tx_no_error (socket c') /\ exists n, r = Ok n;
  fp_scratch : noise_buffer c' = noise_buffer c;
  fp_write_size : write_size c' = write_size c;
}.

Lemma flush_socket_once_spec c r c' :
  wf c -> flush_socket_once c = (r, c') -> flush_post c r c'.
Proof.
  intros W. unfold flush_socket_once.
  set (size := if is_post_handshake c then _ else _).
  assert (Hsz : (size <= length (output_queue c))%nat /\
                (size <= length (buf (socket_buffer c)))%nat).
  { pose proof (wf_write_size c W). pose proof (wf_read_size c W).
    pose proof noise_max_4096. unfold read_size in *. subst size.
    destruct (is_post_handshake c); lia. }
  destruct Hsz as [Hq Hb].
  pose proof (flush_batch (output_queue c) (buf (socket_buffer c)) size Hq Hb) as HB.
  destruct (as_slices (output_queue c)) as [front back].
  rewrite decide_True by done. cbn zeta in HB |- *.
  set (b2 := if decide _ then _ else _) in *. destruct HB as [Hbatch Hlen].
  destruct W, c as [so se nb sb im q ws iw ii sl]; unfold sock_write, read_size in *; simpl in *.
  rewrite Hbatch.
  destruct (tx_script so) as [|[n| |] rest] eqn:Escr; intros [= <- <-]; split; simpl;
    try done; unfold wire, tx_no_error, read_size; simpl; try (rewrite Escr);
    try (by intros []; split; simpl; unfold read_size; simpl in *; congruence);
    try (intros ? [= <-]; lia);
    try (intros; split; [set_solver | eauto]); try set_solver.
  all: try (split; simpl; unfold read_size; simpl; rewrite ?Hlen; done).
  - rewrite <- app_assoc. f_equal. rewrite take_take, length_take.
    replace (Nat.min _ size) with (Nat.min n (Nat.min size (length q))) by lia.
    apply take_drop.
  - intros m [= <-]. rewrite length_drop, length_take. lia.
Qed.

Lemma flush_loop_spec fuel : forall c r c',
  wf c -> flush_loop fuel c = (r, c') ->
  wf c' /\ input_unchanged c c' /\ noise_session c' = noise_session c /\
  wire c' = wire c /\ r <> Panic /\
  (tx_no_error (socket c) -> tx_no_error (socket c') /\ r = Ok tt) /\
  noise_buffer c' = noise_buffer c.
Proof.
  induction fuel as [|fuel IH]; intros c r c' W HF; simpl in HF.
  { simplify_eq. split_and!; done. }
  destruct (output_queue c) as [|b q] eqn:Eq; [simplify_eq; split_and!; done|].
  unfold mbind, M_bind in HF.
  destruct (flush_socket_once c) as [r1 c1] eqn:E1.
  apply flush_socket_once_spec in E1 as []; [|done].
  destruct r1 as [n|e|]; simplify_eq; [|naive_solver..].
  destruct (decide (n = 0%nat)).
  - unfold mret, M_ret in HF. simplify_eq. naive_solver.
  - apply IH in HF; [|auto]. destruct HF as (? & ? & ? & ? & ? & ? & ?).
    split_and!; eauto; [by etrans|congruence..|naive_solver|congruence].
Qed.

Lemma flush_socket_spec c r c' :
  wf c -> flush_socket c = (r, c') ->
  wf c' /\ input_unchanged c c' /\ noise_session c' = noise_session c /\
  wire c' = wire c /\ r <> Panic /\
  (tx_no_error (socket c) -> tx_no_error (socket c') /\ r = Ok tt) /\
  noise_buffer c' = noise_buffer c.
Proof.
  unfold flush_socket. intros W. case_match; [by apply flush_loop_spec|].
  intros [= <- <-]. split_and!; done.
Qed.

(** ** Reference definitions of framing and chunked decryption *)

(** A frame on the wire. *)
Definition frame (cipher : list byte) : list byte :=
  be_bytes 4 (Z.of_nat (length cipher)) ++ cipher.

(** [decrypts r cipher plain r']: receiving the chunks of [cipher] one after
    the other yields [plain].  All chunks but the last are full. *)
Inductive decrypts : Session -> list byte -> list byte -> Session -> Prop :=
| decrypts_nil r : decrypts r [] [] r
| decrypts_chunk r chunk rest out r1 plain r2 :
    (length chunk = NOISE_MAX_MESSAGE_LEN \/
     rest = [] /\ (0 < length chunk <= NOISE_MAX_MESSAGE_LEN)%nat) ->
    recv_message r chunk = (true, out, r1) ->
    decrypts r1 rest plain r2 ->
    decrypts r (chunk ++ rest) (take (length chunk - MAC_LENGTH) out ++ plain) r2.

(** The number of chunks of a plain text, and the length of its encryption. *)
Definition num_chunks (n : nat) : nat :=
  (n `div` NOISE_MAX_PAYLOAD_LEN +
   if decide (n `mod` NOISE_MAX_PAYLOAD_LEN = 0)%nat then 0 else 1)%nat.

Definition full_len (n : nat) : nat :=
  (n `div` NOISE_MAX_PAYLOAD_LEN * NOISE_MAX_MESSAGE_LEN +
   if decide (n `mod` NOISE_MAX_PAYLOAD_LEN = 0)%nat then 0
   else n `mod` NOISE_MAX_PAYLOAD_LEN + MAC_LENGTH)%nat.

Lemma chunks_0 : num_chunks 0 = 0%nat /\ full_len 0 = 0%nat.
Proof.
  unfold num_chunks, full_len. pose proof noise_lens.
  rewrite Nat.Div0.div_0_l, Nat.Div0.mod_0_l. split; reflexivity.
Qed.

Lemma chunks_small n :
  (0 < n < NOISE_MAX_PAYLOAD_LEN)%nat ->
  num_chunks n = 1%nat /\ full_len n = (n + MAC_LENGTH)%nat.
Proof.
  intros. unfold num_chunks, full_len.
  rewrite Nat.div_small, Nat.mod_small, !decide_False by lia. lia.
Qed.

Lemma chunks_full n :
  (NOISE_MAX_PAYLOAD_LEN <= n)%nat ->
  num_chunks n = S (num_chunks (n - NOISE_MAX_PAYLOAD_LEN)) /\
  full_len n = (NOISE_MAX_MESSAGE_LEN + full_len (n - NOISE_MAX_PAYLOAD_LEN))%nat.
Proof.
  intros. pose proof noise_lens. unfold num_chunks, full_len.
  set (P := NOISE_MAX_PAYLOAD_LEN) in *.
  assert (n `div` P = S ((n - P) `div` P))%nat as ->.
  { replace n with ((n - P) + 1 * P)%nat at 1 by lia. rewrite Nat.div_add; lia. }
  assert (n `mod` P = (n - P) `mod` P)%nat as ->.
  { replace n with ((n - P) + 1 * P)%nat at 1 by lia. by rewrite Nat.Div0.mod_add. }
  lia.
Qed.

(** ** Decryption *)

(** Receiving the chunks of a cipher text in order: the reference definition
    of the in-place [decrypt]. *)
Fixpoint recv_chunks (n : nat) (s : Session) (cipher : list byte)
    : outcome (list byte) * Session :=
  match n with
  | O => (Ok [], s)
  | S n' =>
      let chunk := take NOISE_MAX_MESSAGE_LEN cipher in
      let '(ok, out, s1) := recv_message s chunk in
      if ok then
        let '(r, s2) := recv_chunks n' s1 (drop NOISE_MAX_MESSAGE_LEN cipher) in
        (app (take (length chunk - MAC_LENGTH) out) <$> r, s2)
      else (Err (OtherError "noise"), s1)
  end.

(** The number of chunks of a cipher text. *)
Definition cipher_chunks (n : nat) : nat :=
  (n `div` NOISE_MAX_MESSAGE_LEN +
   if decide (0 < n `mod` NOISE_MAX_MESSAGE_LEN)%nat then 1 else 0)%nat.

Definition recv_all (s : Session) (cipher : list byte) : outcome (list byte) * Session :=
  recv_chunks (cipher_chunks (length cipher)) s cipher.

Lemma cipher_chunks_0 : cipher_chunks 0 = 0%nat.
Proof.
  unfold cipher_chunks. by rewrite Nat.Div0.div_0_l, Nat.Div0.mod_0_l.
Qed.

Lemma cipher_chunks_pos n :
  (0 < n)%nat -> cipher_chunks n = S (cipher_chunks (n - NOISE_MAX_MESSAGE_LEN)).
Proof.
  intros. pose proof noise_lens. unfold cipher_chunks.
  set (P := NOISE_MAX_MESSAGE_LEN) in *. destruct (decide (P <= n)%nat).
  - assert (n `div` P = S ((n - P) `div` P))%nat as ->.
    { replace n with ((n - P) + 1 * P)%nat at 1 by lia. rewrite Nat.div_add; lia. }
    assert (n `mod` P = (n - P) `mod` P)%nat as ->.
    { replace n with ((n - P) + 1 * P)%nat at 1 by lia. by rewrite Nat.Div0.mod_add. }
    lia.
  - replace (n - P)%nat with 0%nat by lia.
    rewrite Nat.Div0.div_0_l, Nat.Div0.mod_0_l, Nat.div_small, Nat.mod_small by lia.
    rewrite decide_True, decide_False by lia. lia.
Qed.

Lemma decrypts_recv_all r cipher plain r' :
  decrypts r cipher plain r' -> recv_all r cipher = (Ok plain, r').
Proof.
  pose proof noise_lens.
  unfold recv_all. induction 1 as [|r chunk rest out r1 plain r2 Hlen HR _ IH].
  { cbn [length]. by rewrite cipher_chunks_0. }
  rewrite cipher_chunks_pos by (rewrite length_app; lia). cbn [recv_chunks].
  assert (take NOISE_MAX_MESSAGE_LEN (chunk ++ rest) = chunk /\
          drop NOISE_MAX_MESSAGE_LEN (chunk ++ rest) = rest) as [-> ->].
  { destruct Hlen as [<-|[-> ?]].
    - by rewrite take_app_length, drop_app_length.
    - rewrite app_nil_r, take_ge, drop_ge by lia. split; reflexivity. }
  rewrite HR.
  replace (length (chunk ++ rest) - NOISE_MAX_MESSAGE_LEN)%nat with (length rest).
  - by rewrite IH.
  - rewrite length_app. destruct Hlen as [<-|[-> ?]]; simpl; lia.
Qed.

(** ** Encryption *)

Context `{!NoiseTransport}.

Lemma encrypt_chunk_spec k input pos c r :
  wf c -> (pos < length input)%nat -> in_sync (S k) (noise_session c) r ->
  let size := Nat.min NOISE_MAX_PAYLOAD_LEN (length input - pos) in
  exists c' cipher room r',
    encrypt_chunk input pos c = (Ok (pos + size)%nat, c') /\
    wf c' /\ input_unchanged c c' /\ socket c' = socket c /\
    output_queue c' = output_queue c ++ cipher /\
    length cipher = (size + MAC_LENGTH)%nat /\
    recv_message r cipher = (true, take size (drop pos input) ++ room, r') /\
    in_sync k (noise_session c') r'.
Proof.
  intros W Hpos Hs size. pose proof noise_lens as [HN HP]. pose proof mac_length as HM.
  pose proof noise_max_Z as HZ.
  set (plain := take size (drop pos input)).
  assert (Hpl : length plain = size).
  { subst plain. rewrite length_take, length_drop. lia. }
  set (nb := splice (noise_buffer c) 0 plain).
  assert (Hnb : length nb = NOISE_MAX_MESSAGE_LEN).
  { subst nb. rewrite length_splice; rewrite (wf_noise_buffer c W); [done|]. lia. }
  assert (take (size + MAC_LENGTH) nb
          = plain ++ take MAC_LENGTH (drop size nb)) as Htk.
  { rewrite <- Hpl at 1. rewrite <- (take_drop (length plain) nb) at 1.
    replace (take (length plain) nb) with plain.
    - rewrite take_app_add. by rewrite Hpl.
    - subst nb. symmetry. pose proof (slice_splice (noise_buffer c) 0 plain) as Hss.
      rewrite drop_0 in Hss. apply Hss. rewrite (wf_noise_buffer c W). lia. }
  set (room := take MAC_LENGTH (drop size nb)) in *.
  assert (length room = MAC_LENGTH) as Hroom.
  { subst room. rewrite length_take, length_drop. lia. }
  destruct (transport_roundtrip k (noise_session c) r plain room)
    as (cipher & s' & room' & r' & HS & HR & Hsync); [done..| |].
  { rewrite length_app. lia. }
  pose proof (send_length _ _ _ _ _ HS) as HL. rewrite length_app in HL.
  unfold encrypt_chunk. fold size. fold plain. fold nb.
  rewrite decide_True by lia. rewrite Htk, HS.
  eexists _, cipher, room', r'. split; [reflexivity|].
  split; [|split; [split; reflexivity|split; [reflexivity|split; [reflexivity|]]]].
  2:{ split; [lia|]. split; [exact HR|exact Hsync]. }
  destruct W; split; simpl; try assumption.
  rewrite length_splice; lia.
Qed.

(** The whole message: what is put on the wire decrypts, with the peer's
    session, to the input. *)
Lemma encrypt_loop_spec k input : forall fuel pos c r,
  wf c -> (pos <= length input)%nat -> (length input - pos < fuel)%nat ->
  in_sync (num_chunks (length input - pos) + k) (noise_session c) r ->
  tx_no_error (socket c) ->
  exists c' cipher r',
    encrypt_loop fuel input pos c = (Ok tt, c') /\
    wf c' /\ input_unchanged c c' /\ tx_no_error (socket c') /\
    wire c' = wire c ++ cipher /\
    length cipher = full_len (length input - pos) /\
    decrypts r cipher (drop pos input) r' /\
    in_sync k (noise_session c') r'.
Proof.
  pose proof noise_lens as [HN HP]. pose proof mac_length as HM.
  induction fuel as [|fuel IH]; intros pos c r W Hpos Hf Hs Htx; [lia|].
  cbn [encrypt_loop]. case_decide as Hend.
  { subst pos. rewrite Nat.sub_diag in *. destruct chunks_0 as [E0 E1].
    rewrite E0 in Hs. rewrite E1, drop_all.
    exists c, [], r. rewrite app_nil_r. do 6 (split; [done|]).
    split; [constructor|done]. }
  set (n := (length input - pos)%nat) in *.
  set (size := Nat.min NOISE_MAX_PAYLOAD_LEN n).
  assert (num_chunks n = S (num_chunks (n - size)) /\
          full_len n = (size + MAC_LENGTH + full_len (n - size))%nat) as [Ek Efl].
  { subst size. destruct (decide (NOISE_MAX_PAYLOAD_LEN <= n)%nat).
    - rewrite Nat.min_l by lia. destruct (chunks_full n) as [-> ->]; [lia|]. split; lia.
    - rewrite Nat.min_r by lia. rewrite Nat.sub_diag.
      destruct chunks_0 as [-> ->]. destruct (chunks_small n); lia. }
  rewrite Ek in Hs.
  destruct (encrypt_chunk_spec (num_chunks (n - size) + k) input pos c r)
    as (c1 & ci & room & r1 & E1 & W1 & I1 & S1 & Q1 & L1 & R1 & Sy1); [exact W|lia|exact Hs|].
  fold n size in E1, L1, R1. unfold mbind at 1, M_bind at 1. rewrite E1. cbn beta iota.
  assert (exists c2, (c ← get; (if decide (write_size c <= length (output_queue c))%nat
     then flush_socket_once ≫= (fun _ => mret tt) else mret tt)) c1 = (Ok tt, c2) /\
     wf c2 /\ input_unchanged c1 c2 /\ tx_no_error (socket c2) /\ wire c2 = wire c1 /\
     noise_session c2 = noise_session c1) as (c2 & E2 & W2 & I2 & T2 & Wi2 & N2).
  { unfold mbind, M_bind, get. case_decide.
    - destruct (flush_socket_once c1) as [o c2] eqn:EF.
      apply flush_socket_once_spec in EF as []; [|done].
      destruct fp_no_error0 as [? [m ->]]; [by rewrite S1|]. eauto 10.
    - exists c1. rewrite S1. split; [reflexivity|]. split; [exact W1|].
      split; [reflexivity|]. split; [exact Htx|]. split; reflexivity. }
  destruct (IH (pos + size)%nat c2 r1) as (c3 & ci2 & r2 & E3 & W3 & I3 & T3 & Wi3 & L3 & D3 & Sy3);
    [exact W2|lia|lia| |exact T2|].
  { rewrite N2. replace (length input - (pos + size))%nat with (n - size)%nat by lia.
    exact Sy1. }
  exists c3, (ci ++ ci2), r2.
  split.
  { revert E2. unfold mbind, M_bind, get. case_decide; [|by intros [= ->]].
    destruct (flush_socket_once c1) as [[|?|] ?]; intros [= ->]. done. }
  split; [done|]. split; [by do 2 (etrans; [eassumption|])|]. split; [done|].
  split. { rewrite Wi3, Wi2. unfold wire. by rewrite S1, Q1, <- !app_assoc. }
  split. { rewrite length_app, L1, L3, Efl. f_equal. f_equal. lia. }
  split; [|done].
  rewrite <- (take_drop size (drop pos input)), drop_drop.
  assert (length (take size (drop pos input)) = size) as Hts.
  { rewrite length_take, length_drop. lia. }
  replace (take size (drop pos input)) with
    (take (length ci - MAC_LENGTH) (take size (drop pos input) ++ room)).
  2:{ rewrite take_app_length'; [done|]. lia. }
  apply decrypts_chunk with r1; [|done|done].
  rewrite L1. destruct (decide (NOISE_MAX_PAYLOAD_LEN <= n)%nat); [left; lia|].
  right. split; [|lia]. apply length_zero_iff_nil. rewrite L3.
  replace (length input - (pos + size))%nat with 0%nat by lia. apply chunks_0.
Qed.

Lemma decrypt_chunk_spec msg i c :
  length (noise_buffer c) = NOISE_MAX_MESSAGE_LEN ->
  (i * NOISE_MAX_MESSAGE_LEN <= length msg)%nat ->
  let chunk := take NOISE_MAX_MESSAGE_LEN (drop (i * NOISE_MAX_MESSAGE_LEN) msg) in
  let '(ok, out, s') := recv_message (noise_session c) chunk in
  exists nb, length nb = NOISE_MAX_MESSAGE_LEN /\
  decrypt_chunk msg i c =
    (if ok then
       Ok (splice msg (i * NOISE_MAX_PAYLOAD_LEN) (take (length chunk - MAC_LENGTH) out))
     else Err (OtherError "noise"), set_session s' (set_noise_buffer nb c)).
Proof.
  intros Hnb Hi chunk. unfold decrypt_chunk.
  set (start := (i * NOISE_MAX_MESSAGE_LEN)%nat) in *.
  assert (length chunk = Nat.min NOISE_MAX_MESSAGE_LEN (length msg - start)) as HL.
  { subst chunk. by rewrite length_take, length_drop. }
  rewrite <- HL. rewrite decide_True by (rewrite Hnb; lia).
  replace (take (length chunk) (drop start msg)) with chunk.
  2:{ rewrite HL. subst chunk. rewrite <- length_drop. rewrite <- take_take.
      rewrite (take_ge (drop start msg) (length (drop start msg))) by lia. done. }
  pose proof (take_splice (noise_buffer c) 0 chunk ltac:(lia)) as Htk.
  rewrite take_0 in Htk. simpl in Htk. rewrite Htk.
  destruct (recv_message (noise_session c) chunk) as [[ok out] s'] eqn:E.
  pose proof (recv_length _ _ _ _ _ E) as Hout.
  assert (length (splice (splice (noise_buffer c) 0 chunk) 0 out) = NOISE_MAX_MESSAGE_LEN).
  { rewrite !length_splice; [done|..]; rewrite ?length_splice; rewrite ?Hnb; lia. }
  eexists. split; [eassumption|]. destruct ok; [|reflexivity].
  rewrite sub_usize_Ok by (eapply recv_min_length; eassumption). reflexivity.
Qed.

(** The in-place loop computes what receiving the chunks one by one does. *)
Lemma decrypt_loop_spec : forall n i msg c,
  length (noise_buffer c) = NOISE_MAX_MESSAGE_LEN ->
  (i * NOISE_MAX_MESSAGE_LEN <= length msg)%nat ->
  n = cipher_chunks (length msg - i * NOISE_MAX_MESSAGE_LEN) ->
  let '(r, s') := recv_chunks n (noise_session c) (drop (i * NOISE_MAX_MESSAGE_LEN) msg) in
  exists nb msg',
    length nb = NOISE_MAX_MESSAGE_LEN /\
    decrypt_loop n i msg c =
      ((fun _ => msg') <$> r, set_session s' (set_noise_buffer nb c)) /\
    forall p, r = Ok p ->
      take (i * NOISE_MAX_PAYLOAD_LEN + length p) msg'
        = take (i * NOISE_MAX_PAYLOAD_LEN) msg ++ p /\
      (length p + n * MAC_LENGTH = length msg - i * NOISE_MAX_MESSAGE_LEN)%nat.
Proof.
  pose proof noise_lens as [HN HP]. pose proof mac_length as HM.
  induction n as [|n IH]; intros i msg c Hnb Hi Hn.
  { exists (noise_buffer c), msg. split; [exact Hnb|]. split; [by destruct c|].
    intros p [= <-]. rewrite Nat.add_0_r, app_nil_r. split; [done|]. simpl.
    destruct (length msg - _)%nat eqn:E; [done|]. rewrite cipher_chunks_pos in Hn; lia. }
  assert (0 < length msg - i * NOISE_MAX_MESSAGE_LEN)%nat as Hpos.
  { destruct (length msg - _)%nat eqn:E; [|lia]. by rewrite cipher_chunks_0 in Hn. }
  rewrite cipher_chunks_pos in Hn by done. injection Hn as Hn.
  cbn [recv_chunks decrypt_loop].
  pose proof (decrypt_chunk_spec msg i c Hnb Hi) as HC. cbn zeta in HC.
  set (chunk := take NOISE_MAX_MESSAGE_LEN (drop (i * NOISE_MAX_MESSAGE_LEN) msg)) in *.
  assert (HLc : length chunk =
    Nat.min NOISE_MAX_MESSAGE_LEN (length msg - i * NOISE_MAX_MESSAGE_LEN)).
  { subst chunk. by rewrite length_take, length_drop. }
  destruct (recv_message (noise_session c) chunk) as [[ok out] s1] eqn:E.
  destruct HC as (nb & Hnb1 & EC). unfold mbind, M_bind. rewrite EC.
  destruct ok.
  2:{ exists nb, msg. split; [done|]. split; [reflexivity|]. intros p [=]. }
  pose proof (recv_length _ _ _ _ _ E) as Hout.
  pose proof (recv_min_length _ _ _ _ E) as Hmin.
  set (x := take (length chunk - MAC_LENGTH) out).
  assert (Hx : length x = (length chunk - MAC_LENGTH)%nat).
  { subst x. rewrite length_take. lia. }
  set (msg1 := splice msg (i * NOISE_MAX_PAYLOAD_LEN) x).
  assert (Hl1 : length msg1 = length msg) by (subst msg1; rewrite length_splice; lia).
  pose proof (take_splice msg (i * NOISE_MAX_PAYLOAD_LEN) x ltac:(lia)) as Ht1.
  fold msg1 in Ht1.
  set (c1 := set_session s1 (set_noise_buffer nb c)) in *.
  destruct (decide (NOISE_MAX_MESSAGE_LEN <= length msg - i * NOISE_MAX_MESSAGE_LEN)%nat).
  - specialize (IH (S i) msg1 c1 Hnb1). rewrite Hl1 in IH.
    specialize (IH ltac:(lia)).
    replace (length msg - S i * NOISE_MAX_MESSAGE_LEN)%nat with
      (length msg - i * NOISE_MAX_MESSAGE_LEN - NOISE_MAX_MESSAGE_LEN)%nat in IH by lia.
    specialize (IH Hn).
    replace (drop (S i * NOISE_MAX_MESSAGE_LEN) msg1) with
      (drop NOISE_MAX_MESSAGE_LEN (drop (i * NOISE_MAX_MESSAGE_LEN) msg)) in IH.
    2:{ subst msg1. rewrite drop_splice by lia. rewrite drop_drop. f_equal. lia. }
    change (noise_session c1) with s1 in IH.
    destruct (recv_chunks n s1 _) as [r s2].
    destruct IH as (nb2 & msg' & Hnb2 & EL & HT).
    exists nb2, msg'. split; [exact Hnb2|]. rewrite EL. split; [by destruct r|].
    intros p Hp. destruct r as [p2|?|]; [|done..]. injection Hp as <-.
    destruct (HT p2 eq_refl) as [HT1 HT2]. split; [|rewrite length_app; lia].
    rewrite length_app, app_assoc, <- Ht1, Hx.
    replace (i * NOISE_MAX_PAYLOAD_LEN + (length chunk - MAC_LENGTH))%nat
      with (S i * NOISE_MAX_PAYLOAD_LEN)%nat by lia.
    rewrite <- HT1. f_equal. lia.
  - assert (n = 0%nat) as ->.
    { rewrite Hn. replace (_ - NOISE_MAX_MESSAGE_LEN)%nat with 0%nat by lia.
      apply cipher_chunks_0. }
    exists nb, msg1. split; [exact Hnb1|]. split; [reflexivity|].
    intros p [= <-]. rewrite app_nil_r. split; [exact Ht1|]. lia.
Qed.

Lemma decrypt_spec c :
  length (noise_buffer c) = NOISE_MAX_MESSAGE_LEN ->
  let im := incoming_msg c in
  let '(r, s') := recv_all (noise_session c) (message im) in
  exists nb, length nb = NOISE_MAX_MESSAGE_LEN /\
  decrypt c = (r, set_session s' (set_noise_buffer nb
    (set_incoming (mkIncoming (size_bytes im) (pending_bytes im) []) c))).
Proof.
  intros Hnb im. set (msg := message im).
  set (c1 := set_incoming (mkIncoming (size_bytes im) (pending_bytes im) []) c).
  pose proof (decrypt_loop_spec (cipher_chunks (length msg)) 0 msg c1 Hnb) as HD.
  rewrite Nat.mul_0_l, Nat.sub_0_r in HD. specialize (HD ltac:(lia) eq_refl).
  rewrite drop_0 in HD. unfold recv_all. change (noise_session c1) with (noise_session c) in HD.
  destruct (recv_chunks _ (noise_session c) msg) as [r s'].
  destruct HD as (nb & msg' & Hnb' & EL & HT). exists nb. split; [exact Hnb'|].
  unfold decrypt, mbind, M_bind, get, modify, lift. fold im msg. fold c1.
  fold (cipher_chunks (length msg)). rewrite EL.
  destruct r as [p|e|]; simpl; [|done..].
  destruct (HT p eq_refl) as [HT1 HT2]. simpl in HT1.
  rewrite sub_usize_Ok by lia. unfold mret, M_ret.
  replace (length msg - _)%nat with (length p) by lia. by rewrite HT1.
Qed.

(** ** Reading *)

(** The bytes read from the socket and not yet looked at. *)
Definition unread (sb : SocketBuffer) : list byte := take (remaining sb) (drop (offset sb) (buf sb)).

Definition rx_bytes (evs : list RxEvent) : list byte :=
  concat ((fun e => match e with RxData l => l | _ => [] end) <$> evs).

(** The socket delivers data only: no error, no end of stream. *)
Definition delivers (evs : list RxEvent) : Prop :=
  Forall (fun e => exists l, e = RxData l /\ l <> []) evs.

(** What the peer sent that the reader has not consumed. *)
Definition feed (c : LowLevel) : list byte :=
  unread (socket_buffer c) ++ rx_bytes (rx (socket c)).

(** What the reader has consumed of the frame it is in. *)
Definition buffered (im : IncomingMessage) : list byte :=
  if decide (pending_bytes im = 0%nat) then size_bytes im
  else be_bytes 4 (Z.of_nat (length (message im) + pending_bytes im)) ++ message im.

Record sb_ok (sb : SocketBuffer) : Prop := {
  sb_bounds : (offset sb + remaining sb <= length (buf sb))%nat;
  sb_offset : remaining sb = 0%nat -> offset sb = 0%nat;
}.

Lemma wf_sb_ok c : wf c -> sb_ok (socket_buffer c).
Proof. intros []. by split. Qed.

Lemma length_unread sb : sb_ok sb -> length (unread sb) = remaining sb.
Proof. intros []. unfold unread. rewrite length_take, length_drop. lia. Qed.

Lemma shift_spec sb n :
  sb_ok sb -> (n <= remaining sb)%nat ->
  exists sb', shift sb n = Ok sb' /\ sb_ok sb' /\ buf sb' = buf sb /\
    unread sb' = drop n (unread sb) /\ remaining sb' = (remaining sb - n)%nat.
Proof.
  intros [Hb Ho] Hn. unfold shift, unread. rewrite sub_usize_Ok by done. simpl.
  eexists. split; [reflexivity|]. case_decide as Hr; simpl.
  - split; [split; simpl; lia|]. rewrite Hr. split_and!; try done.
    rewrite take_0, drop_ge; [done|]. rewrite length_take. lia.
  - split; [split; simpl; lia|]. split_and!; try done.
    rewrite skipn_firstn_comm. by rewrite drop_drop.
Qed.

Lemma sb_slice_spec sb n :
  sb_ok sb -> (n <= remaining sb)%nat -> sb_slice sb n = Ok (take n (unread sb)).
Proof.
  intros [] ?. unfold sb_slice, unread. rewrite slice_Ok by lia.
  by rewrite take_take, Nat.min_l by lia.
Qed.

(** A step of the reader that consumed input and stayed within one session. *)
Record reads (c c' : LowLevel) : Prop := {
  rd_wf : wf c';
  rd_delivers : delivers (rx (socket c)) -> delivers (rx (socket c'));
  rd_stream : buffered (incoming_msg c') ++ feed c' = buffered (incoming_msg c) ++ feed c;
  rd_session : noise_session c' = noise_session c;
  rd_wire : wire c' = wire c;
}.

Lemma reads_refl c : wf c -> reads c c.
Proof. by split. Qed.

Lemma reads_trans c1 c2 c3 : reads c1 c2 -> reads c2 c3 -> reads c1 c3.
Proof. intros [] []. split; [done|auto|congruence..]. Qed.

Lemma refill_empty c :
  wf c -> rx (socket c) = [] -> remaining (socket_buffer c) = 0%nat ->
  refill c = (Ok (Some WouldBlock), c).
Proof.
  intros W Hrx Hr. pose proof (wf_read_size c W). pose proof noise_lens.
  pose proof (wf_offset c W Hr) as Ho. unfold refill, is_exhausted, read_size in *.
  rewrite bool_decide_eq_false_2 by (rewrite Ho; lia).
  rewrite decide_True by done. simpl. rewrite Ho, sub_usize_Ok by lia.
  unfold sock_read. destruct c as [? ? ? []]; simpl in *. by rewrite Hrx.
Qed.

(** [socket.read] moves bytes from the script to the buffer. *)
Lemma sock_read_data L so l evs :
  rx so = RxData l :: evs -> (0 < L)%nat ->
  exists l1 rest, sock_read L so = (IoOk l1, mkSocket rest (tx_script so) (tx so) (nodelay so)
      (setopt_ok so) (linger so)) /\
    (l <> [] -> l1 <> []) /\ (length l1 <= L)%nat /\ l1 ++ rx_bytes rest = rx_bytes (rx so) /\
    (delivers (rx so) -> delivers rest).
Proof.
  intros E HL. unfold sock_read. rewrite E. case_decide.
  { exists l, evs. split_and!; try done. by intros [_ ?]%Forall_cons_1. }
  exists (take L l), (RxData (drop L l) :: evs). split; [done|]. split.
  { destruct l; [done|]. destruct L; [lia|done]. }
  split; [rewrite length_take; lia|]. split.
  { unfold rx_bytes. simpl. by rewrite app_assoc, take_drop. }
  intros [_ ?]%Forall_cons_1. constructor; [|done]. eexists. split; [done|]. intros Ed.
  apply (f_equal length) in Ed. rewrite length_drop in Ed. simpl in Ed. lia.
Qed.

Lemma wf_not_exhausted c : wf c -> is_exhausted (socket_buffer c) = false.
Proof.
  intros W. destruct W. pose proof noise_lens. unfold is_exhausted, read_size in *.
  apply bool_decide_eq_false_2. lia.
Qed.

Lemma refill_spec c :
  wf c ->
  exists o c', refill c = (o, c') /\ wf c' /\ noise_session c' = noise_session c /\ o <> Panic /\
    (o = Ok None /\ reads c c' /\ feed c' = feed c /\ (0 < remaining (socket_buffer c'))%nat \/
     (o = Ok (Some WouldBlock) \/ o = Ok (Some Closed) \/ o = Err (IoError "read")) /\
     ~ (delivers (rx (socket c)) /\ feed c <> [])).
Proof.
  intros W. unfold refill. rewrite wf_not_exhausted by done.
  pose proof (wf_read_size c W). pose proof noise_lens.
  destruct (decide (remaining (socket_buffer c) = 0%nat)) as [Hr|Hr].
  2:{ exists (Ok None), c. split; [by destruct c as [? ? ? []]|]. split_and!; try done.
      left. split; [done|]. split; [by apply reads_refl|]. split; [done|lia]. }
  pose proof (wf_offset c W Hr) as Ho. rewrite Ho.
  assert (feed c = rx_bytes (rx (socket c))) as Hfc.
  { unfold feed, unread. by rewrite Hr, take_0. }
  destruct c as [so se nb sb im oq ws iw ii sl]; simpl in *. unfold read_size in *. simpl in *.
  rewrite ?Nat.sub_0_r.
  set (c0 := mkLowLevel so se nb sb im oq ws iw ii sl) in *.
  assert (forall so', wf (set_socket so' c0)) as Hwf by (intros so'; by destruct W).
  assert ((forall l evs, rx so = RxData l :: evs -> l = []) ->
    ~ (delivers (rx so) /\ feed c0 <> [])) as Hstop.
  { intros Hx [Hd Hfe]. rewrite Hfc in Hfe. destruct (rx so) as [|e evs]; [done|].
    apply Forall_cons_1 in Hd as [(l & -> & Hl) _]. by rewrite (Hx l evs) in Hl. }
  assert (forall o s', sock_read (length (buf sb)) so = (o, s') -> forall l evs, rx so = RxData l :: evs ->
     exists l1, o = IoOk l1) as Hdata.
  { intros o s' E l evs Erx. destruct (sock_read_data (length (buf sb)) so l evs Erx)
      as (l1 & rest & E' & _); [lia|]. rewrite E' in E. simplify_eq. eauto. }
  destruct (sock_read (length (buf sb)) so) as [o s'] eqn:Er.
  specialize (Hdata o s' eq_refl).
  destruct o as [[|b l1]| |].
  - eexists _, (set_socket s' c0). split; [reflexivity|]. split; [apply Hwf|]. split; [done|].
    split; [done|]. right. split; [by auto|]. apply Hstop.
    intros l evs Erx. destruct (sock_read_data (length (buf sb)) so l evs Erx)
      as (l1 & rest & E' & Hne & _); [lia|]. rewrite Er in E'. simplify_eq.
    destruct l; [done|]. by destruct Hne.
  - destruct (rx so) as [|[l| |] evs] eqn:Erx;
      [by unfold sock_read in Er; rewrite Erx in Er| |by unfold sock_read in Er; rewrite Erx in Er..].
    destruct (sock_read_data (length (buf sb)) so l evs Erx)
      as (l1' & rest & E' & _ & HlL & Hcat & Hdel); [lia|]. rewrite Er in E'. simplify_eq.
    pose proof (take_splice (buf sb) 0 (b :: l1) ltac:(lia)) as Hsp. rewrite take_0 in Hsp.
    assert (length (splice (buf sb) 0 (b :: l1)) = length (buf sb)) as HL' by (by apply length_splice).
    eexists (Ok None), _. split; [reflexivity|].
    match goal with |- wf ?c' /\ _ =>
      assert (wf c') as W';
      [destruct W; split; unfold read_size in *; simpl in *; rewrite ?HL'; try assumption; lia|];
      assert (feed c' = feed c0) as Hfeed end.
    { rewrite Hfc, <- Erx, <- Hcat. unfold feed, unread.
      cbn [set_socket_buffer set_socket socket socket_buffer rx remaining offset buf].
      rewrite drop_0. rewrite Nat.add_0_l in Hsp. by rewrite Hsp. }
    split; [done|]. split; [done|]. split; [done|]. left. split; [done|]. split; [|simpl; split; [done|lia]].
    split; try done. cbn [set_socket_buffer incoming_msg set_socket]. by f_equal.
  - eexists _, (set_socket s' c0). split; [reflexivity|]. split; [apply Hwf|]. split; [done|].
    split; [done|]. right. split; [by auto|]. apply Hstop.
    intros l evs Erx. by destruct (Hdata l evs Erx).
  - eexists _, (set_socket s' c0). split; [reflexivity|]. split; [apply Hwf|]. split; [done|].
    split; [done|]. right. split; [by auto|]. apply Hstop.
    intros l evs Erx. by destruct (Hdata l evs Erx).
Qed.

(** The length prefixes the reader accepts; before the handshake is over
    messages are small. *)
Definition accepts (c : LowLevel) (len : Z) : Prop :=
  0 < len <= PROTOCOL_MAX_MESSAGE_SIZE /\
  (is_post_handshake c = false -> len < HANDSHAKE_SIZE_LIMIT).

Definition lengths_ok (c : LowLevel) (stream : list byte) : Prop :=
  forall l rest, stream = l ++ rest -> length l = PAYLOAD_SIZE -> accepts c (be_value l).

Lemma feed_drop c c' n :
  unread (socket_buffer c') = drop n (unread (socket_buffer c)) ->
  socket c' = socket c -> feed c = take n (unread (socket_buffer c)) ++ feed c'.
Proof. intros E Es. unfold feed. by rewrite E, Es, app_assoc, take_drop. Qed.

Lemma attempt_to_read_length_spec c :
  wf c -> pending_bytes (incoming_msg c) = 0%nat -> (0 < remaining (socket_buffer c))%nat ->
  exists r c', attempt_to_read_length c = (r, c') /\ wf c' /\
    (r = Ok tt /\ reads c c' /\ (length (feed c') < length (feed c))%nat \/
     (exists what, r = bail what) /\
     ~ lengths_ok c (buffered (incoming_msg c) ++ feed c)).
Proof.
  intros W Hpe Hr. pose proof (wf_sb_ok c W) as Hsb.
  pose proof (wf_size_bytes c W) as Hsz. pose proof (wf_message c W) as Hms.
  unfold attempt_to_read_length, mbind, M_bind, get, lift, modify.
  rewrite sub_usize_Ok by lia. set (n := Nat.min _ (PAYLOAD_SIZE - _)).
  rewrite sb_slice_spec by (done || lia).
  destruct (shift_spec (socket_buffer c) n Hsb ltac:(lia))
    as (sb' & Esh & Hsb' & Ebuf & Eun & Erem). rewrite Esh.
  set (bytes := take n (unread (socket_buffer c))) in *.
  assert (length bytes = n) as Hlb.
  { subst bytes. rewrite length_take, length_unread by done. lia. }
  assert (feed c = bytes ++ feed (set_socket_buffer sb' c)) as Hfeed by (by apply feed_drop).
  assert (forall im, (length (size_bytes im) < PAYLOAD_SIZE)%nat ->
    (pending_bytes im <> 0%nat -> size_bytes im = []) ->
    Z.of_nat (length (message im) + pending_bytes im) <= PROTOCOL_MAX_MESSAGE_SIZE ->
    wf (set_socket_buffer sb' (set_incoming im c))) as HW.
  { intros im A1 A2 A3.
    destruct W, Hsb'. split; unfold read_size in *; simpl in *; rewrite ?Ebuf in *; done. }
  assert (forall im, let c' := set_socket_buffer sb' (set_incoming im c) in
    wf c' -> buffered im = size_bytes (incoming_msg c) ++ bytes ->
    reads c c' /\ (length (feed c') < length (feed c))%nat) as HR.
  { intros im c' W' Ebd. change (feed c') with (feed (set_socket_buffer sb' c)).
    split; [|rewrite Hfeed, length_app; lia]. split; simpl; try done.
    rewrite Hfeed, Ebd, <- app_assoc. unfold buffered. by rewrite decide_True. }
  assert (wf (set_socket_buffer sb' (set_incoming
    (mkIncoming [] (pending_bytes (incoming_msg c)) (message (incoming_msg c))) c))) as Wbad.
  { apply HW; [|done|done]. unfold PAYLOAD_SIZE. simpl. lia. }
  case_decide as Hfull.
  - set (v := be_value (size_bytes (incoming_msg c) ++ bytes)).
    assert (~ accepts c v -> ~ lengths_ok c (buffered (incoming_msg c) ++ feed c)) as Hbad.
    { intros Hna Hok. apply Hna.
      apply (Hok _ (feed (set_socket_buffer sb' c))); [|exact Hfull].
      rewrite Hfeed at 1. unfold buffered. by rewrite decide_True, <- app_assoc. }
    destruct (Z.eqb_spec v 0) as [Hv0|Hv0].
    { eexists _, _. split; [reflexivity|]. split; [exact Wbad|]. right. split; [by eexists|].
      apply Hbad. unfold accepts. lia. }
    destruct (negb (is_post_handshake c) && (HANDSHAKE_SIZE_LIMIT <=? v)) eqn:Hlim.
    { eexists _, _. split; [reflexivity|]. split; [exact Wbad|]. right. split; [by eexists|].
      apply Hbad. bool_hyps. unfold accepts. intros [_ HH]. specialize (HH ltac:(done)). lia. }
    destruct (Z.ltb_spec PROTOCOL_MAX_MESSAGE_SIZE v).
    { eexists _, _. split; [reflexivity|]. split; [exact Wbad|]. right. split; [by eexists|].
      apply Hbad. unfold accepts. lia. }
    pose proof (be_value_bound (size_bytes (incoming_msg c) ++ bytes)) as Hvb. fold v in Hvb.
    assert (wf (set_socket_buffer sb' (set_incoming (mkIncoming [] (Z.to_nat v) []) c))).
    { apply HW; simpl; [unfold PAYLOAD_SIZE; lia|done|lia]. }
    eexists _, _. split; [reflexivity|]. split; [done|]. left. split; [done|].
    apply (HR (mkIncoming [] (Z.to_nat v) [])); [done|]. unfold buffered. cbn [pending_bytes message size_bytes length Nat.add].
    rewrite decide_False by lia. rewrite Z2Nat.id by lia.
    rewrite app_nil_r. change 4%nat with PAYLOAD_SIZE. rewrite <- Hfull. apply be_bytes_value.
  - rewrite length_app in Hfull.
    assert (wf (set_socket_buffer sb' (set_incoming (mkIncoming
      (size_bytes (incoming_msg c) ++ bytes) (pending_bytes (incoming_msg c))
      (message (incoming_msg c))) c))).
    { apply HW; simpl; [rewrite length_app; lia|intros; congruence|done]. }
    eexists _, _. split; [reflexivity|]. split; [done|]. left. split; [done|].
    apply HR; [done|]. unfold buffered. cbn [pending_bytes size_bytes]. by rewrite decide_True.
Qed.

(** A step of the reader that completed the frame of [cipher]. *)
Record completes (c : LowLevel) (cipher : list byte) (s' : Session) (c' : LowLevel) : Prop := {
  cp_wf : wf c';
  cp_delivers : delivers (rx (socket c)) -> delivers (rx (socket c'));
  cp_stream : frame cipher ++ feed c' = buffered (incoming_msg c) ++ feed c;
  cp_buffered : buffered (incoming_msg c') = [];
  cp_size : Z.of_nat (length cipher) <= PROTOCOL_MAX_MESSAGE_SIZE;
  cp_session : noise_session c' = s';
  cp_wire : wire c' = wire c;
}.

Lemma process_incoming_msg_spec request c :
  wf c -> is_post_handshake c = true ->
  pending_bytes (incoming_msg c) <> 0%nat ->
  let im := incoming_msg c in
  let rem := remaining (socket_buffer c) in
  (exists c', (rem < pending_bytes im)%nat /\
     process_incoming_msg request c = (Ok Incomplete, c') /\ reads c c' /\
     (length (feed c') + rem = length (feed c))%nat) \/
  (let cipher := message im ++ take (pending_bytes im) (unread (socket_buffer c)) in
   let '(r, s') := recv_all (noise_session c) cipher in
   exists c', (pending_bytes im <= rem)%nat /\
     process_incoming_msg request c = (Complete <$> r, c') /\ completes c cipher s' c' /\
     (length (feed c') < length (feed c))%nat).
Proof.
  intros W Hp Hpe im rem. pose proof (wf_sb_ok c W) as Hsb.
  pose proof (length_unread _ Hsb) as Hlu. pose proof (wf_pending c W Hpe) as Hs0.
  pose proof (wf_message c W) as Hm. fold im in Hpe, Hs0, Hm.
  unfold process_incoming_msg, mbind, M_bind, get, lift, modify. fold im.
  set (to_read := Nat.min (pending_bytes im) _).
  rewrite sb_slice_spec, sub_usize_Ok by (done || lia). rewrite Hp.
  destruct (shift_spec (socket_buffer c) to_read Hsb ltac:(lia))
    as (sb' & Esh & Hsb' & Ebuf & Eun & Erem). rewrite Esh.
  set (bytes := take to_read (unread (socket_buffer c))).
  assert (length bytes = to_read) as Hlb.
  { subst bytes. rewrite length_take. lia. }
  assert (forall im', let c' := set_socket_buffer sb' (set_incoming im' c) in
    size_bytes im' = [] -> length (message im') + pending_bytes im'
      = length (message im) + pending_bytes im \/ message im' = [] /\ pending_bytes im' = 0 ->
    wf c' /\ feed c = bytes ++ feed c')%nat as HW.
  { intros im' c' E1 E2. split; [|by apply feed_drop].
    destruct W, Hsb'. split; unfold read_size in *; simpl in *; rewrite ?Ebuf in *; try done.
    - rewrite E1. unfold PAYLOAD_SIZE. simpl. lia.
    - destruct E2 as [->|[-> ->]]; [done|]. unfold PROTOCOL_MAX_MESSAGE_SIZE. simpl. lia. }
  assert (buffered im = be_bytes 4 (Z.of_nat (length (message im) + pending_bytes im)) ++ message im)
    as Hbuf by (unfold buffered; by rewrite decide_False).
  case_decide as Hdone.
  - right. assert (to_read = pending_bytes im) as Etr by lia.
    replace (take (pending_bytes im) (unread (socket_buffer c))) with bytes
      by (subst bytes; by rewrite Etr).
    set (cipher := message im ++ bytes).
    set (c1 := set_socket_buffer sb' (set_incoming (mkIncoming (size_bytes im) (pending_bytes im - to_read) cipher) c)).
    pose proof (decrypt_spec c1 (wf_noise_buffer c W)) as HD.
    cbn zeta in HD. change (noise_session c1) with (noise_session c) in HD.
    change (message (incoming_msg c1)) with cipher in HD.
    destruct (recv_all (noise_session c) cipher) as [r s'].
    destruct HD as (nb & Hnb & ED). cbn [negb]. fold cipher.
    fold c1. cbn beta iota. rewrite ED.
    eexists. split; [lia|]. split; [by destruct r|].
    destruct (HW (mkIncoming (size_bytes im) (pending_bytes im - to_read) [])) as [W' Hfeed];
      [done|right; split; [done|simpl; lia]|].
    assert (length cipher = length (message im) + pending_bytes im)%nat as Hlc.
    { subst cipher. rewrite length_app. lia. }
    split. 2:{ rewrite Hfeed, length_app. change (feed _) with
      (feed (set_socket_buffer sb' (set_incoming (mkIncoming (size_bytes im) (pending_bytes im - to_read) []) c))) at 1. lia. }
    split; try done; simpl.
    + destruct W'; split; done.
    + fold im. rewrite Hfeed, Hbuf. unfold frame. rewrite Hlc. subst cipher. by rewrite <- !app_assoc.
    + unfold buffered. simpl. by rewrite decide_True, Hs0 by lia.
    + lia.
  - left. eexists. split; [lia|]. split; [reflexivity|].
    destruct (HW (mkIncoming (size_bytes im) (pending_bytes im - to_read) (message im ++ bytes)))
      as [W' Hfeed]; [done|left; simpl; rewrite length_app; lia|].
    split. 2:{ rewrite Hfeed, length_app. simpl. lia. }
    split; try done; simpl. fold im. rewrite Hfeed, Hbuf. unfold buffered.
    cbn [pending_bytes message size_bytes]. rewrite decide_False by lia. rewrite length_app, <- !app_assoc.
    do 2 f_equal. lia.
Qed.

Lemma is_post_handshake_session c c' :
  noise_session c' = noise_session c -> is_post_handshake c' = is_post_handshake c.
Proof. intros E. unfold is_post_handshake. by rewrite E. Qed.

Definition lengths_ok_here (c : LowLevel) : Prop :=
  lengths_ok c (buffered (incoming_msg c) ++ feed c).

(** One call of [read_from_socket] once the socket buffer holds input. *)
Lemma read_rest_step request c1 :
  wf c1 -> is_post_handshake c1 = true -> (0 < remaining (socket_buffer c1))%nat ->
  exists r c', ((if decide (pending_bytes (incoming_msg c1) = 0%nat)
       then attempt_to_read_length else mret tt) ≫= fun _ =>
      c' ← get;
      if decide (pending_bytes (incoming_msg c') = 0%nat) then mret Incomplete
      else process_incoming_msg request) c1 = (r, c') /\ wf c' /\
  ((exists what, r = bail what) /\ ~ lengths_ok_here c1 \/
   (length (feed c') < length (feed c1))%nat /\
   (r = Ok Incomplete /\ reads c1 c' \/
    exists cipher, let '(o, s') := recv_all (noise_session c1) cipher in
      r = Complete <$> o /\ completes c1 cipher s' c')).
Proof.
  intros W1 Hp Hr1.
  assert (exists r c2, (if decide (pending_bytes (incoming_msg c1) = 0%nat)
    then attempt_to_read_length else mret tt) c1 = (r, c2) /\ wf c2 /\
    (r = Ok tt /\ reads c1 c2 /\
      (c2 = c1 /\ pending_bytes (incoming_msg c1) <> 0%nat \/ length (feed c2) < length (feed c1))%nat \/
     (exists what, r = bail what) /\ ~ lengths_ok_here c1)) as (r2 & c2 & E2 & W2 & HC).
  { case_decide as Hpe.
    - destruct (attempt_to_read_length_spec c1) as (r & c2 & E & W2 & HC); try done.
      exists r, c2. unfold lengths_ok_here. naive_solver.
    - eexists _, c1. split; [reflexivity|]. split; [done|].
      left. split; [done|]. split; [by apply reads_refl|]. by left. }
  unfold mbind, M_bind, get. rewrite E2.
  destruct HC as [(-> & R2 & L2)|[[what ->] Hbad]].
  2:{ eexists _, _. split; [reflexivity|]. split; [done|]. left. split; [by eexists|done]. }
  destruct (decide (pending_bytes (incoming_msg c2) = 0%nat)) as [Hpe2|Hpe2].
  { eexists _, _. split; [reflexivity|]. split; [done|]. right.
    destruct L2 as [[-> ?]|?]; [done|]. auto. }
  destruct (process_incoming_msg_spec request c2) as [(c3 & ? & E3 & R3 & L3)|HC]; try done.
  { rewrite (is_post_handshake_session c1); [done|apply R2]. }
  - eexists _, c3. split; [exact E3|]. split; [apply R3|]. right. split.
    + destruct L2 as [[-> ?]|?]; lia.
    + left. split; [done|]. by eapply reads_trans.
  - cbn zeta in HC. rewrite (rd_session _ _ R2) in HC.
    set (cipher := message (incoming_msg c2) ++ _) in HC.
    destruct (recv_all _ cipher) as [r s'] eqn:Erecv. destruct HC as (c3 & ? & E3 & C3 & L3).
    eexists _, c3. split; [exact E3|]. split; [apply C3|]. right.
    split; [destruct L2 as [[-> ?]|?]; lia|]. right. exists cipher. rewrite Erecv.
    split; [done|]. destruct C3; split; try done.
    + intros. apply cp_delivers0. by apply R2.
    + by rewrite cp_stream0, (rd_stream _ _ R2).
    + by rewrite cp_wire0, (rd_wire _ _ R2).
Qed.

Lemma read_from_socket_step request c :
  wf c -> delivers (rx (socket c)) -> is_post_handshake c = true -> feed c <> [] ->
  lengths_ok_here c ->
  exists r c', read_from_socket request c = (r, c') /\
   (length (feed c') < length (feed c))%nat /\
   (r = Ok Incomplete /\ reads c c' \/
    exists cipher, let '(o, s') := recv_all (noise_session c) cipher in
      r = Complete <$> o /\ completes c cipher s' c').
Proof.
  intros W Hd Hp Hf Hok.
  destruct (refill_spec c W) as (o & c1 & E1 & _ & _ & _ & [(-> & R1 & F1 & Hr1)|[_ []]]); [|done].
  assert (is_post_handshake c1 = true) as Hp1.
  { rewrite (is_post_handshake_session c); [done|apply R1]. }
  destruct (read_rest_step request c1 (rd_wf _ _ R1) Hp1 Hr1) as (r & c' & E & W' & HC).
  exists r, c'. split.
  { unfold read_from_socket. unfold mbind at 1, M_bind at 1. by rewrite E1. }
  destruct HC as [[_ Hbad]|[HL HC]].
  { destruct Hbad. unfold lengths_ok_here, lengths_ok, accepts in *.
    by rewrite (rd_stream _ _ R1), Hp1, <- Hp. }
  rewrite F1 in HL. split; [done|].
  destruct HC as [[-> HR]|[cipher HC]]; [left|right].
  - split; [done|]. by eapply reads_trans.
  - exists cipher. rewrite (rd_session _ _ R1) in HC. destruct (recv_all _ cipher) as [o s'].
    destruct HC as [-> []]. split; [done|]. split; try done.
    + intros. apply cp_delivers0. by apply R1.
    + by rewrite cp_stream0, (rd_stream _ _ R1).
    + by rewrite cp_wire0, (rd_wire _ _ R1).
Qed.
End facts.
