(* ===== verification/LowLevelProps.v ===== *)
(** * Correctness of the low level of a connection

    The theorems about [LowLevel]: what is written to a connection is a
    sequence of frames, each of which decrypts to the message that was
    written; the reader recovers the messages from the byte stream however the
    operating system cuts it up; no input makes the reader panic.  The last
    part is about the noise handshake. *)

From stdpp Require Import base tactics list gmap strings option numbers.
From Stdlib Require Import ZArith.
From S2P Require Import Prelude LowLevel LowLevelFacts.

(** ** A noise session that does not encrypt

    An instance of the interface, used to evaluate the model: every message
    of at least 16 bytes is accepted as it is. *)
Module Toy.

Definition exchange (s : bool * nat) (b : list byte) : bool * list byte * (bool * nat) :=
  if decide (16 <= length b)%nat then (true, b, (s.1, S s.2)) else (false, b, s).

#[export] Instance noise : Noise := {|
  Session := bool * nat;
  Keypair := unit;
  DHLEN := 32;
  MAC_LENGTH := 16;
  init_session := fun i _ _ => (i, 0%nat);
  is_initiator := fst;
  get_message_count := snd;
  send_message := exchange;
  recv_message := exchange;
|}.

#[export] Instance laws : NoiseLaws.
Proof.
  split; try done; simpl; unfold exchange; intros; by case_decide; simplify_eq.
Qed.

#[export] Instance transport : NoiseTransport.
Proof.
  refine {| in_sync := fun _ _ _ => True |}.
  intros k s r plain room _ Hr _. simpl in *. unfold exchange.
  rewrite decide_True by (rewrite length_app; lia).
  eexists _, _, room, _. split; [reflexivity|].
  rewrite decide_True by (rewrite length_app; lia). done.
Defined.

(** A connection past the handshake with the given socket. *)
Definition established (s : Socket) : LowLevel :=
  @set_session noise (false, 3%nat)
    (@new noise s false tt None NOISE_MAX_MESSAGE_LEN NOISE_MAX_MESSAGE_LEN).

Lemma wf_established s : wf (established s).
Proof.
  destruct (@wf_new noise s false tt None NOISE_MAX_MESSAGE_LEN NOISE_MAX_MESSAGE_LEN);
    [lia..|]. by split.
Qed.

(** A socket that will deliver the given pieces. *)
Definition delivering (pieces : list (list byte)) : Socket :=
  mkSocket (RxData <$> pieces) [] [] false true None.

End Toy.

Section props.
Context `{Noise} `{VecDequeLayout} `{!NoiseLaws}.

(** ** Streams of frames *)

Definition valid_cipher (cipher : list byte) : Prop :=
  0 < Z.of_nat (length cipher) <= PROTOCOL_MAX_MESSAGE_SIZE.

(** [tail] is the beginning of a frame that is still to be completed. *)
Definition partial_frame (tail : list byte) : Prop :=
  exists cipher rest, valid_cipher cipher /\ rest <> [] /\ tail ++ rest = frame cipher.

(** Receiving a sequence of cipher texts. *)
Inductive receives : Session -> list (list byte) -> list (list byte) -> Session -> Prop :=
| receives_nil s : receives s [] [] s
| receives_cons s cipher plain s1 ciphers plains s2 :
    recv_all s cipher = (Ok plain, s1) -> receives s1 ciphers plains s2 ->
    receives s (cipher :: ciphers) (plain :: plains) s2.

(** Handling a sequence of messages. *)
Fixpoint process_all {St} (process : list byte -> M St unit) (msgs : list (list byte))
    : M St unit :=
  match msgs with
  | [] => mret tt
  | m :: msgs' => process m ≫= fun _ => process_all process msgs'
  end.

Lemma frame_app_inj a b x y :
  valid_cipher a -> valid_cipher b -> frame a ++ x = frame b ++ y -> a = b /\ x = y.
Proof.
  unfold valid_cipher, frame, PROTOCOL_MAX_MESSAGE_SIZE. intros Ha Hb E.
  rewrite <- !app_assoc in E. apply app_inj_1 in E as [E1 E2]; [|by rewrite !length_be_bytes].
  apply (f_equal be_value) in E1. rewrite !be_value_bytes in E1.
  rewrite !Z.mod_small in E1 by lia. apply app_inj_1 in E2; [done|lia].
Qed.

Lemma valid_frame_prefix l rest cipher x :
  valid_cipher cipher -> length l = 4%nat -> l ++ rest = frame cipher ++ x ->
  be_value l = Z.of_nat (length cipher).
Proof.
  unfold valid_cipher, frame, PROTOCOL_MAX_MESSAGE_SIZE. intros Hv Hl E.
  rewrite <- app_assoc in E. apply app_inj_1 in E as [-> _]; [|by rewrite length_be_bytes].
  rewrite be_value_bytes, Z.mod_small; lia.
Qed.

Definition stream_of (ciphers : list (list byte)) : list byte := concat (frame <$> ciphers).

(** A stream of frames starts with a frame, once it is continued. *)
Lemma stream_head ciphers tail :
  Forall valid_cipher ciphers -> partial_frame tail ->
  exists cipher rest more, valid_cipher cipher /\ rest <> [] /\
    (stream_of ciphers ++ tail) ++ rest = frame cipher ++ more /\
    (ciphers = [] /\ more = [] \/
     exists cs, ciphers = cipher :: cs /\ more = (stream_of cs ++ tail) ++ rest).
Proof.
  intros Hv (c0 & rest & Hc0 & Hr & E). destruct ciphers as [|c cs].
  - exists c0, rest, []. rewrite app_nil_r. simpl. naive_solver.
  - apply Forall_cons_1 in Hv as [Hc Hv].
    exists c, rest, ((stream_of cs ++ tail) ++ rest). split_and!; try done.
    + unfold stream_of. simpl. by rewrite !app_assoc.
    + right. by exists cs.
Qed.

Lemma stream_lengths_ok c ciphers tail :
  is_post_handshake c = true ->
  Forall valid_cipher ciphers -> partial_frame tail ->
  lengths_ok c (stream_of ciphers ++ tail).
Proof.
  intros Hp Hv Ht l rest E Hl.
  destruct (stream_head ciphers tail Hv Ht) as (c0 & suffix & more & Hc0 & _ & E' & _).
  rewrite E, <- app_assoc in E'. split; [|by rewrite Hp].
  rewrite (valid_frame_prefix l _ c0 _ Hc0 Hl E'). apply Hc0.
Qed.

(** What is buffered is less than a frame. *)
Lemma buffered_stream c ciphers tail :
  wf c -> Forall valid_cipher ciphers -> partial_frame tail ->
  buffered (incoming_msg c) = stream_of ciphers ++ tail -> ciphers = [] /\ buffered (incoming_msg c) = tail.
Proof.
  intros W Hv Ht E. destruct (stream_head ciphers tail Hv Ht)
    as (c0 & suffix & more & Hc0 & Hs & E' & [[-> _]|(cs & -> & Em)]); [done|].
  exfalso. rewrite <- E in E'. unfold buffered in E'. case_decide as Hpe.
  - pose proof (wf_size_bytes c W). unfold buffered in E. rewrite decide_True in E by done.
    apply (f_equal length) in E. unfold stream_of, frame in E. simpl in E.
    rewrite !length_app in E. simpl in E. unfold PAYLOAD_SIZE in *. lia.
  - pose proof (wf_message c W) as Hm.
    assert (valid_cipher c0) as Hc0' by done.
    rewrite <- !app_assoc in E'.
    assert (length (message (incoming_msg c)) + pending_bytes (incoming_msg c) = length c0)%nat as HL.
    { apply (valid_frame_prefix _ _ c0) in E'; [|done|by rewrite length_be_bytes].
      rewrite be_value_bytes, Z.mod_small in E'; [lia|].
      unfold PROTOCOL_MAX_MESSAGE_SIZE in Hm. lia. }
    apply (f_equal length) in E. unfold buffered in E. rewrite decide_False in E by done.
    unfold stream_of in E. simpl in E. unfold frame in E at 1.
    rewrite !length_app in E. simpl in E. lia.
Qed.

(** ** Reading *)

Definition post_handshake_session (s : Session) : bool :=
  if is_initiator s then bool_decide (1 < get_message_count s)%nat
  else bool_decide (2 < get_message_count s)%nat.

Lemma recv_chunks_post n : forall s cipher plain s',
  recv_chunks n s cipher = (Ok plain, s') ->
  post_handshake_session s = true -> post_handshake_session s' = true.
Proof.
  induction n as [|n IH]; intros s cipher plain s' E Hp; cbn [recv_chunks] in E; [by simplify_eq|].
  destruct (recv_message s _) as [[ok out] s1] eqn:ER. destruct ok; [|done].
  destruct (recv_chunks n s1 _) as [[p| |] s2] eqn:EC; simplify_eq/=.
  eapply IH; [exact EC|]. revert Hp. unfold post_handshake_session.
  rewrite (recv_role _ _ _ _ _ ER), (recv_count _ _ _ _ ER).
  case_match; rewrite !bool_decide_eq_true; lia.
Qed.

Lemma delivers_feed_nil c :
  wf c -> delivers (rx (socket c)) -> feed c = [] ->
  rx (socket c) = [] /\ remaining (socket_buffer c) = 0%nat.
Proof.
  intros W Hd Hf. unfold feed in Hf. apply app_nil in Hf as [Hu Hx]. split.
  - destruct (rx (socket c)) as [|e evs]; [done|].
    apply Forall_cons_1 in Hd as [(l & -> & Hl) _]. unfold rx_bytes in Hx. simpl in Hx.
    by apply app_nil in Hx as [? _].
  - apply (f_equal length) in Hu. by rewrite length_unread in Hu by (by apply wf_sb_ok).
Qed.

Lemma read_stream_frames {St} (request : St -> outcome (list byte)) process tail h' s' :
  partial_frame tail ->
  forall fuel c (h : St) ciphers plains,
  wf c -> delivers (rx (socket c)) -> is_post_handshake c = true ->
  Forall valid_cipher ciphers ->
  buffered (incoming_msg c) ++ feed c = stream_of ciphers ++ tail ->
  receives (noise_session c) ciphers plains s' ->
  process_all process plains h = (Ok tt, h') ->
  (length (feed c) < fuel)%nat ->
  exists c', read_stream request process fuel (c, h) = (Ok true, (c', h')) /\
    wf c' /\ feed c' = [] /\ buffered (incoming_msg c') = tail /\
    noise_session c' = s' /\ wire c' = wire c.
Proof.
  intros Ht. induction fuel as [|fuel IH]; intros c h ciphers plains W Hd Hp Hv HS HR HP Hf; [lia|].
  cbn [read_stream]. destruct (decide (feed c = [])) as [Ef|Ef].
  { destruct (delivers_feed_nil c W Hd Ef) as [Hrx Hrem].
    unfold read_from_socket. unfold mbind at 1, M_bind at 1.
    rewrite refill_empty by done. rewrite Ef, app_nil_r in HS.
    destruct (buffered_stream c ciphers tail W Hv Ht HS) as [-> Hb].
    inversion HR; subst. injection HP as <-. exists c. by split_and!. }
  destruct (read_from_socket_step (request h) c W Hd Hp Ef) as (r & c1 & E1 & L1 & HC).
  { unfold lengths_ok_here. rewrite HS. by apply stream_lengths_ok. }
  rewrite E1. destruct HC as [[-> R1]|(cipher & HC)].
  { destruct (IH c1 h ciphers plains) as (c' & ? & ? & ? & ? & ? & EW); try apply R1; try done.
    - by rewrite (is_post_handshake_session c) by apply R1.
    - by rewrite (rd_stream _ _ R1).
    - by rewrite (rd_session _ _ R1).
    - lia.
    - exists c'. rewrite EW. split_and!; try done. apply R1. }
  destruct (recv_all (noise_session c) cipher) as [o s1] eqn:Erecv. destruct HC as [-> C1].
  destruct (stream_head ciphers tail Hv Ht)
    as (c0 & suffix & more & Hc0 & Hs & E' & HM).
  rewrite <- HS, <- (cp_stream _ _ _ _ C1), <- app_assoc in E'.
  assert (valid_cipher cipher) as Hvc.
  { pose proof (cp_size _ _ _ _ C1) as Hsz. split; [|done].
    unfold frame in E' at 1. rewrite <- app_assoc in E'.
    apply (valid_frame_prefix _ _ c0) in E'; [|done|by rewrite length_be_bytes].
    rewrite be_value_bytes, Z.mod_small in E' by (unfold PROTOCOL_MAX_MESSAGE_SIZE in *; lia).
    destruct Hc0. lia. }
  apply frame_app_inj in E' as [-> Em]; [|done..].
  destruct HM as [[-> ->]|(cs & -> & ->)]; [by apply app_nil in Em as [_ ->]|].
  apply app_inj_2 in Em as [Efeed _]; [|done].
  inversion HR as [|? ? plain s2 ? plains' ? ER HR']; subst. rewrite Erecv in ER.
  injection ER as -> ->. cbn [process_all] in HP. unfold mbind, M_bind in HP.
  cbn [fmap outcome_fmap]. destruct (process plain h) as [[[]| |] h1] eqn:EP; [|done..].
  apply Forall_cons_1 in Hv as [_ Hv].
  destruct (IH c1 h1 cs plains') as (c' & ? & ? & ? & ? & ? & EW); try apply C1; try done.
  - unfold is_post_handshake. rewrite (cp_session _ _ _ _ C1).
    by eapply (recv_chunks_post _ (noise_session c)).
  - by rewrite (cp_buffered _ _ _ _ C1).
  - by rewrite (cp_session _ _ _ _ C1).
  - lia.
  - exists c'. rewrite EW. split_and!; try done. apply C1.
Qed.

(** No input makes the reader panic: one call, whatever the socket answers. *)
Lemma recv_chunks_no_panic n : forall s cipher, (recv_chunks n s cipher).1 <> Panic.
Proof.
  induction n as [|n IH]; intros s cipher; cbn [recv_chunks]; [done|].
  destruct (recv_message s _) as [[[] out] s1]; [|done].
  specialize (IH s1 (drop NOISE_MAX_MESSAGE_LEN cipher)).
  by destruct (recv_chunks n s1 _) as [[| |] ?].
Qed.

Lemma read_from_socket_any request c :
  wf c -> is_post_handshake c = true ->
  exists r c', read_from_socket request c = (r, c') /\ wf c' /\ r <> Panic /\
    (r = Ok Incomplete \/ (exists m, r = Ok (Complete m)) ->
     is_post_handshake c' = true /\ (length (feed c') < length (feed c))%nat).
Proof.
  intros W Hp.
  destruct (refill_spec c W) as (o & c1 & E1 & W1 & Es & Hnp & HC).
  unfold read_from_socket. unfold mbind at 1, M_bind at 1. rewrite E1.
  destruct HC as [(-> & R1 & F1 & Hr1)|[Ho _]].
  - assert (is_post_handshake c1 = true) as Hp1 by (by rewrite (is_post_handshake_session c)).
    destruct (read_rest_step request c1 W1 Hp1 Hr1) as (r & c' & E & W' & HC).
    exists r, c'. split; [exact E|]. split; [done|]. rewrite <- F1.
    destruct HC as [[[what ->] _]|[HL [[-> R2]|[cipher HC]]]].
    + split; [done|]. intros [?|[? ?]]; done.
    + split; [done|]. intros _. split; [|done].
      by rewrite (is_post_handshake_session c1) by apply R2.
    + pose proof (recv_chunks_no_panic (cipher_chunks (length cipher)) (noise_session c1) cipher).
      destruct (recv_all (noise_session c1) cipher) as [ro s'] eqn:Er. unfold recv_all in Er.
      rewrite Er in H2. destruct HC as [-> C2]. split; [by destruct ro|].
      intros Hr. split; [|done]. destruct ro as [m|e|]; [|destruct Hr as [?|[? ?]]; done|done].
      unfold is_post_handshake. rewrite (cp_session _ _ _ _ C2).
      by eapply (recv_chunks_post _ (noise_session c1)).
  - destruct Ho as [->|[->| ->]]; eexists _, c1; (split; [reflexivity|]);
      (split; [done|]); (split; [done|]); by intros [?|[? ?]].
Qed.

(** ** Writing *)

Fixpoint write_all (msgs : list (list byte)) : M LowLevel unit :=
  match msgs with
  | [] => mret tt
  | m :: msgs' => write_to_socket m ≫= fun _ => write_all msgs'
  end.

(** A message the peer accepts: not empty, and at most 20 MiB encrypted. *)
Definition sendable (m : list byte) : Prop :=
  m <> [] /\ Z.of_nat (full_len (length m)) <= PROTOCOL_MAX_MESSAGE_SIZE.

Definition chunks_needed (msgs : list (list byte)) : nat :=
  sum_list ((fun m => num_chunks (length m)) <$> msgs).

Context `{!NoiseTransport}.

Lemma full_len_pos n : (0 < n)%nat -> (0 < full_len n)%nat.
Proof.
  intros. pose proof noise_lens. destruct (decide (NOISE_MAX_PAYLOAD_LEN <= n)%nat).
  - destruct (chunks_full n) as [_ ->]; lia.
  - destruct (chunks_small n) as [_ ->]; lia.
Qed.

Lemma encrypt_and_enqueue_spec k input c r :
  wf c -> tx_no_error (socket c) -> Z.of_nat (full_len (length input)) < 2 ^ 32 ->
  in_sync (num_chunks (length input) + k) (noise_session c) r ->
  exists c' cipher r', encrypt_and_enqueue input c = (Ok tt, c') /\
    wf c' /\ input_unchanged c c' /\ tx_no_error (socket c') /\
    wire c' = wire c ++ frame cipher /\ length cipher = full_len (length input) /\
    recv_all r cipher = (Ok input, r') /\ in_sync k (noise_session c') r'.
Proof.
  intros W Ht HL Hs. unfold encrypt_and_enqueue, mbind, M_bind, get, modify.
  fold (full_len (length input)). rewrite wrap_small by (unfold in_u; lia).
  set (c1 := set_output_queue _ c).
  assert (wf c1) as W1 by (by destruct W).
  destruct (encrypt_loop_spec k input (S (length input)) 0 c1 r W1)
    as (c' & cipher & r' & E & W' & [? ? ? ?] & T' & Wi & L & D & Sy); rewrite ?Nat.sub_0_r; [lia|lia|done|done|].
  rewrite Nat.sub_0_r in L. rewrite drop_0 in D.
  exists c', cipher, r'. split; [exact E|]. split; [done|]. split; [done|]. split; [done|].
  split. { rewrite Wi. unfold wire, frame. simpl. by rewrite L, <- !app_assoc. }
  split; [done|]. split; [by apply decrypts_recv_all|done].
Qed.

Lemma write_all_spec k msgs : forall c r,
  wf c -> tx_no_error (socket c) -> Forall sendable msgs ->
  in_sync (chunks_needed msgs + k) (noise_session c) r ->
  exists c' ciphers r', write_all msgs c = (Ok tt, c') /\ wf c' /\
    wire c' = wire c ++ stream_of ciphers /\ Forall valid_cipher ciphers /\
    receives r ciphers msgs r' /\ in_sync k (noise_session c') r'.
Proof.
  induction msgs as [|m msgs IH]; intros c r W Ht Hm Hs.
  { exists c, [], r. rewrite app_nil_r. split_and!; try done. constructor. }
  apply Forall_cons_1 in Hm as [[Hne Hsz] Hm].
  unfold chunks_needed in Hs. simpl in Hs. rewrite <- Nat.add_assoc in Hs.
  assert (Z.of_nat (full_len (length m)) < 2 ^ 32) as Hsz'.
  { unfold PROTOCOL_MAX_MESSAGE_SIZE in Hsz. lia. }
  destruct (encrypt_and_enqueue_spec _ m c r W Ht Hsz' Hs)
    as (c1 & ci & r1 & E1 & W1 & _ & T1 & Wi1 & L1 & R1 & Sy1).
  destruct (IH c1 r1 W1 T1 Hm Sy1) as (c2 & cs & r2 & E2 & W2 & Wi2 & V2 & R2 & Sy2).
  exists c2, (ci :: cs), r2. split.
  { cbn [write_all]. unfold write_to_socket, mbind, M_bind. by rewrite E1. }
  split; [done|]. split.
  { rewrite Wi2, Wi1, <- app_assoc. done. }
  split; [|split; [by econstructor|done]]. constructor; [|done].
  assert (0 < length m)%nat as Hpos by (destruct m; [congruence|simpl; lia]).
  pose proof (full_len_pos (length m) Hpos). split; rewrite L1; lia.
Qed.

Lemma partial_frame_nil : partial_frame [].
Proof. exists [Byte.x00], (frame [Byte.x00]). by split. Qed.

(** ** Properties *)

(** C1: end-to-end delivery.  Writing a list of messages to one end of an
    established connection puts some bytes on the wire; whatever pieces the
    other end's socket delivers them in, [read_stream] hands over exactly these
    messages, in order, consumes every byte, and leaves the two sessions in
    step.  Fuel of one more than the bytes delivered is enough. *)
Theorem messages_delivered k msgs c r :
  wf c -> tx_no_error (socket c) -> Forall sendable msgs ->
  in_sync (chunks_needed msgs + k) (noise_session c) r ->
  exists c' sent, write_all msgs c = (Ok tt, c') /\ wire c' = wire c ++ sent /\
    forall St (request : St -> outcome (list byte)) process (h h' : St) d,
      wf d -> is_post_handshake d = true -> noise_session d = r ->
      delivers (rx (socket d)) -> buffered (incoming_msg d) = [] -> feed d = sent ->
      process_all process msgs h = (Ok tt, h') ->
      exists d', read_stream request process (S (length sent)) (d, h) = (Ok true, (d', h')) /\
        wf d' /\ feed d' = [] /\ buffered (incoming_msg d') = [] /\
        in_sync k (noise_session c') (noise_session d').
Proof.
  intros W Ht Hm Hs.
  destruct (write_all_spec k msgs c r W Ht Hm Hs) as (c' & cs & r' & E & W' & Wi & V & R & Sy).
  exists c', (stream_of cs). split; [done|]. split; [done|].
  intros St request process h h' d Wd Hp Hsd Hd Hb Hf HP.
  destruct (read_stream_frames request process [] h' r' partial_frame_nil
    (S (length (stream_of cs))) d h cs msgs) as (d' & ? & ? & ? & ? & Hd' & _); try done.
  - by rewrite Hb, Hf, app_nil_r.
  - by rewrite Hsd.
  - rewrite Hf. lia.
  - exists d'. rewrite Hd'. done.
Qed.

(** C7: reassembly.  From any state of the reader, if what it has buffered and
    what the socket will deliver is a sequence of frames followed by an
    incomplete one, then [read_stream] decrypts and processes the complete
    frames in order, returns that the connection is open, and has buffered
    exactly the incomplete one. *)
Theorem read_stream_reassembles {St} (request : St -> outcome (list byte)) process
    tail c (h h' : St) ciphers plains s' :
  wf c -> delivers (rx (socket c)) -> is_post_handshake c = true ->
  Forall valid_cipher ciphers -> partial_frame tail ->
  buffered (incoming_msg c) ++ feed c = stream_of ciphers ++ tail ->
  receives (noise_session c) ciphers plains s' ->
  process_all process plains h = (Ok tt, h') ->
  exists c', read_stream request process (S (length (feed c))) (c, h) = (Ok true, (c', h')) /\
    wf c' /\ feed c' = [] /\ buffered (incoming_msg c') = tail /\
    noise_session c' = s' /\ wire c' = wire c.
Proof. intros. eapply read_stream_frames; eauto. Qed.

(** C25: no input panics.  Past the handshake, whatever the socket answers
    (data, end of stream, errors, in any order), [read_stream] terminates with
    fuel of one more than the bytes delivered and never panics, unless
    processing a message does. *)
Theorem read_stream_never_panics {St} (request : St -> outcome (list byte)) process :
  (forall m (h : St), (process m h).1 <> Panic) ->
  forall fuel c h, wf c -> is_post_handshake c = true -> (length (feed c) < fuel)%nat ->
  (read_stream request process fuel (c, h)).1 <> Panic /\
  wf (read_stream request process fuel (c, h)).2.1.
Proof.
  intros Hproc. induction fuel as [|fuel IH]; intros c h W Hp Hf; [lia|]. cbn [read_stream].
  destruct (read_from_socket_any (request h) c W Hp) as (r & c' & -> & W' & Hr & HL).
  destruct r as [[m| | |]|e|]; try done.
  - destruct HL as [Hp' HL]; [eauto|]. specialize (Hproc m h).
    destruct (process m h) as [[u| |] h']; [|done..]. apply IH; [done..|lia].
  - destruct HL as [Hp' HL]; [eauto|]. apply IH; [done..|lia].
Qed.

(** Encryption and framing.  Writing a message appends to the wire one
    frame, whose length prefix is the length of the cipher text and whose body
    the peer's session decrypts to the message. *)
Theorem write_to_socket_frame k input c r :
  wf c -> tx_no_error (socket c) -> Z.of_nat (full_len (length input)) < 2 ^ 32 ->
  in_sync (num_chunks (length input) + k) (noise_session c) r ->
  exists c' cipher r', write_to_socket input c = (Ok tt, c') /\ wf c' /\ input_unchanged c c' /\
    wire c' = wire c ++ be_bytes 4 (Z.of_nat (length cipher)) ++ cipher /\
    length cipher = full_len (length input) /\
    recv_all r cipher = (Ok input, r') /\ in_sync k (noise_session c') r'.
Proof.
  intros W Ht HL Hs. destruct (encrypt_and_enqueue_spec k input c r W Ht HL Hs)
    as (c' & ci & r' & E & ? & ? & ? & ? & ? & ? & ?). exists c', ci, r'. done.
Qed.

(** C26: the in-place chunked decryption of a message computes what receiving
    its chunks one after the other into separate buffers does, on success and
    on failure, and leaves everything else alone. *)
Theorem decrypt_in_place c :
  length (noise_buffer c) = NOISE_MAX_MESSAGE_LEN ->
  let im := incoming_msg c in
  exists nb, length nb = NOISE_MAX_MESSAGE_LEN /\
  decrypt c =
    ((recv_all (noise_session c) (message im)).1,
     set_session (recv_all (noise_session c) (message im)).2
       (set_noise_buffer nb
          (set_incoming (mkIncoming (size_bytes im) (pending_bytes im) []) c))).
Proof.
  intros Hn im. pose proof (decrypt_spec c Hn) as HD. cbn zeta in HD. fold im in HD.
  by destruct (recv_all (noise_session c) (message im)).
Qed.

(** Length prefixes.  When the bytes at hand complete a length prefix, the
    reader accepts it and waits for that many bytes if it is positive, at most
    20 MiB and, before the end of the handshake, below 1024; otherwise it fails
    and waits for nothing. *)
Theorem length_prefix_limits c :
  let im := incoming_msg c in
  let missing := (PAYLOAD_SIZE - length (size_bytes im))%nat in
  let prefix := size_bytes im ++ take missing (unread (socket_buffer c)) in
  wf c -> pending_bytes im = 0%nat -> (missing <= remaining (socket_buffer c))%nat ->
  exists r c', attempt_to_read_length c = (r, c') /\
    (accepts c (be_value prefix) /\ r = Ok tt /\
       Z.of_nat (pending_bytes (incoming_msg c')) = be_value prefix /\
       message (incoming_msg c') = [] \/
     ~ accepts c (be_value prefix) /\ (exists what, r = bail what) /\
       pending_bytes (incoming_msg c') = 0%nat).
Proof.
  intros im missing prefix W Hpe Hrem. pose proof (wf_sb_ok c W) as Hsb.
  pose proof (wf_size_bytes c W) as Hsz. fold im in Hsz.
  unfold attempt_to_read_length, mbind, M_bind, get, lift, modify. fold im.
  rewrite sub_usize_Ok by (unfold PAYLOAD_SIZE in *; lia). fold missing.
  rewrite Nat.min_r by done. rewrite sb_slice_spec by done. fold prefix.
  destruct (shift_spec (socket_buffer c) missing Hsb Hrem) as (sb' & -> & _).
  assert (length prefix = PAYLOAD_SIZE) as HL.
  { subst prefix. rewrite length_app, length_take, length_unread by done. lia. }
  rewrite decide_True by done. pose proof (be_value_bound prefix). unfold accepts.
  destruct (Z.eqb_spec (be_value prefix) 0) as [?|?].
  { eexists _, _. split; [reflexivity|]. right. split; [lia|]. split; [by eexists|done]. }
  destruct (is_post_handshake c) eqn:Hp; simpl.
  2:destruct (Z.leb_spec HANDSHAKE_SIZE_LIMIT (be_value prefix)).
  2:{ eexists _, _. split; [reflexivity|]. right. split; [|split; [by eexists|done]].
      intros [_ HH]. specialize (HH eq_refl). lia. }
  all: destruct (Z.ltb_spec PROTOCOL_MAX_MESSAGE_SIZE (be_value prefix)); eexists _, _;
    (split; [reflexivity|]); [right; split; [lia|]; split; [by eexists|done]|left].
  all: simpl; split_and!; done || lia.
Qed.

(** More fuel than the queue is long changes nothing. *)
Lemma flush_loop_fuel : forall fuel n c,
  wf c -> (length (output_queue c) < fuel)%nat -> flush_loop (fuel + n) c = flush_loop fuel c.
Proof.
  induction fuel as [|fuel IH]; intros n c W Hf; [lia|]. simpl.
  destruct (output_queue c) eqn:Eq; [done|]. unfold mbind, M_bind.
  destruct (flush_socket_once c) as [[m| |] c1] eqn:E; [|done..].
  apply flush_socket_once_spec in E as HF; [|done].
  pose proof (fp_shorter _ _ _ HF m eq_refl) as HL. rewrite Eq in HL. simpl in *.
  case_decide; [done|]. apply IH; [by apply HF|lia].
Qed.

(** Flushing.  [flush_socket] neither loses, duplicates nor reorders
    bytes: what was written to the socket followed by what is still queued is
    unchanged, and the incoming side is untouched.  It fails only when the
    socket does, and its loop needs no more iterations than bytes queued. *)
Theorem flush_socket_fifo c r c' :
  wf c -> flush_socket c = (r, c') ->
  tx (socket c') ++ output_queue c' = tx (socket c) ++ output_queue c /\
  input_unchanged c c' /\ wf c' /\ r <> Panic /\ (tx_no_error (socket c) -> r = Ok tt) /\
  forall n, flush_loop (S (length (output_queue c)) + n) c
            = flush_loop (S (length (output_queue c))) c.
Proof.
  intros W E. pose proof (flush_socket_spec c r c' W E) as (? & ? & ? & ? & ? & HT & ?).
  split_and!; try done; [naive_solver|]. intros n. apply flush_loop_fuel; [done|lia].
Qed.

(** ** The handshake *)

(** The pre-shared key.  A responder that receives a well-formed message A
    answers with message B and goes on, whatever payload the message carries:
    by the time the payload is compared with [PSK] the message count is 2
    already, so the comparison never takes place. *)
Theorem message_a_psk_ignored payload_out c n out s1 msg_b s2 :
  wf c -> is_initiator (noise_session c) = false -> get_message_count (noise_session c) = 0%nat ->
  pending_bytes (incoming_msg c) = n -> (n <= remaining (socket_buffer c))%nat ->
  (DHLEN + 16 <= n)%nat ->
  recv_message (noise_session c) (take n (unread (socket_buffer c))) = (true, out, s1) ->
  send_message s1 (replicate (DHLEN * 2 + MAC_LENGTH) Byte.x00 ++ payload_out
                   ++ replicate MAC_LENGTH Byte.x00) = (true, msg_b, s2) ->
  Z.of_nat (length msg_b) < 2 ^ 32 -> tx_no_error (socket c) ->
  exists c', process_incoming_msg (Ok payload_out) c = (Ok Incomplete, c') /\
    noise_session c' = s2 /\ wire c' = wire c ++ frame msg_b /\
    pending_bytes (incoming_msg c') = 0%nat /\ remaining (socket_buffer c') = 0%nat.
Proof.
  intros W Hi Hc Hpe Hrem Hn HR HS HL Ht. pose proof (wf_sb_ok c W) as Hsb.
  pose proof (recv_length _ _ _ _ _ HR) as HRl. pose proof (send_length _ _ _ _ _ HS) as HSl.
  rewrite length_take, length_unread in HRl by done.
  assert (is_post_handshake c = false) as Hnp.
  { unfold is_post_handshake. rewrite Hi, Hc. by apply bool_decide_eq_false_2; lia. }
  unfold process_incoming_msg, mbind, M_bind, get, lift, modify. rewrite Hpe, Hnp.
  rewrite Nat.min_l, sb_slice_spec, sub_usize_Ok, Nat.sub_diag by done. cbn [negb].
  set (c1 := set_incoming _ c). unfold mret at 1, M_ret at 1. cbn beta iota.
  rewrite decide_True by done. unfold process_handshake_msg. cbn beta. change (noise_session c1) with (noise_session c).
  rewrite Hi, Hc. unfold process_msg_a, mbind, M_bind, lift.
  unfold recv_xx_msg. change (socket_buffer c1) with (socket_buffer c).
  rewrite sb_slice_spec by done. change (noise_session c1) with (noise_session c). rewrite HR.
  rewrite sub_usize_Ok, sub_usize_Ok by lia.
  set (sb2 := mkBuffer _ _ _). set (c2 := set_session s1 _).
  assert (length (buf sb2) = length (buf (socket_buffer c))) as HLb.
  { apply length_splice. destruct Hsb. lia. }
  assert (sb_ok sb2) as Hsb2 by (destruct Hsb; split; [rewrite HLb|]; done).
  unfold sub_slice. change (socket_buffer c2) with sb2. rewrite sb_slice_spec by done.
  assert (length (take n (unread sb2)) = n) as Hln.
  { rewrite length_take, length_unread by done. simpl. lia. }
  rewrite decide_True, slice_Ok by lia. unfold send_xx_msg.
  change (noise_session c2) with s1. rewrite HS.
  rewrite !length_app, !length_replicate in HSl.
  rewrite wrap_small by (unfold in_u; lia).
  set (c3 := set_output_queue _ _).
  assert (wf c3) as W3.
  { destruct W, Hsb2. split; unfold read_size in *; simpl in *; rewrite ?HLb; try done.
    unfold PROTOCOL_MAX_MESSAGE_SIZE in *. rewrite length_app, length_take, length_unread by done.
      simpl in *. lia. }
  destruct (flush_socket c3) as [r c4] eqn:EF.
  apply flush_socket_spec in EF as (W4 & I4 & S4 & Wi4 & _ & T4 & _); [|done].
  destruct T4 as [_ ->]; [done|]. cbn beta iota.
  unfold mret at 1, M_ret at 1. cbn beta iota.
  assert (is_initiator (noise_session c4) = false /\ get_message_count (noise_session c4) = 2%nat)
    as [Hi4 Hc4].
  { rewrite S4. simpl. rewrite (send_role _ _ _ _ _ HS), (recv_role _ _ _ _ _ HR).
    by rewrite (send_count _ _ _ _ HS), (recv_count _ _ _ _ HR), Hc. }
  rewrite Hi4, Hc4. cbn. eexists. split; [reflexivity|]. simpl. split; [by rewrite S4|].
  split; [|split; [by rewrite (iu_incoming _ _ I4)|done]].
  transitivity (wire c4); [reflexivity|]. rewrite Wi4.
  subst c3 c2 c1. unfold wire, frame.
  cbn [socket output_queue set_output_queue set_session set_socket_buffer set_incoming].
  rewrite HSl, <- !app_assoc, (Nat.add_assoc _ (length payload_out)). reflexivity.
Qed.

(** A handshake message that arrives in pieces.  While a handshake message
    is incomplete, the bytes that were looked at are not consumed: the next
    call appends the same bytes again, without reading from the socket. *)
Theorem handshake_fragment_reread request c :
  let piece := unread (socket_buffer c) in
  wf c -> is_post_handshake c = false -> (0 < remaining (socket_buffer c))%nat ->
  (2 * remaining (socket_buffer c) < pending_bytes (incoming_msg c))%nat ->
  exists c', (read_from_socket request ≫= fun _ => read_from_socket request) c
               = (Ok Incomplete, c') /\
    message (incoming_msg c') = message (incoming_msg c) ++ piece ++ piece /\
    socket c' = socket c.
Proof.
  assert (forall c, wf c -> is_post_handshake c = false -> (0 < remaining (socket_buffer c))%nat ->
    (remaining (socket_buffer c) < pending_bytes (incoming_msg c))%nat ->
    read_from_socket request c = (Ok Incomplete, set_incoming
      (mkIncoming (size_bytes (incoming_msg c))
         (pending_bytes (incoming_msg c) - remaining (socket_buffer c))
         (message (incoming_msg c) ++ unread (socket_buffer c))) c)) as Hone.
  { intros d W Hp Hr Hpe. unfold read_from_socket, refill, mbind, M_bind, get.
    rewrite wf_not_exhausted, decide_False by (done || lia).
    replace (set_socket_buffer (socket_buffer d) d) with d by (by destruct d).
    rewrite decide_False by lia. unfold mret at 1, M_ret at 1. cbn beta iota.
    rewrite decide_False by lia.
    unfold process_incoming_msg, mbind, M_bind, get, lift, modify. rewrite Hp.
    rewrite Nat.min_r, sb_slice_spec, sub_usize_Ok by (apply wf_sb_ok || lia; done).
    unfold mret at 1, M_ret at 1. cbn beta iota. rewrite decide_False by lia.
    rewrite take_ge; [done|]. rewrite length_unread; [done|by apply wf_sb_ok]. }
  intros piece W Hp Hr Hpe. unfold mbind, M_bind. rewrite Hone by (done || lia).
  assert (forall m p, (p <= pending_bytes (incoming_msg c))%nat -> p <> 0%nat ->
     Z.of_nat (length m + p) <= PROTOCOL_MAX_MESSAGE_SIZE ->
     wf (set_incoming (mkIncoming (size_bytes (incoming_msg c)) p m) c)) as Hwf.
  { intros m p ? ? ?. pose proof (wf_pending c W) as Hsz. destruct W; split; try done.
    simpl. intros _. apply Hsz. lia. }
  pose proof (wf_message c W). pose proof (length_unread _ (wf_sb_ok c W)).
  rewrite Hone.
  - eexists. split; [reflexivity|]. simpl. by rewrite <- app_assoc.
  - apply Hwf; rewrite ?length_app; lia.
  - done.
  - done.
  - simpl. lia.
Qed.
End props.

(** ** Witnesses *)
Module Witnesses.
Import Toy.

(** Keeps the messages it is given. *)
Definition collect : list byte -> M (list (list byte)) unit := fun m h => (Ok tt, h ++ [m]).

Definition no_request : list (list byte) -> outcome (list byte) := fun _ => bail "none".

Definition bytes_16 : list byte := replicate 16 Byte.x07.

Lemma delivers_pieces pieces : Forall (fun l => l <> []) pieces -> delivers (RxData <$> pieces).
Proof. intros HP. apply Forall_fmap. revert HP. apply Forall_impl. naive_solver. Qed.

Lemma feed_established pieces : feed (established (delivering pieces)) = concat pieces.
Proof.
  change (rx_bytes (RxData <$> pieces) = concat pieces).
  unfold rx_bytes. by induction pieces as [|p l IH]; simpl; [|rewrite <- IH].
Qed.

Lemma concat_singletons (l : list byte) : concat ((fun b => [b]) <$> l) = l.
Proof. induction l as [|b l IH]; [done|]. rewrite fmap_cons. cbn [concat]. by rewrite IH. Qed.

Lemma small_sendable m : (0 < length m < 100)%nat -> sendable m.
Proof.
  intros [? ?]. split; [by destruct m; simpl in *; [lia|]|].
  pose proof noise_lens as [HN _]. pose proof noise_max_Z.
  destruct (chunks_small (length m)) as [_ ->]; [lia|].
  change MAC_LENGTH with 16%nat. unfold PROTOCOL_MAX_MESSAGE_SIZE. lia.
Qed.

Lemma messages_delivered_witness :
  exists sent d', feed d' = [] /\
    read_stream no_request collect (S (length sent))
      (established (delivering ((fun b => [b]) <$> sent)), [])
    = (Ok true, (d', [[Byte.x01; Byte.x02]; [Byte.x03]])).
Proof.
  destruct (messages_delivered (H := noise) (H2 := transport) 0 [[Byte.x01; Byte.x02]; [Byte.x03]]
    (established (delivering [])) (false, 3%nat)) as (c' & sent & _ & _ & HD).
  - apply wf_established.
  - unfold tx_no_error. simpl. set_solver.
  - repeat constructor; try apply small_sendable; simpl; lia.
  - exact I.
  - exists sent.
    destruct (HD _ no_request collect [] [[Byte.x01; Byte.x02]; [Byte.x03]]
      (established (delivering ((fun b => [b]) <$> sent)))) as (d' & E & _ & Hf & _).
    + apply wf_established.
    + reflexivity.
    + reflexivity.
    + apply delivers_pieces. by apply Forall_fmap, Forall_true.
    + reflexivity.
    + rewrite feed_established. apply concat_singletons.
    + reflexivity.
    + exists d'. split; [exact Hf|exact E].
Defined.

(** One complete frame in two pieces, and the beginning of a second. *)
Lemma read_stream_reassembles_witness :
  exists c', feed c' = [] /\ buffered (incoming_msg c') = [Byte.x00; Byte.x00] /\
    read_stream no_request collect 24
      (established (delivering [take 7 (frame (Byte.x05 :: bytes_16));
         drop 7 (frame (Byte.x05 :: bytes_16)) ++ [Byte.x00; Byte.x00]]), [])
    = (Ok true, (c', [[Byte.x05]])).
Proof.
  destruct (read_stream_reassembles (H := noise) no_request collect [Byte.x00; Byte.x00]
    (established (delivering [take 7 (frame (Byte.x05 :: bytes_16));
         drop 7 (frame (Byte.x05 :: bytes_16)) ++ [Byte.x00; Byte.x00]]))
    [] [[Byte.x05]] [Byte.x05 :: bytes_16] [[Byte.x05]] (false, 4%nat))
    as (c' & E & _ & Hf & Hb & _).
  - apply wf_established.
  - apply delivers_pieces. by repeat constructor.
  - reflexivity.
  - constructor; [split; simpl; unfold PROTOCOL_MAX_MESSAGE_SIZE; lia|constructor].
  - exists [Byte.x00], [Byte.x00; Byte.x01; Byte.x00].
    split; [split; simpl; unfold PROTOCOL_MAX_MESSAGE_SIZE; lia|]. by split.
  - rewrite feed_established. reflexivity.
  - econstructor; [|constructor]. apply (decrypts_recv_all (H := noise)).
    refine (decrypts_chunk (H := noise) (false, 3%nat) (Byte.x05 :: bytes_16) [] (Byte.x05 :: bytes_16)
      (false, 4%nat) [] (false, 4%nat) _ eq_refl (decrypts_nil _)).
    right. split; [reflexivity|]. pose proof noise_max_Z. simpl. lia.
  - reflexivity.
  - exists c'. rewrite feed_established in E.
    split; [exact Hf|]. split; [exact Hb|exact E].
Defined.

Lemma read_stream_never_panics_witness :
  (read_stream no_request collect 20
     (established (mkSocket [RxData bytes_16; RxError] [] [] false true None), [])).1 <> Panic.
Proof.
  apply (read_stream_never_panics (H := noise) no_request collect).
  - done.
  - apply wf_established.
  - reflexivity.
  - change (length bytes_16 < 20)%nat. simpl. lia.
Defined.

Lemma write_to_socket_frame_witness :
  exists c' cipher, write_to_socket [Byte.x05] (established (delivering [])) = (Ok tt, c') /\
    wire c' = frame cipher /\ length cipher = 17%nat.
Proof.
  destruct (write_to_socket_frame (H := noise) (H2 := transport) 0 [Byte.x05]
    (established (delivering [])) (false, 3%nat)) as (c' & ci & _ & E & _ & _ & Wi & L & _).
  - apply wf_established.
  - unfold tx_no_error. simpl. set_solver.
  - destruct (small_sendable [Byte.x05]) as [_ Hs]; [simpl; lia|].
    unfold PROTOCOL_MAX_MESSAGE_SIZE in Hs. lia.
  - exact I.
  - exists c', ci. split; [exact E|]. split; [exact Wi|]. rewrite L.
    pose proof noise_lens. pose proof noise_max_Z.
    destruct (chunks_small (H := noise) (length [Byte.x05])) as [_ ->]; [simpl; lia|]. reflexivity.
Defined.

Lemma decrypt_in_place_witness :
  exists nb, length nb = NOISE_MAX_MESSAGE_LEN /\
    decrypt (set_incoming (mkIncoming [] 0 (Byte.x05 :: bytes_16)) (established (delivering [])))
    = (Ok [Byte.x05],
       set_session (false, 4%nat) (set_noise_buffer nb (established (delivering [])))).
Proof.
  destruct (decrypt_in_place (H := noise)
    (set_incoming (mkIncoming [] 0 (Byte.x05 :: bytes_16)) (established (delivering []))))
    as (nb & Hn & E).
  - exact (wf_noise_buffer _ (wf_established (delivering []))).
  - exists nb. split; [exact Hn|]. rewrite E.
    assert (recv_all (H := noise) (false, 3%nat) (Byte.x05 :: bytes_16)
            = (Ok [Byte.x05], (false, 4%nat))) as HR by (vm_compute; reflexivity).
    change (noise_session _) with (false, 3%nat) at 1 2.
    change (message _) with (Byte.x05 :: bytes_16). rewrite HR. reflexivity.
Defined.

(** A length prefix of 2^24 is not accepted during the handshake. *)
Lemma length_prefix_limits_witness :
  exists what c', attempt_to_read_length
    (set_socket_buffer (mkBuffer (be_bytes 4 16777216 ++ replicate NOISE_MAX_MESSAGE_LEN Byte.x00) 0 4)
      (@new noise (delivering []) false tt None NOISE_MAX_MESSAGE_LEN NOISE_MAX_MESSAGE_LEN))
    = (bail what, c').
Proof.
  destruct (length_prefix_limits (H := noise)
    (set_socket_buffer (mkBuffer (be_bytes 4 16777216 ++ replicate NOISE_MAX_MESSAGE_LEN Byte.x00) 0 4)
      (@new noise (delivering []) false tt None NOISE_MAX_MESSAGE_LEN NOISE_MAX_MESSAGE_LEN)))
    as (r & c' & E & [([_ Ha] & _)|(_ & [what ->] & _)]).
  - pose proof (@wf_new noise (delivering []) false tt None NOISE_MAX_MESSAGE_LEN
      NOISE_MAX_MESSAGE_LEN) as W. destruct W; [lia|lia|].
    split; unfold read_size; cbn [socket_buffer set_socket_buffer buf offset remaining];
      rewrite ?length_app, ?length_be_bytes, ?length_replicate; try assumption; simpl write_size; lia.
  - reflexivity.
  - simpl. lia.
  - specialize (Ha eq_refl). vm_compute in Ha. discriminate.
  - exists what, c'. exact E.
Defined.

Lemma flush_socket_fifo_witness :
  exists c', flush_socket (set_writable true (set_output_queue bytes_16
      (established (mkSocket [] [TxAccept 3] [] false true None)))) = (Ok tt, c') /\
    tx (socket c') ++ output_queue c' = bytes_16.
Proof.
  destruct (flush_socket (H := noise) (set_writable true (set_output_queue bytes_16
      (established (mkSocket [] [TxAccept 3] [] false true None))))) as [r c'] eqn:E.
  assert (wf (H := noise) (set_writable true (set_output_queue bytes_16
      (established (mkSocket [] [TxAccept 3] [] false true None))))) as W.
  { destruct (wf_established (mkSocket [] [TxAccept 3] [] false true None)). split; assumption. }
  destruct (flush_socket_fifo (H := noise) _ _ _ W E) as (HW & _ & _ & _ & HT & _).
  exists c'. rewrite HT; [split; [reflexivity|exact HW]|].
  unfold tx_no_error. simpl. set_solver.
Defined.

(** A responder that waits for [p] bytes of message A and has [n] zero bytes
    in its socket buffer. *)
Definition responder (p n : nat) : LowLevel :=
  set_incoming (mkIncoming [] p [])
    (set_socket_buffer (mkBuffer (replicate NOISE_MAX_MESSAGE_LEN Byte.x00) 0 n)
      (@new noise (delivering []) false tt None NOISE_MAX_MESSAGE_LEN NOISE_MAX_MESSAGE_LEN)).

Lemma wf_responder p n : (p <= 200)%nat -> (n <= 200)%nat -> wf (responder p n).
Proof.
  intros Hp Hn. pose proof noise_max_Z.
  destruct (@wf_new noise (delivering []) false tt None NOISE_MAX_MESSAGE_LEN
    NOISE_MAX_MESSAGE_LEN); [lia..|].
  split; unfold read_size; cbn [responder socket_buffer set_socket_buffer set_incoming buf offset
    remaining incoming_msg size_bytes pending_bytes message];
    rewrite ?length_replicate; try assumption; try reflexivity; try lia.
  unfold PROTOCOL_MAX_MESSAGE_SIZE. simpl. lia.
Qed.

(** A message A of 64 zero bytes is answered. *)
Lemma message_a_psk_ignored_witness :
  exists c', process_incoming_msg (Ok []) (responder 64 64) = (Ok Incomplete, c') /\
    get_message_count (noise_session c') = 2%nat.
Proof.
  destruct (message_a_psk_ignored (H := noise) [] (responder 64 64) 64
    (take 64 (unread (socket_buffer (responder 64 64)))) (false, 1%nat)
    (replicate 96 Byte.x00) (false, 2%nat)) as (c' & E & Hs & _).
  - apply wf_responder; lia.
  - reflexivity.
  - reflexivity.
  - reflexivity.
  - simpl. lia.
  - simpl. lia.
  - simpl recv_message. unfold exchange. rewrite decide_True; [reflexivity|].
    rewrite length_take, length_unread by
      (apply (wf_sb_ok (responder 64 64)), wf_responder; lia).
    simpl. lia.
  - reflexivity.
  - simpl. lia.
  - unfold tx_no_error. simpl. set_solver.
  - exists c'. rewrite Hs. split; [exact E|reflexivity].
Defined.

Lemma handshake_fragment_reread_witness :
  exists c', (read_from_socket (H := noise) (Ok []) ≫= fun _ => read_from_socket (Ok []))
      (responder 64 20) = (Ok Incomplete, c') /\ length (message (incoming_msg c')) = 40%nat.
Proof.
  destruct (handshake_fragment_reread (H := noise) (Ok []) (responder 64 20)) as (c' & E & Em & _).
  - apply wf_responder; lia.
  - reflexivity.
  - simpl. lia.
  - simpl. lia.
  - exists c'. split; [exact E|]. rewrite Em, !length_app, !length_unread by
      (apply wf_sb_ok, wf_responder; lia). reflexivity.
Defined.
End Witnesses.
