(* ===== verification/Wire.v ===== *)
(** * Network messages and their flatbuffers encoding

    Models [concordium-node/src/network/mod.rs] (the messages) and
    [network/serialization/fbs.rs] (their encoding).  The tables are those of
    [schema.fbs]; the flatbuffers library and the code it generates are the
    class [Flatbuffers], the [semver] and [concordium_base] types the class
    [BaseTypes]. *)

From stdpp Require Import base tactics list gmap strings option numbers vector.
From Stdlib Require Import ZArith.
From S2P Require Import Prelude Common.

(** ** Types from other crates *)

Class BaseTypes := {
  (** [semver::Version] with its text form. *)
  Version : Type;
  version_to_string : Version -> list byte;
  version_parse : list byte -> outcome Version;
  version_major : Version -> Z;
  version_minor : Version -> Z;
  (** [concordium_base::hashes::BlockHash], 32 bytes. *)
  BlockHash : Type;
  #[global] BlockHash_eq_dec :: EqDecision BlockHash;
  hash_bytes : BlockHash -> list byte;
  hash_try_from : list byte -> outcome BlockHash;
}.

Class BaseLaws `{BaseTypes} := {
  version_parse_to_string v : version_parse (version_to_string v) = Ok v;
  (** a version is written in ASCII *)
  version_ascii v : Forall (fun b => byte_to_Z b < 128) (version_to_string v);
  length_hash_bytes h : length (hash_bytes h) = 32%nat;
  hash_try_from_bytes h : hash_try_from (hash_bytes h) = Ok h;
}.

(** ** Messages ([network/mod.rs]) *)

Abbreviation NetworkId := Z.
Abbreviation Networks := (gset Z).
Abbreviation WireProtocolVersion := byte.

Definition WIRE_PROTOCOL_CURRENT_VERSION : WireProtocolVersion := Byte.x01.
Definition WIRE_PROTOCOL_VERSIONS : list WireProtocolVersion := [WIRE_PROTOCOL_CURRENT_VERSION].

(** The desired target of a network packet. *)
Inductive PacketDestination :=
| Direct (target : RemotePeerId)
| Broadcast (dont_relay_to : list RemotePeerId).

Record NetworkPacket := mkPacket {
  destination : PacketDestination;
  network_id : NetworkId;
  packet_message : list byte;
}.

Inductive NetworkResponse :=
| Pong
| PeerList (peers : list P2PPeer).

Section messages.
Context `{BaseTypes}.

(** The high-level handshake. *)
Record Handshake := mkHandshake {
  remote_id : P2PNodeId;
  remote_port : Z;
  networks : Networks;
  node_version : Version;
  wire_versions : list WireProtocolVersion;
  genesis_blocks : list BlockHash;
  proof : list byte;
}.

Inductive NetworkRequest :=
| Ping
| GetPeers (nets : Networks)
| HandshakeRequest (h : Handshake)
| JoinNetwork (id : NetworkId)
| LeaveNetwork (id : NetworkId).

Inductive NetworkPayload :=
| NetworkRequestPayload (r : NetworkRequest)
| NetworkResponsePayload (r : NetworkResponse)
| NetworkPacketPayload (p : NetworkPacket).

Record NetworkMessage := mkMessage {
  created : Z;
  received : option Z;
  payload : NetworkPayload;
}.

(** [netmsg!]. *)
Definition netmsg (now : Z) (p : NetworkPayload) : NetworkMessage := mkMessage now None p.
End messages.

(** ** Tables of [schema.fbs]

    A vector or table field is optional; an enumeration is its underlying
    [u8]; a union is a type tag and a value. *)

Record FbDestination := mkFbDestination { fd_variant : Z; fd_target : Z }.
Record FbPacket := mkFbPacket {
  fp_destination : option FbDestination; fp_network_id : Z; fp_payload : option (list byte) }.
Record FbHandshake := mkFbHandshake {
  fh_version : Z; fh_node_id : Z; fh_port : Z; fh_network_ids : option (list Z);
  fh_node_version : option (option (list byte)); fh_wire_versions : option (list byte);
  fh_genesis_blocks : option (list (option (list byte))); fh_zk : option (list byte) }.
Inductive FbRequestPayload :=
| FbNetworkIds (ids : option (list Z))
| FbHandshakePayload (h : FbHandshake)
| FbNetworkId (id : Z).
Record FbRequest := mkFbRequest {
  fr_variant : Z; fr_payload_type : Z; fr_payload : option FbRequestPayload }.
Record FbIpAddr := mkFbIpAddr { fi_variant : Z; fi_octets : option (list byte) }.
Record FbPeer := mkFbPeer {
  fbp_id : Z; fbp_addr : option FbIpAddr; fbp_port : Z; fbp_variant : Z }.
Record FbResponse := mkFbResponse {
  fs_variant : Z; fs_payload_type : Z; fs_payload : option (option (list FbPeer)) }.
Inductive FbPayload :=
| FbPacketPayload (p : FbPacket)
| FbRequestPayload' (r : FbRequest)
| FbResponsePayload (r : FbResponse).
Record FbMessage := mkFbMessage {
  fm_timestamp : Z; fm_payload_type : Z; fm_payload : option FbPayload }.

(** The numbers the schema gives to enumerators and union members. *)
Definition Direction_Direct : Z := 0.
Definition Direction_Broadcast : Z := 1.
Definition RequestVariant_Ping : Z := 0.
Definition RequestVariant_GetPeers : Z := 1.
Definition RequestVariant_Handshake : Z := 2.
Definition RequestVariant_JoinNetwork : Z := 5.
Definition RequestVariant_LeaveNetwork : Z := 6.
Definition ResponseVariant_Pong : Z := 0.
Definition ResponseVariant_PeerList : Z := 1.
Definition IpVariant_V4 : Z := 0.
Definition IpVariant_V6 : Z := 1.
Definition PeerVariant_Node : Z := 0.
Definition PeerVariant_Bootstrapper : Z := 1.
Definition union_NONE : Z := 0.
Definition RequestPayload_NetworkIds : Z := 1.
Definition RequestPayload_Handshake : Z := 2.
Definition RequestPayload_NetworkId : Z := 3.
Definition ResponsePayload_PeerList : Z := 1.
Definition NetworkPayload_NetworkPacket : Z := 1.
Definition NetworkPayload_NetworkRequest : Z := 2.
Definition NetworkPayload_NetworkResponse : Z := 3.

(** The generated accessors of the unions. *)
Definition payload_as_network_packet (m : FbMessage) : option FbPacket :=
  if fm_payload_type m =? NetworkPayload_NetworkPacket then
    match fm_payload m with Some (FbPacketPayload p) => Some p | _ => None end
  else None.
Definition payload_as_network_request (m : FbMessage) : option FbRequest :=
  if fm_payload_type m =? NetworkPayload_NetworkRequest then
    match fm_payload m with Some (FbRequestPayload' p) => Some p | _ => None end
  else None.
Definition payload_as_network_response (m : FbMessage) : option FbResponse :=
  if fm_payload_type m =? NetworkPayload_NetworkResponse then
    match fm_payload m with Some (FbResponsePayload p) => Some p | _ => None end
  else None.
Definition payload_as_network_ids (r : FbRequest) : option (option (list Z)) :=
  if fr_payload_type r =? RequestPayload_NetworkIds then
    match fr_payload r with Some (FbNetworkIds ids) => Some ids | _ => None end
  else None.
Definition payload_as_handshake (r : FbRequest) : option FbHandshake :=
  if fr_payload_type r =? RequestPayload_Handshake then
    match fr_payload r with Some (FbHandshakePayload h) => Some h | _ => None end
  else None.
Definition payload_as_network_id (r : FbRequest) : option Z :=
  if fr_payload_type r =? RequestPayload_NetworkId then
    match fr_payload r with Some (FbNetworkId id) => Some id | _ => None end
  else None.
Definition payload_as_peer_list (r : FbResponse) : option (option (list FbPeer)) :=
  if fs_payload_type r =? ResponsePayload_PeerList then fs_payload r else None.

(** The flatbuffers library: [finish] is finishing a size-prefixed buffer with
    the file identifier, [root] the verifying accessor (which may reject the
    buffer or panic on it).  The builder's limit of two gigabytes, beyond which it
    panics, is not modelled. *)
Class Flatbuffers := {
  finish : FbMessage -> list byte;
  root : list byte -> outcome FbMessage;
  has_identifier : list byte -> bool;
}.

Class FlatbuffersLaws `{Flatbuffers} := {
  root_finish m : root (finish m) = Ok m;
  has_identifier_finish m : has_identifier (finish m) = true;
  length_finish m : (12 <= length (finish m))%nat;
}.

(** [start_vector], a [push] for every element, [end_vector]: the vector is
    built from its end. *)
Definition end_vector {A} (pushed : list A) : list A := reverse pushed.

(** ** Standard library *)

(** The ranges the bytes after a lead byte have to be in; [None] for a byte
    that is no lead byte. *)
Definition utf8_continuation (lead : Z) : option (list (Z * Z)) :=
  if lead <? 128 then Some []
  else if (194 <=? lead) && (lead <=? 223) then Some [(128, 191)]
  else if lead =? 224 then Some [(160, 191); (128, 191)]
  else if lead =? 237 then Some [(128, 159); (128, 191)]
  else if (225 <=? lead) && (lead <=? 239) then Some [(128, 191); (128, 191)]
  else if lead =? 240 then Some [(144, 191); (128, 191); (128, 191)]
  else if (241 <=? lead) && (lead <=? 243) then Some [(128, 191); (128, 191); (128, 191)]
  else if lead =? 244 then Some [(128, 143); (128, 191); (128, 191)]
  else None.

Fixpoint is_utf8 (expected : list (Z * Z)) (l : list byte) : bool :=
  match expected, l with
  | [], [] => true
  | _ :: _, [] => false
  | [], b :: l' =>
      match utf8_continuation (byte_to_Z b) with
      | Some e => is_utf8 e l'
      | None => false
      end
  | (lo, hi) :: e, b :: l' =>
      (lo <=? byte_to_Z b) && (byte_to_Z b <=? hi) && is_utf8 e l'
  end.

(** [std::str::from_utf8]. *)
Definition from_utf8 (l : list byte) : outcome (list byte) :=
  if is_utf8 [] l then Ok l else bail "invalid utf-8".

(** [Read::read_exact] from a slice. *)
Fixpoint read_exact (n : nat) (l : list byte) : outcome (vec byte n) :=
  match n with
  | O => Ok [#]
  | S n' =>
      match l with
      | [] => Err (IoError "failed to fill whole buffer")
      | b :: l' => v ← read_exact n' l'; Ok (b ::: v)
      end
  end.

(** [iter().map(f).collect::<Result<Vec<_>, _>>()]. *)
Fixpoint try_collect {A B} (f : A -> outcome B) (l : list A) : outcome (list B) :=
  match l with
  | [] => Ok []
  | a :: l' => b ← f a; bs ← try_collect f l'; Ok (b :: bs)
  end.

Section fbs.
Context `{BaseTypes} `{Flatbuffers} `{HashOrder}.

Definition HANDSHAKE_MESSAGE_VERSION : Z := 0.

(** ** Deserialization *)

Definition deserialize_packet (root : FbMessage) : outcome NetworkPayload :=
  packet ← context (payload_as_network_packet root)
    "missing network message payload (expected a packet)";
  dest ← match fp_destination packet with
         | Some d =>
             if fd_variant d =? Direction_Direct then Ok (Direct (fd_target d))
             else if fd_variant d =? Direction_Broadcast then Ok (Broadcast [])
             else bail "Unsupported destination"
         | None => bail "missing direction on network packet"
         end;
  msg ← context (fp_payload packet) "missing packet payload";
  Ok (NetworkPacketPayload (mkPacket dest (fp_network_id packet) msg)).

(** The [Handshake] branch of [deserialize_request]. *)
Definition deserialize_handshake (h : FbHandshake) : outcome Handshake :=
  networks ← context (fh_network_ids h) "missing network ids in a Handshake";
  version_bytes ← context (fh_node_version h ≫= id) "missing node version in a Handshake";
  version_str ← from_utf8 version_bytes;
  version ← version_parse version_str;
  wire_versions ← context (fh_wire_versions h) "missing wire version in a Handshake";
  blocks ← context (fh_genesis_blocks h) "missing genesis blocks in a Handshake";
  genesis_blocks ← try_collect
    (fun wv => match wv with
               | None => bail "Missing block hash"
               | Some bh => hash_try_from bh
               end) blocks;
  Ok (mkHandshake (fh_node_id h) (fh_port h) (list_to_set networks) version
        wire_versions genesis_blocks []).

Definition deserialize_request (root : FbMessage) : outcome NetworkPayload :=
  request ← context (payload_as_network_request root)
    "missing network message payload (expected a request)";
  let variant := fr_variant request in
  NetworkRequestPayload <$>
  (if variant =? RequestVariant_Ping then Ok Ping
   else if variant =? RequestVariant_GetPeers then
     match payload_as_network_ids request ≫= id with
     | Some ids => Ok (GetPeers (list_to_set ids))
     | None => bail "missing network ids in a GetPeers request"
     end
   else if variant =? RequestVariant_Handshake then
     match payload_as_handshake request with
     | Some h => HandshakeRequest <$> deserialize_handshake h
     | None => bail "missing handshake payload"
     end
   else if (variant =? RequestVariant_JoinNetwork) || (variant =? RequestVariant_LeaveNetwork) then
     match payload_as_network_id request with
     | Some id => Ok (if variant =? RequestVariant_JoinNetwork then JoinNetwork id
                      else LeaveNetwork id)
     | None => bail "missing network id in a join/leave network request"
     end
   else bail "Unsupported request variant").

(** One peer of a [PeerList] in [deserialize_response]. *)
Definition deserialize_peer (peer : FbPeer) : outcome P2PPeer :=
  addr ← match fbp_addr peer with
    | Some addr =>
        match fi_octets addr with
        | Some ip =>
            if fi_variant addr =? IpVariant_V4 then
              octets ← read_exact 4 ip; Ok (mkSocketAddr (V4 octets) (fbp_port peer))
            else if fi_variant addr =? IpVariant_V6 then
              octets ← read_exact 16 ip; Ok (mkSocketAddr (V6 octets) (fbp_port peer))
            else bail "Unsupported IP variant"
        | None => bail "missing peer ip in a PeerList response"
        end
    | None => bail "missing peer address in a PeerList response"
    end;
  peer_type ← (if fbp_variant peer =? PeerVariant_Node then Ok Node
               else if fbp_variant peer =? PeerVariant_Bootstrapper then Ok Bootstrapper
               else bail "Unsupported peer variant");
  Ok (mkP2PPeer (fbp_id peer) addr peer_type).

Definition deserialize_response (root : FbMessage) : outcome NetworkPayload :=
  response ← context (payload_as_network_response root)
    "missing network message payload (expected a response)";
  let variant := fs_variant response in
  NetworkResponsePayload <$>
  (if variant =? ResponseVariant_Pong then Ok Pong
   else if variant =? ResponseVariant_PeerList then
     match payload_as_peer_list response ≫= id with
     | Some peers => PeerList <$> try_collect deserialize_peer peers
     | None => bail "missing peers in a PeerList response"
     end
   else bail "Unsupported response variant").

(** [_deserialize]; [now] is [get_current_stamp()]. *)
Definition _deserialize (now : Z) (buffer : list byte) : outcome NetworkMessage :=
  if decide (length buffer < 12)%nat then bail "the buffer is too small"
  else if negb (has_identifier buffer) then bail "unrecognized protocol name"
  else
    r ← root buffer;
    let t := fm_payload_type r in
    payload ← (if t =? NetworkPayload_NetworkPacket then deserialize_packet r
               else if t =? NetworkPayload_NetworkRequest then deserialize_request r
               else if t =? NetworkPayload_NetworkResponse then deserialize_response r
               else bail "invalid network message payload type");
    Ok (mkMessage (fm_timestamp r) (Some now) payload).

(** [NetworkMessage::deserialize]. *)
Definition deserialize (now : Z) (buffer : list byte) : outcome NetworkMessage :=
  match _deserialize now buffer with
  | Panic => bail "caught a panic: received a mangled buffer"
  | r => r
  end.

(** ** Serialization *)

Definition serialize_packet (p : NetworkPacket) : FbPacket :=
  let d := match destination p with
           | Direct target_id => mkFbDestination Direction_Direct (u64_wrap target_id)
           | Broadcast _ => mkFbDestination Direction_Broadcast 0
           end in
  mkFbPacket (Some d) (network_id p) (Some (packet_message p)).

Definition serialize_handshake (h : Handshake) : FbHandshake :=
  let nets := end_vector (iter_set (networks h)) in
  let node_version := end_vector (reverse (version_to_string (node_version h))) in
  let wire_versions := end_vector (reverse (wire_versions h)) in
  let blocks := (fun x => Some (end_vector (reverse (hash_bytes x)))) <$> genesis_blocks h in
  mkFbHandshake 0 (remote_id h) (remote_port h) (Some nets) (Some (Some node_version))
    (Some wire_versions) (Some (end_vector (reverse blocks))) None.

Definition serialize_request (r : NetworkRequest) : FbRequest :=
  match r with
  | Ping => mkFbRequest RequestVariant_Ping union_NONE None
  | GetPeers nets =>
      mkFbRequest RequestVariant_GetPeers RequestPayload_NetworkIds
        (Some (FbNetworkIds (Some (end_vector (iter_set nets)))))
  | HandshakeRequest h =>
      mkFbRequest RequestVariant_Handshake RequestPayload_Handshake
        (Some (FbHandshakePayload (serialize_handshake h)))
  | JoinNetwork id =>
      mkFbRequest RequestVariant_JoinNetwork RequestPayload_NetworkId (Some (FbNetworkId id))
  | LeaveNetwork id =>
      mkFbRequest RequestVariant_LeaveNetwork RequestPayload_NetworkId (Some (FbNetworkId id))
  end.

(** One peer of a [PeerList] in [serialize_response]. *)
Definition serialize_peer (peer : P2PPeer) : FbPeer :=
  let '(variant, octets) := match ip (peer_addr peer) with
                            | V4 o => (IpVariant_V4, vec_to_list o)
                            | V6 o => (IpVariant_V6, vec_to_list o)
                            end in
  let peer_type := match peer_peer_type peer with
                   | Node => PeerVariant_Node
                   | Bootstrapper => PeerVariant_Bootstrapper
                   end in
  mkFbPeer (peer_id peer) (Some (mkFbIpAddr variant (Some (end_vector (reverse octets)))))
    (port (peer_addr peer)) peer_type.

Definition serialize_response (r : NetworkResponse) : FbResponse :=
  match r with
  | Pong => mkFbResponse ResponseVariant_Pong union_NONE None
  | PeerList peers =>
      mkFbResponse ResponseVariant_PeerList ResponsePayload_PeerList
        (Some (Some (serialize_peer <$> peers)))
  end.

(** [NetworkMessage::serialize] into a vector: cannot fail.  The timestamp is
    that of the serialization ([now]), not [created]. *)
Definition serialize (now : Z) (m : NetworkMessage) : list byte :=
  finish
    match payload m with
    | NetworkPacketPayload p =>
        mkFbMessage now NetworkPayload_NetworkPacket
          (Some (FbPacketPayload (serialize_packet p)))
    | NetworkRequestPayload r =>
        mkFbMessage now NetworkPayload_NetworkRequest
          (Some (FbRequestPayload' (serialize_request r)))
    | NetworkResponsePayload r =>
        mkFbMessage now NetworkPayload_NetworkResponse
          (Some (FbResponsePayload (serialize_response r)))
    end.

End fbs.
