(* ===== verification/WireProps.v ===== *)
(** * Round trip of network messages

    Every message that a node serializes is read back by its peer, up to the
    parts that are never transmitted: the peers a broadcast excludes and the
    proof of a handshake. *)

From stdpp Require Import base tactics list gmap strings option numbers vector countable.
From Stdlib Require Import ZArith.
From S2P Require Import Prelude Common Wire.

Lemma read_exact_vec {n} (v : vec byte n) : read_exact n (vec_to_list v) = Ok v.
Proof. induction v as [|b n v IH]; simpl; [done|]. by rewrite IH. Qed.

#[local] Arguments read_exact : simpl never.

Section roundtrip.
Context `{BaseTypes} `{Flatbuffers} `{HashOrder} `{!BaseLaws} `{!FlatbuffersLaws}.

(** What of a payload is transmitted. *)
Definition on_wire (p : NetworkPayload) : NetworkPayload :=
  match p with
  | NetworkPacketPayload (mkPacket (Broadcast _) n m) =>
      NetworkPacketPayload (mkPacket (Broadcast []) n m)
  | NetworkRequestPayload (HandshakeRequest h) =>
      NetworkRequestPayload (HandshakeRequest
        (mkHandshake (remote_id h) (remote_port h) (networks h) (node_version h)
           (wire_versions h) (genesis_blocks h) []))
  | _ => p
  end.

(** The target of a direct packet is a [usize]. *)
Definition payload_wf (p : NetworkPayload) : Prop :=
  match p with
  | NetworkPacketPayload (mkPacket (Direct t) _ _) => in_u64 t
  | _ => True
  end.

Lemma end_vector_rev {A} (l : list A) : end_vector (reverse l) = l.
Proof. apply reverse_involutive. Qed.

Lemma end_vector_set (s : Networks) : list_to_set (end_vector (iter_set s)) = s.
Proof.
  apply leibniz_equiv. intros x. unfold end_vector.
  by rewrite elem_of_list_to_set, elem_of_reverse, elem_of_iter_set.
Qed.

Lemma from_utf8_ascii l : Forall (fun b => byte_to_Z b < 128) l -> from_utf8 l = Ok l.
Proof.
  intros Ha. unfold from_utf8.
  assert (is_utf8 [] l = true) as ->; [|done].
  induction Ha as [|b l Hb _ IH]; simpl; [done|].
  unfold utf8_continuation. by rewrite (proj2 (Z.ltb_lt _ _)).
Qed.

Lemma try_collect_fmap {A B C} (f : B -> outcome C) (g : A -> B) (h : A -> C) l :
  (forall a, f (g a) = Ok (h a)) -> try_collect f (g <$> l) = Ok (h <$> l).
Proof.
  intros E. induction l as [|a l IH]; [done|].
  rewrite !fmap_cons. cbn [try_collect]. by rewrite E, IH.
Qed.

Lemma deserialize_handshake_serialize h :
  deserialize_handshake (serialize_handshake h) =
  Ok (mkHandshake (remote_id h) (remote_port h) (networks h) (node_version h)
        (wire_versions h) (genesis_blocks h) []).
Proof.
  unfold deserialize_handshake, serialize_handshake. simpl.
  rewrite !end_vector_rev, end_vector_set, from_utf8_ascii by apply version_ascii.
  simpl. rewrite version_parse_to_string. simpl.
  rewrite (try_collect_fmap _ _ id).
  - simpl. by rewrite list_fmap_id.
  - intros x. rewrite end_vector_rev. apply hash_try_from_bytes.
Qed.

Lemma deserialize_peer_serialize p : deserialize_peer (serialize_peer p) = Ok p.
Proof.
  destruct p as [i [a pt] t]. unfold deserialize_peer, serialize_peer. simpl.
  destruct a as [o|o]; simpl; rewrite end_vector_rev, read_exact_vec; by destruct t.
Qed.

Lemma deserialize_serialize_eq now now' m :
  payload_wf (payload m) ->
  deserialize now' (serialize now m) = Ok (mkMessage now (Some now') (on_wire (payload m))).
Proof.
  intros Hwf. unfold deserialize, _deserialize, serialize. destruct m as [cr re p]; simpl in *.
  rewrite decide_False by (pose proof length_finish; apply Nat.le_ngt; done).
  rewrite has_identifier_finish. simpl. rewrite root_finish. simpl.
  destruct p as [r|r|[d n ms]]; simpl.
  - unfold deserialize_request. simpl. destruct r as [|nets|h|i|i]; simpl; try done.
    + by rewrite end_vector_set.
    + by rewrite deserialize_handshake_serialize.
  - unfold deserialize_response. simpl. destruct r as [|peers]; simpl; [done|].
    rewrite (try_collect_fmap _ _ id) by apply deserialize_peer_serialize.
    by rewrite list_fmap_id.
  - unfold deserialize_packet. simpl. destruct d as [t|l]; simpl; [|done].
    by rewrite wrap_small.
Qed.

(** The parts of a payload that stay with the node: whom a broadcast is not to be
    relayed to, and the proof of a handshake. *)
Definition not_transmitted (p : NetworkPayload) : list RemotePeerId * list byte :=
  match p with
  | NetworkPacketPayload (mkPacket (Broadcast dont_relay_to) _ _) => (dont_relay_to, [])
  | NetworkRequestPayload (HandshakeRequest h) => ([], proof h)
  | _ => ([], [])
  end.

Lemma on_wire_same p : on_wire p = p <-> not_transmitted p = ([], []).
Proof.
  destruct p as [[| |[i po ne ve wi ge pr]| |]|[]|[[] n m]]; cbn; try done.
  - split; [by intros [= <-]|by intros [= ->]].
  - split; [by intros [= <-]|by intros [= ->]].
Qed.

Lemma on_wire_idemp p : on_wire (on_wire p) = on_wire p.
Proof. apply on_wire_same. by destruct p as [[]|[]|[[] n m]]. Qed.

(** C17: what one node serializes the other deserializes to the same message, with
    the time of serialization as its creation time, the time of deserialization as
    its time of receipt, and with two parts empty that are not transmitted: the
    list of nodes that a broadcast is not to be relayed to, and the proof of a
    handshake.  So the payload is the same exactly if these are empty, and what
    has been received once passes unchanged from then on. *)
Theorem deserialize_serialize now now' m :
  payload_wf (payload m) ->
  exists m', deserialize now' (serialize now m) = Ok m' /\
    created m' = now /\ received m' = Some now' /\ payload m' = on_wire (payload m) /\
    (payload m' = payload m <-> not_transmitted (payload m) = ([], [])) /\
    forall now1 now2,
      deserialize now2 (serialize now1 m') = Ok (mkMessage now1 (Some now2) (payload m')).
Proof.
  intros Hwf. eexists. split; [by apply deserialize_serialize_eq|]. cbn.
  split_and!; try done; [apply on_wire_same|]. intros now1 now2.
  rewrite deserialize_serialize_eq; cbn; [by rewrite on_wire_idemp|].
  revert Hwf. by destruct (payload m) as [[]|[]|[[] n d]].
Qed.
End roundtrip.

(** ** Instances used to evaluate the model

    Versions are words over two digits, hashes vectors of 32 bytes, and a
    table is encoded as the binary digits of its number in an enumeration of
    all tables. *)
Module Sample.

Definition digit (b : bool) : byte := if b then Byte.x31 else Byte.x30.
Definition undigit (b : byte) : bool := bool_decide (b = Byte.x31).

#[export] Instance base : BaseTypes := {|
  Version := list bool;
  version_to_string := fmap digit;
  version_parse := fun l => Ok (undigit <$> l);
  version_major := fun v => Z.of_nat (length (filter (fun b => b = true) v));
  version_minor := fun v => Z.of_nat (length (filter (fun b => b = false) v));
  BlockHash := vec byte 32;
  hash_bytes := fun h => vec_to_list h;
  hash_try_from := read_exact 32;
|}.

#[export] Instance base_laws : BaseLaws.
Proof.
  split; simpl.
  - intros v. f_equal. rewrite <- list_fmap_compose. rewrite <- (list_fmap_id v) at 2.
    apply list_fmap_ext. by intros ? [] ?.
  - intros v. apply Forall_fmap, Forall_true. by intros [].
  - intros h. by rewrite length_vec_to_list.
  - intros h. apply (read_exact_vec h).
Qed.

#[local] Instance destination_eq_dec : EqDecision FbDestination.
Proof. solve_decision. Defined.
#[local] Instance destination_countable : Countable FbDestination.
Proof.
  refine (inj_countable' (fun d => (fd_variant d, fd_target d))
    (fun p => mkFbDestination p.1 p.2) _). by intros [].
Defined.
#[local] Instance packet_eq_dec : EqDecision FbPacket.
Proof. solve_decision. Defined.
#[local] Instance packet_countable : Countable FbPacket.
Proof.
  refine (inj_countable' (fun p => (fp_destination p, fp_network_id p, fp_payload p))
    (fun p => mkFbPacket p.1.1 p.1.2 p.2) _). by intros [].
Defined.
#[local] Instance handshake_eq_dec : EqDecision FbHandshake.
Proof. solve_decision. Defined.
#[local] Instance handshake_countable : Countable FbHandshake.
Proof.
  refine (inj_countable'
    (fun h => (fh_version h, fh_node_id h, fh_port h, fh_network_ids h, fh_node_version h,
               fh_wire_versions h, fh_genesis_blocks h, fh_zk h))
    (fun '(a, b, c, d, e, f, g, h) => mkFbHandshake a b c d e f g h) _). by intros [].
Defined.
#[local] Instance request_payload_eq_dec : EqDecision FbRequestPayload.
Proof. solve_decision. Defined.
#[local] Instance request_payload_countable : Countable FbRequestPayload.
Proof.
  refine (inj_countable'
    (fun r => match r with FbNetworkIds i => inl i | FbHandshakePayload h => inr (inl h)
              | FbNetworkId i => inr (inr i) end)
    (fun s => match s with inl i => FbNetworkIds i | inr (inl h) => FbHandshakePayload h
              | inr (inr i) => FbNetworkId i end) _). by intros [].
Defined.
#[local] Instance request_eq_dec : EqDecision FbRequest.
Proof. solve_decision. Defined.
#[local] Instance request_countable : Countable FbRequest.
Proof.
  refine (inj_countable' (fun r => (fr_variant r, fr_payload_type r, fr_payload r))
    (fun p => mkFbRequest p.1.1 p.1.2 p.2) _). by intros [].
Defined.
#[local] Instance ip_eq_dec : EqDecision FbIpAddr.
Proof. solve_decision. Defined.
#[local] Instance ip_countable : Countable FbIpAddr.
Proof.
  refine (inj_countable' (fun r => (fi_variant r, fi_octets r))
    (fun p => mkFbIpAddr p.1 p.2) _). by intros [].
Defined.
#[local] Instance peer_eq_dec : EqDecision FbPeer.
Proof. solve_decision. Defined.
#[local] Instance peer_countable : Countable FbPeer.
Proof.
  refine (inj_countable' (fun r => (fbp_id r, fbp_addr r, fbp_port r, fbp_variant r))
    (fun p => mkFbPeer p.1.1.1 p.1.1.2 p.1.2 p.2) _). by intros [].
Defined.
#[local] Instance response_eq_dec : EqDecision FbResponse.
Proof. solve_decision. Defined.
#[local] Instance response_countable : Countable FbResponse.
Proof.
  refine (inj_countable' (fun r => (fs_variant r, fs_payload_type r, fs_payload r))
    (fun p => mkFbResponse p.1.1 p.1.2 p.2) _). by intros [].
Defined.
#[local] Instance payload_eq_dec : EqDecision FbPayload.
Proof. solve_decision. Defined.
#[local] Instance payload_countable : Countable FbPayload.
Proof.
  refine (inj_countable'
    (fun r => match r with FbPacketPayload i => inl i | FbRequestPayload' h => inr (inl h)
              | FbResponsePayload i => inr (inr i) end)
    (fun s => match s with inl i => FbPacketPayload i | inr (inl h) => FbRequestPayload' h
              | inr (inr i) => FbResponsePayload i end) _). by intros [].
Defined.
#[local] Instance message_eq_dec : EqDecision FbMessage.
Proof. solve_decision. Defined.
#[local] Instance message_countable : Countable FbMessage.
Proof.
  refine (inj_countable' (fun r => (fm_timestamp r, fm_payload_type r, fm_payload r))
    (fun p => mkFbMessage p.1.1 p.1.2 p.2) _). by intros [].
Defined.

#[export] Instance flatbuffers : Flatbuffers := {|
  finish := fun m => replicate 12 Byte.x2a ++ pos_bytes (encode m);
  root := fun l => context (decode (bytes_pos (drop 12 l))) "invalid buffer";
  has_identifier := fun l => bool_decide (take 12 l = replicate 12 Byte.x2a);
|}.

#[export] Instance flatbuffers_laws : FlatbuffersLaws.
Proof.
  split; intros m; simpl.
  - by rewrite drop_0, bytes_pos_bytes, decode_encode.
  - done.
  - lia.
Qed.

Lemma deserialize_serialize_witness :
  deserialize 9 (serialize 7 (mkMessage 5 None (NetworkPacketPayload
    (mkPacket (Direct 3) 100 [Byte.x01; Byte.x02]))))
  = Ok (mkMessage 7 (Some 9) (NetworkPacketPayload
      (mkPacket (Direct 3) 100 [Byte.x01; Byte.x02]))).
Proof.
  destruct (deserialize_serialize (H := base) 7 9 (mkMessage 5 None (NetworkPacketPayload
    (mkPacket (Direct 3) 100 [Byte.x01; Byte.x02])))) as ([c v p] & -> & Hc & Hr & Hp & _).
  - unfold payload_wf, in_u. simpl. lia.
  - cbn in Hc, Hr, Hp. subst. reflexivity.
Defined.
End Sample.
