(* ===== verification/Conn.v ===== *)
(** * A connection

    Models the parts of [concordium-node/src/connection/mod.rs] that belong to
    one connection: the deduplication queues, the ping/pong statistics, the
    message queues and the [Connection] object itself.  The parts that involve
    the node are in [Handlers]. *)

From stdpp Require Import base tactics list gmap strings option numbers.
From Stdlib Require Import ZArith.
From S2P Require Import Prelude Common Helpers LowLevel Wire.

Inductive MessageSendingPriority := Normal | High.

Inductive DeduplicationHashAlgorithm := XxHash64 | Sha256.

(** [FromStr for DeduplicationHashAlgorithm]. *)
Definition DeduplicationHashAlgorithm_from_str (algorithm : string)
    : outcome DeduplicationHashAlgorithm :=
  if String.eqb algorithm "xxhash64" then Ok XxHash64
  else if String.eqb algorithm "sha256" then Ok Sha256
  else bail "Could not parse deduplication hashing algorithm".

(** ** Deduplication queues *)

(** The crate [circular_queue]: a queue of fixed capacity in which a push
    overwrites the oldest element; [cq_iter] goes from the newest to the
    oldest, and [cq_set] assigns through [iter_mut]. *)
Class CircularQueue := {
  CQ : Type -> Type;
  with_capacity : forall {A}, nat -> CQ A;
  cq_capacity : forall {A}, CQ A -> nat;
  cq_iter : forall {A}, CQ A -> list A;
  cq_push : forall {A}, A -> CQ A -> CQ A;
  cq_set : forall {A}, nat -> A -> CQ A -> CQ A;
}.

Class CircularQueueLaws `{CircularQueue} := {
  capacity_with_capacity A n : cq_capacity (with_capacity (A := A) n) = n;
  iter_with_capacity A n : cq_iter (with_capacity (A := A) n) = [];
  capacity_push A (x : A) q : cq_capacity (cq_push x q) = cq_capacity q;
  iter_push A (x : A) q : cq_iter (cq_push x q) = take (cq_capacity q) (x :: cq_iter q);
  capacity_set A i (x : A) q : cq_capacity (cq_set i x q) = cq_capacity q;
  iter_set_nth A i (x : A) q : cq_iter (cq_set i x q) = <[i := x]> (cq_iter q);
}.

(** The hash functions of the crates [twox_hash] and [sha2]. *)
Class Hashes := {
  xxhash64 : Z -> list byte -> Z;
  sha256 : list byte -> list byte;
}.

(** The trait [DeduplicationQueue]. *)
Class DeduplicationQueue (Q : Type) := {
  check_and_insert : list byte -> Q -> outcome bool * Q;
  invalidate_if_exists : list byte -> Q -> Q;
}.

Section dedup.
Context `{CircularQueue} `{Hashes}.

Record DeduplicationQueueXxHash64 := mkXxQueue { xx_seed : Z; xx_queue : CQ Z }.

(** [DeduplicationQueueXxHash64::new]; [seed] is drawn at random. *)
Definition xx_new (seed : Z) (capacity : nat) : DeduplicationQueueXxHash64 :=
  mkXxQueue seed (with_capacity capacity).

Definition xx_hash (q : DeduplicationQueueXxHash64) (input : list byte) : Z :=
  xxhash64 (xx_seed q) input.

Definition xx_check_and_insert (input : list byte) (q : DeduplicationQueueXxHash64)
    : outcome bool * DeduplicationQueueXxHash64 :=
  let num := xx_hash q input in
  if decide (num ∈ cq_iter (xx_queue q)) then (Ok true, q)
  else (Ok false, mkXxQueue (xx_seed q) (cq_push num (xx_queue q))).

(** [!x] on [u64]. *)
Definition u64_not (x : Z) : Z := 2 ^ 64 - 1 - x.

Definition xx_invalidate_if_exists (input : list byte) (q : DeduplicationQueueXxHash64)
    : DeduplicationQueueXxHash64 :=
  let num := xx_hash q input in
  match list_find (fun v => v = num) (cq_iter (xx_queue q)) with
  | Some (i, old_val) => mkXxQueue (xx_seed q) (cq_set i (u64_not old_val) (xx_queue q))
  | None => q
  end.

#[export] Instance xx_dedup : DeduplicationQueue DeduplicationQueueXxHash64 := {|
  check_and_insert := xx_check_and_insert;
  invalidate_if_exists := xx_invalidate_if_exists;
|}.

Record DeduplicationQueueSha256 := mkShaQueue { sha_queue : CQ (list byte) }.

(** [DeduplicationQueueSha256::new]. *)
Definition sha_new (capacity : nat) : DeduplicationQueueSha256 :=
  mkShaQueue (with_capacity capacity).

Definition sha_hash (input : list byte) : list byte := sha256 input.

Definition sha_check_and_insert (input : list byte) (q : DeduplicationQueueSha256)
    : outcome bool * DeduplicationQueueSha256 :=
  let hash := sha_hash input in
  if decide (hash ∈ cq_iter (sha_queue q)) then (Ok true, q)
  else (Ok false, mkShaQueue (cq_push hash (sha_queue q))).

Definition sha_invalidate_if_exists (input : list byte) (q : DeduplicationQueueSha256)
    : DeduplicationQueueSha256 :=
  let hash := sha_hash input in
  match list_find (fun v => v = hash) (cq_iter (sha_queue q)) with
  | Some (i, _) => mkShaQueue (cq_set i (replicate 32 Byte.x00) (sha_queue q))
  | None => q
  end.

#[export] Instance sha_dedup : DeduplicationQueue DeduplicationQueueSha256 := {|
  check_and_insert := sha_check_and_insert;
  invalidate_if_exists := sha_invalidate_if_exists;
|}.

(** [Box<dyn DeduplicationQueue>]: one of the two implementations. *)
Inductive DynQueue :=
| DynXx (q : DeduplicationQueueXxHash64)
| DynSha (q : DeduplicationQueueSha256).

#[export] Instance dyn_dedup : DeduplicationQueue DynQueue := {|
  check_and_insert input q :=
    match q with
    | DynXx q => prod_map id DynXx (check_and_insert input q)
    | DynSha q => prod_map id DynSha (check_and_insert input q)
    end;
  invalidate_if_exists input q :=
    match q with
    | DynXx q => DynXx (invalidate_if_exists input q)
    | DynSha q => DynSha (invalidate_if_exists input q)
    end;
|}.

Record DeduplicationQueues := mkDedupQueues {
  finalizations : DynQueue;
  transactions : DynQueue;
  blocks : DynQueue;
  fin_records : DynQueue;
}.

(** [DeduplicationQueues::new]; the seeds are drawn at random. *)
Definition dedup_queues_new (algorithm : DeduplicationHashAlgorithm) (seeds : Z * Z * Z * Z)
    (long_size short_size : nat) : DeduplicationQueues :=
  let '(s1, s2, s3, s4) := seeds in
  match algorithm with
  | XxHash64 =>
      mkDedupQueues (DynXx (xx_new s1 long_size)) (DynXx (xx_new s2 long_size))
        (DynXx (xx_new s3 short_size)) (DynXx (xx_new s4 short_size))
  | Sha256 =>
      mkDedupQueues (DynSha (sha_new long_size)) (DynSha (sha_new long_size))
        (DynSha (sha_new short_size)) (DynSha (sha_new short_size))
  end.

(** [dedup_with]. *)
Definition dedup_with (message : list byte) (q : DynQueue) : outcome bool * DynQueue :=
  check_and_insert message q.

(** [Connection::is_packet_duplicate], on the node's deduplication queues. *)
Definition is_packet_duplicate (packet : NetworkPacket) : M DeduplicationQueues bool := fun qs =>
  match packet_message packet with
  | [] => (bail "Invalid message type.", qs)
  | tag :: _ =>
      match PacketType_try_from tag with
      | Ok packet_type =>
          match destination packet with
          | Direct _ => (Ok false, qs)
          | Broadcast _ =>
              let msg := packet_message packet in
              match packet_type with
              | FinalizationMessage =>
                  let '(r, q) := dedup_with msg (finalizations qs) in
                  (r, mkDedupQueues q (transactions qs) (blocks qs) (fin_records qs))
              | Transaction =>
                  let '(r, q) := dedup_with msg (transactions qs) in
                  (r, mkDedupQueues (finalizations qs) q (blocks qs) (fin_records qs))
              | Block =>
                  let '(r, q) := dedup_with msg (blocks qs) in
                  (r, mkDedupQueues (finalizations qs) (transactions qs) q (fin_records qs))
              | FinalizationRecord =>
                  let '(r, q) := dedup_with msg (fin_records qs) in
                  (r, mkDedupQueues (finalizations qs) (transactions qs) (blocks qs) q)
              | _ => (Ok false, qs)
              end
          end
      | Err e => (Err e, qs)
      | Panic => (Panic, qs)
      end
  end.

End dedup.

(** ** Statistics of a connection *)

Record ConnectionStats := mkStats {
  stats_created : Z;
  last_seen : Z;
  last_ping : Z;
  last_ping_interval : Z;
  pending_pongs : Z;
  last_latency : Z;
  messages_sent : Z;
  messages_received : Z;
  bytes_received : Z;
  bytes_sent : Z;
}.

Definition stats_new (timestamp : Z) : ConnectionStats :=
  mkStats timestamp timestamp 0 0 0 0 0 0 0 0.

(** [ConnectionStats::notify_ping] at time [now]. *)
Definition notify_ping (now : Z) (s : ConnectionStats) : ConnectionStats :=
  mkStats (stats_created s) (last_seen s) now (u64_wrap (now - last_ping s))
    (i64_wrap (pending_pongs s + 1)) (last_latency s) (messages_sent s) (messages_received s)
    (bytes_received s) (bytes_sent s).

(** [ConnectionStats::notify_pong] at time [now]. *)
Definition notify_pong (now : Z) : M ConnectionStats unit := fun s =>
  let old_pending_pongs := pending_pongs s in
  let with_pongs latency :=
    mkStats (stats_created s) (last_seen s) (last_ping s) (last_ping_interval s)
      (i64_wrap (old_pending_pongs - 1)) latency (messages_sent s) (messages_received s)
      (bytes_received s) (bytes_sent s) in
  if old_pending_pongs <=? 0 then (bail "unexpected pong", with_pongs (last_latency s))
  else
    let extra_delay := if 1 <? old_pending_pongs
                       then u64_wrap ((old_pending_pongs - 1) * last_ping_interval s) else 0 in
    (Ok tt, with_pongs (u64_wrap (now - last_ping s + extra_delay))).

(** [ConnectionStats::get_latency]. *)
Definition get_latency (s : ConnectionStats) : Z := last_latency s.

Definition set_last_seen (t : Z) (s : ConnectionStats) : ConnectionStats :=
  mkStats (stats_created s) t (last_ping s) (last_ping_interval s) (pending_pongs s)
    (last_latency s) (messages_sent s) (messages_received s) (bytes_received s) (bytes_sent s).
Definition count_received (n : Z) (s : ConnectionStats) : ConnectionStats :=
  mkStats (stats_created s) (last_seen s) (last_ping s) (last_ping_interval s) (pending_pongs s)
    (last_latency s) (messages_sent s) (u64_wrap (messages_received s + 1))
    (u64_wrap (bytes_received s + n)) (bytes_sent s).
Definition count_sent (n : Z) (s : ConnectionStats) : ConnectionStats :=
  mkStats (stats_created s) (last_seen s) (last_ping s) (last_ping_interval s) (pending_pongs s)
    (last_latency s) (u64_wrap (messages_sent s + 1)) (messages_received s)
    (bytes_received s) (u64_wrap (bytes_sent s + n)).

(** ** Message queues *)

Record MessageQueues := mkQueues { low : list (list byte); high : list (list byte) }.

(** [MessageQueues::new]: the capacities are hints. *)
Definition queues_new : MessageQueues := mkQueues [] [].

(** [MessageQueues::enqueue]. *)
Definition enqueue (priority : MessageSendingPriority) (m : list byte) (q : MessageQueues)
    : MessageQueues :=
  match priority with
  | Normal => mkQueues (low q ++ [m]) (high q)
  | High => mkQueues (low q) (high q ++ [m])
  end.

(** [MessageQueues::dequeue]. *)
Definition dequeue (q : MessageQueues) : option (list byte) * MessageQueues :=
  match high q with
  | m :: rest => (Some m, mkQueues (low q) rest)
  | [] =>
      match low q with
      | m :: rest => (Some m, mkQueues rest [])
      | [] => (None, q)
      end
  end.

(** ** Changes to the set of connections *)

Inductive ConnChange :=
| ExpulsionByToken (t : Token)
| NewConn (conn_addr : SocketAddr) (conn_type : PeerType) (given : bool)
| NewPeers (new_peers : list P2PPeer)
| Promotion (t : Token)
| RemovalByToken (t : Token)
| RemoveAllByTokens (ts : list Token).

(** ** Connections *)

Section connection.
Context `{Noise} `{VecDequeLayout} `{BaseTypes} `{Flatbuffers} `{HashOrder}.

(** [Connection], less the reference to its node. *)
Record Connection := mkConnection {
  remote_peer : RemotePeer;
  low_level : LowLevel;
  remote_end_networks : Networks;
  stats : ConnectionStats;
  pending_messages : MessageQueues;
  wire_version : WireProtocolVersion;
}.

Definition set_remote_peer (x : RemotePeer) (c : Connection) : Connection :=
  mkConnection x (low_level c) (remote_end_networks c) (stats c) (pending_messages c)
    (wire_version c).
Definition set_low_level (x : LowLevel) (c : Connection) : Connection :=
  mkConnection (remote_peer c) x (remote_end_networks c) (stats c) (pending_messages c)
    (wire_version c).
Definition set_remote_end_networks (x : Networks) (c : Connection) : Connection :=
  mkConnection (remote_peer c) (low_level c) x (stats c) (pending_messages c) (wire_version c).
Definition set_stats (x : ConnectionStats) (c : Connection) : Connection :=
  mkConnection (remote_peer c) (low_level c) (remote_end_networks c) x (pending_messages c)
    (wire_version c).
Definition set_pending_messages (x : MessageQueues) (c : Connection) : Connection :=
  mkConnection (remote_peer c) (low_level c) (remote_end_networks c) (stats c) x
    (wire_version c).
Definition set_wire_version (x : WireProtocolVersion) (c : Connection) : Connection :=
  mkConnection (remote_peer c) (low_level c) (remote_end_networks c) (stats c)
    (pending_messages c) x.

(** [Connection::new], once the socket is registered with the poll registry
    ([registered] is the answer of the operating system). *)
Definition connection_new (now : Z) (registered : bool) (kp : Keypair) (so_linger : option Z)
    (read_size write_size : nat) (socket : Socket) (peer : RemotePeer) (is_initiator : bool)
    : outcome Connection :=
  if registered then
    Ok (mkConnection peer (new socket is_initiator kp so_linger read_size write_size) ∅
          (stats_new now) queues_new WIRE_PROTOCOL_CURRENT_VERSION)
  else Err (IoError "register").

(** [Connection::token] and the other accessors. *)
Definition token (c : Connection) : Token := to_token (local_id (remote_peer c)).
Definition conn_latency (c : Connection) : Z := get_latency (stats c).
Definition conn_remote_id (c : Connection) : option P2PNodeId := self_id (remote_peer c).
Definition remote_peer_type (c : Connection) : PeerType := peer_type (remote_peer c).
Definition remote_addr (c : Connection) : SocketAddr := addr (remote_peer c).
Definition remote_peer_external_port (c : Connection) : Z := external_port (remote_peer c).
Definition conn_last_seen (c : Connection) : Z := last_seen (stats c).

(** [Connection::is_post_handshake]. *)
Definition conn_is_post_handshake (c : Connection) : bool :=
  bool_decide (is_Some (self_id (remote_peer c))).

(** [Connection::async_send]. *)
Definition async_send (m : list byte) (priority : MessageSendingPriority) (c : Connection)
    : Connection :=
  set_pending_messages (enqueue priority m (pending_messages c)) c.

(** [Connection::update_last_seen], on a node of the given type. *)
Definition update_last_seen (node_type : PeerType) (now : Z) (c : Connection) : Connection :=
  if decide (node_type = Bootstrapper) then c else set_stats (set_last_seen now (stats c)) c.

(** [Connection::send_ping]. *)
Definition send_ping (now : Z) (c : Connection) : Connection :=
  let serialized := serialize now (netmsg now (NetworkRequestPayload Ping)) in
  async_send serialized High (set_stats (notify_ping now (stats c)) c).

(** [Connection::send_pong]. *)
Definition send_pong (now : Z) (c : Connection) : Connection :=
  let serialized := serialize now (netmsg now (NetworkResponsePayload Pong)) in
  async_send serialized High c.

(** [Connection::handle_pong]. *)
Definition handle_pong (now : Z) : M Connection unit := fun c =>
  let '(r, s) := notify_pong now (stats c) in (r, set_stats s c).

(** [PeerStats::new]. *)
Definition peer_stats_of (id : P2PNodeId) (c : Connection) : PeerStats :=
  mkPeerStats id (remote_addr c) (remote_peer_external_port c) (local_id (remote_peer c))
    (remote_peer_type c) (conn_latency c) (messages_sent (stats c)) (messages_received (stats c))
    (bytes_sent (stats c)) (bytes_received (stats c)).

(** The totals a node keeps over all its connections. *)
Record Totals := mkTotals {
  total_received : Z;
  total_sent : Z;
  packets_received : Z;
  packets_sent : Z;
  received_bytes : Z;
  sent_bytes : Z;
}.

Definition totals_sent (n : Z) (t : Totals) : Totals :=
  mkTotals (total_received t) (u64_wrap (total_sent t + 1)) (packets_received t)
    (u64_wrap (packets_sent t + 1)) (received_bytes t) (u64_wrap (sent_bytes t + n)).
Definition totals_received (n : Z) (t : Totals) : Totals :=
  mkTotals (u64_wrap (total_received t + 1)) (total_sent t) (u64_wrap (packets_received t + 1))
    (packets_sent t) (u64_wrap (received_bytes t + n)) (sent_bytes t).

(** The loop of [Connection::send_pending_messages]; every iteration dequeues
    a message. *)
Fixpoint send_pending_loop (fuel : nat) : M (Connection * Totals) unit := fun '(c, t) =>
  match fuel with
  | O => (Ok tt, (c, t))
  | S fuel' =>
      match dequeue (pending_messages c) with
      | (None, _) => (Ok tt, (c, t))
      | (Some msg, q) =>
          let c1 := set_pending_messages q c in
          match write_to_socket msg (low_level c1) with
          | (Ok _, l) =>
              let n := Z.of_nat (length msg) in
              send_pending_loop fuel'
                (set_stats (count_sent n (stats c1)) (set_low_level l c1), totals_sent n t)
          | (Err e, l) => (Err e, (set_low_level l c1, t))
          | (Panic, l) => (Panic, (set_low_level l c1, t))
          end
      end
  end.

(** [Connection::send_pending_messages]. *)
Definition send_pending_messages : M (Connection * Totals) unit := fun '(c, t) =>
  let q := pending_messages c in
  send_pending_loop (S (length (high q) + length (low q))) (c, t).

End connection.
