(* ===== verification/ConnProps.v ===== *)
(** * Correctness of the parts of a connection

    Deduplication against an interface both queue implementations satisfy,
    the latency measured by pings and pongs, and the order in which queued
    messages are written. *)

From stdpp Require Import base tactics list gmap strings option numbers.
From Stdlib Require Import ZArith.
From S2P Require Import Prelude Common Helpers LowLevel LowLevelFacts LowLevelProps Wire Conn.

(** ** What a deduplication queue promises

    [dq_pos q m] is the position of [m] in [q], counted from the newest entry;
    [dq_unique q m] says that [m] occurs at most once and is not confused with
    an invalidated entry. *)
Class DedupSpec (Q : Type) `{DeduplicationQueue Q} := {
  dq_pos : Q -> list byte -> option nat;
  dq_cap : Q -> nat;
  dq_unique : Q -> list byte -> Prop;
  check_answer q m :
    (check_and_insert m q).1 = Ok (bool_decide (is_Some (dq_pos q m)));
  check_dup q m : is_Some (dq_pos q m) -> (check_and_insert m q).2 = q;
  check_new q m :
    dq_pos q m = None -> (0 < dq_cap q)%nat -> dq_pos (check_and_insert m q).2 m = Some 0%nat;
  check_shift q m m' i :
    dq_pos q m = Some i -> (S i < dq_cap q)%nat ->
    exists j, (j <= S i)%nat /\ dq_pos (check_and_insert m' q).2 m = Some j;
  check_cap q m : dq_cap (check_and_insert m q).2 = dq_cap q;
  invalidate_forgets q m : dq_unique q m -> dq_pos (invalidate_if_exists m q) m = None;
}.

(** Checking a list of messages. *)
Definition check_all {Q} `{DeduplicationQueue Q} (ms : list (list byte)) (q : Q) : Q :=
  foldl (fun q m => (check_and_insert m q).2) q ms.

Section interface.
Context {Q : Type} `{DedupSpec Q}.

Lemma check_all_pos ms : forall (q : Q) m i,
  dq_pos q m = Some i -> (i + length ms < dq_cap q)%nat ->
  exists j, (j <= i + length ms)%nat /\ dq_pos (check_all ms q) m = Some j.
Proof.
  induction ms as [|m' ms IH]; intros q m i Hi Hc; simpl in *.
  { exists i. split; [lia|done]. }
  destruct (check_shift q m m' i Hi) as (j & Hj & Hp); [lia|].
  destruct (IH (check_and_insert m' q).2 m j Hp) as (j' & ? & ?); [rewrite check_cap; lia|].
  exists j'. split; [lia|done].
Qed.

Lemma window (q : Q) m ms :
  (length ms < dq_cap q)%nat -> dq_pos q m = None ->
  (check_and_insert m (check_all ms (check_and_insert m q).2)).1 = Ok true.
Proof.
  intros Hc Hn. destruct (check_all_pos ms (check_and_insert m q).2 m 0) as (j & _ & Hp).
  - apply check_new; [done|lia].
  - rewrite check_cap. lia.
  - rewrite check_answer, Hp. by rewrite bool_decide_eq_true_2 by eauto.
Qed.

Lemma readmit (q : Q) m :
  dq_unique q m -> (check_and_insert m (invalidate_if_exists m q)).1 = Ok false.
Proof.
  intros Hu. rewrite check_answer, invalidate_forgets by done.
  rewrite bool_decide_eq_false_2; [done|]. by intros [? ?].
Qed.

Lemma check_twice (q : Q) m :
  (0 < dq_cap q)%nat -> dq_pos q m = None ->
  exists q', check_and_insert m q = (Ok false, q') /\ check_and_insert m q' = (Ok true, q').
Proof.
  intros Hc Hn. pose proof (check_answer q m) as Ha. pose proof (check_new q m Hn Hc) as Hp.
  rewrite bool_decide_eq_false_2 in Ha by (rewrite Hn; by intros [? ?]).
  destruct (check_and_insert m q) as [r q']. simpl in *. subst r. exists q'. split; [done|].
  pose proof (check_answer q' m) as Ha'. pose proof (check_dup q' m) as Hd.
  rewrite Hp, bool_decide_eq_true_2 in Ha' by eauto. specialize (Hd ltac:(eauto)).
  destruct (check_and_insert m q') as [r2 q2]. simpl in *. congruence.
Qed.
End interface.

(** ** The two implementations satisfy it *)

Section implementations.
Context `{CircularQueue} `{Hashes} `{!CircularQueueLaws}.

Definition index_of {A} `{EqDecision A} (x : A) (l : list A) : option nat :=
  fst <$> list_find (fun v => v = x) l.

Lemma index_of_Some {A} `{EqDecision A} (x : A) l : is_Some (index_of x l) <-> x ∈ l.
Proof.
  unfold index_of. split.
  - intros [i Hi]. apply fmap_Some in Hi as ([j y] & Hf & _).
    apply list_find_Some in Hf as (Hl & -> & _). by eapply list_elem_of_lookup_2.
  - intros Hx. destruct (list_find_elem_of (fun v => v = x) l x Hx eq_refl) as [[i y] ->].
    simpl. eauto.
Qed.

Lemma index_of_None {A} `{EqDecision A} (x : A) l : index_of x l = None <-> x ∉ l.
Proof. rewrite eq_None_not_Some, index_of_Some. done. Qed.

Lemma index_of_take {A} `{EqDecision A} (x : A) l i n :
  index_of x l = Some i -> (i < n)%nat -> index_of x (take n l) = Some i.
Proof.
  unfold index_of. intros Hi Hn. apply fmap_Some in Hi as ([j y] & Hf & ->).
  apply list_find_Some in Hf as (Hl & -> & Hb). simpl in *.
  assert (list_find (fun v => v = x) (take n l) = Some (j, x)) as ->; [|done].
  apply list_find_Some. split; [by rewrite lookup_take_lt|]. split; [done|].
  intros k y Hk Hkj. apply (Hb k y); [|done]. rewrite lookup_take_lt in Hk by lia. done.
Qed.

Lemma index_of_cons {A} `{EqDecision A} (x y : A) l i :
  index_of x l = Some i -> exists j, (j <= S i)%nat /\ index_of x (y :: l) = Some j.
Proof.
  unfold index_of. intros Hi. apply fmap_Some in Hi as ([j z] & Hf & ->). simpl.
  destruct (decide (y = x)); [exists 0%nat; split; [lia|done]|].
  exists (S j). rewrite Hf. simpl. done.
Qed.

(** [x] occurs once in [l]. *)
Definition occurs_once {A} (x : A) (l : list A) : Prop :=
  forall i j, l !! i = Some x -> l !! j = Some x -> i = j.

Lemma index_of_overwrite {A} `{EqDecision A} (x y : A) l i z :
  occurs_once x l -> y <> x -> list_find (fun v => v = x) l = Some (i, z) ->
  index_of x (<[i := y]> l) = None.
Proof.
  intros Ho Hy Hf. apply index_of_None. apply list_find_Some in Hf as (Hl & -> & _).
  intros [k Hk]%list_elem_of_lookup. destruct (decide (k = i)) as [->|Hki].
  - rewrite list_lookup_insert_eq in Hk by (by eapply lookup_lt_Some). congruence.
  - rewrite list_lookup_insert_ne in Hk by done. destruct Hki. by apply Ho.
Qed.

(** The common core: a queue of hashes. *)
Lemma push_new {A} `{EqDecision A} (x : A) (q : CQ A) :
  (0 < cq_capacity q)%nat -> index_of x (cq_iter (cq_push x q)) = Some 0%nat.
Proof.
  intros Hc. rewrite iter_push. destruct (cq_capacity q); [lia|].
  unfold index_of. simpl. by rewrite decide_True.
Qed.

Lemma push_shift {A} `{EqDecision A} (x y : A) (q : CQ A) i :
  index_of x (cq_iter q) = Some i -> (S i < cq_capacity q)%nat ->
  exists j, (j <= S i)%nat /\ index_of x (cq_iter (cq_push y q)) = Some j.
Proof.
  intros Hi Hc. destruct (index_of_cons x y _ _ Hi) as (j & Hj & Hij).
  exists j. split; [done|]. rewrite iter_push. apply index_of_take; [done|lia].
Qed.

#[export, program] Instance xx_spec : DedupSpec DeduplicationQueueXxHash64 := {|
  dq_pos q m := index_of (xx_hash q m) (cq_iter (xx_queue q));
  dq_cap q := cq_capacity (xx_queue q);
  dq_unique q m := occurs_once (xx_hash q m) (cq_iter (xx_queue q));
|}.
Next Obligation.
  intros q m. simpl. unfold xx_check_and_insert.
  case_decide as Hd; rewrite <- index_of_Some in Hd;
    [rewrite bool_decide_eq_true_2|rewrite bool_decide_eq_false_2]; done.
Qed.
Next Obligation.
  intros q m Hs. simpl. unfold xx_check_and_insert. apply index_of_Some in Hs.
  by rewrite decide_True.
Qed.
Next Obligation.
  intros q m Hn Hc. simpl. unfold xx_check_and_insert. apply index_of_None in Hn.
  rewrite decide_False by done. by apply push_new.
Qed.
Next Obligation.
  intros q m m' i Hi Hc. simpl. unfold xx_check_and_insert. case_decide; [eauto with lia|].
  by apply push_shift.
Qed.
Next Obligation.
  intros q m. simpl. unfold xx_check_and_insert. case_decide; [done|]. apply capacity_push.
Qed.
Next Obligation.
  intros q m Hu. simpl. unfold xx_invalidate_if_exists.
  destruct (list_find _ _) as [[i z]|] eqn:Ef.
  - simpl. rewrite iter_set_nth. eapply index_of_overwrite; [done| |done].
    apply list_find_Some in Ef as (_ & -> & _). unfold u64_not, xx_hash. simpl xx_seed. lia.
  - unfold index_of. by rewrite Ef.
Qed.

#[export, program] Instance sha_spec : DedupSpec DeduplicationQueueSha256 := {|
  dq_pos q m := index_of (sha_hash m) (cq_iter (sha_queue q));
  dq_cap q := cq_capacity (sha_queue q);
  dq_unique q m := occurs_once (sha_hash m) (cq_iter (sha_queue q)) /\
                   sha_hash m <> replicate 32 Byte.x00;
|}.
Next Obligation.
  intros q m. simpl. unfold sha_check_and_insert.
  case_decide as Hd; rewrite <- index_of_Some in Hd;
    [rewrite bool_decide_eq_true_2|rewrite bool_decide_eq_false_2]; done.
Qed.
Next Obligation.
  intros q m Hs. simpl. unfold sha_check_and_insert. apply index_of_Some in Hs.
  by rewrite decide_True.
Qed.
Next Obligation.
  intros q m Hn Hc. simpl. unfold sha_check_and_insert. apply index_of_None in Hn.
  rewrite decide_False by done. by apply push_new.
Qed.
Next Obligation.
  intros q m m' i Hi Hc. simpl. unfold sha_check_and_insert. case_decide; [eauto with lia|].
  by apply push_shift.
Qed.
Next Obligation.
  intros q m. simpl. unfold sha_check_and_insert. case_decide; [done|]. apply capacity_push.
Qed.
Next Obligation.
  intros q m [Hu Hz]. simpl. unfold sha_invalidate_if_exists.
  destruct (list_find _ _) as [[i z]|] eqn:Ef.
  - simpl. rewrite iter_set_nth. eapply index_of_overwrite; [done| |done]. done.
  - unfold index_of. by rewrite Ef.
Qed.

Definition dyn_pos (q : DynQueue) (m : list byte) : option nat :=
  match q with DynXx q => dq_pos q m | DynSha q => dq_pos q m end.
Definition dyn_cap (q : DynQueue) : nat :=
  match q with DynXx q => dq_cap q | DynSha q => dq_cap q end.
Definition dyn_unique (q : DynQueue) (m : list byte) : Prop :=
  match q with DynXx q => dq_unique q m | DynSha q => dq_unique q m end.

#[export, program] Instance dyn_spec : DedupSpec DynQueue := {|
  dq_pos := dyn_pos; dq_cap := dyn_cap; dq_unique := dyn_unique;
|}.
Next Obligation. intros [q|q] m; [apply (check_answer q)|apply (check_answer q)]. Qed.
Next Obligation.
  intros [q|q] m Hs.
  - change (DynXx (check_and_insert m q).2 = DynXx q). f_equal. by apply (check_dup q).
  - change (DynSha (check_and_insert m q).2 = DynSha q). f_equal. by apply (check_dup q).
Qed.
Next Obligation. intros [q|q] m Hn Hc; by apply (check_new q). Qed.
Next Obligation. intros [q|q] m m' i Hi Hc; by apply (check_shift q). Qed.
Next Obligation. intros [q|q] m; apply (check_cap q). Qed.
Next Obligation. intros [q|q] m Hu; by apply (invalidate_forgets q). Qed.


(** ** Properties of deduplication *)

(** C29: the deduplication window.  A message that is new to a queue is
    reported as a duplicate when it is checked again, as long as fewer other
    messages than the capacity of the queue were checked in between; this
    holds for both hash algorithms. *)
Theorem duplicate_within_window (q : DynQueue) m ms :
  (length ms < dyn_cap q)%nat -> (check_and_insert m q).1 = Ok false ->
  (check_and_insert m (check_all ms (check_and_insert m q).2)).1 = Ok true.
Proof.
  intros Hc Hf. apply window; [done|]. rewrite check_answer in Hf.
  injection Hf as Hf. by apply bool_decide_eq_false, eq_None_not_Some in Hf.
Qed.

(** An entry that was invalidated is accepted again: after
    [invalidate_if_exists] the message counts as new (and is inserted), if its
    hash was in the queue at most once and is not the all-zero hash that marks
    an invalidated SHA-256 entry. *)
Theorem invalidated_is_readmitted (q : DynQueue) m :
  dyn_unique q m ->
  (check_and_insert m (invalidate_if_exists m q)).1 = Ok false.
Proof. intros Hu. by apply (readmit q). Qed.

(** The queue a packet type is deduplicated with. *)
Definition queue_of (t : PacketType) (qs : DeduplicationQueues) : option DynQueue :=
  match t with
  | FinalizationMessage => Some (finalizations qs)
  | Transaction => Some (transactions qs)
  | Block => Some (blocks qs)
  | FinalizationRecord => Some (fin_records qs)
  | CatchUpStatus => None
  end.

(** Duplicates among broadcast packets.  A broadcast block, transaction,
    finalization message or record that is new to the queue of its type is
    accepted once; delivered a second time it is a duplicate.  The queues of
    the other types are not touched, and neither direct packets nor catch-up
    messages are ever duplicates. *)
Theorem broadcast_packet_deduplicated qs tag body n dest ty :
  PacketType_try_from tag = Ok ty ->
  let packet d := mkPacket d n (tag :: body) in
  is_packet_duplicate (packet (Direct dest)) qs = (Ok false, qs) /\
  match queue_of ty qs with
  | None => forall l, is_packet_duplicate (packet (Broadcast l)) qs = (Ok false, qs)
  | Some q =>
      forall l, (0 < dyn_cap q)%nat -> dyn_pos q (tag :: body) = None ->
      exists qs', is_packet_duplicate (packet (Broadcast l)) qs = (Ok false, qs') /\
        is_packet_duplicate (packet (Broadcast l)) qs' = (Ok true, qs') /\
        forall t, t <> ty -> queue_of t qs' = queue_of t qs
  end.
Proof.
  intros Ht packet. unfold is_packet_duplicate. simpl. rewrite Ht. split; [done|].
  assert (forall q : DynQueue, (0 < dyn_cap q)%nat -> dyn_pos q (tag :: body) = None ->
    exists q', dedup_with (tag :: body) q = (Ok false, q') /\
               dedup_with (tag :: body) q' = (Ok true, q')) as Hq.
  { intros q Hc Hn. by apply (check_twice q). }
  destruct ty; simpl; [| | | |done]; intros l Hc Hn;
    destruct (Hq _ Hc Hn) as (q' & E1 & E2); rewrite E1;
    (eexists; split; [reflexivity|]); simpl; rewrite E2; (split; [done|]); by intros [].
Qed.
End implementations.

(** ** Ping and pong *)

(** [n] pings, at [t0], [t0 + i], [t0 + 2 i] and so on. *)
Fixpoint pings (t0 i : Z) (n : nat) (s : ConnectionStats) : ConnectionStats :=
  match n with
  | O => s
  | S n' => notify_ping (t0 + i * Z.of_nat n') (pings t0 i n' s)
  end.

(** [k] pongs at the given times. *)
Fixpoint pongs (times : list Z) : M ConnectionStats unit :=
  match times with
  | [] => mret tt
  | t :: times' => notify_pong t ≫= fun _ => pongs times'
  end.

Lemma pings_stats t0 i n created :
  0 <= t0 -> 0 < i -> t0 + i * Z.of_nat n < 2 ^ 63 ->
  pending_pongs (pings t0 i n (stats_new created)) = Z.of_nat n /\
  ((0 < n)%nat -> last_ping (pings t0 i n (stats_new created)) = t0 + i * Z.of_nat (pred n)) /\
  ((1 < n)%nat -> last_ping_interval (pings t0 i n (stats_new created)) = i).
Proof.
  intros Ht Hi. induction n as [|n IH]; intros Hb; [split; [done|lia]|].
  destruct IH as (IHp & IHl & _); [nia|]. cbn [pings notify_ping pending_pongs last_ping
    last_ping_interval]. rewrite IHp. split_and!.
  - rewrite i64_wrap_small; lia.
  - done.
  - intros Hn. rewrite IHl by lia. rewrite wrap_small; unfold in_u; nia.
Qed.

Lemma pongs_stats times : forall s,
  0 < pending_pongs s < 2 ^ 63 -> (length times < Z.to_nat (pending_pongs s))%nat ->
  exists s', pongs times s = (Ok tt, s') /\
    pending_pongs s' = pending_pongs s - Z.of_nat (length times) /\
    last_ping s' = last_ping s /\ last_ping_interval s' = last_ping_interval s.
Proof.
  induction times as [|t times IH]; intros s Hp Hl; simpl in *.
  { exists s. split_and!; try done. lia. }
  unfold mbind, M_bind, notify_pong.
  rewrite (proj2 (Z.leb_gt _ _)) by lia.
  set (s1 := mkStats _ _ _ _ _ _ _ _ _ _).
  assert (pending_pongs s1 = pending_pongs s - 1) as E1.
  { simpl. apply i64_wrap_small. lia. }
  destruct (IH s1) as (s' & E & Hs1 & Hs2 & Hs3); [lia|lia|].
  exists s'. split_and!; [done|lia|done|done].
Qed.

(** Latency.  When pings are sent at regular intervals, the [k+1]-st pong
    is attributed to the [k+1]-st ping: the latency recorded is the time since
    that ping was sent, also when later pings are already under way. *)
Theorem latency_of_kth_pong created t0 i n times now :
  0 <= t0 -> 0 < i -> t0 + i * Z.of_nat n < 2 ^ 63 -> (length times < n)%nat ->
  t0 + i * Z.of_nat (pred n) <= now < 2 ^ 63 ->
  exists s s', pongs times (pings t0 i n (stats_new created)) = (Ok tt, s) /\
    notify_pong now s = (Ok tt, s') /\
    get_latency s' = now - (t0 + i * Z.of_nat (length times)).
Proof.
  intros Ht Hi Hb Hk Hnow.
  destruct (pings_stats t0 i n created Ht Hi Hb) as (Hp & Hl & Hv).
  destruct (pongs_stats times (pings t0 i n (stats_new created))) as (s & E & Hs1 & Hs2 & Hs3);
    [rewrite Hp; nia|rewrite Hp; lia|].
  exists s. unfold notify_pong. rewrite (proj2 (Z.leb_gt _ _)) by lia.
  eexists. split; [exact E|]. split; [reflexivity|]. simpl.
  rewrite Hs1, Hs2, Hs3, Hl, Hp by lia.
  destruct (Z.ltb_spec 1 (Z.of_nat n - Z.of_nat (length times))).
  - rewrite Hv by lia. unfold get_latency. simpl.
    assert (0 <= (Z.of_nat n - Z.of_nat (length times) - 1) * i < 2 ^ 64) by nia.
    rewrite (wrap_small 64 (_ * i)) by done.
    rewrite wrap_small; unfold in_u; nia.
  - unfold get_latency. simpl. rewrite wrap_small; unfold in_u; nia.
Qed.

(** ** The order of sending *)

Section sending.
Context `{Noise} `{VecDequeLayout}.

Lemma wrap_add_l w a b : 0 <= w -> wrap w (wrap w a + b) = wrap w (a + b).
Proof. intros. unfold wrap. apply Zplus_mod_idemp_l. Qed.

Lemma dequeue_spec q :
  match high q ++ low q with
  | [] => dequeue q = (None, q) /\ q = queues_new
  | m :: rest => exists q', dequeue q = (Some m, q') /\ high q' ++ low q' = rest
  end.
Proof.
  destruct q as [lo [|m hi]]; simpl.
  - destruct lo as [|m lo]; [done|]. by eexists.
  - by eexists.
Qed.

Lemma send_pending_loop_spec : forall fuel (c : Connection) t r c' t',
  let q := pending_messages c in
  let msgs := high q ++ low q in
  (length msgs < fuel)%nat ->
  send_pending_loop fuel (c, t) = (r, (c', t')) ->
  (r, low_level c') = write_all msgs (low_level c) /\ remote_peer c' = remote_peer c /\
  (r = Ok tt -> pending_messages c' = queues_new /\
     u64_wrap (sent_bytes t') = u64_wrap (sent_bytes t + Z.of_nat (length (concat msgs))) /\
     u64_wrap (packets_sent t') = u64_wrap (packets_sent t + Z.of_nat (length msgs))).
Proof.
  induction fuel as [|fuel IH]; intros c t r c' t' q msgs Hf E; [lia|].
  cbn [send_pending_loop] in E. pose proof (dequeue_spec q) as HD. fold q in E. fold msgs in HD.
  destruct msgs as [|m rest] eqn:Em.
  { destruct HD as [HD Hq]. rewrite HD in E. simplify_eq. rewrite !Z.add_0_r. simpl. auto. }
  destruct HD as (q' & HD & <-). rewrite HD in E. cbn [write_all]. unfold mbind, M_bind.
  change (low_level (set_pending_messages q' c)) with (low_level c) in E.
  destruct (write_to_socket m (low_level c)) as [[[]|e|] l]; simplify_eq; [|done..].
  apply IH in E as (E1 & E2 & E3); simpl in *; [|lia].
  split; [done|]. split; [done|]. intros Hr.
  destruct (E3 Hr) as (-> & -> & ->). rewrite !wrap_add_l by done.
  split; [done|]. rewrite length_app. split; f_equal; lia.
Qed.

(** Sending.  [send_pending_messages] writes the queued messages to the
    socket, all of high priority before those of normal priority and each
    class in the order in which it was queued; if no write fails the queues
    are empty afterwards and every message and byte is counted.  Fuel of one
    more than the number of messages is enough. *)
Theorem send_pending_in_order (c : Connection) t r c' t' :
  let q := pending_messages c in
  send_pending_messages (c, t) = (r, (c', t')) ->
  (r, low_level c') = write_all (high q ++ low q) (low_level c) /\
  remote_peer c' = remote_peer c /\
  (r = Ok tt -> pending_messages c' = queues_new /\
     u64_wrap (sent_bytes t')
       = u64_wrap (sent_bytes t + Z.of_nat (length (concat (high q ++ low q)))) /\
     u64_wrap (packets_sent t')
       = u64_wrap (packets_sent t + Z.of_nat (length (high q ++ low q)))).
Proof. intros q E. eapply send_pending_loop_spec; [|exact E]. rewrite length_app. lia. Qed.
End sending.

(** ** Witnesses *)
Module ConnWitnesses.

(** A circular queue as a bounded list. *)
#[export] Instance list_queue : CircularQueue := {|
  CQ A := (nat * list A)%type;
  with_capacity A n := (n, []);
  cq_capacity A := fst;
  cq_iter A := snd;
  cq_push A x q := (q.1, take q.1 (x :: q.2));
  cq_set A i x q := (q.1, <[i := x]> q.2);
|}.
#[export] Instance list_queue_laws : CircularQueueLaws.
Proof. by split. Qed.

(** Hashes that keep the first byte. *)
#[export] Instance toy_hashes : Hashes := {|
  xxhash64 seed l := from_option byte_to_Z 0 (head l);
  sha256 l := take 1 l ++ [Byte.x2a];
|}.

Definition q3 : DynQueue := DynXx (xx_new 0 3).

Lemma duplicate_within_window_witness :
  (check_and_insert [Byte.x01]
    (check_all [[Byte.x02]; [Byte.x03]] (check_and_insert [Byte.x01] q3).2)).1 = Ok true.
Proof. apply (duplicate_within_window q3); [simpl; lia|reflexivity]. Defined.

Lemma invalidated_is_readmitted_witness :
  (check_and_insert [Byte.x01]
    (invalidate_if_exists [Byte.x01] (check_and_insert [Byte.x01] q3).2)).1 = Ok false.
Proof.
  apply (invalidated_is_readmitted (check_and_insert [Byte.x01] q3).2).
  intros i j Hi Hj. vm_compute in Hi, Hj. destruct i as [|[|]], j as [|[|]]; done.
Defined.

Lemma broadcast_packet_deduplicated_witness :
  exists qs', is_packet_duplicate (mkPacket (Broadcast []) 100 [Byte.x00; Byte.x07])
      (mkDedupQueues q3 q3 q3 q3) = (Ok false, qs') /\
    is_packet_duplicate (mkPacket (Broadcast []) 100 [Byte.x00; Byte.x07]) qs' = (Ok true, qs').
Proof.
  destruct (broadcast_packet_deduplicated (mkDedupQueues q3 q3 q3 q3) Byte.x00 [Byte.x07] 100 5
    Block eq_refl) as [_ HB].
  destruct (HB []) as (qs' & ? & ? & _); [simpl; lia|reflexivity|]. exists qs'. by split.
Defined.

Lemma latency_of_kth_pong_witness :
  exists s s', pongs [1030] (pings 1000 10 3 (stats_new 0)) = (Ok tt, s) /\
    notify_pong 1035 s = (Ok tt, s') /\ get_latency s' = 25.
Proof.
  destruct (latency_of_kth_pong 0 1000 10 3 [1030] 1035) as (s & s' & E1 & E2 & E3);
    [simpl; lia..|]. exists s, s'. by split_and!.
Defined.

Definition sample_connection : Connection (H := Toy.noise) :=
  mkConnection (mkRemotePeer None (mkSocketAddr (V4 (vreplicate 4 Byte.x01)) 80) 1 80 Node)
    (Toy.established (Toy.delivering [])) ∅ (stats_new 0)
    (mkQueues [[Byte.x01]] [[Byte.x02]]) Byte.x01.

Lemma send_pending_in_order_witness :
  exists r c' t', send_pending_messages (sample_connection, mkTotals 0 0 0 0 0 0) = (r, (c', t')) /\
    (r, low_level c') = write_all [[Byte.x02]; [Byte.x01]] (low_level sample_connection).
Proof.
  destruct (send_pending_messages (sample_connection, mkTotals 0 0 0 0 0 0))
    as [r [c' t']] eqn:E.
  exists r, c', t'. split; [reflexivity|].
  exact (proj1 (send_pending_in_order sample_connection (mkTotals 0 0 0 0 0 0) r c' t' E)).
Defined.
End ConnWitnesses.
