(* ===== verification/Buckets.v ===== *)
(** * Buckets of known nodes

    Models [concordium-node/src/network/buckets.rs]: the nodes a bootstrapper
    knows, keyed by the address on which they accept connections. *)

From stdpp Require Import base tactics list gmap strings option numbers vector fin.
From Stdlib Require Import ZArith.
From S2P Require Import Prelude Common Wire.

Definition BUCKET_COUNT : nat := 1.

(** A node in a bucket. *)
Record BucketNode := mkBucketNode {
  bn_peer : RemotePeer;
  bn_networks : Networks;
  bn_last_seen : Z;
}.

(** [HashSet<Node>]: [Eq] and [Hash] look at the external address only. *)
Abbreviation Bucket := (gmap SocketAddr BucketNode).

Record Buckets := mkBuckets { buckets : vec Bucket BUCKET_COUNT }.

Definition buckets_default : Buckets := mkBuckets (vreplicate BUCKET_COUNT ∅).

(** [self.buckets[0]]. *)
Definition bucket_0 (b : Buckets) : Bucket := buckets b !!! 0%fin.
Definition set_bucket_0 (x : Bucket) (b : Buckets) : Buckets :=
  mkBuckets (vinsert 0%fin x (buckets b)).

(** [HashSet::replace]: the value that was there, and the set afterwards. *)
Definition replace_node (n : BucketNode) (s : Bucket) : option BucketNode * Bucket :=
  (s !! external_addr (bn_peer n), <[external_addr (bn_peer n) := n]> s).

(** [Buckets::insert_into_bucket] at time [now], with the bucket size gauge. *)
Definition insert_into_bucket (now : Z) (peer : RemotePeer) (networks : Networks)
    (st : Buckets * Z) : Buckets * Z :=
  let '(b, gauge) := st in
  let '(old, s) := replace_node (mkBucketNode peer networks now) (bucket_0 b) in
  (set_bucket_0 s b, match old with None => gauge + 1 | Some _ => gauge end).

(** [Buckets::update_network_ids]. *)
Definition update_network_ids (now : Z) (peer : RemotePeer) (networks : Networks) (b : Buckets)
    : Buckets :=
  set_bucket_0 (replace_node (mkBucketNode peer networks now) (bucket_0 b)).2 b.

Section iteration.
Context `{HashOrder} `{Rng}.

(** [Buckets::get_all_nodes]. *)
Definition get_all_nodes (sender : option RemotePeerId) (networks : Networks) (b : Buckets)
    : list RemotePeer :=
  let filter_criteria (node : BucketNode) : bool :=
    bool_decide (peer_type (bn_peer node) = Node)
    && bool_decide (Some (local_id (bn_peer node)) <> sender)
    && (bool_decide (networks = ∅) || negb (bool_decide (bn_networks node ## networks))) in
  concat ((fun bucket => bn_peer <$> filter (fun n => filter_criteria n = true) (values bucket))
            <$> vec_to_list (buckets b)).

(** [Buckets::len] and [Buckets::is_empty]. *)
Definition buckets_len (b : Buckets) : nat :=
  sum_list (concat ((fun bucket => (fun n => size (bn_networks n)) <$> values bucket)
                      <$> vec_to_list (buckets b))).
Definition buckets_is_empty (b : Buckets) : bool := bool_decide (buckets_len b = 0%nat).

(** [Buckets::get_random_nodes]. *)
Definition get_random_nodes (seed : Z) (sender : RemotePeerId) (number : nat)
    (networks : Networks) (b : Buckets) : list RemotePeer :=
  choose_multiple seed number (get_all_nodes (Some sender) networks b).

End iteration.

(** [Buckets::clean_buckets]. *)
Definition clean_buckets (now timeout_bucket_entry_period : Z) (st : Buckets * Z)
    : Buckets * Z :=
  let '(b, _) := st in
  let clean_before := u64_wrap (now - timeout_bucket_entry_period) in
  let s := filter (fun e => clean_before <= bn_last_seen e.2) (bucket_0 b) in
  (set_bucket_0 s b, Z.of_nat (size s)).

(** ** Lemmas and properties *)

Lemma bucket_0_set x b : bucket_0 (set_bucket_0 x b) = x.
Proof. apply (vlookup_insert 0%fin x (buckets b)). Qed.

Lemma buckets_single b : vec_to_list (buckets b) = [bucket_0 b].
Proof.
  unfold bucket_0. destruct b as [v]. simpl. unfold BUCKET_COUNT in v.
  by inv_vec v.
Qed.

(** The gauge counts the nodes, and every node is filed under its address. *)
Record buckets_ok (st : Buckets * Z) : Prop := {
  bo_gauge : st.2 = Z.of_nat (size (bucket_0 st.1));
  bo_keys a n : bucket_0 st.1 !! a = Some n -> external_addr (bn_peer n) = a;
}.

Section properties.
Context `{HashOrder} `{Rng}.

Lemma values_addresses (m : Bucket) :
  (forall a n, m !! a = Some n -> external_addr (bn_peer n) = a) ->
  (fun n => external_addr (bn_peer n)) <$> values m = keys m.
Proof.
  intros Hk. unfold values, keys. rewrite <- list_fmap_compose.
  apply list_fmap_ext. intros i [a n] Hi. simpl. apply Hk.
  apply elem_of_iter_map. by eapply list_elem_of_lookup_2.
Qed.

Lemma elem_of_get_all_nodes sender networks b p :
  p ∈ get_all_nodes sender networks b <->
  exists a n, bucket_0 b !! a = Some n /\ bn_peer n = p /\ peer_type p = Node /\
    Some (local_id p) <> sender /\ (networks = ∅ \/ ~ bn_networks n ## networks).
Proof.
  unfold get_all_nodes. rewrite buckets_single. simpl. rewrite app_nil_r, list_elem_of_fmap.
  setoid_rewrite list_elem_of_filter. setoid_rewrite elem_of_values. split.
  - intros (n & -> & Hf & a & Ha). exists a, n. bool_hyps.
    apply orb_true_iff in H2. rewrite bool_decide_eq_true, negb_true_iff, bool_decide_eq_false in H2.
    by split_and!.
  - intros (a & n & Ha & <- & Ht & Hs & Hn). exists n. split; [done|]. split; [|by exists a].
    rewrite !andb_true_iff, orb_true_iff, !bool_decide_eq_true, negb_true_iff, bool_decide_eq_false.
    done.
Qed.

(** A bootstrapper answers with nodes it knows and only such: every peer
    [get_random_nodes] returns is in the bucket, is a node, is not the one that
    asks and shares a network with the request (if it names any); peers have
    pairwise different addresses, and as many are returned as were asked for,
    or all there are. *)
Theorem get_random_nodes_spec seed sender number networks b gauge :
  buckets_ok (b, gauge) ->
  let res := get_random_nodes seed sender number networks b in
  NoDup (external_addr <$> res) /\
  length res = Nat.min number (length (get_all_nodes (Some sender) networks b)) /\
  forall p, p ∈ res -> exists n, bucket_0 b !! external_addr p = Some n /\ bn_peer n = p /\
    peer_type p = Node /\ local_id p <> sender /\
    (networks = ∅ \/ ~ bn_networks n ## networks).
Proof.
  intros [_ Hk] res. split; [|split].
  - unfold res, get_random_nodes. eapply submseteq_NoDup.
    { apply fmap_submseteq, choose_submseteq. }
    unfold get_all_nodes. rewrite buckets_single. simpl. rewrite app_nil_r, <- list_fmap_compose.
    eapply sublist_NoDup; [apply (NoDup_keys (bucket_0 b))|].
    rewrite <- values_addresses by apply Hk. by apply fmap_sublist, sublist_filter.
  - apply choose_length.
  - intros p Hp. apply elem_of_choose, elem_of_get_all_nodes in Hp
      as (a & n & Ha & <- & Ht & Hs & Hn).
    exists n. rewrite (Hk a n Ha). split_and!; try done. congruence.
Qed.
End properties.

Lemma buckets_ok_default : buckets_ok (buckets_default, 0).
Proof. by split. Qed.

Lemma insert_into_bucket_ok now peer networks st :
  buckets_ok st -> buckets_ok (insert_into_bucket now peer networks st).
Proof.
  destruct st as [b g]. intros [Hg Hk]. simpl in *. split; simpl.
  - rewrite bucket_0_set. subst g. case_match eqn:E.
    + rewrite map_size_insert_Some by eauto. done.
    + rewrite map_size_insert_None by done. lia.
  - intros a n. rewrite bucket_0_set, lookup_insert_Some. intros [[<- <-]|[_ Hn]]; eauto.
Qed.

(** The gauge of the bucket size.  Inserting a node and cleaning the
    buckets keep the gauge equal to the number of nodes and every node under
    its address. *)
Theorem buckets_gauge_invariant now peer networks timeout st :
  buckets_ok st ->
  buckets_ok (insert_into_bucket now peer networks st) /\
  buckets_ok (clean_buckets now timeout st).
Proof.
  intros Hst. split; [by apply insert_into_bucket_ok|].
  destruct st as [b g], Hst as [Hg Hk]. simpl in *. split; simpl.
  - by rewrite bucket_0_set.
  - intros a n. rewrite bucket_0_set, map_lookup_filter_Some. intros [Hn _]. eauto.
Qed.

(** [update_network_ids] adds an entry for a peer that is not in the
    bucket and leaves the gauge as it was, so the gauge no longer counts the
    nodes. *)
Theorem update_network_ids_skips_gauge now peer networks b gauge :
  buckets_ok (b, gauge) -> bucket_0 b !! external_addr peer = None ->
  Z.of_nat (size (bucket_0 (update_network_ids now peer networks b))) = gauge + 1.
Proof.
  intros [Hg Hk] Hn. simpl in *. unfold update_network_ids, replace_node. simpl.
  rewrite bucket_0_set, map_size_insert_None by done. lia.
Qed.

(** ** Witnesses *)
Module BucketsWitnesses.

Definition peer1 : RemotePeer :=
  mkRemotePeer (Some 7) (mkSocketAddr (V4 (vreplicate 4 Byte.x01)) 80) 1 8888 Node.

Lemma get_random_nodes_spec_witness :
  Forall (fun p => local_id p <> 2)
    (get_random_nodes 0 2 1 ∅ (insert_into_bucket 5 peer1 {[100]} (buckets_default, 0)).1).
Proof.
  destruct (get_random_nodes_spec 0 2 1 ∅
    (insert_into_bucket 5 peer1 {[100]} (buckets_default, 0)).1
    (insert_into_bucket 5 peer1 {[100]} (buckets_default, 0)).2) as (_ & _ & Hr).
  - rewrite <- surjective_pairing. apply insert_into_bucket_ok, buckets_ok_default.
  - apply list.Forall_forall. intros p Hp. destruct (Hr p Hp) as (n & _ & _ & _ & Hl & _). exact Hl.
Defined.

Lemma buckets_gauge_invariant_witness :
  (clean_buckets 9 3 (insert_into_bucket 5 peer1 {[100]} (buckets_default, 0))).2
  = Z.of_nat (size (bucket_0
      (clean_buckets 9 3 (insert_into_bucket 5 peer1 {[100]} (buckets_default, 0))).1)).
Proof.
  destruct (buckets_gauge_invariant 9 peer1 {[100]} 3
    (insert_into_bucket 5 peer1 {[100]} (buckets_default, 0))) as [_ [Hg _]].
  - apply insert_into_bucket_ok, buckets_ok_default.
  - exact Hg.
Defined.

Lemma update_network_ids_skips_gauge_witness :
  Z.of_nat (size (bucket_0 (update_network_ids 5 peer1 {[100]} buckets_default))) = 1.
Proof.
  apply (update_network_ids_skips_gauge 5 peer1 {[100]} buckets_default 0);
    [exact buckets_ok_default|reflexivity].
Defined.
End BucketsWitnesses.
