(* ===== verification/CatchUp.v ===== *)
(** * The catch-up list of peers

    Models [concordium-node/src/consensus_ffi/catch_up.rs] and the effect of
    [plugins/consensus.rs] on the list: which peers are up to date, pending or
    being caught up with.  The poll thread and the thread that handles inbound
    consensus messages both change the list, each change under its lock; the
    interleavings are the step relation at the end. *)

From stdpp Require Import base tactics list gmap strings option numbers.
From Stdlib Require Import ZArith.
From S2P Require Import Prelude Common Helpers.

Record PeerList := mkPeerList {
  peer_states : gmap RemotePeerId PeerStatus;
  catch_up_stamp : Z;
  catch_up_peer : option RemotePeerId;
  pending_queue : list RemotePeerId;
}.

Definition peer_list_default : PeerList := mkPeerList ∅ 0 None [].

(** The loop of [next_pending]. *)
Fixpoint pop_pending (states : gmap RemotePeerId PeerStatus) (queue : list RemotePeerId)
    : option RemotePeerId * gmap RemotePeerId PeerStatus * list RemotePeerId :=
  match queue with
  | [] => (None, states, [])
  | peer :: queue' =>
      match states !! peer with
      | Some Pending => (Some peer, <[peer := CatchingUp]> states, queue')
      | _ => pop_pending states queue'
      end
  end.

(** [PeerList::next_pending]. *)
Definition next_pending (p : PeerList) : option RemotePeerId * PeerList :=
  let '(next, states, queue) := pop_pending (peer_states p) (pending_queue p) in
  (next, mkPeerList states (catch_up_stamp p) next queue).

(** [PeerList::clear]. *)
Definition clear (p : PeerList) : PeerList := mkPeerList ∅ (catch_up_stamp p) None [].

(** [if *status == UpToDate { *status = Pending; push_back }]. *)
Definition make_pending (id : RemotePeerId) (p : PeerList) : PeerList :=
  match peer_states p !! id with
  | Some UpToDate =>
      mkPeerList (<[id := Pending]> (peer_states p)) (catch_up_stamp p) (catch_up_peer p)
        (pending_queue p ++ [id])
  | _ => p
  end.

Section iteration.
Context `{HashOrder}.

(** [PeerList::mark_all_pending]. *)
Definition mark_all_pending (p : PeerList) : PeerList :=
  foldl (fun p id => make_pending id p) p (keys (peer_states p)).

End iteration.

(** The body of the loop over the new peers in [update_peer_list]. *)
Definition add_peer (acc : gmap RemotePeerId PeerStatus * list RemotePeerId) (id : RemotePeerId)
    : gmap RemotePeerId PeerStatus * list RemotePeerId :=
  let '(states, queue) := acc in
  match states !! id with
  | None => (<[id := Pending]> states, queue ++ [id])
  | Some _ => (states, queue)
  end.

(** [update_peer_list], given the ids of the node's peers. *)
Definition update_peer_list (peer_ids : list RemotePeerId) (p : PeerList) : outcome PeerList :=
  let states := filter (fun e => e.1 ∈ peer_ids) (peer_states p) in
  let queue := filter (fun id => id ∈ peer_ids) (pending_queue p) in
  let in_progress :=
    match catch_up_peer p with
    | Some id => if decide (is_Some (states !! id)) then Some id else None
    | None => None
    end in
  (** the space reserved for the new peers *)
  _ ← sub_usize (length peer_ids) (size states);
  let '(states', queue') := foldl add_peer (states, queue) peer_ids in
  Ok (mkPeerList states' (catch_up_stamp p) in_progress queue').

(** [try_catch_up] at time [now]; [sent id] is the number of connections over
    which the catch-up request to [id] was sent. *)
Definition try_catch_up (now : Z) (sent : RemotePeerId -> nat) (p : PeerList) : PeerList :=
  match next_pending p with
  | (Some id, p1) =>
      let p2 := mkPeerList (peer_states p1) now (catch_up_peer p1) (pending_queue p1) in
      if decide (0 < sent id)%nat then p2
      else mkPeerList (delete id (peer_states p2)) (catch_up_stamp p2) None (pending_queue p2)
  | (None, p1) => p1
  end.

(** [check_peer_states]: the connection to the catch-up peer is gone. *)
Definition drop_catch_up_peer (id : RemotePeerId) (p : PeerList) : PeerList :=
  mkPeerList (delete id (peer_states p)) (catch_up_stamp p) None (pending_queue p).

(** What [update_peer_states] does to the list; [Some] is a request to expel
    the source. *)
Definition update_for_catch_up_status (source : RemotePeerId) (result : ConsensusFfiResponse)
    (p : PeerList) : PeerList * bool :=
  let finished := if decide (catch_up_peer p = Some source) then None else catch_up_peer p in
  match result with
  | Success =>
      (mkPeerList (<[source := UpToDate]> (peer_states p)) (catch_up_stamp p) finished
         (pending_queue p), false)
  | PendingBlock | PendingFinalization =>
      let queue := match peer_states p !! source with
                   | Some Pending => pending_queue p
                   | _ => pending_queue p ++ [source]
                   end in
      (mkPeerList (<[source := Pending]> (peer_states p)) (catch_up_stamp p) finished queue, false)
  | ContinueCatchUp => (make_pending source p, false)
  | InvalidResult | DeserializationError => (p, true)
  | _ => (p, false)
  end.

(** The [PeerList] part of [update_peer_states]. *)
Definition update_states_of (request : ConsensusMessage) (source : RemotePeerId)
    (result : ConsensusFfiResponse) (p : PeerList) : PeerList * bool :=
  match variant request with
  | CatchUpStatus => update_for_catch_up_status source result p
  | Block | FinalizationRecord | FinalizationMessage =>
      match distribution_mode request with
      | Helpers.Broadcast => if is_pending result then (make_pending source p, false) else (p, false)
      | Helpers.Direct => (p, false)
      end
  | Transaction => (p, false)
  end.

(** The peers to which a directly sent message is relayed. *)
Definition relay_targets `{HashOrder} (request : ConsensusMessage) (source : RemotePeerId)
    (result : ConsensusFfiResponse) (p : PeerList) : list RemotePeerId :=
  match variant request, distribution_mode request with
  | (Block | FinalizationRecord | FinalizationMessage), Helpers.Direct =>
      if is_successful result then
        (filter (fun e => e.1 <> source /\ e.2 <> Pending) (iter_map (peer_states p))).*1
      else []
  | _, _ => []
  end.

(** ** Invariant

    Every pending peer is queued; a peer is being caught up with exactly if it
    is the catch-up peer. *)
Record peers_ok (p : PeerList) : Prop := {
  po_pending id : peer_states p !! id = Some Pending -> id ∈ pending_queue p;
  po_catching_up id : peer_states p !! id = Some CatchingUp <-> catch_up_peer p = Some id;
}.

Lemma peers_ok_default : peers_ok peer_list_default.
Proof. by split. Qed.

Lemma peers_ok_clear p : peers_ok (clear p).
Proof. by split. Qed.

Lemma make_pending_ok id p : peers_ok p -> peers_ok (make_pending id p).
Proof.
  intros [Hp Hc]. unfold make_pending. case_match eqn:E; [case_match| ]; try by split.
  split; simpl.
  - intros id'. rewrite lookup_insert_Some, elem_of_app, list_elem_of_singleton.
    intros [[-> _]|[_ ?]]; auto.
  - intros id'. rewrite <- Hc, lookup_insert_Some.
    split; [intros [[_ ?]|[_ ?]]; congruence|]. intros E'.
    right. split; [|done]. intros ->. congruence.
Qed.

Lemma make_pending_catch_up id p : catch_up_peer (make_pending id p) = catch_up_peer p.
Proof. unfold make_pending. by repeat case_match. Qed.

Section mark_all.
Context `{HashOrder}.

Lemma mark_all_pending_ok p : peers_ok p -> peers_ok (mark_all_pending p).
Proof.
  unfold mark_all_pending. generalize (keys (peer_states p)) as l. intros l.
  revert p. induction l as [|id l IH]; intros p Hp; simpl; [done|]. by apply IH, make_pending_ok.
Qed.

Lemma mark_all_pending_catch_up p : catch_up_peer (mark_all_pending p) = catch_up_peer p.
Proof.
  unfold mark_all_pending. generalize (keys (peer_states p)) as l. intros l.
  revert p. induction l as [|id l IH]; intros p; simpl; [done|].
  by rewrite IH, make_pending_catch_up.
Qed.
End mark_all.

(** [pop_pending] skips peers that are not pending. *)
Lemma pop_pending_spec states queue :
  exists skipped,
    Forall (fun id => states !! id <> Some Pending) skipped /\
    match pop_pending states queue with
    | (None, states', queue') => states' = states /\ queue' = [] /\ queue = skipped
    | (Some id, states', queue') =>
        states !! id = Some Pending /\ states' = <[id := CatchingUp]> states /\
        queue = skipped ++ id :: queue'
    end.
Proof.
  induction queue as [|p queue (sk & Hsk & IH)]; simpl; [by exists []|].
  destruct (decide (states !! p = Some Pending)) as [E|E].
  - exists []. by rewrite E.
  - exists (p :: sk). split; [by constructor|].
    assert (pop_pending states (p :: queue) = pop_pending states queue) as Ep
      by (simpl; by repeat case_match).
    simpl in Ep. rewrite Ep.
    destruct (pop_pending states queue) as [[[id|] st'] q'].
    + destruct IH as (? & ? & ->). done.
    + by destruct IH as (-> & -> & ->).
Qed.

(** ** [next_pending] *)

Lemma next_pending_ok p :
  peers_ok p -> catch_up_peer p = None -> peers_ok (next_pending p).2.
Proof.
  intros [Hp Hc] Hn. unfold next_pending.
  destruct (pop_pending_spec (peer_states p) (pending_queue p)) as (sk & Hsk & HP).
  destruct (pop_pending _ _) as [[[id|] st'] q']; simpl.
  - destruct HP as (Hid & -> & Hq). split; simpl.
    + intros id' [[_ ?]|[Hne Hi]]%lookup_insert_Some; [done|].
      specialize (Hp id' Hi). rewrite Hq, elem_of_app, elem_of_cons in Hp.
      destruct Hp as [Hin|[->|?]]; [|done|done].
      rewrite list.Forall_forall in Hsk. by specialize (Hsk id' Hin).
    + intros id'. rewrite lookup_insert_Some. split.
      * intros [[-> _]|[_ Hi]]; [done|]. apply Hc in Hi. congruence.
      * intros [= ->]. by left.
  - destruct HP as (-> & -> & Hq). split; simpl.
    + intros id' Hi. specialize (Hp id' Hi). rewrite Hq in Hp.
      rewrite list.Forall_forall in Hsk. by specialize (Hsk id' Hp).
    + intros id'. rewrite Hc, Hn. done.
Qed.

(** [next_pending] takes the first queued peer that is pending, skipping
    and removing peers that no longer are; it marks exactly that peer as the
    one being caught up with.  It returns a peer whenever some peer is
    pending. *)
Theorem next_pending_first p :
  peers_ok p -> catch_up_peer p = None ->
  (exists id, peer_states p !! id = Some Pending) ->
  exists id p' skipped, next_pending p = (Some id, p') /\
    peer_states p !! id = Some Pending /\
    peer_states p' = <[id := CatchingUp]> (peer_states p) /\ catch_up_peer p' = Some id /\
    pending_queue p = skipped ++ id :: pending_queue p' /\
    (forall id', id' ∈ skipped -> peer_states p !! id' <> Some Pending).
Proof.
  intros [Hp Hc] Hn [id Hid]. unfold next_pending.
  destruct (pop_pending_spec (peer_states p) (pending_queue p)) as (sk & Hsk & HP).
  rewrite list.Forall_forall in Hsk.
  destruct (pop_pending _ _) as [[[i|] st'] q'].
  - destruct HP as (? & -> & Hq). by eexists i, _, sk.
  - destruct HP as (_ & _ & Hq). specialize (Hp id Hid). rewrite Hq in Hp.
    by destruct (Hsk id Hp).
Qed.

(** ** The other operations keep the invariant *)

Lemma drop_catch_up_peer_ok id p :
  peers_ok p -> catch_up_peer p = Some id \/ catch_up_peer p = None ->
  peers_ok (drop_catch_up_peer id p).
Proof.
  intros [Hp Hc] Hcu. split; simpl.
  - intros id' [_ Hi]%lookup_delete_Some. auto.
  - intros id'. rewrite lookup_delete_Some, Hc.
    split; [|done]. intros [Hne Hi]. destruct Hcu; congruence.
Qed.

Lemma try_catch_up_ok now sent p :
  peers_ok p -> catch_up_peer p = None -> peers_ok (try_catch_up now sent p).
Proof.
  intros Hp Hn. pose proof (next_pending_ok p Hp Hn) as Hok. unfold try_catch_up.
  unfold next_pending in *. destruct (pop_pending _ _) as [[[id|] st'] q']; simpl in *; [|done].
  destruct Hok as [Hp' Hc']. simpl in *. case_decide; [by split|]. split; simpl.
  - intros id' [_ Hi]%lookup_delete_Some. auto.
  - intros id'. rewrite lookup_delete_Some, Hc'. split; [|done]. intros [? [= ->]]. done.
Qed.

Lemma update_states_of_ok request source result p :
  peers_ok p -> peers_ok (update_states_of request source result p).1.
Proof.
  intros Hok. assert (peers_ok (update_for_catch_up_status source result p).1) as HC.
  { destruct Hok as [Hp Hc]. unfold update_for_catch_up_status.
    assert (forall st q, st <> CatchingUp -> pending_queue p ⊆ q -> (st = Pending -> source ∈ q) ->
      peers_ok (mkPeerList (<[source := st]> (peer_states p)) (catch_up_stamp p)
        (if decide (catch_up_peer p = Some source) then None else catch_up_peer p) q)) as HI.
    { intros st q Hst Hq Hs. split; simpl.
      - intros id [[<- ->]|[_ Hi]]%lookup_insert_Some; [by apply Hs|]. apply Hq, Hp, Hi.
      - intros id. rewrite lookup_insert_Some. case_decide as Hd.
        + split; [|done]. intros [[_ ?]|[Hne Hi%Hc]]; [done|]. congruence.
        + rewrite Hc. split; [intros [[_ ?]|[_ ?]]; congruence|]. intros E.
          right. split; [congruence|done]. }
    destruct result; simpl; try (by split); try (by apply make_pending_ok; split);
      try (by apply HI).
    all: apply HI; [done| |].
    all: destruct (peer_states p !! source) as [[]|] eqn:Es; try set_solver.
    all: intros _; auto. }
  unfold update_states_of. destruct (variant request); try done.
  all: destruct (distribution_mode request); try done; destruct (is_pending result); try done.
  all: by apply make_pending_ok.
Qed.

Lemma update_states_of_catch_up request source result p id :
  catch_up_peer (update_states_of request source result p).1 = Some id -> catch_up_peer p = Some id.
Proof.
  unfold update_states_of, update_for_catch_up_status.
  destruct (variant request), (distribution_mode request); simpl; try done;
    try (destruct (is_pending result); simpl; rewrite ?make_pending_catch_up; done).
  all: destruct result; simpl; rewrite ?make_pending_catch_up; try done; by case_decide.
Qed.

(** ** [update_peer_list] *)

Lemma add_peers_spec ids : forall states queue,
  let '(states', queue') := foldl add_peer (states, queue) ids in
  (forall id, states' !! id = match states !! id with
                              | Some s => Some s
                              | None => if decide (id ∈ ids) then Some Pending else None
                              end) /\
  (forall id, id ∈ queue' <-> id ∈ queue \/ id ∈ ids /\ states !! id = None).
Proof.
  induction ids as [|i ids IH]; intros states queue; simpl.
  { split; intros id; [by destruct (states !! id)|set_solver]. }
  destruct (states !! i) as [s|] eqn:Ei.
  - specialize (IH states queue). destruct (foldl _ _ _) as [st' q'].
    destruct IH as [IH1 IH2]. split; intros id.
    + rewrite IH1. destruct (states !! id) eqn:E; [done|].
      assert (id <> i) by congruence.
      destruct (decide (id ∈ ids)), (decide (id ∈ i :: ids)); set_solver.
    + rewrite IH2, elem_of_cons. split; [tauto|].
      intros [?|[[->|?] ?]]; [tauto|congruence|tauto].
  - specialize (IH (<[i := Pending]> states) (queue ++ [i])).
    destruct (foldl _ _ _) as [st' q']. destruct IH as [IH1 IH2]. split; intros id.
    + rewrite IH1. destruct (decide (id = i)) as [->|Hne].
      * rewrite lookup_insert_eq, Ei. rewrite decide_True by set_solver. done.
      * rewrite lookup_insert_ne by done. destruct (states !! id); [done|].
        destruct (decide (id ∈ ids)), (decide (id ∈ i :: ids)); set_solver.
    + rewrite IH2, elem_of_app, !elem_of_cons, elem_of_nil, lookup_insert_None.
      destruct (decide (id = i)) as [->|]; intuition congruence.
Qed.

Lemma update_peer_list_spec peer_ids p :
  NoDup peer_ids -> peers_ok p ->
  exists p', update_peer_list peer_ids p = Ok p' /\ peers_ok p' /\
    (forall id, is_Some (peer_states p' !! id) <-> id ∈ peer_ids) /\
    (forall id s, id ∈ peer_ids -> peer_states p !! id = Some s -> peer_states p' !! id = Some s) /\
    (forall id, id ∈ peer_ids -> peer_states p !! id = None -> peer_states p' !! id = Some Pending) /\
    (forall id, catch_up_peer p' = Some id -> catch_up_peer p = Some id).
Proof.
  intros Hnd [Hp Hc]. unfold update_peer_list.
  set (states := filter _ (peer_states p)). set (queue := filter _ (pending_queue p)).
  assert (forall id, states !! id = if decide (id ∈ peer_ids) then peer_states p !! id else None)
    as Hst.
  { intros id. subst states. case_decide.
    - destruct (peer_states p !! id) eqn:E.
      + by apply map_lookup_filter_Some.
      + apply map_lookup_filter_None. by left.
    - apply map_lookup_filter_None. right. by intros ? _. }
  assert (size states <= length peer_ids)%nat as Hsize.
  { rewrite <- (size_list_to_set (C := gset Z)) by done. rewrite <- size_dom.
    apply subseteq_size. intros id [s Hs]%elem_of_dom. rewrite Hst in Hs.
    case_decide; [set_solver|done]. }
  rewrite sub_usize_Ok by done. cbn [mbind outcome_bind].
  pose proof (add_peers_spec peer_ids states queue) as HA.
  destruct (foldl add_peer (states, queue) peer_ids) as [st' q']. destruct HA as [HA1 HA2].
  eexists. split; [reflexivity|].
  assert (forall id, st' !! id = if decide (id ∈ peer_ids)
    then Some (default Pending (peer_states p !! id)) else None) as Hst'.
  { intros id. rewrite HA1, Hst. case_decide; [|done]. by destruct (peer_states p !! id). }
  split; [split; simpl|split; [|split; [|split]]]; simpl.
  - intros id. rewrite Hst'. case_decide as Hin; [|done]. intros Hs. apply HA2.
    rewrite Hst, decide_True by done. destruct (peer_states p !! id) as [s|] eqn:E; [|by right].
    simpl in Hs. left. apply list_elem_of_filter. split; [done|]. apply Hp. congruence.
  - intros id. rewrite Hst'. destruct (catch_up_peer p) as [i|] eqn:Ei.
    + pose proof (proj2 (Hc i) eq_refl) as Hi. rewrite Hst. 
      case_decide as Hin.
      * destruct (peer_states p !! id) as [s|] eqn:E; simpl.
        -- destruct (decide (i ∈ peer_ids)) as [Hip|Hip].
           ++ rewrite decide_True by eauto. rewrite <- E. apply Hc.
           ++ rewrite decide_False by (by intros [? ?]). split; [|done].
              intros [= ->]. apply Hc in E. congruence.
        -- split; [done|]. case_decide; [|done]. intros [= <-]. congruence.
      * split; [done|]. destruct (decide (is_Some _)) as [[s Hs]|]; [|done]. intros [= <-].
        by rewrite decide_False in Hs.
    + case_decide; [|done]. split; [|done]. destruct (peer_states p !! id) as [s|] eqn:E; [|done].
      simpl. intros [= ->]. apply Hc in E. done.
  - intros id. rewrite Hst'. case_decide; [|split; [by intros [? ?]|done]].
    split; [done|]. eauto.
  - intros id s Hin Hs. by rewrite Hst', decide_True, Hs by done.
  - intros id Hin Hs. by rewrite Hst', decide_True, Hs by done.
  - intros id. destruct (catch_up_peer p); [|done]. by case_decide.
Qed.

(** After [update_peer_list] the list holds exactly the given peers: those
    that stayed keep their state, new ones are pending and queued, nothing is
    left of the others, and the arithmetic on the number of new peers does not
    underflow. *)
Theorem update_peer_list_exact peer_ids p :
  NoDup peer_ids -> peers_ok p ->
  exists p', update_peer_list peer_ids p = Ok p' /\
    (forall id, is_Some (peer_states p' !! id) <-> id ∈ peer_ids) /\
    (forall id s, id ∈ peer_ids -> peer_states p !! id = Some s -> peer_states p' !! id = Some s) /\
    (forall id, id ∈ peer_ids -> peer_states p !! id = None ->
       peer_states p' !! id = Some Pending /\ id ∈ pending_queue p').
Proof.
  intros Hnd Hp. destruct (update_peer_list_spec peer_ids p Hnd Hp)
    as (p' & E & Hok & H1 & H2 & H3 & _).
  exists p'. split_and!; try done. intros id Hin Hs. split; [auto|]. apply Hok. auto.
Qed.

(** ** Interleavings

    The poll thread reads the catch-up peer under a read lock, releases it and
    then acts on what it read; the inbound thread may change the list in
    between. *)

(** What the poll thread remembers. *)
Inductive poll_state :=
| PollOutside
| PollRead (seen : option RemotePeerId).

Section interleaving.
Context `{HashOrder}.

Inductive step : poll_state * PeerList -> poll_state * PeerList -> Prop :=
| step_mark p : step (PollOutside, p) (PollOutside, mark_all_pending p)
| step_update ids p p' :
    NoDup ids -> update_peer_list ids p = Ok p' -> step (PollOutside, p) (PollOutside, p')
| step_clear p : step (PollOutside, p) (PollOutside, clear p)
| step_read p : step (PollOutside, p) (PollRead (catch_up_peer p), p)
| step_nothing seen p : step (PollRead seen, p) (PollOutside, p)
| step_gone id now sent p :
    step (PollRead (Some id), p) (PollOutside, try_catch_up now sent (drop_catch_up_peer id p))
| step_idle now sent p : step (PollRead None, p) (PollOutside, try_catch_up now sent p)
| step_inbound s request source result p :
    step (s, p) (s, (update_states_of request source result p).1).

(** What was read is still there, or the catch-up has ended. *)
Definition consistent (s : poll_state * PeerList) : Prop :=
  peers_ok s.2 /\
  match s.1 with
  | PollOutside => True
  | PollRead seen => catch_up_peer s.2 = None \/ catch_up_peer s.2 = seen
  end.

Lemma step_consistent s s' : step s s' -> consistent s -> consistent s'.
Proof.
  intros Hs [Hok Hc]. destruct Hs; simpl in *; split; simpl; try done.
  - by apply mark_all_pending_ok.
  - destruct (update_peer_list_spec ids p) as (p1 & E & ? & _); [done..|]. congruence.
  - by right.
  - apply try_catch_up_ok; [|done]. apply drop_catch_up_peer_ok; [done|]. tauto.
  - apply try_catch_up_ok; [done|]. tauto.
  - by apply update_states_of_ok.
  - destruct s as [|seen]; [done|].
    destruct (catch_up_peer (update_states_of request source result p).1) as [id|] eqn:E; [|by left].
    right. apply update_states_of_catch_up in E. destruct Hc; congruence.
Qed.

Lemma reachable_consistent s s' : rtc step s s' -> consistent s -> consistent s'.
Proof. induction 1; eauto using step_consistent. Qed.

(** C34: the catch-up list under concurrency.  In every state reachable by
    interleaving the poll thread with the inbound thread, every pending peer is
    queued (so it will be picked eventually) and a peer is marked as being
    caught up with exactly if it is the catch-up peer; in particular there is
    at most one. *)
Theorem peer_list_invariant s p :
  rtc step (PollOutside, peer_list_default) (s, p) ->
  (forall id, peer_states p !! id = Some Pending -> id ∈ pending_queue p) /\
  (forall id, peer_states p !! id = Some CatchingUp <-> catch_up_peer p = Some id).
Proof.
  intros Hr. apply reachable_consistent in Hr as [[H1 H2] _]; [done|].
  split; [apply peers_ok_default|done].
Qed.
End interleaving.

(** ** Witnesses *)

(** Two peers, one of them pending. *)
Definition sample_peers : PeerList := mkPeerList {[ 1 := UpToDate; 2 := Pending ]} 0 None [1; 2].

Lemma sample_peers_ok : peers_ok sample_peers.
Proof.
  split; simpl; intros id.
  - rewrite lookup_insert_Some, lookup_singleton_Some. set_solver.
  - rewrite lookup_insert_Some, lookup_singleton_Some. naive_solver.
Qed.

Lemma next_pending_first_witness :
  exists p', next_pending sample_peers = (Some 2, p') /\ catch_up_peer p' = Some 2.
Proof.
  destruct (next_pending_first sample_peers) as (id & p' & sk & E & Hid & _ & Hc & _).
  - exact sample_peers_ok.
  - reflexivity.
  - exists 2. reflexivity.
  - assert (id = 2) as ->; [|by exists p'].
    vm_compute in E. congruence.
Defined.

Lemma update_peer_list_exact_witness :
  exists p', update_peer_list [2; 3] sample_peers = Ok p' /\
    peer_states p' !! 3 = Some Pending /\ peer_states p' !! 1 = None.
Proof.
  destruct (update_peer_list_exact [2; 3] sample_peers) as (p' & E & H1 & _ & H3).
  - apply list.NoDup_cons. split; [set_solver|apply NoDup_singleton].
  - exact sample_peers_ok.
  - exists p'. split; [exact E|]. split.
    + apply H3; [set_solver|reflexivity].
    + apply eq_None_not_Some. rewrite H1. set_solver.
Defined.

Lemma peer_list_invariant_witness :
  peer_states (try_catch_up 5 (fun _ => 1%nat) sample_peers) !! 2 = Some CatchingUp <->
  catch_up_peer (try_catch_up 5 (fun _ => 1%nat) sample_peers) = Some 2.
Proof.
  apply (peer_list_invariant PollOutside (try_catch_up 5 (fun _ => 1%nat) sample_peers)).
  apply rtc_l with (PollOutside, mkPeerList {[ 1 := Pending; 2 := Pending ]} 0 None [1; 2]).
  { apply (step_update [1; 2]); [|reflexivity].
    apply list.NoDup_cons. split; [set_solver|apply NoDup_singleton]. }
  apply rtc_l with (PollOutside, sample_peers).
  { exact (step_inbound PollOutside
      (mkConsensusMessage (Inbound 1 Helpers.Direct) CatchUpStatus [] [] None) 1 Success
      (mkPeerList {[ 1 := Pending; 2 := Pending ]} 0 None [1; 2])). }
  apply rtc_l with (PollRead None, sample_peers); [exact (step_read sample_peers)|].
  apply rtc_once. constructor.
Defined.
