(* ===== verification/Queues.v ===== *)
(** * The queues between the network layer and consensus, and their threads

    Models the queues of [concordium-node/src/consensus_ffi/consensus.rs], the
    sending helpers of [consensus_ffi/helpers.rs] and the two threads that
    [start_consensus_message_threads] of [src/bin/cli.rs] starts.  The threads
    run concurrently with those that fill the queues: the loop is a step
    relation whose steps interleave with arrivals. *)

From stdpp Require Import base tactics list gmap strings option numbers relations.
From Stdlib Require Import ZArith.
From S2P Require Import Prelude Common Helpers.

(** ** Channels (crate [crossbeam_channel])

    A bounded channel and what it holds, oldest message first.  [try_send]
    gives the message back when the channel is full. *)
Class Channels := {
  Chan : Type -> Type;
  bounded : forall {A}, nat -> Chan A;
  chan_items : forall {A}, Chan A -> list A;
  chan_cap : forall {A}, Chan A -> nat;
  try_send : forall {A}, A -> Chan A -> option (Chan A);
  try_recv : forall {A}, Chan A -> option (A * Chan A);
}.

Class ChannelLaws `{Channels} := {
  items_bounded A n : chan_items (bounded (A := A) n) = [];
  cap_bounded A n : chan_cap (bounded (A := A) n) = n;
  try_send_full A (a : A) c :
    (chan_cap c <= length (chan_items c))%nat -> try_send a c = None;
  try_send_room A (a : A) c :
    (length (chan_items c) < chan_cap c)%nat ->
    exists c', try_send a c = Some c' /\ chan_items c' = chan_items c ++ [a] /\
               chan_cap c' = chan_cap c;
  try_recv_empty A (c : Chan A) : chan_items c = [] -> try_recv c = None;
  try_recv_cons A (c : Chan A) a l :
    chan_items c = a :: l ->
    exists c', try_recv c = Some (a, c') /\ chan_items c' = l /\ chan_cap c' = chan_cap c;
}.

Definition CONSENSUS_QUEUE_DEPTH_OUT_HI : nat := Z.to_nat (8 * 1024).
Definition CONSENSUS_QUEUE_DEPTH_OUT_LO : nat := Z.to_nat (16 * 1024).
Definition CONSENSUS_QUEUE_DEPTH_IN_HI : nat := Z.to_nat (16 * 1024).
Definition CONSENSUS_QUEUE_DEPTH_IN_LO : nat := Z.to_nat (32 * 1024).

Section queues.
Context `{Channels}.

Record QueuePair := mkQueuePair {
  high_priority : Chan (QueueMsg ConsensusMessage);
  low_priority : Chan (QueueMsg ConsensusMessage);
}.

Record ConsensusQueues := mkConsensusQueues { inbound : QueuePair; outbound : QueuePair }.

(** [Default for ConsensusInboundQueues] and [ConsensusOutboundQueues]. *)
Definition inbound_default : QueuePair :=
  mkQueuePair (bounded CONSENSUS_QUEUE_DEPTH_IN_HI) (bounded CONSENSUS_QUEUE_DEPTH_IN_LO).
Definition outbound_default : QueuePair :=
  mkQueuePair (bounded CONSENSUS_QUEUE_DEPTH_OUT_HI) (bounded CONSENSUS_QUEUE_DEPTH_OUT_LO).
Definition queues_default : ConsensusQueues :=
  mkConsensusQueues inbound_default outbound_default.

(** [send_msg]: does not block. *)
Definition send_msg (m : ConsensusMessage) (c : Chan (QueueMsg ConsensusMessage))
    : option (Chan (QueueMsg ConsensusMessage)) := try_send (Relay m) c.
(** [send_stop] and [send_blocking_msg] block while the channel is full: they
    complete, with this effect, once it is not. *)
Definition send_stop (c : Chan (QueueMsg ConsensusMessage))
    : option (Chan (QueueMsg ConsensusMessage)) := try_send Stop c.
Definition send_blocking_msg (m : ConsensusMessage) (c : Chan (QueueMsg ConsensusMessage))
    : option (Chan (QueueMsg ConsensusMessage)) := try_send (Relay m) c.

(** [ConsensusQueues::send_in_high_priority_message] and its siblings. *)
Definition send_in_high_priority_message (m : ConsensusMessage) (q : ConsensusQueues)
    : option ConsensusQueues :=
  (fun c => mkConsensusQueues (mkQueuePair c (low_priority (inbound q))) (outbound q))
    <$> send_msg m (high_priority (inbound q)).
Definition send_in_low_priority_message (m : ConsensusMessage) (q : ConsensusQueues)
    : option ConsensusQueues :=
  (fun c => mkConsensusQueues (mkQueuePair (high_priority (inbound q)) c) (outbound q))
    <$> send_msg m (low_priority (inbound q)).
Definition send_out_message (m : ConsensusMessage) (q : ConsensusQueues)
    : option ConsensusQueues :=
  (fun c => mkConsensusQueues (inbound q) (mkQueuePair (high_priority (outbound q)) c))
    <$> send_msg m (low_priority (outbound q)).
Definition send_out_blocking_msg (m : ConsensusMessage) (q : ConsensusQueues)
    : option ConsensusQueues :=
  (fun c => mkConsensusQueues (inbound q) (mkQueuePair c (low_priority (outbound q))))
    <$> send_blocking_msg m (high_priority (outbound q)).

(** [ConsensusQueues::stop]: the four stop messages, in order. *)
Definition stop_queues (q : ConsensusQueues) : option ConsensusQueues :=
  out_lo ← send_stop (low_priority (outbound q));
  out_hi ← send_stop (high_priority (outbound q));
  in_lo ← send_stop (low_priority (inbound q));
  in_hi ← send_stop (high_priority (inbound q));
  Some (mkConsensusQueues (mkQueuePair in_hi in_lo) (mkQueuePair out_hi out_lo)).

(** [try_iter().count()] drains a channel. *)
Fixpoint drain {A} (fuel : nat) (c : Chan A) : Chan A :=
  match fuel with
  | O => c
  | S fuel' => match try_recv c with Some (_, c') => drain fuel' c' | None => c end
  end.
Definition drain_all {A} (c : Chan A) : Chan A := drain (length (chan_items c)) c.

(** [ConsensusQueues::clear], when no other thread holds the receivers. *)
Definition clear_queues (q : ConsensusQueues) : ConsensusQueues :=
  mkConsensusQueues
    (mkQueuePair (drain_all (high_priority (inbound q))) (drain_all (low_priority (inbound q))))
    (mkQueuePair (drain_all (high_priority (outbound q))) (drain_all (low_priority (outbound q)))).

(** ** The threads

    [handle_queue_stop] with the handler [f] of a thread: an error is logged,
    the stop message ends the thread, a panic kills it. *)
Inductive handled (St : Type) := Continue (s : St) | StopLoop (s : St) | Crash (s : St).
Arguments Continue {St} s.
Arguments StopLoop {St} s.
Arguments Crash {St} s.

Definition handle_queue_stop {St} (f : ConsensusMessage -> M St unit)
    (msg : QueueMsg ConsensusMessage) (s : St) : handled St :=
  match msg with
  | Relay m =>
      match f m s with
      | (Panic, s') => Crash s'
      | (_, s') => Continue s'
      end
  | Stop => StopLoop s
  end.

(** Where the thread is in its loop: in the [for] loop with [n] iterations
    left, before the [try_recv] on the low priority queue, or waiting in
    [select!]. *)
Inductive phase :=
| InHigh (n : nat)
| AtLow (exhausted : bool)
| Waiting
| Stopped
| Crashed.

Record thread (St : Type) := mkThread {
  th_phase : phase;
  th_high : Chan (QueueMsg ConsensusMessage);
  th_low : Chan (QueueMsg ConsensusMessage);
  th_state : St;
}.
Arguments mkThread {St} _ _ _ _.
Arguments th_phase {St} _.
Arguments th_high {St} _.
Arguments th_low {St} _.
Arguments th_state {St} _.

(** The phase after handling a message, [next] unless it ended the loop. *)
Definition after {St} (next : phase) (r : handled St) : phase * St :=
  match r with
  | Continue s => (next, s)
  | StopLoop s => (Stopped, s)
  | Crash s => (Crashed, s)
  end.

(** One step of the loop, with [depth] iterations of the [for] loop.  [None]
    if the thread has ended or waits.  While waiting, [prefer_low] is the
    choice of [select!] when both queues hold a message. *)
Definition loop_step {St} (depth : nat) (f : ConsensusMessage -> M St unit)
    (prefer_low : bool) (t : thread St) : option (thread St) :=
  let top := InHigh depth in
  match th_phase t with
  | InHigh O => Some (mkThread (AtLow false) (th_high t) (th_low t) (th_state t))
  | InHigh (S n) =>
      match try_recv (th_high t) with
      | Some (m, c) =>
          let '(ph, s) := after (InHigh n) (handle_queue_stop f m (th_state t)) in
          Some (mkThread ph c (th_low t) s)
      | None => Some (mkThread (AtLow true) (th_high t) (th_low t) (th_state t))
      end
  | AtLow exhausted =>
      match try_recv (th_low t) with
      | Some (m, c) =>
          let '(ph, s) := after top (handle_queue_stop f m (th_state t)) in
          Some (mkThread ph (th_high t) c s)
      | None =>
          Some (mkThread (if exhausted then Waiting else top) (th_high t) (th_low t) (th_state t))
      end
  | Waiting =>
      let from_low :=
        match try_recv (th_low t) with
        | Some (m, c) =>
            let '(ph, s) := after top (handle_queue_stop f m (th_state t)) in
            Some (mkThread ph (th_high t) c s)
        | None => None
        end in
      match try_recv (th_high t) with
      | Some (m, c) =>
          if prefer_low && bool_decide (is_Some (try_recv (th_low t))) then from_low
          else
            let '(ph, s) := after top (handle_queue_stop f m (th_state t)) in
            Some (mkThread ph c (th_low t) s)
      | None => from_low
      end
  | Stopped | Crashed => None
  end.

End queues.

Arguments mkThread {_ St} _ _ _ _.
Arguments th_phase {_ St} _.
Arguments th_high {_ St} _.
Arguments th_low {_ St} _.
Arguments th_state {_ St} _.
Arguments Continue {St} s.
Arguments StopLoop {St} s.
Arguments Crash {St} s.

(** The threads of [start_consensus_message_threads]. *)
Definition inbound_depth : nat := CONSENSUS_QUEUE_DEPTH_IN_HI.
Definition outbound_depth : nat := CONSENSUS_QUEUE_DEPTH_OUT_HI.
