(* ===== verification/QueuesProps.v ===== *)
(** * Correctness of the consensus message threads

    Messages of either priority are handled exactly once and in the order in
    which they were queued, whatever arrives meanwhile; messages of high
    priority come first, but cannot starve those of low priority. *)

From stdpp Require Import base tactics list gmap strings option numbers relations.
From Stdlib Require Import ZArith.
From S2P Require Import Prelude Common Helpers Queues.

(** What happens to a thread: a message arrives at one of its queues (and is
    dropped by the sender if the queue is full), or the thread runs. *)
Inductive event :=
| ArriveHigh (m : QueueMsg ConsensusMessage)
| ArriveLow (m : QueueMsg ConsensusMessage)
| Run (prefer_low : bool).

Section threads.
Context `{Channels} `{!ChannelLaws}.
(** The outcome of handling a message is arbitrary; the handler keeps a log. *)
Variable res : ConsensusMessage -> outcome unit.
Variable depth : nat.

Definition logging : ConsensusMessage -> M (list ConsensusMessage) unit :=
  fun m log => (res m, log ++ [m]).

Abbreviation thread := (Queues.thread (list ConsensusMessage)).

Definition apply_event (e : event) (t : thread) : thread :=
  match e with
  | ArriveHigh m =>
      match try_send m (th_high t) with
      | Some c => mkThread (th_phase t) c (th_low t) (th_state t)
      | None => t
      end
  | ArriveLow m =>
      match try_send m (th_low t) with
      | Some c => mkThread (th_phase t) (th_high t) c (th_state t)
      | None => t
      end
  | Run b => default t (loop_step depth logging b t)
  end.

Definition exec (es : list event) (t : thread) : thread := foldl (fun t e => apply_event e t) t es.

(** The messages a channel accepted in the course of the events. *)
Definition accepted {A} (m : A) (c : Chan A) : list A :=
  if decide (length (chan_items c) < chan_cap c)%nat then [m] else [].

Definition relays (l : list (QueueMsg ConsensusMessage)) : list ConsensusMessage :=
  omap (fun q => match q with Relay m => Some m | Stop => None end) l.

(** [l] merges [l1] and [l2], each in its order. *)
Inductive interleaves {A} : list A -> list A -> list A -> Prop :=
| inter_nil : interleaves [] [] []
| inter_left x l1 l2 l : interleaves l1 l2 l -> interleaves (l1 ++ [x]) l2 (l ++ [x])
| inter_right x l1 l2 l : interleaves l1 l2 l -> interleaves l1 (l2 ++ [x]) (l ++ [x]).

Lemma try_send_cases {A} (m : A) (c : Chan A) :
  match try_send m c with
  | Some c' => chan_items c' = chan_items c ++ accepted m c
  | None => accepted m c = []
  end.
Proof.
  unfold accepted. case_decide.
  - destruct (try_send_room A m c) as (c' & -> & -> & _); done.
  - by rewrite try_send_full by lia.
Qed.

Lemma try_recv_cases {A} (c : Chan A) :
  match try_recv c with
  | Some (m, c') => chan_items c = m :: chan_items c'
  | None => chan_items c = []
  end.
Proof.
  destruct (chan_items c) as [|m l] eqn:E.
  - by rewrite try_recv_empty.
  - by destruct (try_recv_cons A c m l E) as (c' & -> & -> & _).
Qed.

(** What one step does: nothing is taken, or the oldest message of one queue
    is taken and, unless it is the stop message, handled. *)
Inductive takes (t t' : thread) : Prop :=
| takes_none : th_high t' = th_high t -> th_low t' = th_low t -> th_state t' = th_state t ->
    takes t t'
| takes_high m : chan_items (th_high t) = m :: chan_items (th_high t') ->
    th_low t' = th_low t -> th_state t' = th_state t ++ relays [m] -> takes t t'
| takes_low m : chan_items (th_low t) = m :: chan_items (th_low t') ->
    th_high t' = th_high t -> th_state t' = th_state t ++ relays [m] -> takes t t'.

Lemma after_state next m log :
  (after next (handle_queue_stop logging m log)).2 = log ++ relays [m].
Proof.
  destruct m as [m|]; simpl; [|by rewrite app_nil_r]. by destruct (res m).
Qed.

Lemma loop_step_takes b t t' : loop_step depth logging b t = Some t' -> takes t t'.
Proof.
  unfold loop_step. intros E.
  pose proof (try_recv_cases (th_high t)) as Hh. pose proof (try_recv_cases (th_low t)) as Hl.
  assert (forall next m, let r := after next (handle_queue_stop logging m (th_state t)) in
    r.2 = th_state t ++ relays [m]) as Ha by (intros; apply after_state).
  destruct (th_phase t) as [[|n]|ex| | |]; [| | | |done..].
  - simplify_eq. by constructor.
  - destruct (try_recv (th_high t)) as [[m c]|]; [|simplify_eq; by constructor].
    specialize (Ha (InHigh n) m). destruct (after _ _) as [ph s]. simplify_eq/=.
    by eapply takes_high.
  - destruct (try_recv (th_low t)) as [[m c]|]; [|simplify_eq; by constructor].
    specialize (Ha (InHigh depth) m). destruct (after _ _) as [ph s]. simplify_eq/=.
    by eapply takes_low.
  - destruct (try_recv (th_high t)) as [[m c]|].
    + destruct (b && _).
      * destruct (try_recv (th_low t)) as [[m' c']|]; [|done].
        specialize (Ha (InHigh depth) m'). destruct (after _ _) as [ph s]. simplify_eq/=.
        by eapply takes_low.
      * specialize (Ha (InHigh depth) m). destruct (after _ _) as [ph s]. simplify_eq/=.
        by eapply takes_high.
    + destruct (try_recv (th_low t)) as [[m' c']|]; [|done].
      specialize (Ha (InHigh depth) m'). destruct (after _ _) as [ph s]. simplify_eq/=.
      by eapply takes_low.
Qed.

Lemma relays_snoc l m : relays (l ++ [m]) = relays l ++ relays [m].
Proof. unfold relays. by rewrite omap_app. Qed.

Lemma interleaves_relays_l l1 l2 l m :
  interleaves (relays l1) l2 l -> interleaves (relays (l1 ++ [m])) l2 (l ++ relays [m]).
Proof. rewrite relays_snoc. destruct m; simpl; [by constructor|by rewrite !app_nil_r]. Qed.
Lemma interleaves_relays_r l1 l2 l m :
  interleaves l1 (relays l2) l -> interleaves l1 (relays (l2 ++ [m])) (l ++ relays [m]).
Proof. rewrite relays_snoc. destruct m; simpl; [by constructor|by rewrite !app_nil_r]. Qed.

(** The messages accepted by the two queues in the course of the events. *)
Fixpoint arrivals (es : list event) (t : thread)
    : list (QueueMsg ConsensusMessage) * list (QueueMsg ConsensusMessage) :=
  match es with
  | [] => ([], [])
  | e :: es' =>
      let '(h, l) := arrivals es' (apply_event e t) in
      match e with
      | ArriveHigh m => (accepted m (th_high t) ++ h, l)
      | ArriveLow m => (h, accepted m (th_low t) ++ l)
      | Run _ => (h, l)
      end
  end.

Lemma exec_takes es : forall t log0 dh dl,
  interleaves (relays dh) (relays dl) log0 -> th_state t = log0 ->
  let '(h, l) := arrivals es t in
  let t' := exec es t in
  exists dh' dl', dh ++ chan_items (th_high t) ++ h = dh' ++ chan_items (th_high t') /\
    dl ++ chan_items (th_low t) ++ l = dl' ++ chan_items (th_low t') /\
    interleaves (relays dh') (relays dl') (th_state t').
Proof.
  induction es as [|e es IH]; intros t log0 dh dl Hi Hs; simpl.
  { exists dh, dl. subst log0. by rewrite !app_nil_r. }
  assert (exists dh1 dl1, let t1 := apply_event e t in
    (match e with ArriveHigh m => dh ++ chan_items (th_high t) ++ accepted m (th_high t)
     | _ => dh ++ chan_items (th_high t) end) = dh1 ++ chan_items (th_high t1) /\
    (match e with ArriveLow m => dl ++ chan_items (th_low t) ++ accepted m (th_low t)
     | _ => dl ++ chan_items (th_low t) end) = dl1 ++ chan_items (th_low t1) /\
    interleaves (relays dh1) (relays dl1) (th_state t1)) as (dh1 & dl1 & Eh & El & Hi1).
  { subst log0. destruct e as [m|m|b]; simpl.
    - exists dh, dl. pose proof (try_send_cases m (th_high t)) as HC.
      destruct (try_send m (th_high t)); simpl; rewrite HC; by rewrite ?app_nil_r.
    - exists dh, dl. pose proof (try_send_cases m (th_low t)) as HC.
      destruct (try_send m (th_low t)); simpl; rewrite HC; by rewrite ?app_nil_r.
    - destruct (loop_step depth logging b t) as [t1|] eqn:E; simpl; [|by exists dh, dl].
      apply loop_step_takes in E as [E1 E2 E3|m E1 E2 E3|m E1 E2 E3].
      + exists dh, dl. by rewrite E1, E2, E3.
      + exists (dh ++ [m]), dl. rewrite E1, E2, E3, <- app_assoc.
        split_and!; try done. by apply interleaves_relays_l.
      + exists dh, (dl ++ [m]). rewrite E1, E2, E3, <- app_assoc.
        split_and!; try done. by apply interleaves_relays_r. }
  specialize (IH (apply_event e t) _ dh1 dl1 Hi1 eq_refl).
  destruct (arrivals es (apply_event e t)) as [h l].
  destruct IH as (dh' & dl' & Fh & Fl & HiF).
  destruct e as [m|m|b]; exists dh', dl'; unfold exec in *; simpl in *;
    rewrite <- Fh, <- Fl; split_and!; try done; rewrite ?app_assoc in *; congruence.
Qed.

(** C27: no message is lost, duplicated or reordered.  However arrivals and the
    steps of a thread interleave, the messages that the two queues accepted
    are those the thread took followed by those still queued, for each
    priority in order; and the messages handled are an interleaving of those
    taken (less the stop messages). *)
Theorem thread_fifo es (t : thread) :
  th_state t = [] ->
  let '(h, l) := arrivals es t in
  let t' := exec es t in
  exists taken_high taken_low,
    chan_items (th_high t) ++ h = taken_high ++ chan_items (th_high t') /\
    chan_items (th_low t) ++ l = taken_low ++ chan_items (th_low t') /\
    interleaves (relays taken_high) (relays taken_low) (th_state t').
Proof. intros Hs. exact (exec_takes es t [] [] [] inter_nil Hs). Qed.

(** ** No starvation *)

(** Steps of the thread until it has looked at the low priority queue. *)
Definition potential (p : phase) : nat :=
  match p with
  | AtLow _ => 1
  | InHigh n => n + 2
  | Waiting => depth + 3
  | Stopped | Crashed => 0
  end.

Definition runs (es : list event) : nat :=
  length (List.filter (fun e => match e with Run _ => true | _ => false end) es).

Definition ended (p : phase) : Prop := p = Stopped \/ p = Crashed.

Lemma apply_event_ended e t : ended (th_phase t) -> ended (th_phase (apply_event e t)).
Proof.
  intros He. destruct e as [m|m|b]; simpl.
  - by destruct (try_send m (th_high t)).
  - by destruct (try_send m (th_low t)).
  - destruct He as [He|He]; unfold loop_step; rewrite He; simpl; rewrite He; [by left|by right].
Qed.

Lemma exec_ended es : forall t, ended (th_phase t) -> ended (th_phase (exec es t)).
Proof.
  induction es as [|e es IH]; intros t He; [done|]. by apply IH, apply_event_ended.
Qed.

Lemma apply_event_log e t : exists l, th_state (apply_event e t) = th_state t ++ l.
Proof.
  destruct e as [m|m|b]; simpl.
  - exists []. rewrite app_nil_r. by destruct (try_send m (th_high t)).
  - exists []. rewrite app_nil_r. by destruct (try_send m (th_low t)).
  - destruct (loop_step depth logging b t) as [t1|] eqn:E; simpl; [|exists []; by rewrite app_nil_r].
    apply loop_step_takes in E as [? ? ->|m ? ? ->|m ? ? ->]; eauto.
    exists []. by rewrite app_nil_r.
Qed.

Lemma exec_log es : forall t, exists l, th_state (exec es t) = th_state t ++ l.
Proof.
  induction es as [|e es IH]; intros t; [exists []; by rewrite app_nil_r|].
  destruct (IH (apply_event e t)) as [l Hl], (apply_event_log e t) as [l' Hl'].
  exists (l' ++ l). unfold exec in *. simpl. by rewrite Hl, Hl', app_assoc.
Qed.

Lemma after_phase next m log :
  let r := after next (handle_queue_stop logging m log) in r.1 = next \/ ended r.1.
Proof. destruct m as [m|]; simpl; [|by right; left]. destruct (res m); simpl; [by left|by left|by right; right]. Qed.

(** A step brings the thread closer to the low priority queue, or serves it. *)
Lemma run_progress b t m l :
  chan_items (th_low t) = Relay m :: l ->
  let t' := apply_event (Run b) t in
  ended (th_phase t') \/ th_state t' = th_state t ++ [m] /\ chan_items (th_low t') = l \/
  chan_items (th_low t') = Relay m :: l /\ (potential (th_phase t') < potential (th_phase t))%nat.
Proof.
  intros Hl. simpl. unfold loop_step.
  pose proof (try_recv_cases (th_low t)) as Cl. destruct (try_recv (th_low t)) as [[m' c]|];
    [|congruence]. rewrite Hl in Cl. injection Cl as <- Cl.
  assert (forall next, let r := after next (handle_queue_stop logging (Relay m) (th_state t)) in
    r.2 = th_state t ++ [m]) as Hs by (intros; apply after_state).
  destruct (th_phase t) as [[|n]|ex| | |] eqn:Ep; simpl.
  - right. right. split; [done|lia].
  - destruct (try_recv (th_high t)) as [[mh ch]|]; [|right; right; split; [done|simpl; lia]].
    pose proof (after_phase (InHigh n) mh (th_state t)) as Hp. cbn zeta in Hp.
    destruct (after _ _) as [ph s]. simpl in *. destruct Hp as [->|?]; [|by left].
    right. right. split; [done|simpl; lia].
  - right. left. specialize (Hs (InHigh depth)). cbn zeta in Hs.
    destruct (after _ _) as [ph s]. simpl in *. done.
  - destruct (try_recv (th_high t)) as [[mh ch]|].
    + destruct (b && _).
      * right. left. specialize (Hs (InHigh depth)). cbn zeta in Hs.
        destruct (after _ _) as [ph s]. simpl in *. done.
      * pose proof (after_phase (InHigh depth) mh (th_state t)) as Hp. cbn zeta in Hp.
        destruct (after _ _) as [ph s]. simpl in *. destruct Hp as [->|?]; [|by left].
        right. right. split; [done|simpl; lia].
    + right. left. specialize (Hs (InHigh depth)). cbn zeta in Hs.
      destruct (after _ _) as [ph s]. simpl in *. done.
  - left. rewrite Ep. by left.
  - left. rewrite Ep. by right.
Qed.

Lemma served es : forall t m l,
  chan_items (th_low t) = Relay m :: l -> (potential (th_phase t) <= runs es)%nat ->
  ended (th_phase (exec es t)) \/
  exists log, th_state (exec es t) = th_state t ++ log /\ m ∈ log.
Proof.
  induction es as [|e es IH]; intros t m l Hl Hr.
  { left. unfold runs in Hr. simpl in Hr. destruct (th_phase t) eqn:E; simpl in *; try lia;
      rewrite E; [by left|by right]. }
  assert ((exists b, e = Run b) \/ ~ exists b, e = Run b) as [[b ->]|Hn]
    by (destruct e; [right|right|left]; naive_solver).
  2:{ destruct e as [x|x|b]; [| |exfalso; eauto].
      - destruct (IH (apply_event (ArriveHigh x) t) m l) as [?|(log & E & ?)]; [..|by left|right].
        + simpl. by destruct (try_send x (th_high t)).
        + simpl. by destruct (try_send x (th_high t)).
        + exists log. unfold exec in *. simpl in *. rewrite E. split; [|done].
          by destruct (try_send x (th_high t)).
      - pose proof (try_send_cases x (th_low t)) as HC.
        destruct (IH (apply_event (ArriveLow x) t) m
          (l ++ match try_send x (th_low t) with Some _ => accepted x (th_low t) | None => [] end))
          as [?|(log & E & ?)]; [..|by left|right].
        + simpl. destruct (try_send x (th_low t)); simpl; rewrite ?HC, Hl; [done|by rewrite app_nil_r].
        + simpl. by destruct (try_send x (th_low t)).
        + exists log. unfold exec in *. simpl in *. rewrite E. split; [|done].
          by destruct (try_send x (th_low t)). }
  change (exec (Run b :: es) t) with (exec es (apply_event (Run b) t)).
  assert (runs (Run b :: es) = S (runs es)) as Er by done. rewrite Er in Hr.
  destruct (run_progress b t m l Hl) as [He|[[Hs _]|[Hl' Hp]]].
  - left. by apply exec_ended.
  - right. destruct (exec_log es (apply_event (Run b) t)) as [lg Hlg].
    exists ([m] ++ lg). rewrite Hlg, Hs, <- app_assoc. split; [done|set_solver].
  - destruct (IH _ m l Hl') as [?|(log & E & ?)]; [lia|by left|right].
    destruct (apply_event_log (Run b) t) as [lg Hlg].
    exists (lg ++ log). rewrite E, Hlg, <- app_assoc. split; [done|set_solver].
Qed.

(** C28: high priority messages do not starve the others.  If the oldest
    message of the low priority queue is a relayed message, it is handled
    within [depth + 3] steps of the thread, whatever arrives meanwhile, unless
    the thread is stopped or killed by a panic before. *)
Theorem low_priority_served es (t : thread) m l :
  match th_phase t with InHigh n => (n <= depth)%nat | _ => True end ->
  chan_items (th_low t) = Relay m :: l -> (depth + 3 <= runs es)%nat ->
  ended (th_phase (exec es t)) \/
  exists log, th_state (exec es t) = th_state t ++ log /\ m ∈ log.
Proof.
  intros Hn Hl Hr. eapply served; [exact Hl|].
  destruct (th_phase t); simpl; lia.
Qed.

Lemma high_step b t m msgs d :
  th_phase t = InHigh (S d) -> chan_items (th_high t) = Relay <$> (m :: msgs) -> res m <> Panic ->
  exists c, loop_step depth logging b t =
      Some (mkThread (InHigh d) c (th_low t) (th_state t ++ [m])) /\
    chan_items c = Relay <$> msgs.
Proof.
  intros Hp Hh Hr. unfold loop_step. rewrite Hp.
  pose proof (try_recv_cases (th_high t)) as C. rewrite Hh in C.
  destruct (try_recv (th_high t)) as [[m' c]|]; [|done]. injection C as <- C.
  exists c. simpl. by destruct (res m).
Qed.

(** High priority messages come first.  From the top of the loop, with at
    most [depth] high priority messages queued, the thread handles all of them
    in order before it touches the low priority queue. *)
Theorem high_priority_first (t : thread) msgs b :
  th_phase t = InHigh depth -> chan_items (th_high t) = Relay <$> msgs ->
  (length msgs <= depth)%nat -> (forall m, m ∈ msgs -> res m <> Panic) ->
  let t' := exec (replicate (length msgs) (Run b)) t in
  th_state t' = th_state t ++ msgs /\ th_low t' = th_low t /\ chan_items (th_high t') = [] /\
  th_phase t' = InHigh (depth - length msgs).
Proof.
  intros Hp Hh Hd Hr. cbn zeta.
  assert (forall d, (length msgs <= d)%nat -> th_phase t = InHigh d ->
    let t' := exec (replicate (length msgs) (Run b)) t in
    th_state t' = th_state t ++ msgs /\ th_low t' = th_low t /\ chan_items (th_high t') = [] /\
    th_phase t' = InHigh (d - length msgs)) as HI; [|by apply HI].
  clear Hp Hd. revert t Hh.
  induction msgs as [|m msgs IH]; intros t Hh d Hd Hp; simpl.
  { rewrite Nat.sub_0_r, app_nil_r. done. }
  simpl in Hd. destruct d as [|d]; [lia|].
  destruct (high_step b t m msgs d) as (c & E & C); [done..|set_solver|].
  change (exec (Run b :: ?l) t) with (exec l (apply_event (Run b) t)). simpl. rewrite E. simpl.
  destruct (IH ltac:(intros; apply Hr; set_solver)
    (mkThread (InHigh d) c (th_low t) (th_state t ++ [m])) C d) as (-> & -> & -> & ->);
    [lia|done|]. simpl. by rewrite <- app_assoc.
Qed.
End threads.

(** ** A channel kept as a list with its capacity *)
Module ChannelWitnesses.
#[local] Instance list_channels : Channels := {|
  Chan A := (list A * nat)%type;
  bounded A n := ([], n);
  chan_items A c := c.1;
  chan_cap A c := c.2;
  try_send A a c := if decide (length c.1 < c.2)%nat then Some (c.1 ++ [a], c.2) else None;
  try_recv A c := match c.1 with [] => None | a :: l => Some (a, (l, c.2)) end;
|}.

#[local] Instance list_channel_laws : ChannelLaws.
Proof.
  constructor; simpl; intros.
  - done.
  - done.
  - rewrite decide_False; [done|lia].
  - rewrite decide_True by done. by eexists.
  - by destruct c as [[|??] ?].
  - destruct c as [[|??] ?]; simplify_eq/=. by eexists.
Qed.

Definition msg (n : Z) : ConsensusMessage :=
  mkConsensusMessage (Inbound n Helpers.Direct) Transaction [] [] None.
Definition handler (m : ConsensusMessage) : outcome unit := Ok tt.
Definition start : thread (list ConsensusMessage) :=
  mkThread (InHigh 2) ([Relay (msg 1); Relay (msg 2)], 4%nat) ([Relay (msg 3)], 4%nat) [].
Definition events : list event :=
  [Run false; ArriveHigh (Relay (msg 4)); Run false; ArriveLow (Relay (msg 5)); Run false;
   Run false; Run true; Run true; ArriveHigh (Relay (msg 6)); Run false].

Lemma thread_fifo_witness :
  th_state (exec handler 2 events start) = [msg 1; msg 2; msg 3; msg 4; msg 5] /\
  let '(h, l) := arrivals handler 2 events start in
  let t' := exec handler 2 events start in
  exists taken_high taken_low,
    chan_items (th_high start) ++ h = taken_high ++ chan_items (th_high t') /\
    chan_items (th_low start) ++ l = taken_low ++ chan_items (th_low t') /\
    interleaves (relays taken_high) (relays taken_low) (th_state t').
Proof. split; [vm_compute; reflexivity|]. apply (thread_fifo handler 2 events start). reflexivity. Defined.

Lemma low_priority_served_witness :
  ended (th_phase (exec handler 2 events start)) \/
  exists log, th_state (exec handler 2 events start) = th_state start ++ log /\ msg 3 ∈ log.
Proof.
  apply (low_priority_served handler 2 events start (msg 3) []).
  - simpl. lia.
  - reflexivity.
  - vm_compute. lia.
Defined.

Lemma high_priority_first_witness :
  let t' := exec handler 2 (replicate 2 (Run true)) start in
  th_state t' = th_state start ++ [msg 1; msg 2] /\ th_low t' = th_low start /\
  chan_items (th_high t') = [] /\ th_phase t' = InHigh (2 - 2).
Proof.
  apply (high_priority_first handler 2 start [msg 1; msg 2] true).
  - reflexivity.
  - reflexivity.
  - simpl. lia.
  - intros m _. discriminate.
Defined.
End ChannelWitnesses.
