(* ===== verification/Config.v ===== *)
(** * Configuration

    Models [concordium-node/src/configuration.rs]: the options of the node
    with their default values, the checks of [parse_config], compatibility of
    versions, the credentials of a validator, and the persistent preferences in
    which [bin/cli.rs] keeps the identifier of the node.  The parsing of the
    command line itself is [structopt]'s. *)

From stdpp Require Import base tactics list gmap strings option numbers.
From Stdlib Require Import ZArith Floats.SpecFloat.
From S2P Require Import Prelude Text Common LowLevel Wire Conn.

(** ** Floating point

    [f64] is the binary64 format of the Standard Library's executable model of
    IEEE 754. *)
Definition f64 := spec_float.
Definition f64_of_Z (z : Z) : f64 := binary_normalize 53 1024 z 0 false.
Definition f64_mul : f64 -> f64 -> f64 := SFmul 53 1024.
Definition f64_div : f64 -> f64 -> f64 := SFdiv 53 1024.

(** [x.floor() as uN] and [x.ceil() as uN]: the conversion saturates, and takes
    NaN to 0. *)
Definition f64_floor (x : f64) : Z :=
  match x with
  | S754_finite s m e => Z.shiftl (if s then Z.neg m else Z.pos m) e
  | _ => 0
  end.
Definition saturate (w z : Z) : Z := Z.max 0 (Z.min z (2 ^ w - 1)).
Definition floor_as_uint (w : Z) (x : f64) : Z :=
  match x with
  | S754_infinity s => if s then 0 else 2 ^ w - 1
  | S754_nan | S754_zero _ => 0
  | S754_finite _ _ _ => saturate w (f64_floor x)
  end.
Definition ceil_as_uint (w : Z) (x : f64) : Z :=
  match x with
  | S754_infinity s => if s then 0 else 2 ^ w - 1
  | S754_nan | S754_zero _ => 0
  | S754_finite _ _ _ => saturate w (- f64_floor (SFopp x))
  end.

(** ** Constants *)

Definition PROTOCOL_MAX_TRANSACTION_SIZE : Z := 600 * 1024.
Definition MAX_CATCH_UP_TIME : Z := 300000.
Definition UNREACHABLE_EXPIRATION_SECS : Z := 86400.
Definition MAX_BOOTSTRAPPER_KEEP_ALIVE : Z := 20000.
Definition MAX_PREHANDSHAKE_KEEP_ALIVE : Z := 10000.
Definition SOFT_BAN_DURATION_SECS : Z := 300.
Definition MAX_PEER_NETWORKS : nat := 20.
Definition KEEP_ALIVE_FACTOR : Z := 3.

(** ** Compatibility *)

(** [is_compatible_version]. *)
Definition is_compatible_version `{BaseTypes} (other : Version) : bool :=
  ((2 <=? version_major other) && (version_major other <=? 3))
  || ((version_major other =? 4) && (1 <=? version_minor other))
  || (5 <=? version_major other).

(** [is_compatible_wire_version]. *)
Definition is_compatible_wire_version (other : list WireProtocolVersion)
    : option WireProtocolVersion :=
  snd <$> list_find (fun ours => ours ∈ other) WIRE_PROTOCOL_VERSIONS.

(** ** Options *)

(** Parameters related to connections. *)
Record ConnectionConfig := mkConnectionConfig {
  desired_nodes : Z;
  cc_max_allowed_nodes : option Z;
  max_allowed_nodes_percentage : Z;
  cc_no_bootstrap_dns : bool;
  cc_clear_bans : bool;
  cc_relay_broadcast_percentage : f64;
  connect_to : list string;
  cc_disallow_multiple_peers_on_ip : bool;
  dns_resolver : list string;
  cc_bootstrap_nodes : list string;
  cc_housekeeping_interval : Z;
  cc_bootstrapping_interval : Z;
  cc_max_latency : option Z;
  cc_hard_connection_limit : Z;
  cc_conn_requests_batch_limit : Z;
  cc_catch_up_batch_limit : Z;
  cc_thread_pool_size : Z;
  cc_dedup_size_long : nat;
  cc_dedup_size_short : nat;
  cc_socket_write_size : nat;
  cc_socket_read_size : nat;
  cc_socket_so_linger : option Z;
  cc_events_queue_size : Z;
  cc_deduplication_hashing_algorithm : DeduplicationHashAlgorithm;
  max_normal_keep_alive : Z;
  cc_clear_persisted_peers : bool;
}.

(** The default values of the options, with the given bootstrap nodes. *)
Definition connection_defaults (nodes : list string) : ConnectionConfig := {|
  desired_nodes := 7;
  cc_max_allowed_nodes := None;
  max_allowed_nodes_percentage := 150;
  cc_no_bootstrap_dns := false;
  cc_clear_bans := false;
  cc_relay_broadcast_percentage := f64_of_Z 1;
  connect_to := [];
  cc_disallow_multiple_peers_on_ip := false;
  dns_resolver := [];
  cc_bootstrap_nodes := nodes;
  cc_housekeeping_interval := 30;
  cc_bootstrapping_interval := 7200;
  cc_max_latency := None;
  cc_hard_connection_limit := 50;
  cc_conn_requests_batch_limit := 9;
  cc_catch_up_batch_limit := 50;
  cc_thread_pool_size := 4;
  cc_dedup_size_long := Z.to_nat 65536;
  cc_dedup_size_short := Z.to_nat 4096;
  cc_socket_write_size := Z.to_nat 16384;
  cc_socket_read_size := Z.to_nat 131072;
  cc_socket_so_linger := None;
  cc_events_queue_size := 10;
  cc_deduplication_hashing_algorithm := XxHash64;
  max_normal_keep_alive := 120;
  cc_clear_persisted_peers := false;
|}.

(** Parameters pertaining to basic setup. *)
Record CommonConfig := mkCommonConfig {
  cc_external_port : option Z;
  config_id : option P2PNodeId;
  listen_port : Z;
  listen_address : option string;
  log_debug : bool;
  log_trace : bool;
  log_info : bool;
  no_consensus_logs : bool;
  network_ids : list Z;
  config_dir : text;
  data_dir : text;
  no_log_timestamp : bool;
  log_config : option text;
  min_peers_bucket : Z;
  print_config : bool;
  cc_bucket_cleanup_interval : Z;
}.

(** The directories have no defaults. *)
Definition common_defaults (config data : text) : CommonConfig := {|
  cc_external_port := None;
  config_id := None;
  listen_port := 8888;
  listen_address := None;
  log_debug := false;
  log_trace := false;
  log_info := false;
  no_consensus_logs := false;
  network_ids := [1000];
  config_dir := config;
  data_dir := data;
  no_log_timestamp := false;
  log_config := None;
  min_peers_bucket := 100;
  print_config := false;
  cc_bucket_cleanup_interval := 600000;
|}.

(** The parameters of a validator; those of profiling are the arguments of
    [Callbacks.profiling_args]. *)
Record BakerConfig := mkBakerConfig {
  gc_logging : option text;
  rts_flags : list text;
  maximum_block_size : Z;
  baker_block_construction_timeout : Z;
  transaction_insertions_before_purge : Z;
  baker_transaction_keep_alive : Z;
  baker_transactions_purging_delay : Z;
  import_blocks_from : option text;
  download_blocks_from : option text;
  download_blocks_timeout : Z;
  genesis_data_file : text;
  account_cache_size : Z;
  baker_credentials_file : option string;
  validator_credentials_file : option string;
  decrypt_baker_credentials : bool;
  decrypt_validator_credentials : bool;
  baker_modules_cache_size : Z;
}.

(** With the given maximal size of blocks.  The flags of the runtime are the parts of
    an empty string. *)
Definition baker_defaults_with (block_size : Z) : BakerConfig := {|
  gc_logging := None;
  rts_flags := [[]];
  maximum_block_size := block_size;
  baker_block_construction_timeout := 3000;
  transaction_insertions_before_purge := 1000;
  baker_transaction_keep_alive := 600;
  baker_transactions_purging_delay := 300;
  import_blocks_from := None;
  download_blocks_from := None;
  download_blocks_timeout := 300;
  genesis_data_file := lit "genesis.dat";
  account_cache_size := 10000;
  baker_credentials_file := None;
  validator_credentials_file := None;
  decrypt_baker_credentials := false;
  decrypt_validator_credentials := false;
  baker_modules_cache_size := 1000;
|}.
Definition baker_defaults : BakerConfig := baker_defaults_with 4194304.

(** Client's parameters. *)
Record CliConfig := mkCliConfig {
  no_network : bool;
  cli_poll_interval : Z;
  baker : BakerConfig;
  cli_timeout_bucket_entry_period : Z;
  cli_drop_rebroadcast_probability : option f64;
}.

Definition cli_defaults : CliConfig := {|
  no_network := false;
  cli_poll_interval := 100;
  baker := baker_defaults;
  cli_timeout_bucket_entry_period := 0;
  cli_drop_rebroadcast_probability := None;
|}.

(** Parameters applicable to a bootstrapper. *)
Record BootstrapperConfig := mkBootstrapperConfig {
  max_nodes : Z;
  wait_until_minimum_nodes : Z;
  bootstrapper_timeout_bucket_entry_period : Z;
  peer_list_size : nat;
}.

Definition bootstrapper_defaults : BootstrapperConfig := {|
  max_nodes := 10000;
  wait_until_minimum_nodes := 0;
  bootstrapper_timeout_bucket_entry_period := 7200000;
  peer_list_size := 10;
|}.

(** The main configuration object. *)
Record Config := mkConfig {
  common : CommonConfig;
  connection : ConnectionConfig;
  cli : CliConfig;
  bootstrapper : BootstrapperConfig;
}.

(** The checks of [parse_config] on the parsed options. *)
Definition parse_config (conf : Config) : outcome Config :=
  let c := connection conf in
  let max_block := maximum_block_size (baker (cli conf)) in
  _ ← ensure (100 <=? max_allowed_nodes_percentage c) "Can't provide a lower percentage than 100";
  _ ← match cc_max_allowed_nodes c with
      | Some max_allowed_nodes =>
          ensure (desired_nodes c <=? max_allowed_nodes)
            "Max allowed nodes must be greater or equal to desired amount of nodes"
      | None => Ok tt
      end;
  _ ← ensure (desired_nodes c <=? cc_hard_connection_limit c)
        "Hard connection limit can't be less than what desired nodes is set to";
  _ ← ensure (SFleb (f64_of_Z 0) (cc_relay_broadcast_percentage c)
              && SFleb (cc_relay_broadcast_percentage c) (f64_of_Z 1))
        "Percentage of peers to relay broadcasted packets to, must be between 0.0 and 1.0";
  _ ← ensure ((max_block <=? 4000000000)
              && (ceil_as_uint 32 (f64_mul (f64_of_Z max_block) (f64_div (f64_of_Z 9) (f64_of_Z 10)))
                  <=? PROTOCOL_MAX_MESSAGE_SIZE))
        "Maximum block size set higher than 90% of network protocol max size";
  _ ← ensure (bool_decide (Z.to_nat 65535 <= cc_socket_read_size c)%nat)
        "Socket read size must be set to at least 65535";
  _ ← ensure (bool_decide (cc_socket_write_size c <= cc_socket_read_size c)%nat)
        "Socket read size must be greater or equal to the write size";
  _ ← ensure (wait_until_minimum_nodes (bootstrapper conf)
              <=? Z.of_nat (peer_list_size (bootstrapper conf)))
        "wait-until-minimum-nodes must be lower than or equal to peer-list-size";
  _ ← ensure (u64_wrap (cc_housekeeping_interval c * KEEP_ALIVE_FACTOR) <=? max_normal_keep_alive c)
        "max-normal-keep-alive is too small";
  Ok conf.

(** ** Credentials of a validator *)

(** What the file system, the terminal and the decryption of
    [concordium_base::common::encryption] answer. *)
Class CredentialSource := {
  read_file : string -> option (list byte);
  parse_encrypted : list byte -> option (list byte);
  read_password : option (list byte);
  decrypt_with : list byte -> list byte -> option (list byte);
}.

Section credentials.
Context `{CredentialSource}.

(** [BakerConfig::decrypt_credentials]. *)
Definition decrypt_credentials (c : BakerConfig) : bool :=
  decrypt_baker_credentials c || decrypt_validator_credentials c.

(** The file that the two options name, if they agree. *)
Definition credentials_path (c : BakerConfig) : outcome (option string) :=
  match baker_credentials_file c, validator_credentials_file c with
  | None, None => Ok None
  | Some bcred, Some vcred =>
      _ ← ensure (String.eqb bcred vcred)
            "Different --baker-credentials-file and --validator-credentials-file are supplied.";
      Ok (Some bcred)
  | Some cred, None => Ok (Some cred)
  | None, Some cred => Ok (Some cred)
  end.

(** [BakerConfig::read_baker_credentials]. *)
Definition read_baker_credentials (c : BakerConfig) : outcome (option (list byte)) :=
  path ← credentials_path c;
  match path with
  | None => Ok None
  | Some path =>
      read_data ← context (read_file path) "Cannot open the validator credentials file";
      if decrypt_credentials c then
        et ← context (parse_encrypted read_data) "json";
        pass ← match read_password with Some p => Ok p | None => Err (IoError "tty") end;
        match decrypt_with pass et with
        | Some d => Ok (Some d)
        | None => bail "Could not decrypt validator credentials."
        end
      else Ok (Some read_data)
  end.

End credentials.

(** ** Persistent preferences *)

(** The crate [preferences]: a map of strings as the contents of a file. *)
Class Preferences := {
  save_map : gmap string string -> list byte;
  load_map : list byte -> option (gmap string string);
}.
Class PreferencesLaws `{Preferences} := { load_save m : load_map (save_map m) = Some m }.

(** What the operating system answers when the file is written: it cannot be
    opened, writing fails and leaves some contents, or it is written. *)
Inductive SaveResult :=
| CannotOpen
| SaveFailed (left_over : list byte)
| Saved.

Section preferences.
Context `{Preferences}.

Definition APP_PREFERENCES_KEY_VERSION : string := "VERSION".
Definition APP_PREFERENCES_PERSISTED_NODE_ID : string := "PERSISTED_NODE_ID".

(** [AppPreferences] with the contents of its file, if there is one. *)
Record AppPreferences := mkAppPreferences {
  preferences_map : gmap string string;
  preferences_file : option (list byte);
}.

(** [AppPreferences::set_config]. *)
Definition set_config (key : string) (value : option string) (os : SaveResult)
    (p : AppPreferences) : bool * AppPreferences :=
  let m := match value with
           | Some val => <[key := val]> (preferences_map p)
           | None => delete key (preferences_map p)
           end in
  match os with
  | CannotOpen => (false, mkAppPreferences m (preferences_file p))
  | SaveFailed left_over => (false, mkAppPreferences m (Some left_over))
  | Saved => (true, mkAppPreferences m (Some (save_map m)))
  end.

(** [AppPreferences::new] on the file found, if any; [opened] tells whether it
    could be opened or created. *)
Definition preferences_new (version : string) (file : option (list byte)) (opened : bool)
    (os : SaveResult) : outcome AppPreferences :=
  if opened then
    let p := match file with
             | Some contents => mkAppPreferences (default ∅ (load_map contents)) file
             | None => mkAppPreferences ∅ (Some [])
             end in
    Ok (set_config APP_PREFERENCES_KEY_VERSION (Some version) os p).2
  else match file with
       | Some _ => Err (IoError "Could not open configuration file")
       | None => Err (IoError "Could not create configuration file")
       end.

(** [AppPreferences::get_config], with the [FromStr] of the type. *)
Definition get_config {X} (from_str : string -> outcome X) (key : string) (p : AppPreferences)
    : outcome (option X) :=
  match preferences_map p !! key with
  | Some x_str =>
      match from_str x_str with
      | Ok x => Ok (Some x)
      | Err _ => bail "Cannot parse value from the persistent configuration as the requried type."
      | Panic => Panic
      end
  | None => Ok None
  end.

(** [X::to_string] and [X::from_str] of a node identifier, on strings. *)
Definition node_id_to_string (id : P2PNodeId) : string :=
  String.string_of_list_ascii (fmt_016x id).
Definition node_id_from_str (s : string) : outcome P2PNodeId :=
  P2PNodeId_from_str (String.list_ascii_of_string s).

(** [instantiate_node] up to the creation of the node: the identifier it will
    have.  [fresh] is drawn at random. *)
Definition instantiate_node_id (conf : Config) (fresh : P2PNodeId) (os : SaveResult)
    (p : AppPreferences) : outcome (P2PNodeId * AppPreferences) :=
  node_id ← match config_id (common conf) with
            | None =>
                maybe_id ← get_config node_id_from_str APP_PREFERENCES_PERSISTED_NODE_ID p;
                Ok (default fresh maybe_id)
            | Some id => Ok id
            end;
  let '(_, p') := set_config APP_PREFERENCES_PERSISTED_NODE_ID
                    (Some (node_id_to_string node_id)) os p in
  Ok (node_id, p').

End preferences.
