(* ===== verification/Container.v ===== *)
(** * The consensus container

    Starting, stopping and calling the consensus library: [ConsensusContainer] of
    [concordium-node/src/consensus_ffi/consensus.rs] with its operations in
    [concordium-node/src/consensus_ffi/ffi.rs], and the macros of
    [concordium-node/src/consensus_ffi/mod.rs].  The functions of the library are
    fields of a class; the calls that start and stop it are recorded. *)

From stdpp Require Import base tactics list gmap strings option numbers.
From Stdlib Require Import ZArith Floats.SpecFloat.
From S2P Require Import Prelude Text Common Helpers LowLevel Wire Conn Buckets CatchUp Queues QueuesProps Config.

(** [ConsensusLogLevel]. *)
Inductive ConsensusLogLevel := LogError | LogWarning | LogInfo | LogDebug | LogTrace.
Definition log_level_u8 (l : ConsensusLogLevel) : Z :=
  match l with LogError => 1 | LogWarning => 2 | LogInfo => 3 | LogDebug => 4 | LogTrace => 5 end.
(** [TryFrom<u8> for ConsensusLogLevel]. *)
Definition ConsensusLogLevel_try_from (value : Z) : outcome ConsensusLogLevel :=
  Ok (match value with 1 => LogError | 2 => LogWarning | 3 => LogInfo | 4 => LogDebug | _ => LogTrace end).

Inductive ConsensusType := Active | Passive.
#[export] Instance ConsensusType_eq_dec : EqDecision ConsensusType.
Proof. solve_decision. Defined.

Record ConsensusRuntimeParameters := mkRuntimeParameters {
  max_block_size : Z;
  block_construction_timeout : Z;
  insertions_before_purging : Z;
  transaction_keep_alive : Z;
  transactions_purging_delay : Z;
  accounts_cache_size : Z;
  modules_cache_size : Z;
}.

(** What a runner is started with; whether there are contexts for notifications,
    and without the pointers and callbacks that are always the same. *)
Record StartConsensusConfig := mkStartConfig {
  start_genesis_data : list byte;
  maximum_log_level : ConsensusLogLevel;
  has_notification_context : bool;
  has_unsupported_update_context : bool;
}.

(** The functions of the library.  [Runner] is what a [consensus_runner] points
    to, with the state of consensus; a block to execute is [None] if the pointer
    is null. *)
Class ConsensusRuntime := {
  Runner : Type;
  BlockToExecute : Type;
  startConsensus : ConsensusRuntimeParameters -> list byte -> list byte -> bool -> bool -> Z ->
    text -> Z * Runner;
  startConsensusPassive : ConsensusRuntimeParameters -> list byte -> bool -> bool -> Z ->
    text -> Z * Runner;
  stopConsensus : Runner -> Runner;
  startBaker : Runner -> Runner;
  stopBaker : Runner -> Runner;
  receiveBlock : Z -> list byte -> Runner -> (Z * option BlockToExecute) * Runner;
  executeBlock : BlockToExecute -> Runner -> Z * Runner;
  receiveFinalizationMessage : Z -> list byte -> Runner -> Z * Runner;
  receiveFinalizationRecord : Z -> list byte -> Runner -> Z * Runner;
  receiveCatchUpStatus : RemotePeerId -> Z -> list byte -> Z -> Runner -> Z * Runner;
  getCatchUpStatus : Runner -> Z * list byte;
  bakerStatusBestBlock : Runner -> Z * (Z * Z * f64);
  checkIfWeAreFinalizer : Runner -> Z;
  checkIfRunning : Runner -> Z;
  getLastFinalizedBlockHeight : Runner -> Z;
  getNumberOfNonFinalizedTransactions : Runner -> Z;
  importBlocks : list byte -> Runner -> Z * Runner;
  stopImportingBlocks : Runner -> Runner;
}.

(** A call that starts or stops something in the library. *)
Inductive LifecycleCall := CallStopConsensus | CallStartBaker | CallStopBaker.
#[export] Instance LifecycleCall_eq_dec : EqDecision LifecycleCall.
Proof. solve_decision. Defined.

Section container.
Context `{ConsensusRuntime} `{Channels}.

Record ConsensusContainer := mkContainer {
  runtime_parameters : ConsensusRuntimeParameters;
  is_baking : bool;
  consensus : Runner;
  genesis : list byte;
  consensus_type : ConsensusType;
  lifecycle : list LifecycleCall;
}.

Definition set_consensus (r : Runner) (c : ConsensusContainer) : ConsensusContainer :=
  mkContainer (runtime_parameters c) (is_baking c) r (genesis c) (consensus_type c) (lifecycle c).

(** ** Starting *)

(** The errors of [get_consensus_ptr]. *)
Definition start_errors : list string :=
  ["Cannot decode given genesis data.";
   "Cannot decode baker keys.";
   "Error reading database files.";
   "Given block state path is a directory, not a file.";
   "Cannot read block state database due to incorrect permissions.";
   "Cannot read tree state database due to incorrect permissions.";
   "Cannot open supplied tree state database.";
   "Genesis block is not in the supplied tree state database.";
   "Database genesis block does not align with the supplied genesis data.";
   "Database invariant violation. See logs for details.";
   "Block state database has incorrect version information."].

(** [get_consensus_ptr]; a directory whose name is not UTF-8 is a panic. *)
Definition get_consensus_ptr (params : ConsensusRuntimeParameters) (start_config : StartConsensusConfig)
    (private_data : option (list byte)) (appdata_dir : option text) : outcome Runner :=
  appdata_buf ← match appdata_dir with Some dir => Ok dir | None => Panic end;
  let level := log_level_u8 (maximum_log_level start_config) in
  let '(ret_code, runner) :=
    match private_data with
    | Some private_data_bytes =>
        startConsensus params (start_genesis_data start_config) private_data_bytes
          (has_notification_context start_config) (has_unsupported_update_context start_config)
          level appdata_buf
    | None =>
        startConsensusPassive params (start_genesis_data start_config)
          (has_notification_context start_config) (has_unsupported_update_context start_config)
          level appdata_buf
    end in
  if ret_code =? 0 then Ok runner
  else if ret_code <? 0 then bail "Unknown error code"
  else bail (default "Unknown error code" (start_errors !! (Z.to_nat ret_code - 1)%nat)).

(** [ConsensusContainer::new]. *)
Definition container_new (params : ConsensusRuntimeParameters) (start_config : StartConsensusConfig)
    (private_data : option (list byte)) (appdata_dir : option text) : outcome ConsensusContainer :=
  let consensus_type := match private_data with Some _ => Active | None => Passive end in
  let genesis_data := start_genesis_data start_config in
  consensus_ptr ← get_consensus_ptr params start_config private_data appdata_dir;
  Ok (mkContainer params false consensus_ptr genesis_data consensus_type []).

(** ** Baking *)

Definition is_active (c : ConsensusContainer) : bool := bool_decide (consensus_type c = Active).

Definition start_baker (c : ConsensusContainer) : bool * ConsensusContainer :=
  if negb (is_active c) || is_baking c then (false, c)
  else (true, mkContainer (runtime_parameters c) true (startBaker (consensus c)) (genesis c)
                (consensus_type c) (lifecycle c ++ [CallStartBaker])).

Definition stop_baker (c : ConsensusContainer) : bool * ConsensusContainer :=
  if negb (is_active c) || negb (is_baking c) then (false, c)
  else (true, mkContainer (runtime_parameters c) false (stopBaker (consensus c)) (genesis c)
                (consensus_type c) (lifecycle c ++ [CallStopBaker])).

(** [ConsensusContainer::stop], with [CALLBACK_QUEUE]. *)
Definition container_stop (c : ConsensusContainer) (queues : ConsensusQueues)
    : ConsensusContainer * ConsensusQueues :=
  let c1 := (stop_baker c).2 in
  (mkContainer (runtime_parameters c1) (is_baking c1) (stopConsensus (consensus c1)) (genesis c1)
     (consensus_type c1) (lifecycle c1 ++ [CallStopConsensus]),
   clear_queues queues).

(** ** Calls *)

(** [ConsensusFfiResponse::try_from(result).unwrap_or_else(..)]: a code that is
    not known is a panic. *)
Definition response_or_panic (result : Z) : outcome ConsensusFfiResponse :=
  match ConsensusFfiResponse_try_from result with Ok r => Ok r | _ => Panic end.

(** A call that returns a code. *)
Definition runner_call (f : Runner -> Z * Runner) : M ConsensusContainer ConsensusFfiResponse :=
  fun c => let '(result, r) := f (consensus c) in (response_or_panic result, set_consensus r c).

(** [wrap_send_data_to_c!] and [wrap_c_bool_call!]. *)
Definition wrap_send_data_to_c (f : Z -> list byte -> Runner -> Z * Runner) (genesis_index : Z)
    (data : list byte) : M ConsensusContainer ConsensusFfiResponse :=
  runner_call (f genesis_index data).
Definition wrap_c_bool_call (f : Runner -> Z) (c : ConsensusContainer) : outcome bool :=
  match f (consensus c) with 0 => Ok false | 1 => Ok true | _ => Panic end.

Definition receive_block (genesis_index : Z) (block : list byte)
    : M ConsensusContainer (ConsensusFfiResponse * option BlockToExecute) := fun c =>
  let '((result, callback), r) := receiveBlock genesis_index block (consensus c) in
  ((code ← response_or_panic result; Ok (code, callback)), set_consensus r c).
Definition execute_block (callback : BlockToExecute) : M ConsensusContainer ConsensusFfiResponse :=
  runner_call (executeBlock callback).
Definition send_finalization : Z -> list byte -> M ConsensusContainer ConsensusFfiResponse :=
  wrap_send_data_to_c receiveFinalizationMessage.
Definition send_finalization_record : Z -> list byte -> M ConsensusContainer ConsensusFfiResponse :=
  wrap_send_data_to_c receiveFinalizationRecord.
Definition receive_catch_up_status (genesis_index : Z) (request : list byte) (peer_id : RemotePeerId)
    (object_limit : Z) : M ConsensusContainer ConsensusFfiResponse :=
  runner_call (receiveCatchUpStatus peer_id genesis_index request object_limit).

(** [ConsensusContainer::get_catch_up_status]. *)
Definition container_catch_up_status (c : ConsensusContainer) : list byte :=
  let '(genesis_index, message) := getCatchUpStatus (consensus c) in
  packet_type_tag CatchUpStatus :: be_bytes 4 genesis_index ++ message.

Definition in_baking_committee (c : ConsensusContainer)
    : outcome (BakingCommitteeResponse * bool * Z * f64) :=
  let '(result, (baker_id, has_baker_id, lottery_power)) := bakerStatusBestBlock (consensus c) in
  match BakingCommitteeResponse_try_from result with
  | Ok status => Ok (status, negb (has_baker_id =? 0), baker_id, lottery_power)
  | _ => Panic
  end.
Definition in_finalization_committee : ConsensusContainer -> outcome bool :=
  wrap_c_bool_call checkIfWeAreFinalizer.
Definition is_consensus_running : ConsensusContainer -> outcome bool :=
  wrap_c_bool_call checkIfRunning.
Definition get_last_finalized_block_height (c : ConsensusContainer) : Z :=
  getLastFinalizedBlockHeight (consensus c).
Definition number_of_non_finalized_transactions (c : ConsensusContainer) : Z :=
  getNumberOfNonFinalizedTransactions (consensus c).

(** [import_blocks]; a path that is not UTF-8 has no bytes. *)
Definition import_blocks (path : option (list byte)) : M ConsensusContainer unit := fun c =>
  match path with
  | None => (bail "Cannot decode path.", c)
  | Some path_bytes =>
      let '(response, r) := importBlocks path_bytes (consensus c) in
      ((code ← ConsensusFfiResponse_try_from response;
        if decide (code = Success) then Ok tt else bail "Error during block import"),
       set_consensus r c)
  end.
Definition stop_importing_blocks (c : ConsensusContainer) : ConsensusContainer :=
  set_consensus (stopImportingBlocks (consensus c)) c.

(** ** The baker thread *)

(** Any operation on a container. *)
Inductive container_step : ConsensusContainer -> ConsensusContainer -> Prop :=
| step_start_baker c : container_step c (start_baker c).2
| step_stop_baker c : container_step c (stop_baker c).2
| step_stop c queues : container_step c (container_stop c queues).1
| step_receive_block c genesis_index block : container_step c (receive_block genesis_index block c).2
| step_execute_block c callback : container_step c (execute_block callback c).2
| step_send_finalization c genesis_index data :
    container_step c (send_finalization genesis_index data c).2
| step_send_finalization_record c genesis_index data :
    container_step c (send_finalization_record genesis_index data c).2
| step_receive_catch_up_status c genesis_index request peer_id limit :
    container_step c (receive_catch_up_status genesis_index request peer_id limit c).2
| step_import_blocks c path : container_step c (import_blocks path c).2
| step_stop_importing_blocks c : container_step c (stop_importing_blocks c).

(** Whether the library has a baker after some calls, if they make sense: a baker
    is started only if there is none, and stopped only if there is one; the
    library is not stopped with a baker running. *)
Fixpoint baker_after (running : bool) (calls : list LifecycleCall) : option bool :=
  match calls with
  | [] => Some running
  | CallStartBaker :: calls => if running then None else baker_after true calls
  | CallStopBaker :: calls => if running then baker_after false calls else None
  | CallStopConsensus :: calls => if running then None else baker_after false calls
  end.

Lemma baker_after_app b l1 l2 :
  baker_after b (l1 ++ l2) = baker_after b l1 ≫= fun b' => baker_after b' l2.
Proof. revert b. induction l1 as [|[] l1 IH]; intros []; simpl; auto. Qed.

Definition container_ok (c : ConsensusContainer) : Prop :=
  baker_after false (lifecycle c) = Some (is_baking c) /\
  (consensus_type c = Passive -> is_baking c = false /\
     forall call, call ∈ lifecycle c -> call = CallStopConsensus).

Lemma set_consensus_ok r c : container_ok c -> container_ok (set_consensus r c).
Proof. done. Qed.
Lemma runner_call_ok f c : container_ok c -> container_ok (runner_call f c).2.
Proof. unfold runner_call. destruct (f (consensus c)). done. Qed.

Lemma passive_inactive c : consensus_type c = Passive -> is_active c = false.
Proof. unfold is_active. by intros ->. Qed.

Lemma start_baker_ok c : container_ok c -> container_ok (start_baker c).2.
Proof.
  intros Hc. unfold start_baker. destruct (negb _ || _) eqn:E; [done|].
  apply orb_false_elim in E as [Ha%negb_false_iff Eb]. destruct Hc as [Hb Hp]. split; simpl.
  - by rewrite baker_after_app, Hb, Eb.
  - intros Et. by rewrite passive_inactive in Ha.
Qed.
Lemma stop_baker_ok c :
  container_ok c -> container_ok (stop_baker c).2 /\ is_baking (stop_baker c).2 = false.
Proof.
  intros Hc. unfold stop_baker. destruct (negb _ || _) eqn:E.
  - split; [done|]. simpl. apply orb_true_iff in E as [Ha|Eb]; [|by apply negb_true_iff].
    destruct (consensus_type c) eqn:Et; [|by apply Hc].
    unfold is_active in Ha. by rewrite Et in Ha.
  - apply orb_false_elim in E as [Ha%negb_false_iff Eb%negb_false_iff]. destruct Hc as [Hb Hp].
    split; [|done]. split; simpl.
    + by rewrite baker_after_app, Hb, Eb.
    + intros Et. by rewrite passive_inactive in Ha.
Qed.
Lemma container_stop_ok c queues : container_ok c -> container_ok (container_stop c queues).1.
Proof.
  intros Hc. destruct (stop_baker_ok c Hc) as [[Hb Hp] Hf]. unfold container_stop.
  destruct (stop_baker c) as [b c1]. cbn [snd fst] in *. split; simpl.
  - by rewrite baker_after_app, Hb, Hf.
  - intros E. destruct (Hp E) as [-> Hall]. split; [done|]. intros call.
    rewrite elem_of_app, list_elem_of_singleton. naive_solver.
Qed.

Lemma container_step_ok c c' : container_step c c' -> container_ok c -> container_ok c'.
Proof.
  intros Hstep Hc. destruct Hstep;
    [by apply start_baker_ok|by apply stop_baker_ok|by apply container_stop_ok|
     |by apply runner_call_ok..| |done].
  - unfold receive_block. by destruct (receiveBlock _ _ _) as [[] ?].
  - unfold import_blocks. destruct path; [|done]. by destruct (importBlocks _ _).
Qed.

(** C24: from its creation on, whatever is done with a container and in whatever
    order, the library sees a baker started only when none is running, stopped
    only when one is, and is itself never stopped with a baker running;
    [is_baking] tells whether one is running, and a passive container never asks
    for one. *)
Theorem baker_lifecycle params start_config private_data appdata_dir c c' :
  container_new params start_config private_data appdata_dir = Ok c ->
  rtc container_step c c' ->
  baker_after false (lifecycle c') = Some (is_baking c') /\
  (private_data = None -> is_baking c' = false /\
     forall call, call ∈ lifecycle c' -> call = CallStopConsensus).
Proof.
  intros Hn Hsteps.
  assert (Hc : container_ok c /\ (private_data = None -> consensus_type c = Passive)).
  { unfold container_new in Hn. destruct (get_consensus_ptr _ _ _ _); simplify_eq/=.
    split; [|by intros ->]. split; [done|]. intros E. split; [done|]. by intros call ?%elem_of_nil. }
  assert (Htype : consensus_type c' = consensus_type c /\ container_ok c').
  { destruct Hc as [Hc _]. clear Hn. induction Hsteps as [c|c c1 c2 Hstep _ IH]; [done|].
    destruct IH as [E Hc2]; [by eapply container_step_ok|]. split; [|done]. rewrite E.
    destruct Hstep; unfold start_baker, stop_baker, container_stop, receive_block, execute_block,
      send_finalization, send_finalization_record, receive_catch_up_status, wrap_send_data_to_c,
      runner_call, import_blocks, stop_baker; repeat case_match; by simplify_eq/=. }
  destruct Htype as [E [Hb Hp]]. split; [done|]. intros ->. apply Hp. rewrite E. by apply Hc.
Qed.
End container.

(** ** A run *)

(** A library that counts the blocks it has got. *)
Definition counting_runtime : ConsensusRuntime := {|
  Runner := nat;
  BlockToExecute := unit;
  startConsensus _ _ _ _ _ _ _ := (0, 0%nat);
  startConsensusPassive _ _ _ _ _ _ := (0, 0%nat);
  stopConsensus r := r;
  startBaker r := r;
  stopBaker r := r;
  receiveBlock _ _ r := ((0, Some tt), S r);
  executeBlock _ r := (0, r);
  receiveFinalizationMessage _ _ r := (0, r);
  receiveFinalizationRecord _ _ r := (0, r);
  receiveCatchUpStatus _ _ _ _ r := (0, r);
  getCatchUpStatus _ := (0, []);
  bakerStatusBestBlock _ := (1, (0, 0, f64_of_Z 0));
  checkIfWeAreFinalizer _ := 0;
  checkIfRunning _ := 1;
  getLastFinalizedBlockHeight _ := 0;
  getNumberOfNonFinalizedTransactions _ := 0;
  importBlocks _ r := (0, r);
  stopImportingBlocks r := r;
|}.
#[local] Existing Instances counting_runtime ChannelWitnesses.list_channels.

Definition example_parameters : ConsensusRuntimeParameters :=
  mkRuntimeParameters 3145728 5000 1000 600 300 10000 1000.
Definition example_start : StartConsensusConfig := mkStartConfig [Byte.x03] LogInfo true true.
Definition example_container : ConsensusContainer :=
  mkContainer example_parameters false 0%nat [Byte.x03] Active [].

(** A baker is started twice, a block arrives, and the container is stopped. *)
Lemma baker_lifecycle_witness :
  let c' := (container_stop (receive_block 0 [] (start_baker (start_baker example_container).2).2).2
               queues_default).1 in
  lifecycle c' = [CallStartBaker; CallStopBaker; CallStopConsensus] /\
  baker_after false (lifecycle c') = Some (is_baking c').
Proof.
  intros c'. split; [reflexivity|].
  apply (baker_lifecycle example_parameters example_start (Some [Byte.x01]) (Some [])
           example_container c'); [reflexivity|].
  eapply rtc_l; [apply step_start_baker|]. eapply rtc_l; [apply step_start_baker|].
  eapply rtc_l; [apply (step_receive_block _ 0 [])|]. apply rtc_once, step_stop.
Defined.
