(* ===== verification/GrpcTypes.v ===== *)
(** * Messages of the gRPC interface

    The types of the requests of the gRPC server and their conversions, from the
    module [types] of [concordium-node/src/grpc2.rs], and the functions of the
    consensus library that read what is passed to it
    ([concordium-consensus/src-lib/Concordium/External/Helpers.hs]).

    The Rust types are generated from a protobuf schema; a record here has the
    fields that the code reads.  A message with a single field [value] is that
    value, and a field that is a message is an [option].  A pointer that is
    passed to the library is the bytes it points to. *)

From stdpp Require Import base tactics list gmap strings option numbers.
From Stdlib Require Import ZArith.
From S2P Require Import Prelude Text Config.

(** [Require::require]. *)
Definition require {A} (field : option A) : outcome A :=
  match field with
  | Some v => Ok v
  | None => fail_with Code.InvalidArgument "missing field"
  end.

(** ** Accounts, modules, transactions *)

(** [account_address_to_ffi], [module_reference_to_ffi] and
    [transaction_hash_to_ffi]. *)
Definition account_address_to_ffi (address : list byte) : option (list byte) :=
  if decide (length address = 32%nat) then Some address else None.
Definition module_reference_to_ffi (module_ref : list byte) : option (list byte) :=
  if decide (length module_ref = 32%nat) then Some module_ref else None.
Definition transaction_hash_to_ffi (transaction_hash : list byte) : option (list byte) :=
  if decide (length transaction_hash = 32%nat) then Some transaction_hash else None.

(** A [u64] in memory, on a little-endian machine. *)
Definition native_u64 (v : Z) : list byte := reverse (be_bytes 8 v).

Inductive AccountIdentifierInput :=
| Address (value : list byte)
| CredId (value : list byte)
| AccountIndex (value : Z).

(** [account_identifier_to_ffi]. *)
Definition account_identifier_to_ffi (account_identifier : option AccountIdentifierInput)
    : option (Z * list byte) :=
  input ← account_identifier;
  match input with
  | Address addr => if decide (length addr = 32%nat) then Some (0, addr) else None
  | CredId cred_id => if decide (length cred_id = 48%nat) then Some (1, cred_id) else None
  | AccountIndex ai => Some (2, native_u64 ai)
  end.

(** ** Blocks *)

Record RelativeHeight := mkRelativeHeight {
  rel_height : option Z;
  rel_genesis_index : option Z;
  rel_restrict : bool;
}.

Inductive BlockHashInput :=
| Best
| LastFinal
| Given (value : list byte)
| AtAbsoluteHeight (value : Z)
| AtRelativeHeight (rel : RelativeHeight).

Inductive BlockHashInputFFI :=
| FfiBest
| FfiLastFinal
| FfiGiven (hash : list byte)
| FfiAbsolute (data : list byte)
| FfiRelative (data : list byte).

(** [BlockHashInputFFI::to_ptr]. *)
Definition bhi_to_ptr (bhi : BlockHashInputFFI) : Z * list byte :=
  match bhi with
  | FfiBest => (0, [])
  | FfiLastFinal => (1, [])
  | FfiGiven ptr => (2, ptr)
  | FfiAbsolute data => (3, data)
  | FfiRelative data => (4, data)
  end.

(** [block_hash_input_to_ffi]. *)
Definition block_hash_input_to_ffi (bhi : option BlockHashInput) : option BlockHashInputFFI :=
  input ← bhi;
  match input with
  | Best => Some FfiBest
  | LastFinal => Some FfiLastFinal
  | Given bh => if decide (length bh = 32%nat) then Some (FfiGiven bh) else None
  | AtAbsoluteHeight abh => Some (FfiAbsolute (be_bytes 8 abh))
  | AtRelativeHeight rel =>
      height ← rel_height rel;
      genesis_index ← rel_genesis_index rel;
      Some (FfiRelative (be_bytes 8 height ++ be_bytes 4 genesis_index
                         ++ [if rel_restrict rel then Byte.x01 else Byte.x00]))
  end.

(** Both together, as the queries use them. *)
Definition block_ffi (bhi : option BlockHashInput) : outcome (Z * list byte) :=
  bhi_to_ptr <$> require (block_hash_input_to_ffi bhi).

Inductive EpochRequestInput :=
| RelativeEpoch (epoch genesis_index : option Z)
| EpochOfBlock (bhi : option BlockHashInput).

Inductive EpochRequestFFI :=
| FfiSpecified (data : list byte)
| FfiOfBlock (bhi : BlockHashInputFFI).

(** [EpochRequestFFI::to_ptr]. *)
Definition epoch_to_ptr (e : EpochRequestFFI) : Z * list byte :=
  match e with
  | FfiSpecified data => (5, data)
  | FfiOfBlock bhi => bhi_to_ptr bhi
  end.

(** [epoch_request_to_ffi]. *)
Definition epoch_request_to_ffi (epoch_req : option EpochRequestInput) : option EpochRequestFFI :=
  input ← epoch_req;
  match input with
  | RelativeEpoch epoch genesis_index =>
      e ← epoch;
      g ← genesis_index;
      Some (FfiSpecified (be_bytes 8 e ++ be_bytes 4 g))
  | EpochOfBlock bhi => FfiOfBlock <$> block_hash_input_to_ffi bhi
  end.

Inductive BlocksAtHeight :=
| AbsoluteBlocks (height : option Z)
| RelativeBlocks (height genesis_index : option Z) (restrict : bool).

(** [blocks_at_height_request_to_ffi]. *)
Definition blocks_at_height_request_to_ffi (request : option BlocksAtHeight) : option (Z * Z * Z) :=
  input ← request;
  match input with
  | AbsoluteBlocks h => height ← h; Some (height, 0, 0)
  | RelativeBlocks h g restrict =>
      height ← h;
      genesis_index ← g;
      Some (height, genesis_index, if restrict then 1 else 0)
  end.

(** ** Contracts *)

Record ContractAddress := mkContract { index : Z; subindex : Z }.

Inductive AddressType :=
| AccountInvoker (account : list byte)
| ContractInvoker (contract : ContractAddress).

(** [str::is_ascii]. *)
Definition is_ascii_text (s : text) : bool := forallb (fun c => c <? 128) s.
(** The bytes of an ASCII string. *)
Definition ascii_bytes (s : text) : list byte := byte_of_Z <$> s.

(** [receive_name_to_ffi]. *)
Definition receive_name_to_ffi (receive_name : text) : option (list byte * Z) :=
  let len := text_len receive_name in
  if is_ascii_text receive_name && bool_decide (len <= 100)%nat
  then Some (ascii_bytes receive_name, Z.of_nat len) else None.

(** [baker_id_to_ffi]. *)
Definition baker_id_to_ffi (baker_id : Z) : Z := baker_id.

(** The invoker of an entrypoint, as it is passed to [invokeInstanceV2] and
    [dryRunInvokeInstance]. *)
Definition invoker_to_ffi (invoker : option (option AddressType))
    : outcome (Z * list byte * Z * Z) :=
  match invoker with
  | Some address =>
      ty ← require address;
      match ty with
      | AccountInvoker account =>
          ptr ← require (account_address_to_ffi account);
          Ok (1, ptr, 0, 0)
      | ContractInvoker contract => Ok (2, [], index contract, subindex contract)
      end
  | None => Ok (0, [], 0, 0)
  end.

(** A parameter, with its length as a [u32]. *)
Definition parameter_to_ffi (bytes : list byte) : outcome (list byte * Z) :=
  if Z.of_nat (length bytes) <? 2 ^ 32 then Ok (bytes, Z.of_nat (length bytes))
  else fail_with Code.InvalidArgument "Parameter exceeds maximum supported size.".

(** ** Reading in the consensus library

    A function that reads more than it is given has no result. *)

Inductive QueryBlock :=
| QBest
| QLastFinal
| QGiven (hash : list byte)
| QAbsolute (height : Z)
| QRelative (height genesis_index : Z) (restrict : bool).

Definition peek (n : nat) (data : list byte) : option (list byte) :=
  if decide (n <= length data)%nat then Some (take n data) else None.
(** [Data.Serialize.decode] of a [Bool]. *)
Definition decode_bool (b : byte) : option bool :=
  if decide (b = Byte.x00) then Some false else if decide (b = Byte.x01) then Some true else None.

(** [decodeBlockHashInput]. *)
Definition decodeBlockHashInput (tag : Z) (data : list byte) : option QueryBlock :=
  if tag =? 0 then Some QBest
  else if tag =? 1 then Some QLastFinal
  else if tag =? 2 then QGiven <$> peek 32 data
  else if tag =? 3 then QAbsolute ∘ be_value <$> peek 8 data
  else if tag =? 4 then
    inputData ← peek 13 data;
    restrict ← inputData !! 12%nat ≫= decode_bool;
    Some (QRelative (be_value (take 8 inputData)) (be_value (take 4 (drop 8 inputData))) restrict)
  else None.

Inductive QueryEpoch :=
| QSpecifiedEpoch (genesis_index epoch : Z)
| QEpochOfBlock (block : QueryBlock).

(** [decodeEpochRequest]. *)
Definition decodeEpochRequest (tag : Z) (data : list byte) : option QueryEpoch :=
  if tag =? 5 then
    inputData ← peek 12 data;
    Some (QSpecifiedEpoch (be_value (drop 8 inputData)) (be_value (take 8 inputData)))
  else QEpochOfBlock <$> decodeBlockHashInput tag data.

(** [decodeAccountIdentifierInput]; a credential id is not looked into. *)
Definition decodeAccountIdentifierInput (tag : Z) (data : list byte) : option AccountIdentifierInput :=
  if tag =? 0 then Address <$> peek 32 data
  else if tag =? 1 then CredId <$> peek 48 data
  else if tag =? 2 then AccountIndex ∘ be_value ∘ reverse <$> peek 8 data
  else None.

(** The address of the invoker in [invokeInstanceV2]. *)
Definition decodeInvoker (tag : Z) (account : list byte) (contract_index contract_subindex : Z)
    : option (option AddressType) :=
  if tag =? 0 then Some None
  else if tag =? 1 then Some ∘ AccountInvoker <$> peek 32 account
  else Some (Some (ContractInvoker (mkContract contract_index contract_subindex))).

(** ** What arrives *)

(** What a request means, if it is complete. *)
Definition block_meaning (bhi : BlockHashInput) : option QueryBlock :=
  match bhi with
  | Best => Some QBest
  | LastFinal => Some QLastFinal
  | Given h => if decide (length h = 32%nat) then Some (QGiven h) else None
  | AtAbsoluteHeight h => Some (QAbsolute h)
  | AtRelativeHeight rel =>
      h ← rel_height rel; g ← rel_genesis_index rel; Some (QRelative h g (rel_restrict rel))
  end.

Definition height_in_range (o : option Z) (w : Z) : Prop := forall v, o = Some v -> in_u w v.
Definition block_in_range (bhi : BlockHashInput) : Prop :=
  match bhi with
  | AtAbsoluteHeight h => in_u64 h
  | AtRelativeHeight rel => height_in_range (rel_height rel) 64 /\ height_in_range (rel_genesis_index rel) 32
  | _ => True
  end.

Lemma peek_all n data : length data = n -> peek n data = Some data.
Proof. intros <-. unfold peek. by rewrite decide_True, firstn_all by lia. Qed.
Lemma be_value_u64 v : in_u64 v -> be_value (be_bytes 8 v) = v.
Proof. intros Hv. rewrite be_value_bytes. change (8 * Z.of_nat 8) with 64. by apply Z.mod_small. Qed.
Lemma be_value_u32 v : in_u32 v -> be_value (be_bytes 4 v) = v.
Proof. intros Hv. rewrite be_value_bytes. change (8 * Z.of_nat 4) with 32. by apply Z.mod_small. Qed.

Lemma relative_layout h g r :
  let data := be_bytes 8 h ++ be_bytes 4 g ++ [r] in
  length data = 13%nat /\ take 8 data = be_bytes 8 h /\ take 4 (drop 8 data) = be_bytes 4 g /\
  data !! 12%nat = Some r.
Proof.
  simpl. split_and!; reflexivity.
Qed.

Lemma decode_block bhi :
  block_in_range bhi ->
  (block_hash_input_to_ffi (Some bhi)
    ≫= fun f => let '(tag, data) := bhi_to_ptr f in decodeBlockHashInput tag data) = block_meaning bhi /\
  (block_hash_input_to_ffi (Some bhi) = None <-> block_meaning bhi = None).
Proof.
  destruct bhi as [| |h|h|[[h|] [g|] r]]; cbn [block_hash_input_to_ffi block_meaning mbind option_bind];
    intros Hr; simpl in Hr.
  - done.
  - done.
  - destruct (decide (length h = 32%nat)) as [E|E]; [|done]. simpl.
    unfold decodeBlockHashInput. simpl. by rewrite peek_all.
  - cbn [bhi_to_ptr]. split; [|done]. unfold decodeBlockHashInput. simpl (_ =? _). cbn match.
    rewrite peek_all by apply length_be_bytes. cbn [fmap option_fmap option_map compose].
    by rewrite be_value_u64.
  - destruct Hr as [Hh Hg]. cbn [rel_height rel_genesis_index rel_restrict bhi_to_ptr mbind option_bind].
    split; [|done]. set (b := if r then Byte.x01 else Byte.x00).
    destruct (relative_layout h g b) as (Hl & H8 & H4 & Hb).
    unfold decodeBlockHashInput. simpl (_ =? _). cbn match.
    rewrite (peek_all 13) by exact Hl. cbn [mbind option_bind]. rewrite Hb. cbn [mbind option_bind].
    replace (decode_bool b) with (Some r) by (by destruct r). cbn [mbind option_bind].
    rewrite H8, H4, be_value_u64, be_value_u32; [done|by apply Hg|by apply Hh].
  - done.
  - done.
  - done.
Qed.

Definition epoch_meaning (e : EpochRequestInput) : option QueryEpoch :=
  match e with
  | RelativeEpoch epoch genesis_index => e ← epoch; g ← genesis_index; Some (QSpecifiedEpoch g e)
  | EpochOfBlock bhi => bhi' ← bhi; QEpochOfBlock <$> block_meaning bhi'
  end.
Definition epoch_in_range (e : EpochRequestInput) : Prop :=
  match e with
  | RelativeEpoch epoch genesis_index => height_in_range epoch 64 /\ height_in_range genesis_index 32
  | EpochOfBlock bhi => forall b, bhi = Some b -> block_in_range b
  end.
Definition account_meaning (a : AccountIdentifierInput) : option AccountIdentifierInput :=
  match a with
  | Address v => if decide (length v = 32%nat) then Some a else None
  | CredId v => if decide (length v = 48%nat) then Some a else None
  | AccountIndex _ => Some a
  end.
Definition account_in_range (a : AccountIdentifierInput) : Prop :=
  match a with AccountIndex v => in_u64 v | _ => True end.

(** What is passed is what is read: the conversion fails exactly if the request has
    no meaning, and otherwise the library reads that meaning. *)
Definition crosses {B} (passed : option (Z * list byte)) (decode : Z -> list byte -> option B)
    (meaning : option B) : Prop :=
  match passed with
  | Some (tag, data) => is_Some meaning /\ decode tag data = meaning
  | None => meaning = None
  end.

Lemma block_crosses bhi :
  block_in_range bhi ->
  crosses (bhi_to_ptr <$> block_hash_input_to_ffi (Some bhi)) decodeBlockHashInput (block_meaning bhi).
Proof.
  intros Hr. destruct (decode_block bhi Hr) as [H1 H2]. unfold crosses.
  destruct (block_hash_input_to_ffi (Some bhi)) as [f|] eqn:E; simpl; [|by apply H2].
  cbn [mbind option_bind] in H1. destruct (bhi_to_ptr f) as [tag data].
  split; [|done]. destruct (block_meaning bhi); [done|]. by destruct H2 as [_ H2]; specialize (H2 eq_refl).
Qed.

(** The tags of blocks and of epochs differ. *)
Lemma bhi_tag f : (bhi_to_ptr f).1 < 5.
Proof. by destruct f. Qed.

Lemma epoch_crosses e :
  epoch_in_range e ->
  crosses (epoch_to_ptr <$> epoch_request_to_ffi (Some e)) decodeEpochRequest (epoch_meaning e).
Proof.
  destruct e as [[e|] [g|]|[bhi|]]; cbn [epoch_request_to_ffi epoch_meaning mbind option_bind]; intros Hr;
    try done.
  - destruct Hr as [He Hg]. cbn [fmap option_fmap option_map epoch_to_ptr crosses]. split; [done|].
    unfold decodeEpochRequest. simpl (5 =? 5). cbn match.
    rewrite peek_all by reflexivity. cbn [mbind option_bind].
    change (take 8 (be_bytes 8 e ++ be_bytes 4 g)) with (be_bytes 8 e).
    change (drop 8 (be_bytes 8 e ++ be_bytes 4 g)) with (be_bytes 4 g).
    rewrite be_value_u64, be_value_u32; [done|by apply Hg|by apply He].
  - pose proof (block_crosses bhi (Hr bhi eq_refl)) as Hb. unfold crosses in *.
    destruct (block_hash_input_to_ffi (Some bhi)) as [f|]; simpl in *; [|by rewrite Hb].
    pose proof (bhi_tag f) as Ht. destruct (bhi_to_ptr f) as [tag data]. simpl in Ht.
    destruct Hb as [[m Hm] Hd]. rewrite Hm in *. split; [done|].
    unfold decodeEpochRequest. rewrite (proj2 (Z.eqb_neq tag 5)) by lia. by rewrite Hd.
Qed.

Lemma account_crosses a :
  account_in_range a ->
  crosses (account_identifier_to_ffi (Some a)) decodeAccountIdentifierInput (account_meaning a).
Proof.
  destruct a as [v|v|v]; cbn [account_identifier_to_ffi account_meaning mbind option_bind]; intros Hr.
  - destruct (decide _); [|done]. split; [done|].
    unfold decodeAccountIdentifierInput. simpl. by rewrite peek_all.
  - destruct (decide _); [|done]. split; [done|].
    unfold decodeAccountIdentifierInput. simpl. by rewrite peek_all.
  - split; [done|]. unfold decodeAccountIdentifierInput, native_u64. simpl (_ =? _). cbn match.
    rewrite peek_all by (by rewrite length_reverse, length_be_bytes).
    cbn [fmap option_fmap option_map compose]. by rewrite reverse_involutive, be_value_u64.
Qed.

(** C8: a block, an epoch or an account that a client names is the one that the
    consensus library reads on the other side of the FFI; only requests that
    lack a field, or have a hash of a wrong length, are rejected; the library
    never reads beyond what is passed, nor finds an invalid tag. *)
Theorem requests_cross_ffi :
  (forall bhi, block_in_range bhi ->
     crosses (bhi_to_ptr <$> block_hash_input_to_ffi (Some bhi)) decodeBlockHashInput
       (block_meaning bhi)) /\
  (forall e, epoch_in_range e ->
     crosses (epoch_to_ptr <$> epoch_request_to_ffi (Some e)) decodeEpochRequest (epoch_meaning e)) /\
  (forall a, account_in_range a ->
     crosses (account_identifier_to_ffi (Some a)) decodeAccountIdentifierInput (account_meaning a)).
Proof. split_and!; [apply block_crosses|apply epoch_crosses|apply account_crosses]. Qed.
