(* ===== verification/GrpcTransactions.v ===== *)
(** * Transactions of the gRPC interface

    The conversion of the transactions of clients to the binary format of block
    items, from the module [types] of [concordium-node/src/grpc2.rs].  The types
    of transactions and their serialization are those of the library
    [concordium_base], which is a class here. *)

From stdpp Require Import base tactics list gmap strings option numbers.
From Stdlib Require Import ZArith.
From S2P Require Import Prelude Text Config GrpcTypes.

(** ** The library [concordium_base] *)

Inductive WasmVersion := WasmV0 | WasmV1.

(** [concordium_base::transactions::Payload], the variants that are used. *)
Inductive Payload :=
| DeployModulePayload (version : WasmVersion) (source : list byte)
| InitContractPayload (amount : Z) (mod_ref : list byte) (init_name : text) (param : list byte)
| UpdatePayload (amount : Z) (address : ContractAddress) (receive_name : text) (message : list byte)
| TransferPayload (to_address : list byte) (amount : Z)
| TransferWithMemoPayload (to_address : list byte) (memo : list byte) (amount : Z)
| RegisterDataPayload (data : list byte).

(** Signatures by key, and for accounts by credential. *)
Abbreviation KeySignatures := (gmap Z (list byte)).
Abbreviation AccountSignatures := (gmap Z KeySignatures).

(** [TransactionHeader] and [UpdateHeader]. *)
Record TransactionHeader := mkTransactionHeader {
  th_sender : list byte;
  th_nonce : Z;
  th_energy_amount : Z;
  th_payload_size : Z;
  th_expiry : Z;
}.
Record UpdateHeader := mkUpdateHeader {
  uh_seq_number : Z;
  uh_effective_time : Z;
  uh_timeout : Z;
  uh_payload_size : Z;
}.

(** [try_from] and [new] of the types with an invariant, the encoding of
    payloads, and the serialization of block items; [version_0] is that of the
    version of a [Versioned] item, and [serial_account_transaction] that of a
    block item, with its tag. *)
Class ConcordiumBase := {
  EncodedPayload : Type;
  encoded_payload_try_from : list byte -> option EncodedPayload;
  encode : Payload -> EncodedPayload;
  payload_bytes : EncodedPayload -> list byte;
  contract_name_valid : text -> bool;
  owned_receive_name_valid : text -> bool;
  parameter_valid : list byte -> bool;
  memo_valid : list byte -> bool;
  registered_data_valid : list byte -> bool;
  version_0 : list byte;
  serial_account_transaction :
    AccountSignatures -> TransactionHeader -> EncodedPayload -> list byte;
  serial_transaction_time : Z -> list byte;
  serial_update_header : UpdateHeader -> list byte;
  serial_update_signatures : KeySignatures -> list byte;
  compute_transaction_sign_hash : TransactionHeader -> EncodedPayload -> list byte;
}.

(** ** Messages *)

Inductive VersionedModuleSource := ModuleV0 (source : list byte) | ModuleV1 (source : list byte).

Inductive PayloadInput :=
| RawPayload (payload : list byte)
| DeployModule (module : option VersionedModuleSource)
| InitContract (amount : option Z) (module_ref : option (list byte)) (init_name : option text)
    (parameter : option (list byte))
| UpdateContract (amount : option Z) (address : option ContractAddress) (receive_name : option text)
    (parameter : option (list byte))
| Transfer (receiver : option (list byte)) (amount : option Z)
| TransferWithMemo (receiver : option (list byte)) (amount : option Z) (memo : option (list byte))
| RegisterData (data : list byte).

Record AccountTransactionHeader := mkAccountHeader {
  ah_sender : option (list byte);
  ah_sequence_number : option Z;
  ah_energy_amount : option Z;
  ah_expiry : option Z;
}.

(** [PreAccountTransaction]; the payload is a message with one optional field. *)
Record PreAccountTransaction := mkPreAccount {
  pre_header : option AccountTransactionHeader;
  pre_payload : option (option PayloadInput);
}.

(** Maps of signatures, in the order in which they are iterated over. *)
Abbreviation SignatureMap := (list (Z * list byte)).
Abbreviation AccountTransactionSignature := (list (Z * SignatureMap)).

Record UpdateInstructionHeader := mkUpdateInstructionHeader {
  ui_sequence_number : option Z;
  ui_effective_time : option Z;
  ui_timeout : option Z;
}.

Inductive SendBlockItemRequest :=
| AccountTransaction (transaction : PreAccountTransaction)
    (signature : option AccountTransactionSignature)
| CredentialDeployment (message_expiry : option Z) (payload : option (list byte))
| UpdateInstruction (signatures : option SignatureMap) (header : option UpdateInstructionHeader)
    (payload : option (option (list byte))).

(** ** Conversions *)

Section conversions.
Context `{ConcordiumBase}.

Definition invalid_argument {A} (what : string) : outcome A := fail_with Code.InvalidArgument what.
Definition validated {A} (valid : A -> bool) (what : string) (v : A) : outcome A :=
  if valid v then Ok v else invalid_argument what.
Definition has_32_bytes (v : list byte) : bool := bool_decide (length v = 32%nat).

(** [TryFrom<ModuleRef>], [TryFrom<InitName>], [TryFrom<ReceiveName>],
    [TryFrom<Parameter>], [TryFrom<Memo>], [TryFrom<RegisteredData>] and
    [TryFrom<AccountAddress>]. *)
Definition try_module_ref : list byte -> outcome (list byte) :=
  validated has_32_bytes "Unexpected module reference format.".
Definition try_init_name : text -> outcome text :=
  validated contract_name_valid "Invalid contract init name".
Definition try_receive_name : text -> outcome text :=
  validated owned_receive_name_valid "Invalid contract receive name".
Definition try_parameter : list byte -> outcome (list byte) :=
  validated parameter_valid "Invalid parameter".
Definition try_memo : list byte -> outcome (list byte) :=
  validated memo_valid "Memo is invalid because it is too big.".
Definition try_registered_data : list byte -> outcome (list byte) :=
  validated registered_data_valid "Invalid register data payload".
Definition try_account_address : list byte -> outcome (list byte) :=
  validated has_32_bytes "Unexpected account address format.".

(** [TryFrom<AccountTransactionPayload> for EncodedPayload]. *)
Definition encoded_payload (value : option PayloadInput) : outcome EncodedPayload :=
  payload ← require value;
  match payload with
  | RawPayload rp =>
      match encoded_payload_try_from rp with
      | Some p => Ok p
      | None => invalid_argument "Payload size exceeds maximum allowed."
      end
  | DeployModule dm =>
      module ← require dm;
      Ok (encode match module with
                 | ModuleV0 source => DeployModulePayload WasmV0 source
                 | ModuleV1 source => DeployModulePayload WasmV1 source
                 end)
  | InitContract amount module_ref init_name parameter =>
      amount ← require amount;
      mod_ref ← require module_ref ≫= try_module_ref;
      init_name ← require init_name ≫= try_init_name;
      param ← require parameter ≫= try_parameter;
      Ok (encode (InitContractPayload amount mod_ref init_name param))
  | UpdateContract amount address receive_name parameter =>
      amount ← require amount;
      address ← require address;
      receive_name ← require receive_name ≫= try_receive_name;
      message ← require parameter ≫= try_parameter;
      Ok (encode (UpdatePayload amount address receive_name message))
  | Transfer receiver amount =>
      to_address ← require receiver ≫= try_account_address;
      amount ← require amount;
      Ok (encode (TransferPayload to_address amount))
  | TransferWithMemo receiver amount memo =>
      to_address ← require receiver ≫= try_account_address;
      amount ← require amount;
      memo ← require memo ≫= try_memo;
      Ok (encode (TransferWithMemoPayload to_address memo amount))
  | RegisterData t =>
      data ← try_registered_data t;
      Ok (encode (RegisterDataPayload data))
  end.

(** [TryFrom<PreAccountTransaction> for (TransactionHeader, EncodedPayload)]. *)
Definition pre_account_transaction (value : PreAccountTransaction)
    : outcome (TransactionHeader * EncodedPayload) :=
  header ← require (pre_header value);
  payload ← require (pre_payload value);
  sender ← require (ah_sender header) ≫= try_account_address;
  nonce ← require (ah_sequence_number header);
  energy_amount ← require (ah_energy_amount header);
  expiry ← require (ah_expiry header);
  payload ← encoded_payload payload;
  let payload_size := Z.of_nat (length (payload_bytes payload)) in
  Ok (mkTransactionHeader sender nonce energy_amount payload_size expiry, payload).

(** [TryFrom<Signature>]. *)
Definition try_signature (value : list byte) : outcome (list byte) :=
  if Z.of_nat (length value) <=? 65535 then Ok value else invalid_argument "Signature is too large.".

Definition below (bound : Z) (what : string) (v : Z) : outcome Z :=
  if v <? bound then Ok v else invalid_argument what.

(** [TryFrom<AccountTransactionSignature>]. *)
Definition account_signatures (value : AccountTransactionSignature) : outcome AccountSignatures :=
  list_to_map <$>
    mapM (fun '(ci, m) =>
            ci ← below 256 "Invalid credential index." ci;
            cred_sigs ← mapM (fun '(ki, sig) =>
                                ki ← below 256 "Invalid key index." ki;
                                sig ← try_signature sig;
                                Ok (ki, sig)) m;
            Ok (ci, list_to_map cred_sigs)) value.

(** [TryFrom<SignatureMap> for UpdateInstructionSignature]. *)
Definition update_signatures (value : SignatureMap) : outcome KeySignatures :=
  list_to_map <$>
    mapM (fun '(k, sig) =>
            k ← below 65536 "Update key index too large." k;
            sig ← try_signature sig;
            Ok (k, sig)) value.

(** [SendBlockItemRequest::get_v0_format]. *)
Definition get_v0_format (request : option SendBlockItemRequest) : outcome (list byte) :=
  block_item ← require request;
  match block_item with
  | AccountTransaction at_ signature =>
      '(header, payload) ← pre_account_transaction at_;
      signature ← require signature ≫= account_signatures;
      Ok (version_0 ++ serial_account_transaction signature header payload)
  | CredentialDeployment message_expiry payload =>
      message_expiry ← require message_expiry;
      ac ← require payload;
      Ok (version_0 ++ Byte.x01 :: serial_transaction_time message_expiry ++ ac)
  | UpdateInstruction signatures header payload =>
      header ← require header;
      payload ← require payload ≫= require;
      if PROTOCOL_MAX_TRANSACTION_SIZE <? Z.of_nat (length payload)
      then invalid_argument "Update payload too large."
      else
        seq_number ← require (ui_sequence_number header);
        effective_time ← require (ui_effective_time header);
        timeout ← require (ui_timeout header);
        let header :=
          mkUpdateHeader seq_number effective_time timeout (u32_wrap (Z.of_nat (length payload))) in
        signatures ← require signatures ≫= update_signatures;
        Ok (version_0 ++ Byte.x02 :: serial_update_header header ++ payload
            ++ serial_update_signatures signatures)
  end.
End conversions.
