(* ===== verification/FloatFacts.v ===== *)
(** * Rounding of binary64: the limit on peers is not below the desired number

    The product of two normal numbers is rounded to nearest, so it is not
    below a number that the format represents if the exact product is not.
    This is what the computation of [max_allowed_nodes] relies on, which takes
    a percentage of at least 100 of the desired number of peers. *)

From stdpp Require Import base tactics list option numbers.
From Stdlib Require Import ZArith Floats.SpecFloat.
From S2P Require Import Prelude Config.

(** ** Shifting a mantissa to the right *)

Lemma shr_1_m mrs : 0 <= shr_m mrs -> shr_m (shr_1 mrs) = shr_m mrs / 2.
Proof.
  destruct mrs as [m r s]. cbn [shr_m]. intros H.
  destruct m as [|[p|p|]|p]; try done; cbn [shr_1 shr_m].
  - rewrite (Pos2Z.inj_xI p). apply (Z.div_unique _ _ _ 1); lia.
  - rewrite (Pos2Z.inj_xO p). apply (Z.div_unique _ _ _ 0); lia.
Qed.

Lemma shr_iter_m k : forall mrs, 0 <= shr_m mrs ->
  shr_m (iter_pos shr_1 k mrs) = shr_m mrs / 2 ^ Z.pos k.
Proof.
  induction k as [k IH|k IH|]; intros mrs H; cbn [iter_pos].
  - assert (H1 : 0 <= shr_m (shr_1 mrs)) by (rewrite shr_1_m by done; by apply Z.div_pos).
    assert (H2 : 0 <= shr_m (iter_pos shr_1 k (shr_1 mrs)))
      by (rewrite IH by done; apply Z.div_pos; lia).
    rewrite IH, IH, shr_1_m, !Z.div_div by (done || lia). f_equal.
    rewrite <- Z.pow_add_r, <- Z.pow_succ_r by lia. f_equal. lia.
  - assert (H2 : 0 <= shr_m (iter_pos shr_1 k mrs)) by (rewrite IH by done; apply Z.div_pos; lia).
    rewrite IH, IH, Z.div_div by (done || lia). f_equal.
    rewrite <- Z.pow_add_r by lia. f_equal. lia.
  - by apply shr_1_m.
Qed.

Lemma shr_spec mrs e k :
  0 <= shr_m mrs -> 0 <= k ->
  shr_m (shr mrs e k).1 = shr_m mrs / 2 ^ k /\ (shr mrs e k).2 = e + k.
Proof.
  intros H Hk. destruct k as [|k|k]; [|split; [by apply shr_iter_m|done]|lia].
  simpl. rewrite Z.div_1_r. lia.
Qed.

(** The number of digits of a mantissa. *)
Lemma Zdigits2_spec m k : 0 <= k -> 2 ^ k <= m < 2 ^ (k + 1) -> Zdigits2 m = k + 1.
Proof.
  intros Hk Hm. destruct m as [|p|p]; [lia| |lia]. simpl.
  rewrite <- (Z.log2_unique _ _ Hk Hm). clear.
  assert (E : digits2_pos p = Pos.size p) by (induction p; cbn; congruence).
  rewrite E. destruct p; cbn; lia.
Qed.

(** ** Rounding *)

Lemma round_nearest_even_bounds m l : m <= round_nearest_even m l <= m + 1.
Proof. destruct l as [|[]]; simpl; try destruct (Z.even m); lia. Qed.

(** Numbers of 53 digits or more, within the exponents of the format, are
    rounded to a number that is not below the first 53 digits. *)
Lemma binary_round_aux_ge m e k l :
  0 <= k -> 2 ^ 52 * 2 ^ k <= m < 2 ^ 53 * 2 ^ k -> -1000 <= e + k <= 900 ->
  exists m' e', binary_round_aux 53 1024 false m e l = S754_finite false m' e' /\
    2 ^ 52 <= Z.pos m' < 2 ^ 53 /\ e + k <= e' <= e + k + 1 /\ m / 2 ^ k <= Z.pos m' * 2 ^ (e' - (e + k)).
Proof.
  intros Hk Hm He. unfold binary_round_aux, shr_fexp.
  assert (Hf : forall d, -1000 <= d - 53 -> fexp 53 1024 d = d - 53) by (unfold fexp, emin; lia).
  rewrite (Zdigits2_spec m (52 + k)), Hf
    by (rewrite ?Z.pow_add_r by lia; change (2 ^ 1) with 2; change (2 ^ 53) with (2 ^ 52 * 2) in Hm; lia).
  replace (52 + k + 1 + e - 53 - e) with k by lia.
  pose proof (shr_spec (shr_record_of_loc m l) e k) as Hs.
  assert (El : shr_m (shr_record_of_loc m l) = m) by (by destruct l as [|[]]). rewrite El in Hs.
  destruct (shr _ e k) as [mrs e1]. cbn [fst snd] in Hs. destruct Hs as [Hs ->]; [lia..|].
  rewrite Hs. set (q := m / 2 ^ k) in *.
  assert (Hq : 2 ^ 52 <= q < 2 ^ 53).
  { unfold q. split; [apply Z.div_le_lower_bound|apply Z.div_lt_upper_bound]; lia. }
  clear Hm Hs. pose proof (round_nearest_even_bounds q (loc_of_shr_record mrs)) as Hr.
  set (q' := round_nearest_even q _) in *. clearbody q q'.
  set (j := if decide (q' = 2 ^ 53) then 1 else 0).
  assert (Hj : 0 <= j <= 1 /\ q' / 2 ^ j * 2 ^ j = q' /\
    2 ^ 52 <= q' / 2 ^ j < 2 ^ 53 /\ Zdigits2 q' = 53 + j).
  { unfold j. destruct (decide (q' = 2 ^ 53)) as [->|]; [by vm_compute|].
    rewrite Z.div_1_r, Z.mul_1_r, (Zdigits2_spec q' 52); lia. }
  clearbody j. destruct Hj as (Hj & Ej & Hn & ->). rewrite Hf by lia.
  replace (53 + j + (e + k) - 53 - (e + k)) with j by lia.
  pose proof (shr_spec (shr_record_of_loc q' loc_Exact) (e + k) j) as Hs. cbn [shr_record_of_loc shr_m] in Hs.
  destruct (shr _ (e + k) j) as [mrs2 e2]. cbn [fst snd] in Hs. destruct Hs as [-> ->]; [lia..|].
  destruct (q' / 2 ^ j) as [|m'|m'] eqn:Em; [lia| |lia].
  exists m', (e + k + j). rewrite (proj2 (Z.leb_le _ _)) by lia.
  replace (e + k + j - (e + k)) with j by lia. split_and!; [done|lia..].
Qed.

(** A normal number below 2^17 that is at least [z]. *)
Definition at_least (z : Z) (x : f64) : bool :=
  match x with
  | S754_finite false m e =>
      (2 ^ 52 <=? Z.pos m) && (Z.pos m <? 2 ^ 53) && (e <=? -36)
      && (z * 2 ^ (- e) <=? Z.pos m)
  | _ => false
  end.

Lemma at_least_finite z m e :
  at_least z (S754_finite false m e) = true <->
  2 ^ 52 <= Z.pos m < 2 ^ 53 /\ e <= -36 /\ z * 2 ^ (- e) <= Z.pos m.
Proof. cbn [at_least]. rewrite !andb_true_iff, !Z.leb_le, Z.ltb_lt. lia. Qed.

Lemma at_least_exponent z m e :
  0 < z -> Z.pos m < 2 ^ 53 -> e <= -36 -> z * 2 ^ (- e) <= Z.pos m -> -52 <= e.
Proof.
  intros Hz Hm He H. assert (- e < 53); [|lia].
  apply (Z.pow_lt_mono_r_iff 2); [lia..|]. nia.
Qed.

Lemma f64_mul_at_least d x y :
  0 < d < 2 ^ 16 -> at_least d x = true -> at_least 1 y = true ->
  d <= floor_as_uint 16 (f64_mul x y).
Proof.
  intros Hd Hx Hy.
  destruct x as [| | |[] m1 e1]; try done. destruct y as [| | |[] m2 e2]; try done.
  apply at_least_finite in Hx as (Hn1 & He1 & Hx), Hy as (Hn2 & He2 & Hy).
  pose proof (at_least_exponent d m1 e1 ltac:(lia) ltac:(lia) He1 Hx).
  pose proof (at_least_exponent 1 m2 e2 ltac:(lia) ltac:(lia) He2 Hy). unfold f64_mul, SFmul. cbn [xorb].
  rewrite Pos2Z.inj_mul.
  set (k := if decide (2 ^ 105 <= Z.pos m1 * Z.pos m2) then 53 else 52).
  assert (Hm : (k = 52 \/ k = 53) /\ 2 ^ 52 * 2 ^ k <= Z.pos m1 * Z.pos m2 < 2 ^ 53 * 2 ^ k).
  { unfold k. destruct (decide _); split; try nia. }
  clearbody k. destruct Hm as [Hk Hm].
  destruct (binary_round_aux_ge _ (e1 + e2) k loc_Exact ltac:(lia) Hm ltac:(lia))
    as (m' & e' & -> & _ & He & Hge).
  cbn [floor_as_uint f64_floor]. unfold saturate.
  enough (d <= Z.shiftl (Z.pos m') e') by (change (2 ^ 16) with 65536 in *; lia).
  rewrite Z.shiftl_div_pow2 by lia. apply Z.div_le_lower_bound; [lia|].
  assert (Hp : 2 ^ (- (e1 + e2 + k)) * d <= Z.pos m1 * Z.pos m2 / 2 ^ k).
  { apply Z.div_le_lower_bound; [lia|].
    rewrite Z.mul_assoc, <- Z.pow_add_r by lia.
    replace (k + - (e1 + e2 + k)) with (- e1 + - e2) by lia. rewrite Z.pow_add_r by lia. nia. }
  assert (Hs : 2 ^ (- (e1 + e2 + k)) = 2 ^ (- e') * 2 ^ (e' - (e1 + e2 + k)))
    by (rewrite <- Z.pow_add_r by lia; f_equal; lia).
  rewrite Hs in Hp. apply (Z.mul_le_mono_pos_r _ _ (2 ^ (e' - (e1 + e2 + k)))); lia.
Qed.

Lemma pos_iter_xO j p : Z.pos (Pos.iter xO p j) = Z.pos p * 2 ^ Z.pos j.
Proof.
  induction j as [|j IH] using Pos.peano_ind; [cbn; lia|].
  rewrite Pos.iter_succ, Pos2Z.inj_xO, IH, Pos2Z.inj_succ, Z.pow_succ_r; lia.
Qed.

Lemma f64_of_u16 d : 0 < d < 2 ^ 16 -> at_least d (f64_of_Z d) = true.
Proof.
  intros Hd. destruct d as [|p|p]; [lia| |lia]. unfold f64_of_Z, binary_normalize, binary_round.
  pose proof (Z.log2_spec (Z.pos p) ltac:(lia)) as Hl. pose proof (Z.log2_nonneg (Z.pos p)) as H0.
  assert (Hg : Z.log2 (Z.pos p) < 16) by (apply Z.log2_lt_pow2; lia).
  set (g := Z.log2 (Z.pos p)) in *. clearbody g. rewrite <- Z.add_1_r in Hl.
  pose proof (Zdigits2_spec _ _ H0 Hl) as Eg. cbn [Zdigits2] in Eg. rewrite Eg.
  assert (Ef : fexp 53 1024 (g + 1 + 0) = g - 52) by (unfold fexp, emin; lia). rewrite Ef.
  unfold shl_align. destruct (g - 52 - 0) as [|j|j] eqn:Ej; [lia..|].
  assert (Hm : Z.pos (Pos.iter xO p j) = Z.pos p * 2 ^ (52 - g)) by (rewrite pos_iter_xO; do 2 f_equal; lia).
  assert (Hp : 2 ^ 52 = 2 ^ g * 2 ^ (52 - g)) by (rewrite <- Z.pow_add_r by lia; f_equal; lia).
  rewrite Z.pow_add_r in Hl by lia. rewrite Hm.
  destruct (binary_round_aux_ge (Z.pos p * 2 ^ (52 - g)) (g - 52) 0 loc_Exact)
    as (m' & e' & -> & Hn & He & Hge); [lia|change (2 ^ 53) with (2 ^ 52 * 2); nia|lia|].
  apply at_least_finite. split; [done|]. split; [lia|].
  rewrite Z.div_1_r in Hge. apply (Z.mul_le_mono_pos_r _ _ (2 ^ (e' - (g - 52 + 0)))); [lia|].
  rewrite <- Z.mul_assoc, <- Z.pow_add_r by lia. by replace (- e' + (e' - (g - 52 + 0))) with (52 - g) by lia.
Qed.

Lemma percent_at_least p :
  100 <= p < 2 ^ 16 -> at_least 1 (f64_div (f64_of_Z p) (f64_of_Z 100)) = true.
Proof.
  intros Hp. pose proof (f64_of_u16 p ltac:(lia)) as H.
  destruct (f64_of_Z p) as [| | |[] m1 e1]; try done. apply at_least_finite in H as (Hn & He & Hm).
  pose proof (at_least_exponent p m1 e1 ltac:(lia) ltac:(lia) He Hm).
  assert (E100 : f64_of_Z 100 = S754_finite false 7036874417766400 (-46)) by (by vm_compute).
  rewrite E100. unfold f64_div, SFdiv, SFdiv_core_binary.
  rewrite (Zdigits2_spec (Z.pos m1) 52) by lia. change (Zdigits2 (Z.pos 7036874417766400)) with 53.
  assert (Ef : Z.min (fexp 53 1024 (52 + 1 + e1 - (53 + -46))) (e1 - -46) = e1 - 7) by (unfold fexp, emin; lia).
  rewrite Ef. replace (e1 - -46 - (e1 - 7)) with 53 by lia.
  cbv beta iota zeta. rewrite Z.shiftl_mul_pow2 by lia.
  pose proof (Z.div_eucl_eq (Z.pos m1 * 2 ^ 53) 7036874417766400) as Hq.
  pose proof (Z_mod_lt (Z.pos m1 * 2 ^ 53) 7036874417766400) as Hr. unfold Z.modulo in Hr.
  destruct (Z.div_eucl _ _) as [q r]. specialize (Hq ltac:(lia)). specialize (Hr ltac:(lia)). cbn [xorb].
  set (k := if decide (2 ^ 53 <= q) then 1 else 0).
  assert (Hk : (k = 0 \/ k = 1) /\ 2 ^ 52 * 2 ^ k <= q < 2 ^ 53 * 2 ^ k) by (unfold k; destruct (decide _); lia).
  clearbody k. destruct Hk as [Hk Hq2].
  destruct (binary_round_aux_ge q (e1 - 7) k (new_location 7036874417766400 r))
    as (m' & e' & -> & Hn' & He' & Hge); [lia|done|lia|].
  apply at_least_finite. split; [done|]. split; [lia|].
  assert (Hp7 : 2 ^ (7 - e1) = 2 ^ 7 * 2 ^ (- e1)) by (rewrite <- Z.pow_add_r by lia; f_equal; lia).
  assert (Hw : 100 * 2 ^ (- e1) <= Z.pos m1) by nia. assert (Hq1 : 2 ^ (7 - e1) <= q) by lia.
  apply (Z.mul_le_mono_pos_r _ _ (2 ^ (e' - (e1 - 7 + k)))); [lia|].
  etrans; [|exact Hge]. rewrite Z.mul_1_l, <- Z.pow_add_r by lia.
  apply Z.div_le_lower_bound; [lia|]. rewrite <- Z.pow_add_r by lia. etrans; [|exact Hq1].
  apply Z.pow_le_mono_r; lia.
Qed.

(** A percentage of at least 100 of a number of peers is at least that number. *)
Lemma percentage_of_peers d p :
  0 <= d < 2 ^ 16 -> 100 <= p < 2 ^ 16 ->
  d <= floor_as_uint 16 (f64_mul (f64_of_Z d) (f64_div (f64_of_Z p) (f64_of_Z 100))).
Proof.
  intros Hd Hp. pose proof (percent_at_least p Hp) as H.
  destruct (decide (d = 0)) as [->|].
  - by destruct (f64_div _ _) as [| | |[] ? ?].
  - apply f64_mul_at_least; [lia| |done]. apply f64_of_u16. lia.
Qed.
