(* ===== verification/ConfigProps.v ===== *)
(** * Which configurations are accepted, and the persistent identifier *)

From stdpp Require Import base tactics list gmap strings option numbers.
From Stdlib Require Import ZArith Floats.SpecFloat.
From S2P Require Import Prelude Text Common LowLevel LowLevelFacts Wire Conn Config.

(** The conditions of [parse_config]. *)
Record acceptable (conf : Config) : Prop := {
  acc_percentage : 100 <= max_allowed_nodes_percentage (connection conf);
  acc_max_allowed m :
    cc_max_allowed_nodes (connection conf) = Some m -> desired_nodes (connection conf) <= m;
  acc_hard_limit :
    desired_nodes (connection conf) <= cc_hard_connection_limit (connection conf);
  acc_relay :
    SFleb (f64_of_Z 0) (cc_relay_broadcast_percentage (connection conf)) = true /\
    SFleb (cc_relay_broadcast_percentage (connection conf)) (f64_of_Z 1) = true;
  acc_block :
    maximum_block_size (baker (cli conf)) <= 4000000000 /\
    ceil_as_uint 32 (f64_mul (f64_of_Z (maximum_block_size (baker (cli conf))))
                       (f64_div (f64_of_Z 9) (f64_of_Z 10))) <= PROTOCOL_MAX_MESSAGE_SIZE;
  acc_read_size : 65535 <= Z.of_nat (cc_socket_read_size (connection conf));
  acc_write_size :
    (cc_socket_write_size (connection conf) <= cc_socket_read_size (connection conf))%nat;
  acc_minimum :
    wait_until_minimum_nodes (bootstrapper conf) <= Z.of_nat (peer_list_size (bootstrapper conf));
  acc_keep_alive :
    u64_wrap (cc_housekeeping_interval (connection conf) * KEEP_ALIVE_FACTOR)
      <= max_normal_keep_alive (connection conf);
}.

Lemma parse_config_iff conf conf' :
  parse_config conf = Ok conf' <-> conf' = conf /\ acceptable conf.
Proof.
  unfold parse_config. split.
  - intros E.
    repeat (apply outcome_bind_Ok in E as (? & ? & E)). injection E as <-.
    repeat match goal with HE : ensure _ _ = Ok _ |- _ => apply ensure_Ok in HE end.
    bool_hyps. split; [done|]. split; try done; try lia.
    intros m Em. rewrite Em in *.
    match goal with HE : ensure _ _ = Ok _ |- _ => apply ensure_Ok in HE end. bool_hyps. done.
  - intros [-> []].
    repeat match goal with H : _ /\ _ |- _ => destruct H end.
    destruct (cc_max_allowed_nodes (connection conf)) as [m|].
    all: rewrite ?(proj2 (ensure_Ok _ _ tt)) by
      (rewrite ?andb_true_iff, ?Z.leb_le, ?bool_decide_eq_true; try split; auto; lia); done.
Qed.

Definition default_config (nodes : list string) : Config :=
  mkConfig (common_defaults (lit "/config") (lit "/data")) (connection_defaults nodes) cli_defaults bootstrapper_defaults.

Lemma default_acceptable nodes block :
  block <= 4000000000 ->
  ceil_as_uint 32 (f64_mul (f64_of_Z block) (f64_div (f64_of_Z 9) (f64_of_Z 10)))
    <= PROTOCOL_MAX_MESSAGE_SIZE ->
  acceptable (mkConfig (common_defaults (lit "/config") (lit "/data")) (connection_defaults nodes)
    (mkCliConfig false 100 (baker_defaults_with block) 0 None)
    bootstrapper_defaults).
Proof.
  intros H1 H2. split; cbn -[Z.to_nat f64_of_Z Z.mul Z.pow];
    first [lia|discriminate|by split|split; vm_compute; congruence].
Qed.

(** The default options are accepted. *)
Lemma defaults_accepted nodes : parse_config (default_config nodes) = Ok (default_config nodes).
Proof.
  apply parse_config_iff. split; [done|]. apply default_acceptable; [done|by vm_compute].
Qed.

(** The limit on the size of blocks.  The check compares 90% of the block
    size with the largest message the network accepts, so that a size of
    23301688 bytes is accepted although a block of that size is larger than
    any message. *)
Theorem oversized_block_accepted :
  exists conf, parse_config conf = Ok conf /\
    maximum_block_size (baker (cli conf)) = 23301688 /\
    PROTOCOL_MAX_MESSAGE_SIZE < maximum_block_size (baker (cli conf)).
Proof.
  eexists. split; [apply parse_config_iff; split; [done|apply (default_acceptable [] 23301688)]|];
    by vm_compute.
Qed.

(** ** The persistent identifier *)

Lemma node_id_roundtrip id : in_u64 id -> node_id_from_str (node_id_to_string id) = Ok id.
Proof.
  intros Hid. unfold node_id_from_str, node_id_to_string, P2PNodeId_from_str.
  by rewrite String.list_ascii_of_string_of_list_ascii, from_str_radix_fmt.
Qed.

(** The node keeps its identifier.  If the preferences could be saved when
    the node was started, a later start that finds the file and is given no
    identifier on the command line uses the same identifier, whatever random
    one it would have drawn and whether or not it can save its preferences. *)
Theorem node_id_persists `{Preferences} `{!PreferencesLaws} conf fresh p id p' :
  instantiate_node_id conf fresh Saved p = Ok (id, p') -> in_u64 id ->
  forall conf2 fresh2 version os os2 p2,
    config_id (common conf2) = None ->
    preferences_new version (preferences_file p') true os = Ok p2 ->
    exists p3, instantiate_node_id conf2 fresh2 os2 p2 = Ok (id, p3).
Proof.
  intros E Hid conf2 fresh2 version os os2 p2 Hc E2.
  unfold instantiate_node_id in E. apply outcome_bind_Ok in E as (i & _ & E).
  injection E as -> <-. simpl in E2. rewrite load_save in E2. injection E2 as <-.
  assert (preferences_map (set_config APP_PREFERENCES_KEY_VERSION (Some version) os
    (mkAppPreferences (<[APP_PREFERENCES_PERSISTED_NODE_ID := node_id_to_string id]>
      (preferences_map p)) (Some (save_map
        (<[APP_PREFERENCES_PERSISTED_NODE_ID := node_id_to_string id]> (preferences_map p)))))).2
    !! APP_PREFERENCES_PERSISTED_NODE_ID = Some (node_id_to_string id)) as El.
  { destruct os; simpl; rewrite lookup_insert_ne by done; apply lookup_insert_eq. }
  unfold instantiate_node_id. rewrite Hc. unfold get_config.
  simpl default at 1. rewrite El, node_id_roundtrip by done. simpl.
  destruct (set_config APP_PREFERENCES_PERSISTED_NODE_ID _ os2 _) as [b p3].
  by exists p3.
Qed.

Module ConfigWitnesses.
#[local] Instance encoded : Preferences := {|
  save_map m := pos_bytes (encode m);
  load_map l := decode (bytes_pos l);
|}.
#[local] Instance encoded_laws : PreferencesLaws.
Proof. split. intros m. simpl. by rewrite bytes_pos_bytes, decode_encode. Qed.

Definition empty_prefs : AppPreferences := mkAppPreferences ∅ None.
Definition prefs_of (r : outcome (P2PNodeId * AppPreferences)) : AppPreferences :=
  match r with Ok (_, p) => p | _ => empty_prefs end.
(** The preferences after a first start that drew the identifier 42, and what
    the second start loads. *)
Definition saved : AppPreferences :=
  prefs_of (instantiate_node_id (default_config []) 42 Saved empty_prefs).
Definition loaded : AppPreferences :=
  ok_or empty_prefs (preferences_new "6.1" (preferences_file saved) true CannotOpen).

Lemma first_start : instantiate_node_id (default_config []) 42 Saved empty_prefs = Ok (42, saved).
Proof. reflexivity. Qed.
Lemma second_load : preferences_new "6.1" (preferences_file saved) true CannotOpen = Ok loaded.
Proof. reflexivity. Qed.

Lemma node_id_persists_witness :
  exists p3, instantiate_node_id (default_config []) 7 CannotOpen loaded = Ok (42, p3).
Proof.
  exact (node_id_persists (default_config []) 42 empty_prefs 42 saved first_start
    ltac:(unfold in_u; lia) (default_config []) 7 "6.1" CannotOpen CannotOpen loaded
    eq_refl second_load).
Defined.
End ConfigWitnesses.
