(* ===== verification/Bans.v ===== *)
(** * Bans and persisted peers

    Models the part of [concordium-node/src/p2p/bans.rs] and of
    [p2p/peers.rs] that works on the persistent store: the ban list and the
    list of peers to reconnect to.  The store is the crate [rkv] over LMDB, a
    parameter with the laws the code relies on; every call to it may fail. *)

From stdpp Require Import base tactics list gmap strings option numbers.
From Stdlib Require Import ZArith.
From S2P Require Import Prelude Common.

(** A node is soft-banned by its IP address or its socket address. *)
Inductive BanId :=
| BanIp (a : IpAddr)
| BanSocket (a : SocketAddr).

(** Bans by IP address can be persisted. *)
Inductive PersistedBanId := PersistedIp (a : IpAddr).

#[export] Instance BanId_eq_dec : EqDecision BanId.
Proof. solve_decision. Defined.
#[export] Instance BanId_countable : Countable BanId.
Proof.
  refine (inj_countable'
    (fun b => match b with BanIp a => inl a | BanSocket a => inr a end)
    (fun s => match s with inl a => BanIp a | inr a => BanSocket a end) _).
  by intros [].
Defined.
#[export] Instance PersistedBanId_eq_dec : EqDecision PersistedBanId.
Proof. solve_decision. Defined.

(** [From<PersistedBanId> for BanId]. *)
Definition ban_of_persisted (p : PersistedBanId) : BanId :=
  match p with PersistedIp a => BanIp a end.

(** ** Third-party serialization

    [Serial] and [Deserial] of IP addresses are those of [concordium_base];
    addresses of peers are stored as JSON text by [serde_json]. *)
Class AddrFormats := {
  ip_serial : IpAddr -> list byte;
  ip_deserial : list byte -> outcome (IpAddr * list byte);
  addr_to_json : SocketAddr -> outcome (list byte);
  addr_from_json : list byte -> outcome SocketAddr;
}.
Class AddrFormatLaws `{AddrFormats} := {
  ip_deserial_serial a rest : ip_deserial (ip_serial a ++ rest) = Ok (a, rest);
  addr_from_to_json a : exists bytes, addr_to_json a = Ok bytes /\ addr_from_json bytes = Ok a;
}.

(** ** The store (crate [rkv])

    An environment holds named stores of keys (the values are not used).
    Changes are made by a writer and take effect when it commits. *)
Class Rkv := {
  Env : Type;
  Store : Type;
  Writer : Type;
  Reader : Type;
  open_single : string -> Env -> outcome (Store * Env);
  env_write : Env -> outcome Writer;
  env_read : Env -> outcome Reader;
  store_put : Store -> Writer -> list byte -> outcome Writer;
  store_delete : Store -> Writer -> list byte -> outcome Writer;
  store_clear : Store -> Writer -> outcome Writer;
  commit : Writer -> Env -> outcome Env;
  store_get : Store -> Reader -> list byte -> outcome bool;
  store_iter : Store -> Reader -> outcome (list (outcome (list byte)));
}.

(** What a successful call does, in terms of the keys of each store. *)
Class RkvLaws `{Rkv} := {
  keys_of : Env -> string -> gset (list byte);
  store_name : Store -> string;
  writer_keys : Writer -> string -> gset (list byte);
  reader_keys : Reader -> string -> gset (list byte);
  open_single_Ok name e s e' :
    open_single name e = Ok (s, e') ->
    store_name s = name /\ forall n, keys_of e' n = keys_of e n;
  env_write_Ok e w : env_write e = Ok w -> forall n, writer_keys w n = keys_of e n;
  env_read_Ok e r : env_read e = Ok r -> forall n, reader_keys r n = keys_of e n;
  store_put_Ok s w k w' :
    store_put s w k = Ok w' ->
    forall n, writer_keys w' n =
      if decide (n = store_name s) then {[k]} ∪ writer_keys w n else writer_keys w n;
  store_delete_Ok s w k w' :
    store_delete s w k = Ok w' ->
    forall n, writer_keys w' n =
      if decide (n = store_name s) then writer_keys w n ∖ {[k]} else writer_keys w n;
  store_clear_Ok s w w' :
    store_clear s w = Ok w' ->
    forall n, writer_keys w' n = if decide (n = store_name s) then ∅ else writer_keys w n;
  commit_Ok w e e' : commit w e = Ok e' -> forall n, keys_of e' n = writer_keys w n;
  store_get_Ok s r k b :
    store_get s r k = Ok b -> b = bool_decide (k ∈ reader_keys r (store_name s));
  store_iter_Ok s r l :
    store_iter s r = Ok l ->
    exists ks, l = Ok <$> ks /\ NoDup ks /\ forall k, k ∈ ks <-> k ∈ reader_keys r (store_name s);
}.

Definition BAN_STORE_NAME : string := "bans".
Definition PEERS_STORE_NAME : string := "peers".

Section store.
Context `{Rkv} `{AddrFormats}.

(** [Serial for PersistedBanId]. *)
Definition ban_serial (b : PersistedBanId) : list byte :=
  match b with PersistedIp a => Byte.x00 :: ip_serial a end.

(** [Deserial for PersistedBanId]. *)
Definition ban_deserial (source : list byte) : outcome PersistedBanId :=
  match source with
  | [] => Err (IoError "read_u8")
  | tag :: rest =>
      if decide (tag = Byte.x00) then
        a ← ip_deserial rest;
        Ok (PersistedIp a.1)
      else bail "Unsupported type of `BanNode`"
  end.

(** [self.kvs.read()]: [None] is a poisoned lock. *)
Definition kvs_read (kvs : option Env) : outcome Env := context kvs "couldn't obtain a lock".

(** Open a store, change it with one writer, and commit. *)
Definition update_store (name : string) (change : Store -> Writer -> outcome Writer)
    (kvs : option Env) : outcome Env :=
  e ← kvs_read kvs;
  s ← open_single name e;
  w ← env_write s.2;
  w' ← change s.1 w;
  commit w' s.2.

(** The database part of [P2PNode::drop_by_ip_and_ban], and the other
    operations on the ban list. *)
Definition ban_ip (a : IpAddr) : option Env -> outcome Env :=
  update_store BAN_STORE_NAME (fun s w => store_put s w (ban_serial (PersistedIp a))).
Definition unban_node (peer : PersistedBanId) : option Env -> outcome Env :=
  update_store BAN_STORE_NAME (fun s w => store_delete s w (ban_serial peer)).
Definition clear_bans : option Env -> outcome Env := update_store BAN_STORE_NAME store_clear.

(** [P2PNode::is_banned]. *)
Definition is_banned (peer : PersistedBanId) (kvs : option Env) : outcome bool :=
  e ← kvs_read kvs;
  s ← open_single BAN_STORE_NAME e;
  r ← env_read s.2;
  store_get s.1 r (ban_serial peer).

(** The entries of a store. *)
Definition stored_keys (name : string) (kvs : option Env) : outcome (list (outcome (list byte))) :=
  e ← kvs_read kvs;
  s ← open_single name e;
  r ← env_read s.2;
  store_iter s.1 r.

(** [P2PNode::get_banlist]. *)
Definition get_banlist (kvs : option Env) : outcome (list PersistedBanId) :=
  entries ← stored_keys BAN_STORE_NAME kvs;
  mapM (fun entry => id_bytes ← entry; ban_deserial id_bytes) entries.

(** [P2PNode::persist_peer], [remove_persisted_peer], [clear_persisted_peers]. *)
Definition persist_peer (a : SocketAddr) (kvs : option Env) : outcome Env :=
  e ← kvs_read kvs;
  s ← open_single PEERS_STORE_NAME e;
  buf ← addr_to_json a;
  w ← env_write s.2;
  w' ← store_put s.1 w buf;
  commit w' s.2.
Definition remove_persisted_peer (a : SocketAddr) (kvs : option Env) : outcome Env :=
  e ← kvs_read kvs;
  s ← open_single PEERS_STORE_NAME e;
  key ← addr_to_json a;
  w ← env_write s.2;
  w' ← store_delete s.1 w key;
  commit w' s.2.
Definition clear_persisted_peers : option Env -> outcome Env :=
  update_store PEERS_STORE_NAME store_clear.

(** A failed operation leaves the store as it was. *)
Definition apply_store {A} (f : option Env -> outcome Env) (a : A) (kvs : option Env)
    : outcome A * option Env :=
  match f kvs with
  | Ok e => (Ok a, Some e)
  | Err err => (Err err, kvs)
  | Panic => (Panic, kvs)
  end.

End store.
