(* ===== verification/BansProps.v ===== *)
(** * The ban list and the persisted peers refine two finite sets

    The store of [Bans] behaves as a set of banned IP addresses and a set of
    peer addresses: every operation that succeeds has the effect of the set
    operation, one that fails has none, and the queries return what the sets
    hold. *)

From stdpp Require Import base tactics list gmap strings option numbers vector.
From Stdlib Require Import ZArith.
From S2P Require Import Prelude Common Bans.

(** The operations that change the store. *)
Inductive StoreOp :=
| OpBan (a : IpAddr)
| OpUnban (a : IpAddr)
| OpClearBans
| OpPersist (a : SocketAddr)
| OpRemove (a : SocketAddr)
| OpClearPeers.

(** The abstract store. *)
Record AbstractStore := mkAbstract { banned : gset IpAddr; persisted : gset SocketAddr }.

Definition spec_op (o : StoreOp) (st : AbstractStore) : AbstractStore :=
  match o with
  | OpBan a => mkAbstract ({[a]} ∪ banned st) (persisted st)
  | OpUnban a => mkAbstract (banned st ∖ {[a]}) (persisted st)
  | OpClearBans => mkAbstract ∅ (persisted st)
  | OpPersist a => mkAbstract (banned st) ({[a]} ∪ persisted st)
  | OpRemove a => mkAbstract (banned st) (persisted st ∖ {[a]})
  | OpClearPeers => mkAbstract (banned st) ∅
  end.

Section refinement.
Context `{Rkv} `{!RkvLaws} `{AddrFormats} `{!AddrFormatLaws}.

Definition run_op (o : StoreOp) : option Env -> outcome Env :=
  match o with
  | OpBan a => ban_ip a
  | OpUnban a => unban_node (PersistedIp a)
  | OpClearBans => clear_bans
  | OpPersist a => persist_peer a
  | OpRemove a => remove_persisted_peer a
  | OpClearPeers => clear_persisted_peers
  end.

(** A failed operation is reported and skipped. *)
Fixpoint run_ops (os : list StoreOp) (e : Env) : list bool * Env :=
  match os with
  | [] => ([], e)
  | o :: os' =>
      match run_op o (Some e) with
      | Ok e' => prod_map (cons true) id (run_ops os' e')
      | _ => prod_map (cons false) id (run_ops os' e)
      end
  end.

(** The abstract run: operations that were reported as failed do nothing. *)
Fixpoint spec_ops (os : list StoreOp) (oks : list bool) (st : AbstractStore) : AbstractStore :=
  match os, oks with
  | o :: os', true :: oks' => spec_ops os' oks' (spec_op o st)
  | _ :: os', false :: oks' => spec_ops os' oks' st
  | _, _ => st
  end.

Definition json_key (a : SocketAddr) : list byte := ok_or [] (addr_to_json a).

Lemma json_key_spec a : addr_to_json a = Ok (json_key a) /\ addr_from_json (json_key a) = Ok a.
Proof. unfold json_key. by destruct (addr_from_to_json a) as (b & -> & ?). Qed.

#[local] Instance json_key_inj : Inj (=) (=) json_key.
Proof.
  intros a b E. pose proof (json_key_spec a) as [_ Ha]. pose proof (json_key_spec b) as [_ Hb].
  congruence.
Qed.

Definition ban_key (a : IpAddr) : list byte := ban_serial (PersistedIp a).

Lemma ban_deserial_key a : ban_deserial (ban_key a) = Ok (PersistedIp a).
Proof.
  simpl. rewrite <- (app_nil_r (ip_serial a)). by rewrite ip_deserial_serial.
Qed.

#[local] Instance ban_key_inj : Inj (=) (=) ban_key.
Proof. intros a b E. pose proof (ban_deserial_key a) as Ha. rewrite E, ban_deserial_key in Ha. congruence. Qed.

(** The store holds the keys of the two sets. *)
Definition represents (e : Env) (st : AbstractStore) : Prop :=
  keys_of e BAN_STORE_NAME = set_map ban_key (banned st) /\
  keys_of e PEERS_STORE_NAME = set_map json_key (persisted st).

Lemma update_store_keys name change f e e' :
  (forall s w w', change s w = Ok w' -> store_name s = name -> forall n,
     writer_keys w' n = if decide (n = name) then f (writer_keys w n) else writer_keys w n) ->
  update_store name change (Some e) = Ok e' ->
  forall n, keys_of e' n = if decide (n = name) then f (keys_of e n) else keys_of e n.
Proof.
  intros Hc E n. unfold update_store in E. simpl in E.
  destruct (open_single name e) as [[s e1]| |] eqn:Eo; try discriminate. simpl in E.
  destruct (env_write e1) as [w| |] eqn:Ew; try discriminate. simpl in E.
  destruct (change s w) as [w'| |] eqn:Ec; try discriminate. simpl in E.
  apply open_single_Ok in Eo as [Hn Hk].
  rewrite (commit_Ok _ _ _ E), (Hc _ _ _ Ec Hn), (env_write_Ok _ _ Ew), Hk. done.
Qed.

Lemma ban_ip_keys a e e' : ban_ip a (Some e) = Ok e' ->
  forall n, keys_of e' n =
    if decide (n = BAN_STORE_NAME) then {[ban_key a]} ∪ keys_of e n else keys_of e n.
Proof.
  apply (update_store_keys _ _ (fun ks => {[ban_key a]} ∪ ks)).
  intros s w w' E <- n. apply (store_put_Ok _ _ _ _ E).
Qed.
Lemma unban_node_keys a e e' : unban_node (PersistedIp a) (Some e) = Ok e' ->
  forall n, keys_of e' n =
    if decide (n = BAN_STORE_NAME) then keys_of e n ∖ {[ban_key a]} else keys_of e n.
Proof.
  apply (update_store_keys _ _ (fun ks => ks ∖ {[ban_key a]})).
  intros s w w' E <- n. apply (store_delete_Ok _ _ _ _ E).
Qed.
Lemma clear_store_keys name e e' : update_store name store_clear (Some e) = Ok e' ->
  forall n, keys_of e' n = if decide (n = name) then ∅ else keys_of e n.
Proof.
  apply (update_store_keys _ _ (fun _ => ∅)).
  intros s w w' E <- n. apply (store_clear_Ok _ _ _ E).
Qed.

(** [persist_peer] and [remove_persisted_peer] serialize the key before they
    open the writer, which makes no difference. *)
Lemma persist_peer_update a e :
  persist_peer a (Some e) = update_store PEERS_STORE_NAME (fun s w => store_put s w (json_key a)) (Some e).
Proof.
  unfold persist_peer, update_store. simpl. destruct (open_single _ e) as [[s e1]| |]; [|done..].
  simpl. by rewrite (proj1 (json_key_spec a)).
Qed.
Lemma remove_persisted_peer_update a e :
  remove_persisted_peer a (Some e)
  = update_store PEERS_STORE_NAME (fun s w => store_delete s w (json_key a)) (Some e).
Proof.
  unfold remove_persisted_peer, update_store. simpl.
  destruct (open_single _ e) as [[s e1]| |]; [|done..].
  simpl. by rewrite (proj1 (json_key_spec a)).
Qed.
Lemma persist_peer_keys a e e' : persist_peer a (Some e) = Ok e' ->
  forall n, keys_of e' n =
    if decide (n = PEERS_STORE_NAME) then {[json_key a]} ∪ keys_of e n else keys_of e n.
Proof.
  rewrite persist_peer_update. apply (update_store_keys _ _ (fun ks => {[json_key a]} ∪ ks)).
  intros s w w' E <- n. apply (store_put_Ok _ _ _ _ E).
Qed.
Lemma remove_persisted_peer_keys a e e' : remove_persisted_peer a (Some e) = Ok e' ->
  forall n, keys_of e' n =
    if decide (n = PEERS_STORE_NAME) then keys_of e n ∖ {[json_key a]} else keys_of e n.
Proof.
  rewrite remove_persisted_peer_update.
  apply (update_store_keys _ _ (fun ks => ks ∖ {[json_key a]})).
  intros s w w' E <- n. apply (store_delete_Ok _ _ _ _ E).
Qed.

Lemma set_map_remove {A} `{Countable A} (f : A -> list byte) `{!Inj (=) (=) f} (X : gset A) a :
  set_map (D := gset (list byte)) f (X ∖ {[a]}) = set_map f X ∖ {[f a]}.
Proof.
  apply set_eq. intros k. rewrite elem_of_difference, !elem_of_map, elem_of_singleton.
  split.
  - intros (x & -> & [Hx Hn]%elem_of_difference). split; [by exists x|].
    intros ->%(inj f). set_solver.
  - intros [(x & -> & Hx) Hn]. exists x. split; [done|]. set_solver.
Qed.

Lemma run_op_refines o e e' st :
  represents e st -> run_op o (Some e) = Ok e' -> represents e' (spec_op o st).
Proof.
  intros [Hb Hp] E. destruct o; simpl in E;
    [pose proof (ban_ip_keys _ _ _ E) as K|pose proof (unban_node_keys _ _ _ E) as K
    |pose proof (clear_store_keys _ _ _ E) as K|pose proof (persist_peer_keys _ _ _ E) as K
    |pose proof (remove_persisted_peer_keys _ _ _ E) as K|pose proof (clear_store_keys _ _ _ E) as K];
    split; rewrite K; case_decide; try done; simpl; rewrite ?Hb, ?Hp;
    rewrite ?set_map_union_L, ?set_map_singleton_L, ?set_map_empty, ?set_map_remove;
    first [done|apply _].
Qed.

Lemma run_ops_refines os : forall e st,
  represents e st ->
  let '(oks, e') := run_ops os e in represents e' (spec_ops os oks st).
Proof.
  induction os as [|o os IH]; intros e st Hr; [done|].
  pose proof (run_op_refines o e) as Ho. simpl.
  destruct (run_op o (Some e)) as [e1| |]; [specialize (IH e1 _ (Ho _ _ Hr eq_refl))|
    specialize (IH e _ Hr)..]; by destruct (run_ops os _).
Qed.

(** C18: refinement.  Any sequence of operations on the ban list and the list
    of persisted peers, of which some may fail, takes a store that represents
    two sets to one that represents the sets after the operations that
    succeeded; the two lists do not interfere. *)
Theorem store_refines os e st :
  represents e st ->
  let '(oks, e') := run_ops os e in represents e' (spec_ops os oks st).
Proof. apply run_ops_refines. Qed.

Lemma mapM_ban_deserial ks :
  mapM (fun entry => id_bytes ← entry; ban_deserial id_bytes) (Ok ∘ ban_key <$> ks)
  = Ok (PersistedIp <$> ks).
Proof.
  induction ks as [|a ks IH]; [done|]. cbn [fmap list_fmap mapM compose].
  rewrite IH. simpl. by rewrite <- (app_nil_r (ip_serial a)), ip_deserial_serial.
Qed.

Lemma elem_of_ban_keys a (X : gset IpAddr) :
  ban_key a ∈ set_map (D := gset (list byte)) ban_key X <-> a ∈ X.
Proof.
  rewrite elem_of_map. split; [by intros (x & ->%(inj ban_key) & ?)|eauto].
Qed.

(** Queries.  When the store represents a set of banned addresses,
    [is_banned] tells whether an address is in it and [get_banlist] lists its
    elements, each once, unless the store fails; an entry of the list is
    always readable. *)
Theorem ban_queries e st a :
  represents e st ->
  (forall b, is_banned (PersistedIp a) (Some e) = Ok b -> b = bool_decide (a ∈ banned st)) /\
  (forall l, get_banlist (Some e) = Ok l ->
     NoDup l /\ forall b, PersistedIp b ∈ l <-> b ∈ banned st).
Proof.
  intros [Hb _]. split.
  - unfold is_banned. simpl. intros b E.
    destruct (open_single _ e) as [[s e1]| |] eqn:Eo; try discriminate. simpl in E.
    destruct (env_read e1) as [r| |] eqn:Er; try discriminate. simpl in E.
    apply open_single_Ok in Eo as [Hn Hk]. apply store_get_Ok in E. subst b.
    apply bool_decide_ext. rewrite Hn, (env_read_Ok _ _ Er), Hk, Hb. fold (ban_key a).
    apply elem_of_ban_keys.
  - unfold get_banlist, stored_keys. simpl. intros l E.
    destruct (open_single _ e) as [[s e1]| |] eqn:Eo; try discriminate. simpl in E.
    destruct (env_read e1) as [r| |] eqn:Er; try discriminate. simpl in E.
    destruct (store_iter s r) as [entries| |] eqn:Ei; try discriminate. simpl in E.
    apply open_single_Ok in Eo as [Hn Hk]. apply store_iter_Ok in Ei as (ks & -> & Hnd & Hks).
    assert (exists addrs, ks = ban_key <$> addrs) as [addrs ->].
    { assert (Forall (fun k => exists a, k = ban_key a) ks) as HF.
      { apply list.Forall_forall. intros k Hin. apply Hks in Hin.
        rewrite Hn, (env_read_Ok _ _ Er), Hk, Hb in Hin. apply elem_of_map in Hin. naive_solver. }
      clear -HF. induction HF as [|k ks [b ->] _ [addrs ->]]; [by exists []|by exists (b :: addrs)]. }
    rewrite <- list_fmap_compose, mapM_ban_deserial in E. injection E as <-. split.
    + apply NoDup_fmap_2; [intros ?? [=]; done|]. exact (NoDup_fmap_1 _ _ Hnd).
    + intros b. rewrite list_elem_of_fmap. split.
      * intros (c & [= ->] & Hc).
        assert (ban_key c ∈ ban_key <$> addrs) as Hin by (apply list_elem_of_fmap; eauto).
        apply Hks in Hin. rewrite Hn, (env_read_Ok _ _ Er), Hk, Hb in Hin.
        by apply elem_of_ban_keys.
      * intros Hin. exists b. split; [done|].
        assert (ban_key b ∈ ban_key <$> addrs) as Hbk; [|apply list_elem_of_fmap in Hbk as (c & ->%(inj ban_key) & ?); done].
        apply Hks. rewrite Hn, (env_read_Ok _ _ Er), Hk, Hb. by apply elem_of_ban_keys.
Qed.

End refinement.

(** ** A store kept in memory *)
Module BansWitnesses.
Abbreviation mem := (gmap string (gset (list byte))).
Definition mem_keys (m : mem) (n : string) : gset (list byte) := default ∅ (m !! n).

#[local] Instance mem_rkv : Rkv := {|
  Env := mem;
  Store := string;
  Writer := mem;
  Reader := mem;
  open_single name e := Ok (name, e);
  env_write e := Ok e;
  env_read e := Ok e;
  store_put s w k := Ok (<[s := {[k]} ∪ mem_keys w s]> w);
  store_delete s w k := Ok (<[s := mem_keys w s ∖ {[k]}]> w);
  store_clear s w := Ok (<[s := ∅]> w);
  commit w e := Ok w;
  store_get s r k := Ok (bool_decide (k ∈ mem_keys r s));
  store_iter s r := Ok (Ok <$> elements (mem_keys r s));
|}.

Lemma mem_keys_insert m s n x :
  mem_keys (<[s := x]> m) n = if decide (n = s) then x else mem_keys m n.
Proof.
  unfold mem_keys. case_decide as E; [subst; by rewrite lookup_insert_eq|by rewrite lookup_insert_ne].
Qed.

#[local] Instance mem_rkv_laws : RkvLaws.
Proof.
  refine {| keys_of := mem_keys; store_name := id; writer_keys := mem_keys; reader_keys := mem_keys |};
    simpl; intros; simplify_eq; try done; try (rewrite mem_keys_insert; case_decide; by subst).
  eexists. split; [done|]. split; [apply NoDup_elements|]. intros k. apply elem_of_elements.
Defined.

(** Addresses as their octets, with a tag for the version. *)
Definition octets_of (a : IpAddr) : list byte :=
  match a with V4 o => Byte.x04 :: vec_to_list o | V6 o => Byte.x06 :: vec_to_list o end.

Fixpoint octets_vec (n : nat) (l : list byte) : outcome (vec byte n * list byte) :=
  match n, l with
  | O, _ => Ok ([#], l)
  | S n', [] => bail "eof"
  | S n', b :: l' => '(v, rest) ← octets_vec n' l'; Ok (b ::: v, rest)
  end.

Lemma octets_vec_app n (v : vec byte n) rest :
  octets_vec n (vec_to_list v ++ rest) = Ok (v, rest).
Proof. induction v as [|b n v IH]; simpl; [done|]. by rewrite IH. Qed.
#[local] Arguments octets_vec : simpl never.

Definition parse_octets (l : list byte) : outcome (IpAddr * list byte) :=
  match l with
  | tag :: rest =>
      if decide (tag = Byte.x04) then '(o, r) ← octets_vec 4 rest; Ok (V4 o, r)
      else '(o, r) ← octets_vec 16 rest; Ok (V6 o, r)
  | [] => bail "eof"
  end.

Lemma parse_octets_of a rest : parse_octets (octets_of a ++ rest) = Ok (a, rest).
Proof.
  destruct a as [o|o]; simpl; rewrite octets_vec_app; reflexivity.
Qed.

#[local] Instance mem_formats : AddrFormats := {|
  ip_serial := octets_of;
  ip_deserial := parse_octets;
  addr_to_json a := Ok (pos_bytes (encode a));
  addr_from_json l := context (decode (bytes_pos l)) "json";
|}.
#[local] Instance mem_format_laws : AddrFormatLaws.
Proof.
  split; simpl; [exact parse_octets_of|]. intros a. eexists. split; [done|].
  by rewrite bytes_pos_bytes, decode_encode.
Qed.

Definition localhost : IpAddr := V4 [# Byte.x7f; Byte.x00; Byte.x00; Byte.x01].
Definition other_ip : IpAddr := V4 [# Byte.x0a; Byte.x00; Byte.x00; Byte.x02].

(** The functionality tested in [p2p/mod.rs]: ban twice, unban. *)
Definition session : list StoreOp :=
  [OpBan localhost; OpPersist (mkSocketAddr other_ip 80); OpBan localhost; OpBan other_ip;
   OpUnban localhost].

Lemma represents_empty : represents (∅ : mem) (mkAbstract ∅ ∅).
Proof. split; reflexivity. Qed.

Lemma store_refines_witness :
  (run_ops session (∅ : mem)).1 = replicate 5 true /\
  represents (run_ops session (∅ : mem)).2
    (spec_ops session (replicate 5 true) (mkAbstract ∅ ∅)).
Proof.
  split; [vm_compute; reflexivity|].
  exact (store_refines session (∅ : mem) (mkAbstract ∅ ∅) represents_empty).
Defined.

Lemma ban_queries_witness :
  is_banned (PersistedIp other_ip) (Some (run_ops session (∅ : mem)).2) = Ok true /\
  true = bool_decide (other_ip ∈ banned (spec_ops session (replicate 5 true) (mkAbstract ∅ ∅))).
Proof.
  assert (is_banned (PersistedIp other_ip) (Some (run_ops session (∅ : mem)).2) = Ok true) as E
    by (vm_compute; reflexivity).
  split; [exact E|].
  exact (proj1 (ban_queries (run_ops session (∅ : mem)).2
    (spec_ops session (replicate 5 true) (mkAbstract ∅ ∅)) other_ip
    (run_ops_refines session (∅ : mem) (mkAbstract ∅ ∅) represents_empty)) true E).
Defined.
End BansWitnesses.
