(* ===== verification/Node.v ===== *)
(** * The node

    Models the state of [concordium-node/src/p2p/maintenance.rs]: the record
    [P2PNode] with its configuration, its connections and its statistics, the
    operations on the sets of connections of [p2p/connectivity.rs], and the
    views of the peers of [p2p/peers.rs].  The fields are behind locks or
    atomic; a function of the model is the body of a function of the source
    under its locks.  [CALLBACK_QUEUE], which is global in the source, is part
    of the state.  Clock readings, random draws and answers of the operating
    system are arguments. *)

From stdpp Require Import base tactics list gmap strings option numbers.
From Stdlib Require Import ZArith Floats.SpecFloat.
From S2P Require Import Prelude Common Helpers LowLevel Wire Conn Buckets CatchUp Queues.
From S2P Require Import Config Bans.

(** ** Third-party code

    Everything the node uses that is not part of the repository, with the laws
    the theorems rely on. *)
Class External := {
  #[global] ext_noise :: Noise;
  #[global] ext_layout :: VecDequeLayout;
  #[global] ext_base :: BaseTypes;
  #[global] ext_flatbuffers :: Flatbuffers;
  #[global] ext_order :: HashOrder;
  #[global] ext_rng :: Rng;
  #[global] ext_circular :: CircularQueue;
  #[global] ext_hashes :: Hashes;
  #[global] ext_channels :: Channels;
  #[global] ext_rkv :: Rkv;
  #[global] ext_formats :: AddrFormats;
}.

(** Configuration bits applicable to a node; the given addresses and the
    regenesis object, which change, are fields of [P2PNode]. *)
Record NodeConfig := mkNodeConfig {
  no_net : bool;
  desired_nodes_count : Z;
  no_bootstrap_dns : bool;
  config_clear_bans : bool;
  disallow_multiple_peers_on_ip : bool;
  bootstrap_nodes : list string;
  max_allowed_nodes : Z;
  relay_broadcast_percentage : f64;
  poll_interval : Z;
  housekeeping_interval : Z;
  bootstrapping_interval : Z;
  print_peers : bool;
  bootstrapper_wait_minimum_peers : Z;
  max_latency : option Z;
  hard_connection_limit : Z;
  conn_requests_batch_limit : Z;
  catch_up_batch_limit : Z;
  timeout_bucket_entry_period : Z;
  bucket_cleanup_interval : Z;
  thread_pool_size : Z;
  dedup_size_long : nat;
  dedup_size_short : nat;
  socket_read_size : nat;
  socket_write_size : nat;
  drop_rebroadcast_probability : option f64;
  bootstrapper_peer_list_size : nat;
  default_network : NetworkId;
  socket_so_linger : option Z;
  events_queue_size : Z;
  deduplication_hashing_algorithm : DeduplicationHashAlgorithm;
  max_normal_keep_alive_ms : Z;
  config_clear_persisted_peers : bool;
}.

(** [max_allowed_nodes] if the option is not given. *)
Definition allowed_nodes (desired percentage : Z) : Z :=
  floor_as_uint 16 (f64_mul (f64_of_Z desired) (f64_div (f64_of_Z percentage) (f64_of_Z 100))).

(** The [NodeConfig] of [P2PNode::new].  [network_ids[0]] is always present. *)
Definition node_config (conf : Config) (t : PeerType) : outcome NodeConfig :=
  let c := connection conf in
  network ← match network_ids (common conf) with n :: _ => Ok n | [] => Panic end;
  Ok {|
    no_net := no_network (cli conf);
    desired_nodes_count := desired_nodes c;
    no_bootstrap_dns := cc_no_bootstrap_dns c;
    config_clear_bans := cc_clear_bans c;
    disallow_multiple_peers_on_ip := cc_disallow_multiple_peers_on_ip c;
    bootstrap_nodes := cc_bootstrap_nodes c;
    max_allowed_nodes :=
      match cc_max_allowed_nodes c with
      | Some max => max
      | None => allowed_nodes (desired_nodes c) (max_allowed_nodes_percentage c)
      end;
    relay_broadcast_percentage := cc_relay_broadcast_percentage c;
    poll_interval := cli_poll_interval (cli conf);
    housekeeping_interval := cc_housekeeping_interval c;
    bootstrapping_interval := cc_bootstrapping_interval c;
    print_peers := true;
    bootstrapper_wait_minimum_peers :=
      match t with
      | Bootstrapper => wait_until_minimum_nodes (bootstrapper conf)
      | Node => 0
      end;
    max_latency := cc_max_latency c;
    hard_connection_limit := cc_hard_connection_limit c;
    conn_requests_batch_limit := cc_conn_requests_batch_limit c;
    catch_up_batch_limit := cc_catch_up_batch_limit c;
    timeout_bucket_entry_period :=
      match t with
      | Bootstrapper => bootstrapper_timeout_bucket_entry_period (bootstrapper conf)
      | Node => cli_timeout_bucket_entry_period (cli conf)
      end;
    bucket_cleanup_interval := cc_bucket_cleanup_interval (common conf);
    thread_pool_size := cc_thread_pool_size c;
    dedup_size_long := cc_dedup_size_long c;
    dedup_size_short := cc_dedup_size_short c;
    socket_read_size := cc_socket_read_size c;
    socket_write_size := cc_socket_write_size c;
    drop_rebroadcast_probability :=
      match t with
      | Node => cli_drop_rebroadcast_probability (cli conf)
      | Bootstrapper => None
      end;
    bootstrapper_peer_list_size := peer_list_size (bootstrapper conf);
    default_network := network;
    socket_so_linger := cc_socket_so_linger c;
    events_queue_size := cc_events_queue_size c;
    deduplication_hashing_algorithm := cc_deduplication_hashing_algorithm c;
    max_normal_keep_alive_ms := u64_wrap (max_normal_keep_alive c * 1000);
    config_clear_persisted_peers := cc_clear_persisted_peers c;
  |}.

(** The metrics of [StatsExportService] that the node itself reads or maintains;
    the counters of packets and bytes are in [Totals]. *)
Record NodeStats := mkNodeStats {
  connected_peers : Z;
  total_peers : Z;
  connections_received : Z;
  soft_banned_peers : Z;
  soft_banned_peers_total : Z;
  peer_bucket_size : Z;
  received_consensus_messages : gmap (string * string) Z;
  sent_consensus_messages : gmap string Z;
  last_throughput_measurement_timestamp : Z;
  last_throughput_measurement_received_bytes : Z;
  last_throughput_measurement_sent_bytes : Z;
  avg_bps_in : Z;
  avg_bps_out : Z;
}.

Definition node_stats_new : NodeStats := mkNodeStats 0 0 0 0 0 0 ∅ ∅ 0 0 0 0 0.

Definition upd_connected_peers (g : Z -> Z) (s : NodeStats) : NodeStats :=
  mkNodeStats (g (connected_peers s)) (total_peers s) (connections_received s)
    (soft_banned_peers s) (soft_banned_peers_total s) (peer_bucket_size s)
    (received_consensus_messages s) (sent_consensus_messages s)
    (last_throughput_measurement_timestamp s) (last_throughput_measurement_received_bytes s)
    (last_throughput_measurement_sent_bytes s) (avg_bps_in s) (avg_bps_out s).
Definition upd_total_peers (g : Z -> Z) (s : NodeStats) : NodeStats :=
  mkNodeStats (connected_peers s) (g (total_peers s)) (connections_received s)
    (soft_banned_peers s) (soft_banned_peers_total s) (peer_bucket_size s)
    (received_consensus_messages s) (sent_consensus_messages s)
    (last_throughput_measurement_timestamp s) (last_throughput_measurement_received_bytes s)
    (last_throughput_measurement_sent_bytes s) (avg_bps_in s) (avg_bps_out s).
Definition upd_connections_received (g : Z -> Z) (s : NodeStats) : NodeStats :=
  mkNodeStats (connected_peers s) (total_peers s) (g (connections_received s))
    (soft_banned_peers s) (soft_banned_peers_total s) (peer_bucket_size s)
    (received_consensus_messages s) (sent_consensus_messages s)
    (last_throughput_measurement_timestamp s) (last_throughput_measurement_received_bytes s)
    (last_throughput_measurement_sent_bytes s) (avg_bps_in s) (avg_bps_out s).
Definition upd_soft_banned_peers (g : Z -> Z) (s : NodeStats) : NodeStats :=
  mkNodeStats (connected_peers s) (total_peers s) (connections_received s)
    (g (soft_banned_peers s)) (soft_banned_peers_total s) (peer_bucket_size s)
    (received_consensus_messages s) (sent_consensus_messages s)
    (last_throughput_measurement_timestamp s) (last_throughput_measurement_received_bytes s)
    (last_throughput_measurement_sent_bytes s) (avg_bps_in s) (avg_bps_out s).
Definition upd_soft_banned_peers_total (g : Z -> Z) (s : NodeStats) : NodeStats :=
  mkNodeStats (connected_peers s) (total_peers s) (connections_received s) (soft_banned_peers s)
    (g (soft_banned_peers_total s)) (peer_bucket_size s) (received_consensus_messages s)
    (sent_consensus_messages s) (last_throughput_measurement_timestamp s)
    (last_throughput_measurement_received_bytes s) (last_throughput_measurement_sent_bytes s)
    (avg_bps_in s) (avg_bps_out s).
Definition upd_peer_bucket_size (g : Z -> Z) (s : NodeStats) : NodeStats :=
  mkNodeStats (connected_peers s) (total_peers s) (connections_received s) (soft_banned_peers s)
    (soft_banned_peers_total s) (g (peer_bucket_size s)) (received_consensus_messages s)
    (sent_consensus_messages s) (last_throughput_measurement_timestamp s)
    (last_throughput_measurement_received_bytes s) (last_throughput_measurement_sent_bytes s)
    (avg_bps_in s) (avg_bps_out s).
Definition upd_received_consensus_messages (g : gmap (string * string) Z -> gmap (string * string) Z) (s : NodeStats) : NodeStats :=
  mkNodeStats (connected_peers s) (total_peers s) (connections_received s) (soft_banned_peers s)
    (soft_banned_peers_total s) (peer_bucket_size s) (g (received_consensus_messages s))
    (sent_consensus_messages s) (last_throughput_measurement_timestamp s)
    (last_throughput_measurement_received_bytes s) (last_throughput_measurement_sent_bytes s)
    (avg_bps_in s) (avg_bps_out s).
Definition upd_sent_consensus_messages (g : gmap string Z -> gmap string Z) (s : NodeStats) : NodeStats :=
  mkNodeStats (connected_peers s) (total_peers s) (connections_received s) (soft_banned_peers s)
    (soft_banned_peers_total s) (peer_bucket_size s) (received_consensus_messages s)
    (g (sent_consensus_messages s)) (last_throughput_measurement_timestamp s)
    (last_throughput_measurement_received_bytes s) (last_throughput_measurement_sent_bytes s)
    (avg_bps_in s) (avg_bps_out s).

(** Counts of bad events indexed by peer. *)
Record BadEvents := mkBadEvents {
  dropped_high_queue : gmap RemotePeerId Z;
  dropped_low_queue : gmap RemotePeerId Z;
  invalid_messages : gmap RemotePeerId Z;
}.

Definition bad_events_default : BadEvents := mkBadEvents ∅ ∅ ∅.

(** [entry(peer_id).and_modify(|x| *x += 1).or_insert(1)]. *)
Definition bump (id : RemotePeerId) (m : gmap RemotePeerId Z) : gmap RemotePeerId Z :=
  <[id := match m !! id with Some x => u64_wrap (x + 1) | None => 1 end]> m.

(** [BadEvents::inc_dropped_high_queue], [inc_dropped_low_queue],
    [inc_invalid_messages]. *)
Definition inc_dropped_high_queue (id : RemotePeerId) (b : BadEvents) : BadEvents :=
  mkBadEvents (bump id (dropped_high_queue b)) (dropped_low_queue b) (invalid_messages b).
Definition inc_dropped_low_queue (id : RemotePeerId) (b : BadEvents) : BadEvents :=
  mkBadEvents (dropped_high_queue b) (bump id (dropped_low_queue b)) (invalid_messages b).
Definition inc_invalid_messages (id : RemotePeerId) (b : BadEvents) : BadEvents :=
  mkBadEvents (dropped_high_queue b) (dropped_low_queue b) (bump id (invalid_messages b)).

Section node.
Context `{External}.

(** The genesis block hashes known to the node, and the flags that consensus
    sets. *)
Record Regenesis := mkRegenesis {
  regenesis_blocks : list BlockHash;
  trigger_catchup : bool;
  regenesis_stop_network : bool;
}.

(** [Regenesis::from_blocks] and [Default for Regenesis]. *)
Definition regenesis_from_blocks (blocks : list BlockHash) : Regenesis :=
  mkRegenesis blocks false false.
Definition regenesis_default : Regenesis := regenesis_from_blocks [].

(** The set of objects related to the node's connections; [soft_bans] maps to
    the expiry of the ban.  The totals are in [node_totals]. *)
Record ConnectionHandler := mkHandler {
  next_token : Z;
  node_buckets : Buckets;
  conn_candidates : gmap Token Connection;
  connections : gmap Token Connection;
  conn_changes : Chan ConnChange;
  soft_bans : gmap BanId Z;
  node_networks : Networks;
  deduplication_queues : DeduplicationQueues;
  last_bootstrap : Z;
  last_peer_update : Z;
}.

(** [ConnectionHandler::new]; the seeds of the deduplication queues are drawn
    at random. *)
Definition handler_new (conf : Config) (seeds : Z * Z * Z * Z) : ConnectionHandler := {|
  next_token := 1;
  node_buckets := buckets_default;
  conn_candidates := ∅;
  connections := ∅;
  conn_changes := bounded (Z.to_nat (cc_hard_connection_limit (connection conf)));
  soft_bans := ∅;
  node_networks := list_to_set (network_ids (common conf));
  deduplication_queues :=
    dedup_queues_new (cc_deduplication_hashing_algorithm (connection conf)) seeds
      (cc_dedup_size_long (connection conf)) (cc_dedup_size_short (connection conf));
  last_bootstrap := 0;
  last_peer_update := 0;
|}.

(** The central object. *)
Record P2PNode := mkNode {
  self_peer : P2PPeer;
  config : NodeConfig;
  given_addresses : gset SocketAddr;
  handler : ConnectionHandler;
  node_totals : Totals;
  node_stats : NodeStats;
  kvs : option Env;
  peers : CatchUp.PeerList;
  bad_events : BadEvents;
  regenesis : Regenesis;
  callback_queue : ConsensusQueues;
}.

Definition upd_given_addresses (g : gset SocketAddr -> gset SocketAddr) (n : P2PNode) : P2PNode :=
  mkNode (self_peer n) (config n) (g (given_addresses n)) (handler n) (node_totals n)
    (node_stats n) (kvs n) (peers n) (bad_events n) (regenesis n) (callback_queue n).
Definition upd_handler (g : ConnectionHandler -> ConnectionHandler) (n : P2PNode) : P2PNode :=
  mkNode (self_peer n) (config n) (given_addresses n) (g (handler n)) (node_totals n)
    (node_stats n) (kvs n) (peers n) (bad_events n) (regenesis n) (callback_queue n).
Definition upd_node_totals (g : Totals -> Totals) (n : P2PNode) : P2PNode :=
  mkNode (self_peer n) (config n) (given_addresses n) (handler n) (g (node_totals n))
    (node_stats n) (kvs n) (peers n) (bad_events n) (regenesis n) (callback_queue n).
Definition upd_node_stats (g : NodeStats -> NodeStats) (n : P2PNode) : P2PNode :=
  mkNode (self_peer n) (config n) (given_addresses n) (handler n) (node_totals n)
    (g (node_stats n)) (kvs n) (peers n) (bad_events n) (regenesis n) (callback_queue n).
Definition upd_kvs (g : option Env -> option Env) (n : P2PNode) : P2PNode :=
  mkNode (self_peer n) (config n) (given_addresses n) (handler n) (node_totals n) (node_stats n)
    (g (kvs n)) (peers n) (bad_events n) (regenesis n) (callback_queue n).
Definition upd_peers (g : CatchUp.PeerList -> CatchUp.PeerList) (n : P2PNode) : P2PNode :=
  mkNode (self_peer n) (config n) (given_addresses n) (handler n) (node_totals n) (node_stats n)
    (kvs n) (g (peers n)) (bad_events n) (regenesis n) (callback_queue n).
Definition upd_bad_events (g : BadEvents -> BadEvents) (n : P2PNode) : P2PNode :=
  mkNode (self_peer n) (config n) (given_addresses n) (handler n) (node_totals n) (node_stats n)
    (kvs n) (peers n) (g (bad_events n)) (regenesis n) (callback_queue n).
Definition upd_regenesis (g : Regenesis -> Regenesis) (n : P2PNode) : P2PNode :=
  mkNode (self_peer n) (config n) (given_addresses n) (handler n) (node_totals n) (node_stats n)
    (kvs n) (peers n) (bad_events n) (g (regenesis n)) (callback_queue n).
Definition upd_callback_queue (g : ConsensusQueues -> ConsensusQueues) (n : P2PNode) : P2PNode :=
  mkNode (self_peer n) (config n) (given_addresses n) (handler n) (node_totals n) (node_stats n)
    (kvs n) (peers n) (bad_events n) (regenesis n) (g (callback_queue n)).
Definition hupd_next_token (g : Z -> Z) (h : ConnectionHandler) : ConnectionHandler :=
  mkHandler (g (next_token h)) (node_buckets h) (conn_candidates h) (connections h)
    (conn_changes h) (soft_bans h) (node_networks h) (deduplication_queues h) (last_bootstrap h)
    (last_peer_update h).
Definition hupd_node_buckets (g : Buckets -> Buckets) (h : ConnectionHandler) : ConnectionHandler :=
  mkHandler (next_token h) (g (node_buckets h)) (conn_candidates h) (connections h)
    (conn_changes h) (soft_bans h) (node_networks h) (deduplication_queues h) (last_bootstrap h)
    (last_peer_update h).
Definition hupd_conn_candidates (g : gmap Token Connection -> gmap Token Connection) (h : ConnectionHandler) : ConnectionHandler :=
  mkHandler (next_token h) (node_buckets h) (g (conn_candidates h)) (connections h)
    (conn_changes h) (soft_bans h) (node_networks h) (deduplication_queues h) (last_bootstrap h)
    (last_peer_update h).
Definition hupd_connections (g : gmap Token Connection -> gmap Token Connection) (h : ConnectionHandler) : ConnectionHandler :=
  mkHandler (next_token h) (node_buckets h) (conn_candidates h) (g (connections h))
    (conn_changes h) (soft_bans h) (node_networks h) (deduplication_queues h) (last_bootstrap h)
    (last_peer_update h).
Definition hupd_conn_changes (g : Chan ConnChange -> Chan ConnChange) (h : ConnectionHandler) : ConnectionHandler :=
  mkHandler (next_token h) (node_buckets h) (conn_candidates h) (connections h)
    (g (conn_changes h)) (soft_bans h) (node_networks h) (deduplication_queues h)
    (last_bootstrap h) (last_peer_update h).
Definition hupd_soft_bans (g : gmap BanId Z -> gmap BanId Z) (h : ConnectionHandler) : ConnectionHandler :=
  mkHandler (next_token h) (node_buckets h) (conn_candidates h) (connections h) (conn_changes h)
    (g (soft_bans h)) (node_networks h) (deduplication_queues h) (last_bootstrap h)
    (last_peer_update h).
Definition hupd_node_networks (g : Networks -> Networks) (h : ConnectionHandler) : ConnectionHandler :=
  mkHandler (next_token h) (node_buckets h) (conn_candidates h) (connections h) (conn_changes h)
    (soft_bans h) (g (node_networks h)) (deduplication_queues h) (last_bootstrap h)
    (last_peer_update h).
Definition hupd_deduplication_queues (g : DeduplicationQueues -> DeduplicationQueues) (h : ConnectionHandler) : ConnectionHandler :=
  mkHandler (next_token h) (node_buckets h) (conn_candidates h) (connections h) (conn_changes h)
    (soft_bans h) (node_networks h) (g (deduplication_queues h)) (last_bootstrap h)
    (last_peer_update h).
Definition hupd_last_bootstrap (g : Z -> Z) (h : ConnectionHandler) : ConnectionHandler :=
  mkHandler (next_token h) (node_buckets h) (conn_candidates h) (connections h) (conn_changes h)
    (soft_bans h) (node_networks h) (deduplication_queues h) (g (last_bootstrap h))
    (last_peer_update h).
Definition hupd_last_peer_update (g : Z -> Z) (h : ConnectionHandler) : ConnectionHandler :=
  mkHandler (next_token h) (node_buckets h) (conn_candidates h) (connections h) (conn_changes h)
    (soft_bans h) (node_networks h) (deduplication_queues h) (last_bootstrap h)
    (g (last_peer_update h)).

(** The same, on the node. *)
Definition upd_next_token (g : Z -> Z) : P2PNode -> P2PNode :=
  upd_handler (hupd_next_token g).
Definition upd_node_buckets (g : Buckets -> Buckets) : P2PNode -> P2PNode :=
  upd_handler (hupd_node_buckets g).
Definition upd_conn_candidates (g : gmap Token Connection -> gmap Token Connection) : P2PNode -> P2PNode :=
  upd_handler (hupd_conn_candidates g).
Definition upd_connections (g : gmap Token Connection -> gmap Token Connection) : P2PNode -> P2PNode :=
  upd_handler (hupd_connections g).
Definition upd_conn_changes (g : Chan ConnChange -> Chan ConnChange) : P2PNode -> P2PNode :=
  upd_handler (hupd_conn_changes g).
Definition upd_soft_bans (g : gmap BanId Z -> gmap BanId Z) : P2PNode -> P2PNode :=
  upd_handler (hupd_soft_bans g).
Definition upd_node_networks (g : Networks -> Networks) : P2PNode -> P2PNode :=
  upd_handler (hupd_node_networks g).
Definition upd_deduplication_queues (g : DeduplicationQueues -> DeduplicationQueues) : P2PNode -> P2PNode :=
  upd_handler (hupd_deduplication_queues g).
Definition upd_last_bootstrap (g : Z -> Z) : P2PNode -> P2PNode :=
  upd_handler (hupd_last_bootstrap g).
Definition upd_last_peer_update (g : Z -> Z) : P2PNode -> P2PNode :=
  upd_handler (hupd_last_peer_update g).

(** ** Access *)

(** [P2PNode::peer_type], [id], [internal_addr]. *)
Definition node_type (n : P2PNode) : PeerType := peer_peer_type (self_peer n).
Definition node_id (n : P2PNode) : P2PNodeId := peer_id (self_peer n).
Definition internal_addr (n : P2PNode) : SocketAddr := peer_addr (self_peer n).
Definition candidates_of (n : P2PNode) : gmap Token Connection := conn_candidates (handler n).
Definition connections_of (n : P2PNode) : gmap Token Connection := connections (handler n).

(** [P2PNode::update_last_bootstrap], [bump_last_peer_update]. *)
Definition update_last_bootstrap (now : Z) : P2PNode -> P2PNode :=
  upd_last_bootstrap (fun _ => now).
Definition bump_last_peer_update (now : Z) : P2PNode -> P2PNode :=
  upd_last_peer_update (fun _ => now).

(** [P2PNode::is_bucket_cleanup_enabled]. *)
Definition is_bucket_cleanup_enabled (n : P2PNode) : bool :=
  0 <? timeout_bucket_entry_period (config n).

(** [ConnectionHandler::is_soft_banned]. *)
Definition is_soft_banned (a : SocketAddr) (h : ConnectionHandler) : bool :=
  bool_decide (is_Some (soft_bans h !! BanIp (ip a)))
  || bool_decide (is_Some (soft_bans h !! BanSocket a)).

(** [P2PNode::register_conn_change]: a change that does not fit is lost. *)
Definition register_conn_change (change : ConnChange) (n : P2PNode) : P2PNode :=
  match try_send change (conn_changes (handler n)) with
  | Some c => upd_conn_changes (fun _ => c) n
  | None => n
  end.

(** [P2PNode::is_given_connection]. *)
Definition is_given_connection (c : Connection) (n : P2PNode) : bool :=
  bool_decide (remote_addr c ∈ given_addresses n)
  || bool_decide (external_addr (remote_peer c) ∈ given_addresses n).

(** [P2PNode::unconnected_given_addresses]. *)
Definition unconnected_given_addresses (n : P2PNode) : gset SocketAddr :=
  foldl (fun ret c => ret ∖ {[remote_addr c]} ∖ {[external_addr (remote_peer c)]})
    (given_addresses n) (values (connections_of n)).

(** Whether a connection leads to an address, by the address it was opened with
    or the one its peer advertises. *)
Definition leads_to (a : SocketAddr) (c : Connection) : bool :=
  bool_decide (remote_addr c = a) || bool_decide (external_addr (remote_peer c) = a).

(** [P2PNode::is_connected]. *)
Definition is_connected (a : SocketAddr) (n : P2PNode) : bool :=
  existsb (leads_to a) (values (connections_of n)).

(** [P2PNode::is_network_stopped], [stop_network]. *)
Definition is_network_stopped (n : P2PNode) : bool := regenesis_stop_network (regenesis n).
Definition stop_network : P2PNode -> P2PNode :=
  upd_regenesis (fun r => mkRegenesis (regenesis_blocks r) (trigger_catchup r) true).

(** [P2PNode::add_network]. *)
Definition add_network (id : NetworkId) : P2PNode -> P2PNode :=
  upd_node_networks (fun nets => {[id]} ∪ nets).

(** ** Peers *)

(** [P2PNode::get_peer_stats]: [unwrap]s the identifier of each peer. *)
Definition get_peer_stats (t : option PeerType) (n : P2PNode) : outcome (list PeerStats) :=
  mapM (fun c => match self_id (remote_peer c) with
                 | Some id => Ok (peer_stats_of id c)
                 | None => Panic
                 end)
    (filter (fun c => t = None \/ t = Some (remote_peer_type c)) (values (connections_of n))).

(** [P2PNode::get_node_peer_tokens]. *)
Definition get_node_peer_tokens (n : P2PNode) : outcome (list RemotePeerId) :=
  (fun stats : list PeerStats => ps_local_id <$> stats) <$> get_peer_stats (Some Node) n.

(** ** Finding connections *)

(** [P2PNode::find_conn_token_by_id]. *)
Definition find_conn_token_by_id (id : RemotePeerId) (n : P2PNode) : option Token :=
  (fun r => token r.2) <$>
    list_find (fun c => local_id (remote_peer c) = id) (values (connections_of n)).

(** Candidates first, then connections. *)
Definition all_connections (n : P2PNode) : list Connection :=
  values (candidates_of n) ++ values (connections_of n).

(** [P2PNode::find_conn_to]. *)
Definition find_conn_to (a : SocketAddr) (n : P2PNode) : option Token :=
  (fun r => token r.2) <$> list_find (fun c => remote_addr c = a) (all_connections n).

(** [P2PNode::find_conn_tokens_by_ip]. *)
Definition find_conn_tokens_by_ip (a : IpAddr) (n : P2PNode) : list Token :=
  token <$> filter (fun c => ip (addr (remote_peer c)) = a) (all_connections n).

(** ** Removing connections *)

(** [Drop for Connection]: one connected peer less if the handshake was
    completed. *)
Definition drop_connection (c : Connection) : P2PNode -> P2PNode :=
  if conn_is_post_handshake c then upd_node_stats (upd_connected_peers (fun x => x - 1)) else id.

Definition drop_all (cs : list Connection) (n : P2PNode) : P2PNode :=
  foldl (fun n c => drop_connection c n) n cs.

(** [P2PNode::remove_connection]. *)
Definition remove_connection (now : Z) (t : Token) (n : P2PNode)
    : option (bool * RemotePeer) * P2PNode :=
  match candidates_of n !! t with
  | Some c =>
      (Some (false, remote_peer c), drop_connection c (upd_conn_candidates (delete t) n))
  | None =>
      match connections_of n !! t with
      | Some c =>
          (Some (true, remote_peer c),
           drop_connection c (bump_last_peer_update now (upd_connections (delete t) n)))
      | None => (None, n)
      end
  end.

(** The loop of [P2PNode::remove_connections]: whether candidates were removed,
    the peers removed, and the node. *)
Fixpoint remove_loop (ts : list Token) (acc : bool * list RemotePeer) (n : P2PNode)
    : bool * list RemotePeer * P2PNode :=
  match ts with
  | [] => (acc, n)
  | t :: ts' =>
      match candidates_of n !! t with
      | Some c => remove_loop ts' (true, acc.2) (drop_connection c (upd_conn_candidates (delete t) n))
      | None =>
          match connections_of n !! t with
          | Some c =>
              remove_loop ts' (acc.1, acc.2 ++ [remote_peer c])
                (drop_connection c (upd_connections (delete t) n))
          | None => remove_loop ts' acc n
          end
      end
  end.

(** [P2PNode::remove_connections]. *)
Definition remove_connections (now : Z) (ts : list Token) (n : P2PNode)
    : bool * list RemotePeer * P2PNode :=
  let '(removed_candidates, removed_peers, n1) := remove_loop ts (false, []) n in
  let has_removed_peers := negb (bool_decide (removed_peers = [])) in
  (removed_candidates || has_removed_peers, removed_peers,
   if has_removed_peers then bump_last_peer_update now n1 else n1).

(** [retain] on the candidates or the connections; the others are dropped. *)
Definition retain_candidates (keep : Connection -> bool) (n : P2PNode) : P2PNode :=
  drop_all (filter (fun c => keep c = false) (values (candidates_of n)))
    (upd_conn_candidates (filter (fun e => keep e.2 = true)) n).
Definition retain_connections (keep : Connection -> bool) (n : P2PNode) : P2PNode :=
  drop_all (filter (fun c => keep c = false) (values (connections_of n)))
    (upd_connections (filter (fun e => keep e.2 = true)) n).

(** [P2PNode::remove_connection_to_addr]. *)
Definition remove_connection_to_addr (a : SocketAddr) (n : P2PNode) : P2PNode :=
  let keep c := bool_decide (remote_addr c <> a) in
  retain_connections keep (retain_candidates keep n).

(** ** Bans *)

(** [P2PNode::drop_by_id]. *)
Definition drop_by_id (id : RemotePeerId) (n : P2PNode) : bool * P2PNode :=
  match find_conn_token_by_id id n with
  | Some t => (true, register_conn_change (RemovalByToken t) n)
  | None => (false, n)
  end.

(** [P2PNode::drop_by_ip_and_ban]. *)
Definition drop_by_ip_and_ban (a : IpAddr) : M P2PNode bool := fun n =>
  match ban_ip a (kvs n) with
  | Ok e =>
      let n1 := upd_kvs (fun _ => Some e) n in
      let n2 := upd_given_addresses (filter (fun x => ip x <> a)) n1 in
      let tokens := find_conn_tokens_by_ip a n2 in
      (Ok (negb (bool_decide (tokens = []))), register_conn_change (RemoveAllByTokens tokens) n2)
  | Err e => (Err e, n)
  | Panic => (Panic, n)
  end.

(** [P2PNode::drop_addr]. *)
Definition drop_addr (a : SocketAddr) (n : P2PNode) : bool * P2PNode :=
  let n1 := upd_given_addresses (fun s => s ∖ {[a]}) n in
  match find_conn_to a n1 with
  | Some t => (true, register_conn_change (RemovalByToken t) n1)
  | None => (false, n1)
  end.

(** Operations on the store of a node; a failure is reported by the caller. *)
Definition on_store (f : option Env -> outcome Env) : M P2PNode unit := fun n =>
  let '(r, k) := apply_store f tt (kvs n) in (r, upd_kvs (fun _ => k) n).

End node.
