(* ===== verification/Callbacks.v ===== *)
(** * Callbacks of the consensus library

    The start of the Haskell runtime, and the functions that the consensus
    library calls ([concordium-node/src/consensus_ffi/ffi.rs]): messages to be
    sent, notifications of blocks, protocol updates, logging, and the streaming
    of answers to queries.  The last one is modelled together with the thread of
    the library that calls it ([enqueueProtoMessages] of
    [concordium-consensus/src-lib/Concordium/External/GRPC2.hs]): the sender of a
    stream is a box on the Rust heap that the two languages hand to each other. *)

From stdpp Require Import base tactics list gmap strings option numbers.
From Stdlib Require Import ZArith.
From S2P Require Import Prelude Text Common Helpers LowLevel Wire Conn Buckets CatchUp Queues.
From S2P Require Import Config Bans Node.

(** ** The Haskell runtime *)

(** [str::starts_with]. *)
Definition starts_with (p s : text) : bool :=
  match strip_prefix p s with Some _ => true | None => false end.

Definition installs_handlers (arg : text) : bool :=
  starts_with (lit "--install-signal-handlers") (trim arg).
Definition is_blank (arg : text) : bool := bool_decide (trim arg = []).

(** [start_haskell_init], without profiling: the arguments of the runtime. *)
Definition rts_args (program_name : text) (rts_flags : list text) : list text :=
  let args := [program_name; lit "+RTS"] in
  let args :=
    match rts_flags with
    | [] => args ++ [lit "--install-signal-handlers=no"]
    | _ =>
        (if forallb (fun arg => negb (installs_handlers arg)) rts_flags
         then args ++ [lit "--install-signal-handlers=no"] else args)
        ++ filter (fun flag => is_blank flag = false) rts_flags
    end in
  args ++ [lit "-RTS"].

(** [start_haskell_init] with the feature [profiling]. *)
Definition profiling_args (program_name heap : text) (stack time exceptions : bool)
    (gc_log : option text) (profile_sampling_interval : text) (rts_flags : list text) : list text :=
  let on_heap (flag : string) := lit flag :: (if stack then [lit "-xt"] else []) in
  let args := [program_name] in
  let args :=
    if negb (bool_decide (heap = lit "none")) || time || bool_decide (is_Some gc_log)
       || negb (bool_decide (profile_sampling_interval = lit "0.1"))
    then args ++ [lit "+RTS"; lit "-L100"] else args in
  let args :=
    args ++ (if bool_decide (heap = lit "cost") then on_heap "-hc"
             else if bool_decide (heap = lit "module") then on_heap "-hm"
             else if bool_decide (heap = lit "description") then on_heap "-hd"
             else if bool_decide (heap = lit "type") then on_heap "-hy"
             else []) in
  let args :=
    if bool_decide (profile_sampling_interval = lit "0.1") then args
    else args ++ [lit "-i" ++ profile_sampling_interval] in
  let args := if time then args ++ [lit "-p"] else args in
  let args := match gc_log with Some log => args ++ [lit "-S" ++ log] | None => args end in
  let args :=
    if exceptions then
      (if decide (length args = 1%nat) then args ++ [lit "+RTS"] else args) ++ [lit "-xc"]
    else args in
  let args := if decide (length args = 1%nat) then args ++ [lit "+RTS"] else args in
  let args :=
    if forallb (fun arg => negb (installs_handlers arg)) rts_flags
    then args ++ [lit "--install-signal-handlers=no"] else args in
  let args := args ++ filter (fun flag => is_blank flag = false) rts_flags in
  if decide (1 < length args)%nat then args ++ [lit "-RTS"] else args.

(** [CString::new(..).unwrap()]: no argument may contain a zero. *)
Definition c_strings (args : list text) : outcome (list text) :=
  if forallb (fun arg => forallb (fun c => negb (c =? 0)) arg) args then Ok args else Panic.

Inductive RtsCall :=
| HsInit (args : list text)
| AtExit
| HsExit.

(** [START_ONCE], [STOP_ONCE] and [STOPPED], with the calls that have been made. *)
Record Runtime := mkRuntime {
  start_once : bool;
  stop_once : bool;
  stopped : bool;
  rts_calls : list RtsCall;
}.
Definition runtime_initial : Runtime := mkRuntime false false false [].

(** [start_haskell]: a panic leaves the [Once] poisoned, which is not modelled. *)
Definition start_haskell (program_name : text) (rts_flags : list text) : M Runtime unit := fun r =>
  if start_once r then (Ok tt, r)
  else match c_strings (rts_args program_name rts_flags) with
       | Ok args => (Ok tt, mkRuntime true (stop_once r) (stopped r) (rts_calls r ++ [HsInit args; AtExit]))
       | Err e => (Err e, r)
       | Panic => (Panic, r)
       end.

(** [stop_nopanic], which also runs at the exit of the process. *)
Definition stop_nopanic (r : Runtime) : Runtime :=
  if stop_once r then r else mkRuntime (start_once r) true (stopped r) (rts_calls r ++ [HsExit]).

(** [stop_haskell]. *)
Definition stop_haskell : M Runtime unit := fun r =>
  if stopped r then (Panic, r)
  else (Ok tt, stop_nopanic (mkRuntime (start_once r) (stop_once r) true (rts_calls r))).

(** ** Messages to be sent *)

Inductive CallbackType := CbBlock | CbFinalizationMessage | CbFinalizationRecord | CbCatchUpStatus.

(** [TryFrom<u8> for CallbackType]. *)
Definition CallbackType_try_from (b : Z) : outcome CallbackType :=
  if b =? 0 then Ok CbBlock
  else if b =? 1 then Ok CbFinalizationMessage
  else if b =? 2 then Ok CbFinalizationRecord
  else if b =? 3 then Ok CbCatchUpStatus
  else bail "Received invalid callback type".

Definition callback_variant (t : CallbackType) : PacketType :=
  match t with
  | CbBlock => Block
  | CbFinalizationMessage => FinalizationMessage
  | CbFinalizationRecord => FinalizationRecord
  | CbCatchUpStatus => CatchUpStatus
  end.

Section messages.
Context `{Channels}.

(** [sending_callback!].  [None]: the call blocks, since the queue is full. *)
Definition sending_callback (target : option RemotePeerId) (msg_type genesis_index : Z)
    (payload : list byte) (omit : option PeerStatus) (q : ConsensusQueues) : option ConsensusQueues :=
  match CallbackType_try_from (u8_wrap msg_type) with
  | Ok callback_type =>
      let msg_variant := callback_variant callback_type in
      let full_payload := packet_type_tag msg_variant :: be_bytes 4 genesis_index ++ payload in
      send_out_blocking_msg
        (mkConsensusMessage (Outbound target) msg_variant full_payload [] omit) q
  | _ => Some q
  end.

(** [broadcast_callback], [direct_callback] and [catchup_status_callback]. *)
Definition broadcast_callback (msg_type genesis_index : Z) (msg : list byte)
    : ConsensusQueues -> option ConsensusQueues :=
  sending_callback None msg_type genesis_index msg None.
Definition direct_callback (peer_id msg_type genesis_index : Z) (msg : list byte)
    : ConsensusQueues -> option ConsensusQueues :=
  sending_callback (Some peer_id) msg_type genesis_index msg None.
Definition catchup_status_callback (genesis_index : Z) (msg : list byte)
    : ConsensusQueues -> option ConsensusQueues :=
  sending_callback None 3 genesis_index msg (Some Pending).
End messages.

(** ** Protocol updates *)

Section regenesis.
Context `{External}.

(** [regenesis_callback]; [None] is a null pointer.  The slice has 32 bytes, of
    which a hash can be made. *)
Definition regenesis_callback (block_hash : option BlockHash) (r : Regenesis) : Regenesis :=
  match block_hash with
  | None => mkRegenesis (regenesis_blocks r) (trigger_catchup r) true
  | Some hash => mkRegenesis (regenesis_blocks r ++ [hash]) true (regenesis_stop_network r)
  end.
End regenesis.

(** ** Notifications *)

(** An unbounded channel: what has been sent, and whether the receiver is alive. *)
Record Notifications := mkNotifications { notified : list (list byte); alive : bool }.
Definition unbounded_send (v : list byte) (c : Notifications) : Notifications :=
  if alive c then mkNotifications (notified c ++ [v]) true else c.

(** [NotificationContext]. *)
Record NotificationContext := mkContext {
  nc_blocks : option Notifications;
  nc_finalized_blocks : option Notifications;
  last_finalized_block_height : Z;
  last_finalized_block_timestamp : Z;
  last_arrived_block_height : Z;
  last_arrived_block_timestamp : Z;
  baked_blocks : Z;
  finalized_baked_blocks : Z;
}.

(** [notify_callback]. *)
Definition notify_callback (now ty : Z) (data : list byte) (block_height home_baked : Z)
    (c : NotificationContext) : NotificationContext :=
  let home_baked := home_baked =? 1 in
  if ty =? 0 then
    mkContext (unbounded_send data <$> nc_blocks c) (nc_finalized_blocks c)
      (last_finalized_block_height c) (last_finalized_block_timestamp c) block_height now
      (if home_baked then baked_blocks c + 1 else baked_blocks c) (finalized_baked_blocks c)
  else if ty =? 1 then
    mkContext (nc_blocks c) (unbounded_send data <$> nc_finalized_blocks c) block_height now
      (last_arrived_block_height c) (last_arrived_block_timestamp c) (baked_blocks c)
      (if home_baked then finalized_baked_blocks c + 1 else finalized_baked_blocks c)
  else c.

(** [unsupported_update_callback]: sets the gauge. *)
Definition unsupported_update_callback (effective_time gauge : Z) : Z := effective_time.

(** ** Logging *)

Definition identifier_to_string (id : Z) : string :=
  default "Unknown"
    (["Runner"; "Afgjort"; "Birk"; "Crypto"; "Kontrol"; "Skov"; "Baker"; "External"; "GlobalState";
      "BlockState"; "TreeState"; "LMDB"; "Scheduler"; "Konsensus"] !! Z.to_nat id).

Inductive Level := Error | Warn | Info | Debugging | Trace.

(** [on_log_emited]: identifiers are signed characters, levels are not; a message
    that is not UTF-8 is a panic. *)
Definition on_log_emited (identifier log_level : Z) (msg : option text)
    : outcome (Level * string * text) :=
  match msg with
  | None => Panic
  | Some msg =>
      let id := if identifier <? 0 then "Unknown" else identifier_to_string identifier in
      let level := match u8_wrap log_level with
                   | 1 => Error | 2 => Warn | 3 => Info | 4 => Debugging | _ => Trace
                   end in
      Ok (level, id, msg)
  end.

(** ** Streams

    A sender lives in a box; [boxes] holds those that are allocated with what
    has been sent through them, [ended] those that have been dropped, whose
    receivers see the end of the stream after these items. *)
Record Streams := mkStreams {
  boxes : gmap positive (list (list byte));
  ended : gmap positive (list (list byte));
}.

(** What [try_send] answers: it depends on the receiver. *)
Inductive TrySend := Sent | Full | Disconnected.
#[export] Instance TrySend_eq_dec : EqDecision TrySend.
Proof. solve_decision. Defined.

(** [drop] of the box. *)
Definition drop_sender (p : positive) : M Streams unit := fun s =>
  match boxes s !! p with
  | Some items => (Ok tt, mkStreams (delete p (boxes s)) (<[p := items]> (ended s)))
  | None => (Panic, s)
  end.

(** [enqueue_bytearray_callback].  [Box::from_raw] of a pointer to a box that has
    been dropped is undefined behaviour: a panic here.  A null pointer is
    [None]; else [msg] is the [msg_length] bytes at the pointer. *)
Definition enqueue_bytearray_callback (answer : TrySend) (sender : positive)
    (msg : option (list byte)) (msg_length : Z) : M Streams Z := fun s =>
  match boxes s !! sender with
  | None => (Panic, s)
  | Some items =>
      match (if msg_length =? 0 then Some [] else msg) with
      | None => (_ ← drop_sender sender; mret (-2)) s
      | Some data =>
          match answer with
          | Sent => (Ok 0, mkStreams (<[sender := items ++ [data]]> (boxes s)) (ended s))
          | Full => (Ok (-1), s)
          | Disconnected => (_ ← drop_sender sender; mret (-2)) s
          end
      end
  end.

(** [maxBound :: Int64]. *)
Definition maxBound : Z := 2 ^ 63 - 1.

(** The function [go] of [enqueueProtoMessages].  [answers] are what the calls are
    answered, one after the other; with none left, it is waiting, and [false] is
    returned.  [n] is the exponent of the next delay. *)
Fixpoint enqueueProtoMessages (answers : list TrySend) (sender : positive) (n : nat)
    (msgs : list (list byte)) : M Streams bool := fun s =>
  match msgs, answers with
  | [], _ => (_ ← enqueue_bytearray_callback Sent sender None maxBound; mret true) s
  | _, [] => (Ok false, s)
  | msg :: msgs', answer :: answers' =>
      (res ← enqueue_bytearray_callback answer sender (Some msg) (Z.of_nat (length msg));
       if res =? 0 then enqueueProtoMessages answers' sender 0 msgs'
       else if res =? -1 then enqueueProtoMessages answers' sender (Nat.min (S n) 10) msgs
       else mret true) s
  end.

(** The delay before the next attempt, in microseconds. *)
Definition enqueue_delay (n : nat) : Z := 2 ^ Z.of_nat n * 10000.
