(* ===== verification/Queries.v ===== *)
(** * Queries of the consensus library

    The methods of [ConsensusContainer] and [DryRun] that the gRPC server uses
    ([concordium-node/src/consensus_ffi/ffi.rs]).  A call of a function of the
    library is a value of [ffi_call], with the arguments that are passed to it;
    what the library answers is a function of its state. *)

From stdpp Require Import base tactics list gmap strings option numbers.
From Stdlib Require Import ZArith Floats.SpecFloat.
From S2P Require Import Prelude Text Common Helpers LowLevel Wire Conn Buckets CatchUp Queues.
From S2P Require Import Config GrpcTypes GrpcTransactions Bans Node Callbacks.

(** ** The functions of the library *)

(** The address of a dry-run handle. *)
Abbreviation dry_run_handle := positive.

(** The entrypoint that is invoked, as it is passed to the library. *)
Record Invocation := mkInvocation {
  contract_index : Z;
  contract_subindex : Z;
  invoker_address_type : Z;
  invoker_account_address : list byte;
  invoker_contract_index : Z;
  invoker_contract_subindex : Z;
  invoke_amount : Z;
  receive_name : list byte;
  receive_name_len : Z;
  parameter : list byte;
  parameter_len : Z;
  invoke_energy : Z;
}.

(** One constructor for each function that is called.  [sender] is the box of the
    sender of a stream; a pair of a tag and bytes is a block, an epoch or an
    account. *)
Inductive ffi_call :=
| getBlockInfoV2 (block_id_type : Z) (block_id : list byte)
| getPassiveDelegationInfoV2 (block_id_type : Z) (block_id : list byte)
| getTokenomicsInfoV2 (block_id_type : Z) (block_id : list byte)
| getElectionInfoV2 (block_id_type : Z) (block_id : list byte)
| getNextUpdateSequenceNumbersV2 (block_id_type : Z) (block_id : list byte)
| getBlockChainParametersV2 (block_id_type : Z) (block_id : list byte)
| getBlockFinalizationSummaryV2 (block_id_type : Z) (block_id : list byte)
| getBlockCertificatesV2 (block_id_type : Z) (block_id : list byte)
| getModuleListV2 (sender : positive) (block_id_type : Z) (block_id : list byte)
| getInstanceListV2 (sender : positive) (block_id_type : Z) (block_id : list byte)
| getBakerListV2 (sender : positive) (block_id_type : Z) (block_id : list byte)
| getPassiveDelegatorsV2 (sender : positive) (block_id_type : Z) (block_id : list byte)
| getPassiveDelegatorsRewardPeriodV2 (sender : positive) (block_id_type : Z) (block_id : list byte)
| getIdentityProvidersV2 (sender : positive) (block_id_type : Z) (block_id : list byte)
| getAnonymityRevokersV2 (sender : positive) (block_id_type : Z) (block_id : list byte)
| getBlockItemsV2 (sender : positive) (block_id_type : Z) (block_id : list byte)
| getBlockTransactionEventsV2 (sender : positive) (block_id_type : Z) (block_id : list byte)
| getBlockSpecialEventsV2 (sender : positive) (block_id_type : Z) (block_id : list byte)
| getBlockPendingUpdatesV2 (sender : positive) (block_id_type : Z) (block_id : list byte)
| getBakersRewardPeriodV2 (sender : positive) (block_id_type : Z) (block_id : list byte)
| getAccountListV2 (sender : positive) (block_id_type : Z) (block_id : list byte)
| getAccountInfoV2 (block_id_type : Z) (block_id : list byte) (acc_type : Z) (acc_id : list byte)
| getNextAccountSequenceNumberV2 (account_address : list byte)
| getConsensusInfoV2 
| getCryptographicParametersV2 (block_id_type : Z) (block_id : list byte)
| getModuleSourceV2 (block_id_type : Z) (block_id : list byte) (module_ref : list byte)
| getInstanceInfoV2 (block_id_type : Z) (block_id : list byte) (addr_index addr_subindex : Z)
| getInstanceStateV2 (block_id_type : Z) (block_id : list byte) (addr_index addr_subindex : Z)
| getAncestorsV2 (sender : positive) (block_id_type : Z) (block_id : list byte) (amount : Z)
| getFirstBlockEpochV2 (query_tag : Z) (query_data : list byte)
| getWinningBakersEpochV2 (sender : positive) (query_tag : Z) (query_data : list byte)
| getBlockItemStatusV2 (transaction_hash : list byte)
| invokeInstanceV2 (block_id_type : Z) (block_id : list byte) (invocation : Invocation)
| getPoolInfoV2 (block_id_type : Z) (block_id : list byte) (baker_id : Z)
| getBlocksAtHeightV2 (block_height genesis_index restrict : Z)
| getPoolDelegatorsV2 (sender : positive) (block_id_type : Z) (block_id : list byte) (baker_id : Z)
| getPoolDelegatorsRewardPeriodV2 (sender : positive) (block_id_type : Z) (block_id : list byte) (baker_id : Z)
| getBranchesV2 
| getAccountNonFinalizedTransactionsV2 (sender : positive) (account_address : list byte)
| getBakerEarliestWinTimeV2 (baker_id : Z)
| receiveTransaction (data : list byte)
| dryRunStart (energy_quota : Z)
| dryRunEnd (handle : dry_run_handle)
| dryRunLoadBlockState (handle : dry_run_handle) (block_id_type : Z) (block_id : list byte)
| dryRunGetAccountInfo (handle : dry_run_handle) (acc_type : Z) (acc_id : list byte)
| dryRunGetInstanceInfo (handle : dry_run_handle) (addr_index addr_subindex : Z)
| dryRunInvokeInstance (handle : dry_run_handle) (invocation : Invocation)
| dryRunSetTimestamp (handle : dry_run_handle) (new_timestamp : Z)
| dryRunMintToAccount (handle : dry_run_handle) (account_address : list byte) (amount : Z)
| dryRunTransaction (handle : dry_run_handle) (sender_address : list byte) (energy : Z)
    (payload signatures : list byte) (signature_count : Z).

(** Types of other libraries: the parameters of the chain, and the state of a
    contract with what is needed to read it. *)
Class ChainTypes := {
  GlobalContext : Type;
  genesis_string : GlobalContext -> text;
  bulletproof_generators : GlobalContext -> list byte;
  on_chain_commitment_key : GlobalContext -> list byte;
  PersistentState : Type;
  state_lookup : PersistentState -> list byte -> option (list byte);
  state_items : PersistentState -> list (list byte * list byte);
}.

(** What a function returns, and what it writes to the out parameters; [None] is a
    null pointer. *)
Record Answer `{ChainTypes} := mkAnswer {
  ret_code : Z;
  out_hash : list byte;
  out_data : list byte;
  out_crypto : option GlobalContext;
  out_v1 : option PersistentState;
  out_handle : dry_run_handle;
}.

(** [ContractStateResponse]. *)
Inductive ContractStateResponse `{ChainTypes} :=
| ContractV0 (state : list byte)
| ContractV1 (state : PersistentState).

(** [types::CryptographicParameters]. *)
Record CryptographicParameters := mkCryptographicParameters {
  cp_genesis_string : text;
  cp_bulletproof_generators : list byte;
  cp_on_chain_commitment_key : list byte;
}.

(** ** Requests *)

Record InvokeInstanceRequest := mkInvokeInstance {
  ii_block_hash : option (option BlockHashInput);
  ii_invoker : option (option AddressType);
  ii_amount : option Z;
  ii_entrypoint : option text;
  ii_parameter : option (list byte);
  ii_energy : option Z;
  ii_instance : option ContractAddress;
}.
Record DryRunTransaction := mkDryRunTransaction {
  dt_energy_amount : option Z;
  dt_sender : option (list byte);
  dt_payload : option (option PayloadInput);
  dt_signatures : list (Z * Z);
}.

(** ** The queries *)

Section queries.
Context `{ChainTypes} `{ConcordiumBase}.
(** The state of the library, and its functions. *)
Context {Cs : Type}.
Variable ffi : ffi_call -> Cs -> Answer * Cs.

Record World := mkWorld { library : Cs; streams : Streams }.

Definition call (c : ffi_call) : M World Answer := fun w =>
  let '(a, cs) := ffi c (library w) in (Ok a, mkWorld cs (streams w)).
(** [Box::into_raw(sender)]: from here on the box has to be freed explicitly. *)
Definition into_raw (sender : positive) : M World positive := fun w =>
  (Ok sender, mkWorld (library w) (mkStreams (<[sender := []]> (boxes (streams w))) (ended (streams w)))).
(** [drop(Box::from_raw(..))]. *)
Definition free_sender (sender : positive) : M World unit := fun w =>
  let '(r, s) := drop_sender sender (streams w) in (r, mkWorld (library w) s).

(** [.try_into()?], and then [ensure_ok(what)?]. *)
Definition checked (response : Answer) (what : string) : outcome unit :=
  r ← ConsensusQueryResponse_try_from (ret_code response); ensure_ok r what.
(** [.try_into()?], where the result is not looked at. *)
Definition known_code (response : Answer) : outcome unit :=
  _ ← ConsensusQueryResponse_try_from (ret_code response); Ok tt.

(** The common form of the queries on a block that answer with one message. *)
Definition block_query (f : Z -> list byte -> ffi_call) (what : string)
    (block_hash : option BlockHashInput) : M World (list byte * list byte) :=
  '(block_id_type, block_id) ← lift (block_ffi block_hash);
  response ← call (f block_id_type block_id);
  _ ← lift (checked response what);
  mret (out_hash response, out_data response).

(** The common form of the queries on a block that answer with a stream. *)
Definition block_stream (f : positive -> Z -> list byte -> ffi_call) (what : string)
    (block_hash : option BlockHashInput) (sender : positive) : M World (list byte) :=
  '(block_id_type, block_id) ← lift (block_ffi block_hash);
  sender_ptr ← into_raw sender;
  response ← call (f sender_ptr block_id_type block_id);
  _ ← lift (checked response what);
  mret (out_hash response).

Definition get_block_info_v2 : option BlockHashInput -> M World (list byte * list byte) :=
  block_query getBlockInfoV2 "block".
Definition get_passive_delegation_info_v2 : option BlockHashInput -> M World (list byte * list byte) :=
  block_query getPassiveDelegationInfoV2 "block".
Definition get_tokenomics_info_v2 : option BlockHashInput -> M World (list byte * list byte) :=
  block_query getTokenomicsInfoV2 "block".
Definition get_election_info_v2 : option BlockHashInput -> M World (list byte * list byte) :=
  block_query getElectionInfoV2 "block".
Definition get_next_update_sequence_numbers_v2 : option BlockHashInput -> M World (list byte * list byte) :=
  block_query getNextUpdateSequenceNumbersV2 "block".
Definition get_block_chain_parameters_v2 : option BlockHashInput -> M World (list byte * list byte) :=
  block_query getBlockChainParametersV2 "block".
Definition get_block_finalization_summary_v2 : option BlockHashInput -> M World (list byte * list byte) :=
  block_query getBlockFinalizationSummaryV2 "block".
Definition get_block_certificates_v2 : option BlockHashInput -> M World (list byte * list byte) :=
  block_query getBlockCertificatesV2 "block".

Definition get_module_list_v2 : option BlockHashInput -> positive -> M World (list byte) :=
  block_stream getModuleListV2 "block".
Definition get_instance_list_v2 : option BlockHashInput -> positive -> M World (list byte) :=
  block_stream getInstanceListV2 "block".
Definition get_baker_list_v2 : option BlockHashInput -> positive -> M World (list byte) :=
  block_stream getBakerListV2 "block".
Definition get_passive_delegators_v2 : option BlockHashInput -> positive -> M World (list byte) :=
  block_stream getPassiveDelegatorsV2 "block".
Definition get_passive_delegators_reward_period_v2 : option BlockHashInput -> positive -> M World (list byte) :=
  block_stream getPassiveDelegatorsRewardPeriodV2 "block".
Definition get_identity_providers_v2 : option BlockHashInput -> positive -> M World (list byte) :=
  block_stream getIdentityProvidersV2 "block".
Definition get_anonymity_revokers_v2 : option BlockHashInput -> positive -> M World (list byte) :=
  block_stream getAnonymityRevokersV2 "block".
Definition get_block_items_v2 : option BlockHashInput -> positive -> M World (list byte) :=
  block_stream getBlockItemsV2 "block".
Definition get_block_transaction_events_v2 : option BlockHashInput -> positive -> M World (list byte) :=
  block_stream getBlockTransactionEventsV2 "block".
Definition get_block_special_events_v2 : option BlockHashInput -> positive -> M World (list byte) :=
  block_stream getBlockSpecialEventsV2 "block".
Definition get_block_pending_updates_v2 : option BlockHashInput -> positive -> M World (list byte) :=
  block_stream getBlockPendingUpdatesV2 "block".
Definition get_bakers_reward_period_v2 : option BlockHashInput -> positive -> M World (list byte) :=
  block_stream getBakersRewardPeriodV2 "block".

(** [get_account_list_v2]: on an error the sender is freed. *)
Definition get_account_list_v2 (block_hash : option BlockHashInput) (sender : positive)
    : M World (list byte) :=
  '(block_id_type, block_id) ← lift (block_ffi block_hash);
  sender_ptr ← into_raw sender;
  response ← call (getAccountListV2 sender_ptr block_id_type block_id);
  r ← lift (ConsensusQueryResponse_try_from (ret_code response));
  match ensure_ok r "block" with
  | Ok _ => mret (out_hash response)
  | e => _ ← free_sender sender_ptr; lift (_ ← e; Ok [])
  end.

Definition get_account_info_v2 (block_hash : option BlockHashInput)
    (account_identifier : option AccountIdentifierInput) : M World (list byte * list byte) :=
  '(block_id_type, block_id) ← lift (block_ffi block_hash);
  '(acc_type, acc_id) ← lift (require (account_identifier_to_ffi account_identifier));
  response ← call (getAccountInfoV2 block_id_type block_id acc_type acc_id);
  _ ← lift (checked response "account or block");
  mret (out_hash response, out_data response).

Definition get_next_account_sequence_number_v2 (account_address : list byte) : M World (list byte) :=
  ptr ← lift (require (account_address_to_ffi account_address));
  response ← call (getNextAccountSequenceNumberV2 ptr);
  _ ← lift (known_code response);
  mret (out_data response).

Definition get_consensus_info_v2 : M World (list byte) :=
  response ← call getConsensusInfoV2;
  _ ← lift (known_code response);
  mret (out_data response).

Definition get_cryptographic_parameters_v2 (block_hash : option BlockHashInput)
    : M World (list byte * CryptographicParameters) :=
  '(block_id_type, block_id) ← lift (block_ffi block_hash);
  response ← call (getCryptographicParametersV2 block_id_type block_id);
  _ ← lift (checked response "block");
  match out_crypto response with
  | Some p =>
      mret (out_hash response,
            mkCryptographicParameters (genesis_string p) (bulletproof_generators p)
              (on_chain_commitment_key p))
  | None => lift (fail_with Code.Internal "Failed to access cryptographic parameters")
  end.

Definition get_module_source_v2 (block_hash : option BlockHashInput) (module_ref : list byte)
    : M World (list byte * list byte) :=
  '(block_id_type, block_id) ← lift (block_ffi block_hash);
  ptr ← lift (require (module_reference_to_ffi module_ref));
  response ← call (getModuleSourceV2 block_id_type block_id ptr);
  _ ← lift (checked response "module or block");
  mret (out_hash response, out_data response).

Definition get_instance_info_v2 (block_hash : option BlockHashInput) (address : ContractAddress)
    : M World (list byte * list byte) :=
  block_query (fun t b => getInstanceInfoV2 t b (index address) (subindex address))
    "block or instance" block_hash.

Definition get_instance_state_v2 (block_hash : option BlockHashInput) (address : ContractAddress)
    : M World (list byte * ContractStateResponse) :=
  '(block_id_type, block_id) ← lift (block_ffi block_hash);
  response ← call (getInstanceStateV2 block_id_type block_id (index address) (subindex address));
  _ ← lift (checked response "block or instance");
  mret (out_hash response,
        match out_v1 response with
        | None => ContractV0 (out_data response)
        | Some state => ContractV1 state
        end).

Definition get_ancestors_v2 (block_hash : option BlockHashInput) (amount : Z) (sender : positive)
    : M World (list byte) :=
  block_stream (fun s t b => getAncestorsV2 s t b amount) "block" block_hash sender.

Definition epoch_ffi (query : option EpochRequestInput) : outcome (Z * list byte) :=
  epoch_to_ptr <$> require (epoch_request_to_ffi query).

Definition get_first_block_epoch_v2 (query : option EpochRequestInput) : M World (list byte) :=
  '(query_tag, query_data) ← lift (epoch_ffi query);
  response ← call (getFirstBlockEpochV2 query_tag query_data);
  _ ← lift (checked response "block");
  mret (out_hash response).

Definition get_winning_bakers_epoch_v2 (query : option EpochRequestInput) (sender : positive)
    : M World unit :=
  '(query_tag, query_data) ← lift (epoch_ffi query);
  sender_ptr ← into_raw sender;
  response ← call (getWinningBakersEpochV2 sender_ptr query_tag query_data);
  lift (checked response "block").

Definition get_block_item_status_v2 (transaction_hash : list byte) : M World (list byte) :=
  ptr ← lift (require (transaction_hash_to_ffi transaction_hash));
  response ← call (getBlockItemStatusV2 ptr);
  _ ← lift (checked response "transaction");
  mret (out_data response).

(** The arguments of an invocation, which [invoke_instance_v2] and
    [DryRun::invoke_instance] check in the same order. *)
Definition invocation (request : InvokeInstanceRequest) : outcome Invocation :=
  '(t, account, index_, subindex_) ← invoker_to_ffi (ii_invoker request);
  amount ← require (ii_amount request);
  entrypoint ← require (ii_entrypoint request);
  '(name, name_len) ← require (receive_name_to_ffi entrypoint);
  bytes ← require (ii_parameter request);
  '(param, param_len) ← parameter_to_ffi bytes;
  energy ← require (ii_energy request);
  contract ← require (ii_instance request);
  Ok (mkInvocation (index contract) (subindex contract) t account index_ subindex_ amount name name_len
        param param_len energy).

Definition invoke_instance_v2 (request : InvokeInstanceRequest) : M World (list byte * list byte) :=
  block_hash ← lift (require (ii_block_hash request));
  '(block_id_type, block_id) ← lift (block_ffi block_hash);
  args ← lift (invocation request);
  response ← call (invokeInstanceV2 block_id_type block_id args);
  _ ← lift (checked response "block or contract");
  mret (out_hash response, out_data response).

(** [PoolInfoRequest] and [GetPoolDelegatorsRequest]. *)
Record PoolRequest := mkPoolRequest {
  pool_block_hash : option (option BlockHashInput);
  pool_baker : option Z;
}.

Definition get_pool_info_v2 (request : PoolRequest) : M World (list byte * list byte) :=
  block_hash ← lift (require (pool_block_hash request));
  '(block_id_type, block_id) ← lift (block_ffi block_hash);
  baker ← lift (require (pool_baker request));
  response ← call (getPoolInfoV2 block_id_type block_id (baker_id_to_ffi baker));
  _ ← lift (checked response "block or baker");
  mret (out_hash response, out_data response).

(** The common form of the two queries on the delegators of a pool. *)
Definition pool_stream (f : positive -> Z -> list byte -> Z -> ffi_call) (request : PoolRequest)
    (sender : positive) : M World (list byte) :=
  block_hash ← lift (require (pool_block_hash request));
  '(block_id_type, block_id) ← lift (block_ffi block_hash);
  baker ← lift (require (pool_baker request));
  sender_ptr ← into_raw sender;
  response ← call (f sender_ptr block_id_type block_id (baker_id_to_ffi baker));
  _ ← lift (checked response "block or pool");
  mret (out_hash response).
Definition get_pool_delegators_v2 : PoolRequest -> positive -> M World (list byte) :=
  pool_stream getPoolDelegatorsV2.
Definition get_pool_delegators_reward_period_v2 : PoolRequest -> positive -> M World (list byte) :=
  pool_stream getPoolDelegatorsRewardPeriodV2.

Definition get_blocks_at_height_v2 (height : option BlocksAtHeight) : M World (list byte) :=
  '(block_height, genesis_index, restrict) ← lift (require (blocks_at_height_request_to_ffi height));
  response ← call (getBlocksAtHeightV2 block_height genesis_index restrict);
  _ ← lift (known_code response);
  mret (out_data response).

Definition get_branches_v2 : M World (list byte) :=
  response ← call getBranchesV2;
  _ ← lift (known_code response);
  mret (out_data response).

Definition get_account_non_finalized_transactions_v2 (account_address : list byte) (sender : positive)
    : M World unit :=
  ptr ← lift (require (account_address_to_ffi account_address));
  sender_ptr ← into_raw sender;
  response ← call (getAccountNonFinalizedTransactionsV2 sender_ptr ptr);
  lift (checked response "account address").

Definition get_baker_earliest_win_time_v2 (baker : Z) : M World (list byte) :=
  response ← call (getBakerEarliestWinTimeV2 baker);
  _ ← lift (checked response "baker");
  mret (out_data response).

(** [send_transaction]: a code that is not known is a panic. *)
Definition send_transaction (data : list byte)
    : M World (option (list byte) * ConsensusFfiResponse) :=
  response ← call (receiveTransaction data);
  match ConsensusFfiResponse_try_from (ret_code response) with
  | Ok return_code =>
      mret (if decide (return_code = Success) then Some (out_hash response) else None, return_code)
  | _ => lift Panic
  end.

(** ** Dry runs *)

(** [DryRun::check_result]. *)
Definition check_result (result : Z) (origin : string) : outcome unit :=
  if result =? 0 then Ok tt
  else if result =? 1 then
    fail_with Code.Internal ("Internal error: " +:+ origin +:+ " could not be completed")
  else if result =? 2 then fail_with Code.ResourceExhausted "Energy quota exceeded"
  else fail_with Code.Internal ("Internal error: unexpected error code in " +:+ origin).

(** [ConsensusContainer::dry_run] and [Drop for DryRun]. *)
Definition dry_run_start (energy_quota : Z) : M World dry_run_handle :=
  response ← call (dryRunStart energy_quota); mret (out_handle response).
Definition dry_run_drop (handle : dry_run_handle) : M World unit :=
  _ ← call (dryRunEnd handle); mret tt.

Definition dry_run_call (c : ffi_call) (origin : string) : M World (list byte) :=
  response ← call c;
  _ ← lift (check_result (ret_code response) origin);
  mret (out_data response).

Definition dry_load_block_state (handle : dry_run_handle) (request : option BlockHashInput)
    : M World (list byte) :=
  '(block_id_type, block_id) ← lift (block_ffi request);
  dry_run_call (dryRunLoadBlockState handle block_id_type block_id) "load block state".
Definition dry_get_account_info (handle : dry_run_handle) (target : option AccountIdentifierInput)
    : M World (list byte) :=
  '(acc_type, acc_id) ← lift (require (account_identifier_to_ffi target));
  dry_run_call (dryRunGetAccountInfo handle acc_type acc_id) "get account info".
Definition dry_get_instance_info (handle : dry_run_handle) (target : ContractAddress)
    : M World (list byte) :=
  dry_run_call (dryRunGetInstanceInfo handle (index target) (subindex target)) "get instance info".
Definition dry_invoke_instance (handle : dry_run_handle) (request : InvokeInstanceRequest)
    : M World (list byte) :=
  args ← lift (invocation request);
  dry_run_call (dryRunInvokeInstance handle args) "invoke instance".
Definition dry_set_timestamp (handle : dry_run_handle) (new_timestamp : Z) : M World (list byte) :=
  dry_run_call (dryRunSetTimestamp handle new_timestamp) "set timestamp".
Definition dry_mint_to_account (handle : dry_run_handle) (account : option (list byte))
    (amount : option Z) : M World (list byte) :=
  address ← lift (require account);
  ptr ← lift (require (account_address_to_ffi address));
  amount ← lift (require amount);
  dry_run_call (dryRunMintToAccount handle ptr amount) "mint to account".
Definition signature_bytes (signatures : list (Z * Z)) : outcome (list byte) :=
  pairs ← mapM (fun '(credential, key) =>
                  c ← below 256 "Credential index out of bounds" credential;
                  k ← below 256 "Key index out of bounds" key;
                  Ok [byte_of_Z c; byte_of_Z k]) signatures;
  Ok (concat pairs).
Definition dry_transaction (handle : dry_run_handle) (request : DryRunTransaction)
    : M World (list byte) :=
  energy ← lift (require (dt_energy_amount request));
  sender ← lift (require (dt_sender request));
  ptr ← lift (require (account_address_to_ffi sender));
  payload ← lift (require (dt_payload request) ≫= encoded_payload);
  signatures ← lift (signature_bytes (dt_signatures request));
  dry_run_call (dryRunTransaction handle ptr energy (payload_bytes payload) signatures
                  (Z.of_nat (length (dt_signatures request)))) "run transaction".
End queries.
