(* ===== verification/QueriesProps.v ===== *)
(** * Queries of the consensus library: what is passed to it

    Whatever a client asks for, the library is only called with arguments that it
    can read: the data has the length that it reads, the tags are known, and the
    lengths that are passed are those of the data. *)

From stdpp Require Import base tactics list gmap strings option numbers.
From Stdlib Require Import ZArith Floats.SpecFloat.
From S2P Require Import Prelude Text Common Helpers LowLevel Wire Conn Buckets CatchUp Queues.
From S2P Require Import Config Container GrpcTypes GrpcTransactions Bans Node Callbacks Queries.

(** ** Preserved predicates *)

Definition keeps {St A} (P : St -> Prop) (m : M St A) : Prop := forall s, P s -> P (m s).2.

Lemma keeps_lift {St A} (P : St -> Prop) (o : outcome A) : keeps P (lift o).
Proof. by intros s. Qed.
Lemma keeps_ret {St A} (P : St -> Prop) (a : A) : keeps P (mret a).
Proof. by intros s. Qed.
Lemma keeps_bind {St A B} (P : St -> Prop) (m : M St A) (k : A -> M St B) :
  keeps P m -> (forall a, keeps P (k a)) -> keeps P (m ≫= k).
Proof.
  intros Hm Hk s Hs. unfold mbind, M_bind. pose proof (Hm s Hs) as H.
  destruct (m s) as [[a| |] s']; [by apply Hk|done|done].
Qed.
Lemma keeps_bind_lift {St A B} (P : St -> Prop) (o : outcome A) (k : A -> M St B) :
  (forall a, o = Ok a -> keeps P (k a)) -> keeps P (lift o ≫= k).
Proof. intros Hk s Hs. unfold mbind, M_bind, lift. destruct o; [by apply Hk|done|done]. Qed.

(** ** Calls that can be read *)

Definition block_readable (tag : Z) (data : list byte) : Prop := is_Some (decodeBlockHashInput tag data).

Definition invocation_ok (i : Invocation) : Prop :=
  is_Some (decodeInvoker (invoker_address_type i) (invoker_account_address i)
             (invoker_contract_index i) (invoker_contract_subindex i)) /\
  receive_name_len i = Z.of_nat (length (receive_name i)) /\ receive_name_len i <= 100 /\
  parameter_len i = Z.of_nat (length (parameter i)) /\ in_u32 (parameter_len i).

Definition call_ok (c : ffi_call) : Prop :=
  match c with
  | getBlockInfoV2 t b | getPassiveDelegationInfoV2 t b | getTokenomicsInfoV2 t b
  | getElectionInfoV2 t b | getNextUpdateSequenceNumbersV2 t b | getBlockChainParametersV2 t b
  | getBlockFinalizationSummaryV2 t b | getBlockCertificatesV2 t b | getCryptographicParametersV2 t b
  | getInstanceInfoV2 t b _ _ | getInstanceStateV2 t b _ _ | getPoolInfoV2 t b _
  | getModuleListV2 _ t b | getInstanceListV2 _ t b | getBakerListV2 _ t b
  | getPassiveDelegatorsV2 _ t b | getPassiveDelegatorsRewardPeriodV2 _ t b
  | getIdentityProvidersV2 _ t b | getAnonymityRevokersV2 _ t b | getBlockItemsV2 _ t b
  | getBlockTransactionEventsV2 _ t b | getBlockSpecialEventsV2 _ t b | getBlockPendingUpdatesV2 _ t b
  | getBakersRewardPeriodV2 _ t b | getAccountListV2 _ t b | getAncestorsV2 _ t b _
  | getPoolDelegatorsV2 _ t b _ | getPoolDelegatorsRewardPeriodV2 _ t b _
  | dryRunLoadBlockState _ t b => block_readable t b
  | getAccountInfoV2 t b at_ a => block_readable t b /\ is_Some (decodeAccountIdentifierInput at_ a)
  | getNextAccountSequenceNumberV2 a | getAccountNonFinalizedTransactionsV2 _ a
  | getBlockItemStatusV2 a | dryRunMintToAccount _ a _ => length a = 32%nat
  | getModuleSourceV2 t b m => block_readable t b /\ length m = 32%nat
  | getFirstBlockEpochV2 t d | getWinningBakersEpochV2 _ t d => is_Some (decodeEpochRequest t d)
  | invokeInstanceV2 t b i => block_readable t b /\ invocation_ok i
  | getBlocksAtHeightV2 _ _ restrict => restrict = 0 \/ restrict = 1
  | dryRunGetAccountInfo _ t a => is_Some (decodeAccountIdentifierInput t a)
  | dryRunInvokeInstance _ i => invocation_ok i
  | dryRunTransaction _ a _ _ signatures count =>
      length a = 32%nat /\ Z.of_nat (length signatures) = 2 * count
  | getConsensusInfoV2 | getBranchesV2 | getBakerEarliestWinTimeV2 _ | receiveTransaction _
  | dryRunStart _ | dryRunEnd _ | dryRunGetInstanceInfo _ _ _ | dryRunSetTimestamp _ _ => True
  end.

Lemma require_Ok {A} (o : option A) a : require o = Ok a -> o = Some a.
Proof. destruct o; simpl; [by intros [= ->]|done]. Qed.

Lemma peek_enough n data : (n <= length data)%nat -> is_Some (peek n data).
Proof. intros. unfold peek. rewrite decide_True by done. by eexists. Qed.

Lemma bhi_readable bhi f :
  block_hash_input_to_ffi bhi = Some f -> block_readable (bhi_to_ptr f).1 (bhi_to_ptr f).2.
Proof.
  intros E. destruct bhi as [[| |h|h|[[h|] [g|] r]]|]; simplify_eq/=.
  - by eexists.
  - by eexists.
  - destruct (decide _); simplify_eq/=. apply fmap_is_Some, peek_enough. lia.
  - apply fmap_is_Some, peek_enough. simpl. lia.
  - by destruct r; eexists.
Qed.
Lemma block_ffi_readable bhi t b : block_ffi bhi = Ok (t, b) -> block_readable t b.
Proof.
  unfold block_ffi. destruct (block_hash_input_to_ffi bhi) as [f|] eqn:E; [|done]. cbn [require fmap].
  unfold outcome_fmap. intros [= E']. apply bhi_readable in E. by rewrite E' in E.
Qed.

Lemma epoch_readable query t d : epoch_ffi query = Ok (t, d) -> is_Some (decodeEpochRequest t d).
Proof.
  unfold epoch_ffi. destruct (epoch_request_to_ffi query) as [f|] eqn:E; [|done]. cbn [require fmap].
  unfold outcome_fmap. intros [= E'].
  destruct query as [[[e|] [g|]|bhi]|]; simplify_eq/=; [by eexists|].
  destruct (block_hash_input_to_ffi bhi) as [f'|] eqn:Eb; simplify_eq/=.
  pose proof (bhi_tag f') as Ht. apply bhi_readable in Eb. rewrite E' in *. simpl in *.
  unfold decodeEpochRequest. rewrite (proj2 (Z.eqb_neq t 5)) by lia. by apply fmap_is_Some.
Qed.

Lemma account_readable a t d :
  require (account_identifier_to_ffi a) = Ok (t, d) -> is_Some (decodeAccountIdentifierInput t d).
Proof.
  intros E%require_Ok. destruct a as [[v|v|v]|]; simplify_eq/=; repeat case_match; simplify_eq/=;
    apply fmap_is_Some, peek_enough; simpl; lia.
Qed.
Lemma account_address_length a p : require (account_address_to_ffi a) = Ok p -> length p = 32%nat.
Proof. intros E%require_Ok. unfold account_address_to_ffi in E. by case_decide; simplify_eq. Qed.
Lemma module_reference_length m p : require (module_reference_to_ffi m) = Ok p -> length p = 32%nat.
Proof. intros E%require_Ok. unfold module_reference_to_ffi in E. by case_decide; simplify_eq. Qed.
Lemma transaction_hash_length h p : require (transaction_hash_to_ffi h) = Ok p -> length p = 32%nat.
Proof. intros E%require_Ok. unfold transaction_hash_to_ffi in E. by case_decide; simplify_eq. Qed.

Lemma blocks_at_height_restrict r h g x :
  require (blocks_at_height_request_to_ffi r) = Ok (h, g, x) -> x = 0 \/ x = 1.
Proof.
  intros E%require_Ok. destruct r as [[[hh|]|[hh|] [gg|] restrict]|]; simplify_eq/=; [by left|].
  destruct restrict; auto.
Qed.

Lemma invoker_readable i t a ci cs :
  invoker_to_ffi i = Ok (t, a, ci, cs) -> is_Some (decodeInvoker t a ci cs).
Proof.
  intros E. destruct i as [[[account|contract]|]|]; simplify_eq/=; [|by eexists..].
  destruct (account_address_to_ffi account) as [p|] eqn:Ea; simplify_eq/=.
  unfold decodeInvoker. simpl. apply fmap_is_Some, peek_enough.
  unfold account_address_to_ffi in Ea. case_decide; simplify_eq. lia.
Qed.

Lemma ascii_text_len s : is_ascii_text s = true -> text_len s = length s.
Proof.
  unfold is_ascii_text, text_len. induction s as [|c s IH]; [done|]. cbn [forallb]. intros Hc.
  bool_hyps. rewrite fmap_cons. cbn [sum_list length]. rewrite IH by done.
  unfold len_utf8. by rewrite (proj2 (Z.ltb_lt c 128)).
Qed.
Lemma receive_name_length s b n :
  require (receive_name_to_ffi s) = Ok (b, n) -> n = Z.of_nat (length b) /\ n <= 100.
Proof.
  intros E%require_Ok. unfold receive_name_to_ffi in E.
  destruct (is_ascii_text s && _) eqn:Eb; simplify_eq. bool_hyps.
  unfold ascii_bytes. rewrite length_fmap, ascii_text_len in * by done. lia.
Qed.
Lemma parameter_length p b n :
  parameter_to_ffi p = Ok (b, n) -> n = Z.of_nat (length b) /\ in_u32 n.
Proof.
  unfold parameter_to_ffi. case_match eqn:E; intros; simplify_eq. bool_hyps. split; [done|].
  unfold in_u. lia.
Qed.

(** The arguments of an invocation, with the energy of the request. *)
Lemma invocation_readable request i :
  invocation request = Ok i ->
  invocation_ok i /\ ii_energy request = Some (invoke_energy i).
Proof.
  unfold invocation. intros E.
  destruct (invoker_to_ffi _) as [[[[t a] ci] cs]| |] eqn:Ei; try done. cbn [mbind outcome_bind] in E.
  destruct (ii_amount request) as [amount|]; try done. cbn [require mbind outcome_bind] in E.
  destruct (ii_entrypoint request) as [entry|]; try done. cbn [require mbind outcome_bind] in E.
  destruct (require (receive_name_to_ffi entry)) as [[name nlen]| |] eqn:En; try done.
  cbn [mbind outcome_bind] in E.
  destruct (ii_parameter request) as [par|]; try done. cbn [require mbind outcome_bind] in E.
  destruct (parameter_to_ffi par) as [[p plen]| |] eqn:Ep; try done. cbn [mbind outcome_bind] in E.
  destruct (ii_energy request) as [energy|]; try done. cbn [require mbind outcome_bind] in E.
  destruct (ii_instance request) as [c|]; try done. cbn [require mbind outcome_bind] in E.
  injection E as <-. apply invoker_readable in Ei. apply receive_name_length in En as [-> ?].
  apply parameter_length in Ep as [-> ?]. done.
Qed.

Lemma signature_bytes_length sigs b : signature_bytes sigs = Ok b -> length b = (2 * length sigs)%nat.
Proof.
  unfold signature_bytes. revert b. induction sigs as [|[c k] sigs IH]; intros b E; [by simplify_eq/=|].
  cbn [mapM] in E. destruct (below 256 _ c) as [c'| |]; try done. cbn [mbind outcome_bind] in E.
  destruct (below 256 _ k) as [k'| |]; try done. cbn [mbind outcome_bind mret] in E.
  destruct (mapM _ sigs) as [pairs| |]; try done. cbn [mbind outcome_bind mret outcome_ret] in *.
  specialize (IH _ eq_refl). injection E as <-. simpl in *. lia.
Qed.

(** ** All queries *)

(** The energy that a call may use. *)
Definition metered (c : ffi_call) : option Z :=
  match c with
  | invokeInstanceV2 _ _ i => Some (invoke_energy i)
  | dryRunStart energy_quota => Some energy_quota
  | _ => None
  end.
(** A call that can be read, and that may not use more than [limit]. *)
Definition allowed (limit : Z) (c : ffi_call) : Prop :=
  call_ok c /\ forall energy, metered c = Some energy -> energy <= limit.

Create HintDb queries discriminated.
#[export] Hint Resolve block_ffi_readable epoch_readable account_readable account_address_length
  module_reference_length transaction_hash_length blocks_at_height_restrict : queries.

Section calls.
Context `{ChainTypes} `{ConcordiumBase} {Cs : Type}.
Variable ffi : ffi_call -> Cs -> Answer * Cs.
Variable limit : Z.
(** What is to be kept of the state of the library, by the calls that are allowed. *)
Variable I : Cs -> Prop.
Hypothesis I_kept : forall c cs, allowed limit c -> I cs -> I (ffi c cs).2.

Definition in_world (w : World) : Prop := I (library w).

Lemma keeps_call c : allowed limit c -> keeps in_world (call ffi c).
Proof.
  intros Hc w Hw. unfold call. pose proof (I_kept c _ Hc Hw) as H'. by destruct (ffi c (library w)).
Qed.
Lemma keeps_free_call c : call_ok c -> metered c = None -> keeps in_world (call ffi c).
Proof. intros Hc Hm. apply keeps_call. split; [done|]. by rewrite Hm. Qed.
Lemma keeps_into_raw p : keeps in_world (into_raw (Cs := Cs) p).
Proof. by intros w. Qed.
Lemma keeps_free_sender p : keeps in_world (free_sender (Cs := Cs) p).
Proof. intros w Hw. unfold free_sender. by destruct (drop_sender p (streams w)). Qed.

(** One step of a query: the call that it makes is left. *)
Ltac keeps_step :=
  match goal with
  | |- keeps _ (mbind _ (lift _)) => apply keeps_bind_lift; intros ? ?
  | |- keeps _ (mbind _ _) => apply keeps_bind; [|intros]
  | |- keeps _ (mret _) => apply keeps_ret
  | |- keeps _ (lift _) => apply keeps_lift
  | |- keeps _ (into_raw _) => apply keeps_into_raw
  | |- keeps _ (free_sender _) => apply keeps_free_sender
  | |- keeps _ (call _ _) => apply keeps_free_call; [simpl; eauto with queries|done]
  | |- keeps _ (let '(_, _) := ?x in _) => destruct x
  | |- keeps _ (match ?x with _ => _ end) => destruct x
  end.
Ltac keeps_all := repeat keeps_step.

(** A call with the block of a request. *)
Lemma keeps_with_block {A} bhi (k : Z * list byte -> M World A) :
  (forall t b, block_readable t b -> keeps in_world (k (t, b))) ->
  keeps in_world (lift (block_ffi bhi) ≫= k).
Proof. intros Hk. apply keeps_bind_lift. intros [t b] E. apply Hk. by eapply block_ffi_readable. Qed.

Lemma keeps_block_query f what bhi :
  (forall t b, block_readable t b -> call_ok (f t b) /\ metered (f t b) = None) ->
  keeps in_world (block_query ffi f what bhi).
Proof.
  intros Hf. apply keeps_with_block. intros t b [Hc Hm]%Hf. apply keeps_bind; [by apply keeps_free_call|].
  intros a. keeps_all.
Qed.
Lemma keeps_block_stream f what bhi sender :
  (forall p t b, block_readable t b -> call_ok (f p t b) /\ metered (f p t b) = None) ->
  keeps in_world (block_stream ffi f what bhi sender).
Proof.
  intros Hf. apply keeps_with_block. intros t b Hb. apply keeps_bind; [apply keeps_into_raw|].
  intros p. destruct (Hf p t b Hb). apply keeps_bind; [by apply keeps_free_call|]. intros a. keeps_all.
Qed.
Lemma keeps_pool_stream f request sender :
  (forall p t b k, block_readable t b -> call_ok (f p t b k) /\ metered (f p t b k) = None) ->
  keeps in_world (pool_stream ffi f request sender).
Proof.
  intros Hf. unfold pool_stream. keeps_step. apply keeps_with_block. intros t b Hb.
  keeps_step. apply keeps_bind; [apply keeps_into_raw|]. intros p.
  destruct (Hf p t b (baker_id_to_ffi a0) Hb). apply keeps_bind; [by apply keeps_free_call|].
  intros r. keeps_all.
Qed.

Lemma keeps_get_account_list bhi sender : keeps in_world (get_account_list_v2 ffi bhi sender).
Proof. apply keeps_with_block. intros t b Hb. keeps_all. Qed.
Lemma keeps_get_account_info bhi acc : keeps in_world (get_account_info_v2 ffi bhi acc).
Proof. apply keeps_with_block. intros t b Hb. keeps_all. Qed.
Lemma keeps_get_next_account_sequence_number a :
  keeps in_world (get_next_account_sequence_number_v2 ffi a).
Proof. unfold get_next_account_sequence_number_v2. keeps_all. Qed.
Lemma keeps_get_consensus_info : keeps in_world (get_consensus_info_v2 ffi).
Proof. unfold get_consensus_info_v2. keeps_all. Qed.
Lemma keeps_get_cryptographic_parameters bhi :
  keeps in_world (get_cryptographic_parameters_v2 ffi bhi).
Proof. apply keeps_with_block. intros t b Hb. keeps_all. Qed.
Lemma keeps_get_module_source bhi m : keeps in_world (get_module_source_v2 ffi bhi m).
Proof. apply keeps_with_block. intros t b Hb. keeps_all. Qed.
Lemma keeps_get_instance_state bhi a : keeps in_world (get_instance_state_v2 ffi bhi a).
Proof. apply keeps_with_block. intros t b Hb. keeps_all. Qed.
Lemma keeps_get_first_block_epoch q : keeps in_world (get_first_block_epoch_v2 ffi q).
Proof. unfold get_first_block_epoch_v2. keeps_all. Qed.
Lemma keeps_get_winning_bakers_epoch q sender :
  keeps in_world (get_winning_bakers_epoch_v2 ffi q sender).
Proof. unfold get_winning_bakers_epoch_v2. keeps_all. Qed.
Lemma keeps_get_block_item_status h : keeps in_world (get_block_item_status_v2 ffi h).
Proof. unfold get_block_item_status_v2. keeps_all. Qed.
Lemma keeps_get_pool_info request : keeps in_world (get_pool_info_v2 ffi request).
Proof. unfold get_pool_info_v2. keeps_step. apply keeps_with_block. intros t b Hb. keeps_all. Qed.
Lemma keeps_get_blocks_at_height h : keeps in_world (get_blocks_at_height_v2 ffi h).
Proof. unfold get_blocks_at_height_v2. keeps_all. Qed.
Lemma keeps_get_branches : keeps in_world (get_branches_v2 ffi).
Proof. unfold get_branches_v2. keeps_all. Qed.
Lemma keeps_get_account_non_finalized_transactions a sender :
  keeps in_world (get_account_non_finalized_transactions_v2 ffi a sender).
Proof. unfold get_account_non_finalized_transactions_v2. keeps_all. Qed.
Lemma keeps_get_baker_earliest_win_time b : keeps in_world (get_baker_earliest_win_time_v2 ffi b).
Proof. unfold get_baker_earliest_win_time_v2. keeps_all. Qed.
Lemma keeps_send_transaction data : keeps in_world (send_transaction ffi data).
Proof. unfold send_transaction. keeps_all. Qed.

Lemma keeps_invoke_instance request :
  (forall energy, ii_energy request = Some energy -> energy <= limit) ->
  keeps in_world (invoke_instance_v2 ffi request).
Proof.
  intros He. unfold invoke_instance_v2. keeps_step. apply keeps_with_block. intros t b Hb.
  apply keeps_bind_lift. intros i [Hi Hen]%invocation_readable. keeps_step; [|keeps_all].
  apply keeps_call. split; [done|]. intros energy [= <-]. by apply He.
Qed.

(** *** Dry runs *)

Lemma keeps_dry_run_start quota : quota <= limit -> keeps in_world (dry_run_start ffi quota).
Proof.
  intros Hq. unfold dry_run_start. keeps_step; [|keeps_all]. apply keeps_call. split; [done|].
  by intros energy [= <-].
Qed.
Lemma keeps_dry_run_drop handle : keeps in_world (dry_run_drop ffi handle).
Proof. unfold dry_run_drop. keeps_all. Qed.
Lemma keeps_dry_run_call c origin :
  call_ok c -> metered c = None -> keeps in_world (dry_run_call ffi c origin).
Proof. intros. unfold dry_run_call. keeps_step; [by apply keeps_free_call|keeps_all]. Qed.
Lemma keeps_dry_load_block_state handle bhi : keeps in_world (dry_load_block_state ffi handle bhi).
Proof. apply keeps_with_block. intros t b Hb. by apply keeps_dry_run_call. Qed.
Lemma keeps_dry_get_account_info handle target :
  keeps in_world (dry_get_account_info ffi handle target).
Proof.
  unfold dry_get_account_info. apply keeps_bind_lift. intros [t a] E%account_readable.
  by apply keeps_dry_run_call.
Qed.
Lemma keeps_dry_invoke_instance handle request :
  keeps in_world (dry_invoke_instance ffi handle request).
Proof.
  unfold dry_invoke_instance. apply keeps_bind_lift. intros i [Hi _]%invocation_readable.
  by apply keeps_dry_run_call.
Qed.
Lemma keeps_dry_mint_to_account handle account amount :
  keeps in_world (dry_mint_to_account ffi handle account amount).
Proof.
  unfold dry_mint_to_account. keeps_step. apply keeps_bind_lift. intros p E%account_address_length.
  keeps_step. by apply keeps_dry_run_call.
Qed.
Lemma keeps_dry_transaction handle request : keeps in_world (dry_transaction ffi handle request).
Proof.
  unfold dry_transaction. do 2 keeps_step. apply keeps_bind_lift. intros p E%account_address_length.
  keeps_step. apply keeps_bind_lift. intros sigs Es%signature_bytes_length.
  apply keeps_dry_run_call; [|done]. split; [done|]. rewrite Es. lia.
Qed.
End calls.

(** ** No panics *)

Definition calm {A} (o : outcome A) : Prop := o <> Panic.
Definition no_panic {St A} (m : M St A) : Prop := forall s, (m s).1 <> Panic.

Lemma calm_Ok {A} (a : A) : calm (Ok a).
Proof. done. Qed.
Lemma calm_fail {A} c what : calm (fail_with (A := A) c what).
Proof. done. Qed.
Lemma calm_require {A} (o : option A) : calm (require o).
Proof. by destruct o. Qed.
Lemma calm_bind {A B} (o : outcome A) (k : A -> outcome B) :
  calm o -> (forall a, calm (k a)) -> calm (o ≫= k).
Proof. destruct o; simpl; [|done..]. intros _ Hk. apply Hk. Qed.
Lemma calm_fmap {A B} (f : A -> B) (o : outcome A) : calm o -> calm (f <$> o).
Proof. by destruct o. Qed.
Lemma calm_mapM {A B} (f : A -> outcome B) l : (forall x, calm (f x)) -> calm (mapM f l).
Proof.
  intros Hf. induction l as [|x l IH]; [done|]. cbn [mapM]. apply calm_bind; [apply Hf|].
  intros y. by apply calm_bind.
Qed.

Create HintDb calm discriminated.
#[export] Hint Resolve calm_Ok calm_fail calm_require calm_fmap : calm.

(** Through the structure of a conversion. *)
Ltac calm_step :=
  match goal with
  | |- calm (mbind _ _) => apply calm_bind; [|intros ?]
  | |- calm (fmap _ _) => apply calm_fmap
  | |- calm (mapM _ _) => apply calm_mapM; intros ?
  | |- calm (let '(_, _) := ?x in _) => destruct x
  | |- calm (match ?x with _ => _ end) => destruct x
  | |- calm _ => solve [auto with calm]
  end.
Ltac calm_all := repeat calm_step.

Lemma calm_query_code v : calm (ConsensusQueryResponse_try_from v).
Proof. unfold ConsensusQueryResponse_try_from. calm_all. Qed.
Lemma calm_ensure_ok r what : calm (ensure_ok r what).
Proof. by destruct r. Qed.
Lemma calm_block_ffi bhi : calm (block_ffi bhi).
Proof. unfold block_ffi. calm_all. Qed.
Lemma calm_epoch_ffi q : calm (epoch_ffi q).
Proof. unfold epoch_ffi. calm_all. Qed.
Lemma calm_invoker i : calm (invoker_to_ffi i).
Proof. unfold invoker_to_ffi. calm_all. Qed.
Lemma calm_parameter p : calm (parameter_to_ffi p).
Proof. unfold parameter_to_ffi. calm_all. Qed.
Lemma calm_below b what v : calm (below b what v).
Proof. unfold below, invalid_argument. calm_all. Qed.
#[export] Hint Resolve calm_query_code calm_ensure_ok calm_block_ffi calm_epoch_ffi calm_invoker
  calm_parameter calm_below : calm.
Lemma calm_invocation request : calm (invocation request).
Proof. unfold invocation. calm_all. Qed.
Lemma calm_signature_bytes sigs : calm (signature_bytes sigs).
Proof. unfold signature_bytes. calm_all. Qed.
Lemma calm_check_result r origin : calm (check_result r origin).
Proof. unfold check_result. calm_all. Qed.
#[export] Hint Resolve calm_invocation calm_signature_bytes calm_check_result : calm.

Lemma no_panic_lift {St A} (o : outcome A) : calm o -> no_panic (St := St) (lift o).
Proof. by intros Ho s. Qed.
Lemma no_panic_ret {St A} (a : A) : no_panic (St := St) (mret a).
Proof. by intros s. Qed.
Lemma no_panic_bind {St A B} (m : M St A) (k : A -> M St B) :
  no_panic m -> (forall a, no_panic (k a)) -> no_panic (m ≫= k).
Proof.
  intros Hm Hk s. unfold mbind, M_bind. pose proof (Hm s) as H.
  destruct (m s) as [[a| |] s']; [by apply Hk|done|done].
Qed.

Section conversions.
Context `{ConcordiumBase}.
Lemma calm_validated {A} (valid : A -> bool) what v : calm (validated valid what v).
Proof. unfold validated, invalid_argument. calm_all. Qed.
#[local] Hint Resolve calm_validated : calm.
Lemma calm_encoded_payload p : calm (encoded_payload p).
Proof.
  unfold encoded_payload, invalid_argument, try_module_ref, try_init_name, try_receive_name,
    try_parameter, try_memo, try_registered_data, try_account_address. calm_all.
Qed.
#[local] Hint Resolve calm_encoded_payload : calm.
Lemma calm_pre_account_transaction v : calm (pre_account_transaction v).
Proof. unfold pre_account_transaction, try_account_address. calm_all. Qed.
#[local] Hint Resolve calm_pre_account_transaction : calm.
Lemma calm_try_signature v : calm (try_signature v).
Proof. unfold try_signature, invalid_argument. calm_all. Qed.
#[local] Hint Resolve calm_try_signature : calm.
Lemma calm_get_v0_format r : calm (get_v0_format r).
Proof. unfold get_v0_format, account_signatures, update_signatures, invalid_argument. calm_all. Qed.
End conversions.
#[export] Hint Resolve calm_encoded_payload calm_pre_account_transaction calm_get_v0_format : calm.

Section no_panics.
Context `{ChainTypes} `{ConcordiumBase} {Cs : Type}.
Variable ffi : ffi_call -> Cs -> Answer * Cs.

Lemma no_panic_call c : no_panic (call ffi c).
Proof. intros w. unfold call. by destruct (ffi c (library w)). Qed.
Lemma no_panic_into_raw p : no_panic (into_raw (Cs := Cs) p).
Proof. by intros w. Qed.
Lemma calm_checked response what : calm (checked response what).
Proof. unfold checked. calm_all. Qed.
Lemma calm_known_code response : calm (known_code response).
Proof. unfold known_code. calm_all. Qed.
#[local] Hint Resolve calm_checked calm_known_code : calm.

Ltac quiet_step :=
  match goal with
  | |- no_panic (mbind _ _) => apply no_panic_bind; [|intros ?]
  | |- no_panic (mret _) => apply no_panic_ret
  | |- no_panic (lift _) => apply no_panic_lift; calm_all
  | |- no_panic (into_raw _) => apply no_panic_into_raw
  | |- no_panic (call _ _) => apply no_panic_call
  | |- no_panic (let '(_, _) := ?x in _) => destruct x
  | |- no_panic (match ?x with _ => _ end) => destruct x
  end.
Ltac quiet := repeat quiet_step.

Lemma no_panic_block_query f what bhi : no_panic (block_query ffi f what bhi).
Proof. unfold block_query. quiet. Qed.
Lemma no_panic_block_stream f what bhi sender : no_panic (block_stream ffi f what bhi sender).
Proof. unfold block_stream. quiet. Qed.
Lemma no_panic_pool_stream f request sender : no_panic (pool_stream ffi f request sender).
Proof. unfold pool_stream. quiet. Qed.

(** The box that is freed is the one that has been made. *)
Lemma no_panic_get_account_list bhi sender : no_panic (get_account_list_v2 ffi bhi sender).
Proof.
  unfold get_account_list_v2. quiet_step; [quiet|]. destruct a as [t b]. intros w.
  unfold mbind, M_bind, into_raw, call. cbn [library streams].
  destruct (ffi _ (library w)) as [response cs]. cbn [lift].
  destruct (ConsensusQueryResponse_try_from _) as [r| |] eqn:E; [|done|by eapply calm_query_code in E].
  destruct (ensure_ok r "block") eqn:Er; [done| |by eapply calm_ensure_ok in Er].
  unfold free_sender, drop_sender. cbn [streams boxes]. by rewrite lookup_insert_eq.
Qed.
Lemma no_panic_get_account_info bhi acc : no_panic (get_account_info_v2 ffi bhi acc).
Proof. unfold get_account_info_v2. quiet. Qed.
Lemma no_panic_get_next_account_sequence_number a :
  no_panic (get_next_account_sequence_number_v2 ffi a).
Proof. unfold get_next_account_sequence_number_v2. quiet. Qed.
Lemma no_panic_get_consensus_info : no_panic (get_consensus_info_v2 ffi).
Proof. unfold get_consensus_info_v2. quiet. Qed.
Lemma no_panic_get_cryptographic_parameters bhi : no_panic (get_cryptographic_parameters_v2 ffi bhi).
Proof. unfold get_cryptographic_parameters_v2. quiet. Qed.
Lemma no_panic_get_module_source bhi m : no_panic (get_module_source_v2 ffi bhi m).
Proof. unfold get_module_source_v2. quiet. Qed.
Lemma no_panic_get_instance_state bhi a : no_panic (get_instance_state_v2 ffi bhi a).
Proof. unfold get_instance_state_v2. quiet. Qed.
Lemma no_panic_get_first_block_epoch q : no_panic (get_first_block_epoch_v2 ffi q).
Proof. unfold get_first_block_epoch_v2. quiet. Qed.
Lemma no_panic_get_winning_bakers_epoch q sender : no_panic (get_winning_bakers_epoch_v2 ffi q sender).
Proof. unfold get_winning_bakers_epoch_v2. quiet. Qed.
Lemma no_panic_get_block_item_status h : no_panic (get_block_item_status_v2 ffi h).
Proof. unfold get_block_item_status_v2. quiet. Qed.
Lemma no_panic_invoke_instance request : no_panic (invoke_instance_v2 ffi request).
Proof. unfold invoke_instance_v2. quiet. Qed.
Lemma no_panic_get_pool_info request : no_panic (get_pool_info_v2 ffi request).
Proof. unfold get_pool_info_v2. quiet. Qed.
Lemma no_panic_get_blocks_at_height h : no_panic (get_blocks_at_height_v2 ffi h).
Proof. unfold get_blocks_at_height_v2. quiet. Qed.
Lemma no_panic_get_branches : no_panic (get_branches_v2 ffi).
Proof. unfold get_branches_v2. quiet. Qed.
Lemma no_panic_get_account_non_finalized_transactions a sender :
  no_panic (get_account_non_finalized_transactions_v2 ffi a sender).
Proof. unfold get_account_non_finalized_transactions_v2. quiet. Qed.
Lemma no_panic_get_baker_earliest_win_time b : no_panic (get_baker_earliest_win_time_v2 ffi b).
Proof. unfold get_baker_earliest_win_time_v2. quiet. Qed.

(** The codes that the library answers transactions with are known. *)
Lemma no_panic_send_transaction data :
  (forall cs, is_ok (ConsensusFfiResponse_try_from (ret_code (ffi (receiveTransaction data) cs).1)) = true) ->
  no_panic (send_transaction ffi data).
Proof.
  intros Hk w. unfold send_transaction, mbind, M_bind, call. specialize (Hk (library w)).
  destruct (ffi _ (library w)) as [response cs]. cbn [fst] in Hk.
  by destruct (ConsensusFfiResponse_try_from (ret_code response)).
Qed.

Lemma no_panic_dry_run_start quota : no_panic (dry_run_start ffi quota).
Proof. unfold dry_run_start. quiet. Qed.
Lemma no_panic_dry_run_call c origin : no_panic (dry_run_call ffi c origin).
Proof. unfold dry_run_call. quiet. Qed.
End no_panics.

(** ** Streams that fail *)

(** If the block that a client asks for does not exist, the sender of the stream
    stays allocated: no code has it any more.  Only the list of accounts frees
    it. *)
Theorem failed_stream_keeps_sender `{ChainTypes} {Cs : Type} (ffi : ffi_call -> Cs -> Answer * Cs)
    bhi t b sender w :
  block_ffi bhi = Ok (t, b) ->
  ret_code (ffi (getModuleListV2 sender t b) (library w)).1 = 1 ->
  ret_code (ffi (getAccountListV2 sender t b) (library w)).1 = 1 ->
  (let '(r, w') := get_module_list_v2 ffi bhi sender w in
   is_ok r = false /\ boxes (streams w') !! sender = Some []) /\
  (let '(r, w') := get_account_list_v2 ffi bhi sender w in
   is_ok r = false /\ boxes (streams w') !! sender = None).
Proof.
  intros Eb E1 E2.
  unfold get_module_list_v2, block_stream, get_account_list_v2, mbind, M_bind, lift, into_raw, call.
  rewrite Eb. cbn [library streams]. split.
  - destruct (ffi (getModuleListV2 sender t b) (library w)) as [a cs]. cbn [fst] in E1.
    unfold checked. rewrite E1. cbn. split; [done|apply lookup_insert_eq].
  - destruct (ffi (getAccountListV2 sender t b) (library w)) as [a cs]. cbn [fst] in E2.
    rewrite E2. cbn -[insert delete lookup]. unfold free_sender, drop_sender. cbn [streams boxes].
    rewrite lookup_insert_eq. cbn -[insert delete lookup]. split; [done|apply lookup_delete_eq].
Qed.
