(* ===== verification/Connectivity.v ===== *)
(** * Connectivity

    Models [concordium-node/src/p2p/connectivity.rs] and [p2p/peers.rs]:
    sending over connections, accepting and opening connections, housekeeping,
    bootstrapping and the measurement of throughput; with the start-up
    connections of [bin/cli.rs]. *)

From stdpp Require Import base tactics list gmap strings option numbers.
From Stdlib Require Import ZArith Floats.SpecFloat.
From S2P Require Import Prelude Common Helpers LowLevel Wire Conn Buckets CatchUp Queues.
From S2P Require Import Config Bans Node.

(** The poll token of the node's socket server. *)
Definition SELF_TOKEN : Token := 0.

(** [env!("CARGO_PKG_VERSION")]. *)
Definition CARGO_PKG_VERSION : list byte :=
  byte_of_Z ∘ Z.of_nat ∘ Ascii.nat_of_ascii <$> String.list_ascii_of_string "6.3.0".

Section connectivity.
Context `{External}.

(** ** Sending *)

(** [P2PNode::send_over_all_connections]: the number of messages queued. *)
Definition send_over_all_connections (data : list byte) (conn_filter : Connection -> bool)
    (n : P2PNode) : nat * P2PNode :=
  (length (filter (fun c => conn_filter c = true) (values (connections_of n))),
   upd_connections (fmap (fun c => if conn_filter c then async_send data Normal c else c)) n).

(** [P2PNode::broadcast_network_request], [send_join_network],
    [send_leave_network]. *)
Definition broadcast_network_request (now : Z) (request : NetworkRequest) (n : P2PNode)
    : P2PNode :=
  let serialized := serialize now (netmsg now (NetworkRequestPayload request)) in
  (send_over_all_connections serialized (fun _ => true) n).2.
Definition send_join_network (now : Z) (id : NetworkId) : P2PNode -> P2PNode :=
  broadcast_network_request now (JoinNetwork id).
Definition send_leave_network (now : Z) (id : NetworkId) : P2PNode -> P2PNode :=
  broadcast_network_request now (LeaveNetwork id).

(** [P2PNode::send_get_peers]. *)
Definition send_get_peers (now : Z) (n : P2PNode) : P2PNode :=
  broadcast_network_request now (GetPeers (node_networks (handler n))) n.

(** [P2PNode::measure_connection_latencies]. *)
Definition measure_connection_latencies (now : Z) : P2PNode -> P2PNode :=
  upd_connections (fmap (send_ping now)).

(** [is_valid_broadcast_target]. *)
Definition is_valid_broadcast_target (c : Connection) (peers_to_skip : list RemotePeerId)
    (network_id : NetworkId) : bool :=
  bool_decide (peer_type (remote_peer c) <> Bootstrapper)
  && bool_decide (local_id (remote_peer c) ∉ peers_to_skip)
  && bool_decide (network_id ∈ remote_end_networks c).

(** The peers that a packet is not sent to; [seed] is drawn at random. *)
Definition peers_to_skip (seed : Z) (destination : PacketDestination) (n : P2PNode)
    : outcome (list RemotePeerId) :=
  match destination with
  | Direct _ => Ok []
  | Broadcast dont_relay_to =>
      if SFltb (relay_broadcast_percentage (config n)) (f64_of_Z 1) then
        match get_node_peer_tokens n with
        | Ok tokens =>
            let peers := filter (fun t => t ∉ dont_relay_to) tokens in
            let peers_to_take :=
              floor_as_uint 64 (f64_mul (f64_of_Z (u32_wrap (Z.of_nat (length peers))))
                                  (relay_broadcast_percentage (config n))) in
            Ok (choose_multiple seed (Z.to_nat peers_to_take) peers)
        | Err e => Err e
        | Panic => Panic
        end
      else Ok dont_relay_to
  end.

(** [P2PNode::process_network_packet]: the number of messages queued. *)
Definition process_network_packet (now seed : Z) (inner_pkt : NetworkPacket) : M P2PNode nat :=
  fun n =>
  match peers_to_skip seed (destination inner_pkt) n with
  | Ok skip =>
      let serialized := serialize now (netmsg now (NetworkPacketPayload inner_pkt)) in
      let conn_filter (c : Connection) :=
        match destination inner_pkt with
        | Direct receiver => bool_decide (local_id (remote_peer c) = receiver)
        | Broadcast _ => is_valid_broadcast_target c skip (network_id inner_pkt)
        end in
      let '(sent, n') := send_over_all_connections serialized conn_filter n in
      (Ok sent, n')
  | Err e => (Err e, n)
  | Panic => (Panic, n)
  end.

(** [send_message_over_network], [send_direct_message],
    [send_broadcast_message]. *)
Definition send_message_over_network (now seed : Z) (target_id : option RemotePeerId)
    (dont_relay_to : list RemotePeerId) (network_id : NetworkId) (message : list byte)
    : M P2PNode nat := fun n =>
  let destination :=
    match target_id with Some id => Direct id | None => Broadcast dont_relay_to end in
  match process_network_packet now seed (mkPacket destination network_id message) n with
  | (Ok sent, n') => (Ok sent, n')
  | (Err _, n') => (Ok 0%nat, n')
  | (Panic, n') => (Panic, n')
  end.
Definition send_direct_message (now : Z) (target_id : RemotePeerId) (network_id : NetworkId)
    (msg : list byte) : M P2PNode nat :=
  send_message_over_network now 0 (Some target_id) [] network_id msg.
Definition send_broadcast_message (now seed : Z) (dont_relay_to : list RemotePeerId)
    (network_id : NetworkId) (msg : list byte) : M P2PNode nat :=
  send_message_over_network now seed None dont_relay_to network_id msg.

(** [P2PNode::produce_handshake_request]. *)
Definition produce_handshake_request (now : Z) (n : P2PNode) : outcome (list byte) :=
  version ← version_parse CARGO_PKG_VERSION;
  Ok (serialize now (netmsg now (NetworkRequestPayload (HandshakeRequest {|
    remote_id := peer_id (self_peer n);
    remote_port := port (peer_addr (self_peer n));
    networks := node_networks (handler n);
    node_version := version;
    wire_versions := WIRE_PROTOCOL_VERSIONS;
    genesis_blocks := regenesis_blocks (regenesis n);
    proof := [];
  |})))).

(** ** Accepting and opening connections *)

Inductive AcceptFailureReason :=
| TooManyConnections (a : SocketAddr)
| AlreadyConnectedToIP (a : IpAddr)
| DuplicateConnection (a : SocketAddr)
| Banned
| SoftBanned
| OtherFailure (e : error).

(** What the operating system gives for a new connection: a socket, whether it
    could be registered with the poll registry, and a fresh key pair. *)
Record NewSocket := mkNewSocket {
  ns_socket : Socket;
  ns_registered : bool;
  ns_keypair : Keypair;
}.

Definition new_connection (now : Z) (s : NewSocket) (peer : RemotePeer) (is_initiator : bool)
    (n : P2PNode) : outcome Connection :=
  connection_new now (ns_registered s) (ns_keypair s) (socket_so_linger (config n))
    (socket_read_size (config n)) (socket_write_size (config n)) (ns_socket s) peer is_initiator.

Definition inc_connections_received : P2PNode -> P2PNode :=
  upd_node_stats (upd_connections_received (fun x => x + 1)).

(** [next_token.fetch_add(1)]. *)
Definition take_token (n : P2PNode) : Token * P2PNode :=
  (next_token (handler n), upd_next_token (fun t => u64_wrap (t + 1)) n).

(** Why [accept] turns a connection from [a] down, if it does. *)
Definition accept_refusal (a : SocketAddr) (n : P2PNode) : option AcceptFailureReason :=
  let conns := all_connections n in
  if ok_or false (is_banned (PersistedIp (ip a)) (kvs n)) then Some Banned
  else if bool_decide (node_type n = Node)
          && (hard_connection_limit (config n)
              <=? Z.of_nat (size (candidates_of n) + size (connections_of n)))
  then Some (TooManyConnections a)
  else
    let same_ip := filter (fun c => ip (remote_addr c) = ip a) conns in
    if disallow_multiple_peers_on_ip (config n) && negb (bool_decide (same_ip = []))
    then Some (AlreadyConnectedToIP (ip a))
    else if negb (disallow_multiple_peers_on_ip (config n))
            && existsb (fun c => bool_decide (port (remote_addr c) = port a)
                                 || bool_decide (external_port (remote_peer c) = port a)) same_ip
    then Some (DuplicateConnection a)
    else if is_soft_banned a (handler n) then Some SoftBanned
    else None.

(** [accept]. *)
Definition accept (now : Z) (s : NewSocket) (a : SocketAddr) (n : P2PNode)
    : (Token + AcceptFailureReason) * P2PNode :=
  let n1 := inc_connections_received n in
  match accept_refusal a n1 with
  | Some reason => (inr reason, n1)
  | None =>
      let '(t, n2) := take_token n1 in
      let peer := mkRemotePeer None a (from_token t) (port a) Node in
      match new_connection now s peer false n2 with
      | Ok conn => (inl t, upd_conn_candidates <[token conn := conn]> n2)
      | Err e => (inr (OtherFailure e), n2)
      | Panic => (inr (OtherFailure (OtherError "unreachable")), n2)
      end
  end.

(** The checks of [connect] before the connection is opened. *)
Definition connect_checks (t : PeerType) (a : SocketAddr) (respect_max_peers : bool) (n : P2PNode)
    : outcome unit :=
  _ ← (if respect_max_peers && bool_decide (t = Node) then
         match get_peer_stats (Some Node) n with
         | Ok stats =>
             ensure (u16_wrap (Z.of_nat (length stats)) <? max_allowed_nodes (config n))
               "Maximum number of peers reached"
         | Err e => Err e
         | Panic => Panic
         end
       else Ok tt);
  _ ← ensure (bool_decide (peer_addr (self_peer n) <> a)) "Attempted to connect to myself";
  _ ← ensure (negb (ok_or false (is_banned (PersistedIp (ip a)) (kvs n))))
        "Refusing to connect to a banned IP";
  _ ← ensure (negb (is_soft_banned a (handler n))) "Refusing to connect to a soft-banned IP";
  ensure (negb (existsb (fun c => if disallow_multiple_peers_on_ip (config n)
                                  then bool_decide (ip (remote_addr c) = ip a)
                                  else leads_to a c)
                  (values (connections_of n) ++ values (candidates_of n))))
    "Already connected".

(** A soft ban that expires [secs] seconds from [instant]. *)
Definition soft_ban (instant secs : Z) (id : BanId) (n : P2PNode) : P2PNode :=
  upd_node_stats
    (fun s => upd_soft_banned_peers_total (fun x => x + 1) (upd_soft_banned_peers (fun x => x + 1) s))
    (upd_soft_bans <[id := instant + 1000 * secs]> n).

(** [connect]; [answer] is [None] if [TcpStream::connect] fails. *)
Definition connect (now instant : Z) (answer : option NewSocket) (t : PeerType) (a : SocketAddr)
    (respect_max_peers : bool) : M P2PNode unit := fun n =>
  match connect_checks t a respect_max_peers n with
  | Ok _ =>
      match answer with
      | Some s =>
          let '(tok, n1) := take_token (inc_connections_received n) in
          let peer := mkRemotePeer None a (from_token tok) (port a) t in
          match new_connection now s peer true n1 with
          | Ok conn =>
              match send_handshake_message_a (low_level conn) with
              | (Ok _, l) =>
                  (Ok tt, upd_conn_candidates <[token conn := set_low_level l conn]> n1)
              | (Err e, _) => (Err e, n1)
              | (Panic, _) => (Panic, n1)
              end
          | Err e => (Err e, n1)
          | Panic => (Panic, n1)
          end
      | None =>
          (Err (IoError "connect"),
           if bool_decide (t = Node)
           then soft_ban instant UNREACHABLE_EXPIRATION_SECS (BanSocket a) n else n)
      end
  | Err e => (Err e, n)
  | Panic => (Panic, n)
  end.

(** ** Bootstrapping *)

(** [utils::get_bootstrap_nodes]; [resolve] is [ToSocketAddrs::to_socket_addrs]. *)
Definition get_bootstrap_nodes (resolve : string -> option (list SocketAddr))
    (nodes : list string) : outcome (list SocketAddr) :=
  match nodes with
  | [] => bail "No bootstrap nodes specified."
  | _ => Ok (concat (omap resolve nodes))
  end.

(** [attempt_bootstrap]. *)
Definition attempt_bootstrap (resolve : string -> option (list SocketAddr)) (n : P2PNode)
    : P2PNode :=
  if no_net (config n) then n
  else
    match get_bootstrap_nodes resolve (bootstrap_nodes (config n)) with
    | Ok nodes =>
        foldl (fun n a => register_conn_change (NewConn a Bootstrapper false) n) n nodes
    | _ => n
    end.

(** ** Housekeeping *)

Section housekeeping.
(** The time of [connection_housekeeping]. *)
Variable curr_stamp : Z.

Definition is_conn_faulty (n : P2PNode) (c : Connection) : bool :=
  match max_latency (config n) with
  | Some max_latency => max_latency <=? conn_latency c
  | None => false
  end.

Definition is_conn_inactive (n : P2PNode) (c : Connection) : bool :=
  (bool_decide (node_type n = Node)
   && (u64_wrap (conn_last_seen c + max_normal_keep_alive_ms (config n)) <? curr_stamp))
  || (bool_decide (node_type n = Bootstrapper)
      && (u64_wrap (stats_created (stats c) + MAX_BOOTSTRAPPER_KEEP_ALIVE) <? curr_stamp)).

Definition is_conn_without_handshake (c : Connection) : bool :=
  u64_wrap (stats_created (stats c) + MAX_PREHANDSHAKE_KEEP_ALIVE) <? curr_stamp.

(** Remove candidates without handshakes, and faulty and inactive
    connections. *)
Definition remove_stale (n : P2PNode) : P2PNode :=
  let n1 := retain_candidates (fun c => negb (is_conn_without_handshake c)) n in
  let stale c := is_conn_faulty n1 c || is_conn_inactive n1 c in
  let faulty_removed := existsb stale (values (connections_of n1)) in
  let n2 := retain_connections (fun c => negb (stale c)) n1 in
  if faulty_removed then bump_last_peer_update curr_stamp n2 else n2.

(** Close a random selection of connections that are not given, if there are
    too many peers. *)
Definition remove_excess (seed : Z) : M P2PNode unit := fun n =>
  if bool_decide (node_type n = Node) then
    match get_peer_stats (Some Node) n with
    | Ok stats =>
        let peer_count := u16_wrap (Z.of_nat (length stats)) in
        if max_allowed_nodes (config n) <? peer_count then
          let not_given := (filter (fun e => is_given_connection e.2 n = false)
                              (iter_map (connections_of n))).*1 in
          let to_drop := choose_multiple seed (Z.to_nat (peer_count - max_allowed_nodes (config n)))
                           not_given in
          (Ok tt, (remove_connections curr_stamp to_drop n).2)
        else (Ok tt, n)
    | Err e => (Err e, n)
    | Panic => (Panic, n)
    end
  else (Ok tt, n).

(** Lift the soft bans that have expired. *)
Definition lift_soft_bans (instant : Z) (n : P2PNode) : P2PNode :=
  if bool_decide (soft_bans (handler n) = ∅) then n
  else
    let n1 := upd_soft_bans (filter (fun e => instant < e.2)) n in
    upd_node_stats (upd_soft_banned_peers (fun _ => Z.of_nat (size (soft_bans (handler n1))))) n1.

(** Try to connect to the given addresses without a connection. *)
Definition connect_given (instant : Z) (answer : SocketAddr -> option NewSocket)
    : M P2PNode unit := fun n =>
  for_each (fun given => log_error (connect curr_stamp instant (answer given) Node given false))
    (iter_set (unconnected_given_addresses n)) n.

(** [connection_housekeeping]: whether it attempted to bootstrap. *)
Definition connection_housekeeping (instant seed : Z) (answer : SocketAddr -> option NewSocket)
    (resolve : string -> option (list SocketAddr)) : M P2PNode bool :=
  _ ← modify remove_stale;
  _ ← remove_excess seed;
  _ ← modify (lift_soft_bans instant);
  _ ← connect_given instant answer;
  _ ← modify (upd_bad_events (fun _ => bad_events_default));
  n ← get;
  if negb (no_bootstrap_dns (config n)) && bool_decide (node_type n = Node)
     && (u64_wrap (last_bootstrap (handler n) + bootstrapping_interval (config n) * 1000)
         <=? curr_stamp)
  then _ ← modify (attempt_bootstrap resolve); mret true
  else mret false.

End housekeeping.

(** [check_peers]. *)
Definition check_peers (now : Z) (resolve : string -> option (list SocketAddr))
    (peer_stats : list PeerStats) (attempted_bootstrap : bool) (n : P2PNode) : P2PNode :=
  if bool_decide (node_type n = Node) then
    let node_count := length (filter (fun p => ps_peer_type p = Node) peer_stats) in
    if negb (no_net (config n)) && (Z.of_nat node_count <? desired_nodes_count (config n)) then
      if bool_decide (peer_stats = []) then
        if negb attempted_bootstrap && negb (no_bootstrap_dns (config n))
        then attempt_bootstrap resolve n else n
      else send_get_peers now n
    else n
  else n.

(** ** Throughput *)

(** [calculate_average_throughput]: products and differences are those of
    [u64]. *)
Definition calculate_average_throughput
    (before_millis now_millis prev_bytes_recv bytes_recv prev_bytes_sent bytes_sent : Z)
    : outcome (Z * Z) :=
  _ ← ensure (before_millis <? now_millis)
        "Time went backwards or did not change. Refusing to calculate average throughput.";
  let delta := i64_wrap (now_millis - before_millis) mod 2 ^ 64 in
  let avg_bps_in := u64_wrap (1000 * u64_wrap (bytes_recv - prev_bytes_recv)) / delta in
  let avg_bps_out := u64_wrap (1000 * u64_wrap (bytes_sent - prev_bytes_sent)) / delta in
  Ok (avg_bps_in, avg_bps_out).

(** [P2PNode::measure_throughput]: the byte counts are stored before the
    computation, which may fail. *)
Definition measure_throughput (now : Z) : M P2PNode unit := fun n =>
  let s := node_stats n in
  let t := node_totals n in
  let stored timestamp bps_in bps_out :=
    upd_node_stats (fun s =>
      mkNodeStats (connected_peers s) (total_peers s) (connections_received s)
        (soft_banned_peers s) (soft_banned_peers_total s) (peer_bucket_size s)
        (received_consensus_messages s) (sent_consensus_messages s)
        timestamp (received_bytes t) (sent_bytes t) bps_in bps_out) n in
  match calculate_average_throughput (last_throughput_measurement_timestamp s) now
          (last_throughput_measurement_received_bytes s) (received_bytes t)
          (last_throughput_measurement_sent_bytes s) (sent_bytes t) with
  | Ok (bps_in, bps_out) => (Ok tt, stored now bps_in bps_out)
  | Err e =>
      (Err e, stored (last_throughput_measurement_timestamp s) (avg_bps_in s) (avg_bps_out s))
  | Panic => (Panic, n)
  end.

(** ** Start-up *)

(** [connect_to_config_nodes]. *)
Definition connect_to_config_nodes (now instant : Z) (answer : SocketAddr -> option NewSocket)
    : M P2PNode unit := fun n =>
  for_each (fun given => log_error (connect now instant (answer given) Node given false))
    (iter_set (given_addresses n)) n.

(** [connect_to_stored_nodes]. *)
Definition connect_to_stored_nodes (now instant : Z) (answer : SocketAddr -> option NewSocket)
    : M P2PNode unit := fun n =>
  match stored_keys PEERS_STORE_NAME (kvs n) with
  | Ok entries =>
      for_each (fun entry : outcome (list byte) => fun n =>
        match (peer_bytes ← entry; addr_from_json peer_bytes) with
        | Ok stored_peer =>
            log_error (connect now instant (answer stored_peer) Node stored_peer true) n
        | Err e => (Err e, n)
        | Panic => (Panic, n)
        end) entries n
  | Err e => (Err e, n)
  | Panic => (Panic, n)
  end.

(** [establish_connections]. *)
Definition establish_connections (now instant : Z) (answer : SocketAddr -> option NewSocket)
    (resolve : string -> option (list SocketAddr)) : M P2PNode unit :=
  _ ← connect_to_config_nodes now instant answer;
  _ ← log_error (connect_to_stored_nodes now instant answer);
  n ← get;
  if negb (no_bootstrap_dns (config n)) then modify (attempt_bootstrap resolve) else mret tt.

End connectivity.
