(* ===== verification/Consensus.v ===== *)
(** * The consensus plugin

    Models [concordium-node/src/plugins/consensus.rs]: packets from peers are
    queued for consensus, messages from consensus are routed to peers, inbound
    messages are passed to consensus and rebroadcast, and the catch-up list is
    kept.  The answers of the consensus library (Haskell, behind
    [consensus_ffi/ffi.rs]) are an argument. *)

From stdpp Require Import base tactics list gmap strings option numbers.
From Stdlib Require Import ZArith Floats.SpecFloat.
From S2P Require Import Prelude Common Helpers LowLevel Wire Conn Buckets CatchUp Queues.
From S2P Require Import Config Bans Node Connectivity.

(** The calls of [ConsensusContainer] that [send_msg_to_consensus] makes. *)
Inductive ConsensusCall :=
| ReceiveBlock (genesis_index : Z) (data : list byte)
| SendFinalization (genesis_index : Z) (data : list byte)
| SendFinalizationRecord (genesis_index : Z) (data : list byte)
| ReceiveCatchUpStatus (genesis_index : Z) (data : list byte) (source : RemotePeerId)
    (object_limit : Z)
| SendTransaction (data : list byte).

(** The library: [u32::deserial] of [concordium_base], and what consensus
    answers, with a callback that executes a block. *)
Class ConsensusLib := {
  u32_deserial : list byte -> outcome Z;
  ExecuteBlockCallback : Type;
  consensus_call : ConsensusCall -> ConsensusFfiResponse * option ExecuteBlockCallback;
  get_catch_up_status : list byte;
}.

Section consensus.
Context `{External}.

(** ** From the network to consensus *)

Definition count_received_message (labels : string * string) : P2PNode -> P2PNode :=
  upd_node_stats (upd_received_consensus_messages
    (fun m => <[labels := default 0 (m !! labels) + 1]> m)).
Definition count_sent_message (label : string) : P2PNode -> P2PNode :=
  upd_node_stats (upd_sent_consensus_messages
    (fun m => <[label := default 0 (m !! label) + 1]> m)).

(** [handle_pkt_out].  The queues are never disconnected. *)
Definition handle_pkt_out (dont_relay_to : list RemotePeerId) (peer_id : RemotePeerId)
    (msg : list byte) (is_broadcast : bool) : M P2PNode unit := fun n =>
  match msg with
  | [] => (bail "Packet payload can't be empty", n)
  | consensus_type :: payload =>
      match PacketType_try_from consensus_type with
      | Ok packet_type =>
          let mode := if is_broadcast then Helpers.Broadcast else Helpers.Direct in
          let request :=
            mkConsensusMessage (Inbound peer_id mode) packet_type msg dont_relay_to None in
          let dropped := count_received_message (packet_label packet_type, "dropped") n in
          if decide (packet_type = Transaction) then
            if PROTOCOL_MAX_TRANSACTION_SIZE <? Z.of_nat (length payload) then
              (bail "Transaction size exceeds the limit.", n)
            else
              (Ok tt, match send_in_low_priority_message request (callback_queue n) with
                      | Some q => upd_callback_queue (fun _ => q) n
                      | None => upd_bad_events (inc_dropped_low_queue peer_id) dropped
                      end)
          else
            (Ok tt, match send_in_high_priority_message request (callback_queue n) with
                    | Some q => upd_callback_queue (fun _ => q) n
                    | None => upd_bad_events (inc_dropped_high_queue peer_id) dropped
                    end)
      | Err e => (Err e, n)
      | Panic => (Panic, n)
      end
  end.

(** ** From consensus to the network *)

(** [send_consensus_msg_to_net]. *)
Definition send_consensus_msg_to_net (now seed : Z) (dont_relay_to : list RemotePeerId)
    (target_id : option RemotePeerId) (payload : list byte) : M P2PNode unit := fun n =>
  let network := default_network (config n) in
  match (match target_id with
         | Some id => send_direct_message now id network payload n
         | None => send_broadcast_message now seed dont_relay_to network payload n
         end) with
  | (Ok _, n') => (Ok tt, n')
  | (Err e, n') => (Err e, n')
  | (Panic, n') => (Panic, n')
  end.

(** [handle_consensus_outbound_msg]. *)
Definition handle_consensus_outbound_msg (now seed : Z) (message : ConsensusMessage)
    : M P2PNode unit := fun n =>
  let n1 := count_sent_message (packet_label (variant message)) n in
  match omit_status message with
  | Some status =>
      for_each (fun id => send_consensus_msg_to_net now seed [] (Some id) (msg_payload message))
        (filter (fun e => e.2 <> status) (iter_map (peer_states (peers n1)))).*1 n1
  | None =>
      match target_peer message with
      | Ok target =>
          send_consensus_msg_to_net now seed (msg_dont_relay_to message) target
            (msg_payload message) n1
      | Err e => (Err e, n1)
      | Panic => (Panic, n1)
      end
  end.

(** ** Inbound messages *)

Section library.
Context `{ConsensusLib}.

(** The call that [send_msg_to_consensus] makes for a message.  The slices of
    the payload are unchecked. *)
Definition consensus_request (source_id : RemotePeerId) (message : ConsensusMessage) (n : P2PNode)
    : outcome ConsensusCall :=
  payload ← match msg_payload message with [] => Panic | _ :: p => Ok p end;
  let with_index (call : Z -> list byte -> ConsensusCall) :=
    prefix ← slice payload 0 4;
    genesis_index ← u32_deserial prefix;
    Ok (call genesis_index (drop 4 payload)) in
  match variant message with
  | Block => with_index ReceiveBlock
  | FinalizationMessage => with_index SendFinalization
  | FinalizationRecord => with_index SendFinalizationRecord
  | CatchUpStatus =>
      with_index (fun genesis_index data =>
        ReceiveCatchUpStatus genesis_index data source_id (catch_up_batch_limit (config n)))
  | Transaction => Ok (SendTransaction payload)
  end.

(** Only the receipt of a block gives a callback. *)
Definition consensus_response (call : ConsensusCall)
    : ConsensusFfiResponse * option ExecuteBlockCallback :=
  let '(code, finalizer) := consensus_call call in
  (code, match call with ReceiveBlock _ _ => finalizer | _ => None end).

(** [send_msg_to_consensus]. *)
Definition send_msg_to_consensus (source_id : RemotePeerId) (message : ConsensusMessage)
    : M P2PNode (ConsensusFfiResponse * option ExecuteBlockCallback) := fun n =>
  match consensus_request source_id message n with
  | Ok call =>
      let response := consensus_response call in
      (Ok response,
       if is_acceptable response.1 then n else upd_bad_events (inc_invalid_messages source_id) n)
  | Err e => (Err e, n)
  | Panic => (Panic, n)
  end.

(** [update_peer_states]; the list of peers is locked throughout. *)
Definition update_peer_states (now seed : Z) (request : ConsensusMessage)
    (consensus_result : ConsensusFfiResponse) : M P2PNode unit := fun n =>
  match source_peer request with
  | Ok source =>
      let '(p, expel) := update_states_of request source consensus_result (peers n) in
      let n1 := upd_peers (fun _ => p) n in
      let n2 := if expel then register_conn_change (ExpulsionByToken (to_token source)) n1 else n1 in
      for_each (fun id => send_consensus_msg_to_net now seed [] (Some id) (msg_payload request))
        (relay_targets request source consensus_result p) n2
  | Err e => (Err e, n)
  | Panic => (Panic, n)
  end.

(** [Bernoulli::new(probability)?.sample(rng)]. *)
Definition bernoulli (seed : Z) (probability : f64) : outcome bool :=
  if SFleb (f64_of_Z 0) probability && SFleb probability (f64_of_Z 1) then Ok (coin seed)
  else bail "InvalidProbability".

(** [handle_consensus_inbound_msg]: the callback, if any, is executed at the
    end. *)
Definition handle_consensus_inbound_msg (now seed : Z) (request : ConsensusMessage)
    : M P2PNode (option ExecuteBlockCallback) :=
  n ← get;
  drop_message ← lift (match drop_rebroadcast_probability (config n) with
                       | Some probability => bernoulli seed probability
                       | None => Ok false
                       end);
  source ← lift (source_peer request);
  response ← send_msg_to_consensus source request;
  let '(consensus_result, finalizer) := (response.1, response.2) in
  _ ← update_peer_states now seed request consensus_result;
  _ ← modify (count_received_message (packet_label (variant request), response_label consensus_result));
  _ ← (if negb drop_message
          && bool_decide (distribution_mode request = Helpers.Broadcast)
          && packet_is_rebroadcastable (variant request)
          && response_is_rebroadcastable consensus_result (variant request)
       then send_consensus_msg_to_net now seed (msg_dont_relay_to request) None (msg_payload request)
       else mret tt);
  mret finalizer.

(** ** Catch-up *)

(** [update_peer_list]. *)
Definition node_update_peer_list : M P2PNode unit := fun n =>
  match (ids ← get_node_peer_tokens n; CatchUp.update_peer_list ids (peers n)) with
  | Ok p => (Ok tt, upd_peers (fun _ => p) n)
  | Err e => (Err e, n)
  | Panic => (Panic, n)
  end.

(** [try_catch_up]: the request is sent before the list is updated. *)
Definition node_try_catch_up (now : Z) : M P2PNode unit := fun n =>
  match (next_pending (peers n)).1 with
  | Some id =>
      match send_direct_message now id (default_network (config n)) get_catch_up_status n with
      | (Ok sent, n1) => (Ok tt, upd_peers (CatchUp.try_catch_up now (fun _ => sent)) n1)
      | (Err e, n1) => (Err e, n1)
      | (Panic, n1) => (Panic, n1)
      end
  | None => (Ok tt, upd_peers (CatchUp.try_catch_up now (fun _ => 0%nat)) n)
  end.

(** [check_peer_states]. *)
Definition check_peer_states (now : Z) : M P2PNode unit := fun n =>
  let n1 :=
    if trigger_catchup (regenesis n) then
      upd_peers mark_all_pending
        (upd_regenesis (fun r => mkRegenesis (regenesis_blocks r) false (regenesis_stop_network r)) n)
    else n in
  match catch_up_peer (peers n1) with
  | Some id =>
      if decide (is_Some (connections_of n1 !! to_token id)) then
        (Ok tt, if u64_wrap (catch_up_stamp (peers n1) + MAX_CATCH_UP_TIME) <? now
                then register_conn_change (RemovalByToken (to_token id)) n1 else n1)
      else node_try_catch_up now (upd_peers (drop_catch_up_peer id) n1)
  | None => node_try_catch_up now n1
  end.

End library.
End consensus.
