(* ===== verification/CallbacksProps.v ===== *)
(** * Correctness of the callbacks

    The runtime is started and stopped at most once; messages of the consensus
    library reach the library of the receiving node as they were sent; streams
    deliver their items, and their senders are freed once. *)

From stdpp Require Import base tactics list gmap strings option numbers.
From Stdlib Require Import ZArith Floats.SpecFloat.
From S2P Require Import Prelude Text Common Helpers LowLevel Wire Conn Buckets CatchUp Queues.
From S2P Require Import Config Bans Node Callbacks Connectivity Consensus.

(** ** The runtime *)

Inductive RtsOp := OpStart (program_name : text) (rts_flags : list text) | OpStop | OpExit.
Definition rts_step (r : Runtime) (o : RtsOp) : Runtime :=
  match o with
  | OpStart program_name rts_flags => (start_haskell program_name rts_flags r).2
  | OpStop => (stop_haskell r).2
  | OpExit => stop_nopanic r
  end.

Definition is_init (c : RtsCall) : bool := match c with HsInit _ => true | _ => false end.
Definition is_exit (c : RtsCall) : bool := match c with HsExit => true | _ => false end.
Definition count (P : RtsCall -> bool) (l : list RtsCall) : nat := length (filter (fun c => P c = true) l).

Lemma count_app P l k : count P (l ++ k) = (count P l + count P k)%nat.
Proof. unfold count. by rewrite list.filter_app, length_app. Qed.

(** The flags tell how often the runtime has been started and stopped. *)
Definition runtime_ok (r : Runtime) : Prop :=
  count is_init (rts_calls r) = Nat.b2n (start_once r) /\ count is_exit (rts_calls r) = Nat.b2n (stop_once r).

Lemma rts_step_ok r o : runtime_ok r -> runtime_ok (rts_step r o).
Proof.
  unfold runtime_ok. intros [H1 H2]. destruct o as [prog flags| |]; simpl.
  - unfold start_haskell. destruct (start_once r) eqn:E; simpl; [by rewrite E|].
    destruct (c_strings _); simpl; rewrite ?count_app, ?H1, ?H2, ?E; by rewrite ?Nat.add_0_r.
  - unfold stop_haskell, stop_nopanic. destruct (stopped r); [done|]. simpl.
    destruct (stop_once r) eqn:E; simpl; rewrite ?count_app, ?H1, ?H2, ?E; by rewrite ?Nat.add_0_r.
  - unfold stop_nopanic. destruct (stop_once r) eqn:E; simpl; rewrite ?count_app, ?H1, ?H2, ?E;
      by rewrite ?Nat.add_0_r.
Qed.

(** The runtime is initialised at most once, and exits at most once. *)
Lemma runtime_once ops :
  let r := foldl rts_step runtime_initial ops in
  (count is_init (rts_calls r) <= 1)%nat /\ (count is_exit (rts_calls r) <= 1)%nat.
Proof.
  assert (Hi : forall r, runtime_ok r -> runtime_ok (foldl rts_step r ops)).
  { induction ops as [|o ops IH]; intros r Hr; [done|]. by apply IH, rts_step_ok. }
  intros r. destruct (Hi runtime_initial (conj eq_refl eq_refl)) as [H1 H2]. fold r in H1, H2. rewrite H1, H2.
  destruct (start_once _), (stop_once _); simpl; lia.
Qed.

(** The signal handlers of the runtime are configured by the flags that are
    given, or else disabled. *)
Lemma handlers_configured prog flags : exists arg,
  arg ∈ rts_args prog flags /\ installs_handlers arg = true /\
  (Forall (fun f => installs_handlers f = false) flags -> arg = lit "--install-signal-handlers=no").
Proof.
  destruct (forallb (fun arg => negb (installs_handlers arg)) flags) eqn:E.
  - exists (lit "--install-signal-handlers=no"). split_and!; [|reflexivity|done].
    unfold rts_args. destruct flags; [set_solver|]. rewrite E. set_solver.
  - assert (He : exists f, f ∈ flags /\ installs_handlers f = true).
    { clear -E. induction flags as [|f flags IH]; [done|]. simpl in E.
      destruct (installs_handlers f) eqn:Ef; [exists f; set_solver|].
      destruct (IH E) as (g & ? & ?). exists g. set_solver. }
    destruct He as (f & Hf & Hi). exists f. split_and!; [|done|].
    + assert (Hb : is_blank f = false).
      { unfold is_blank, installs_handlers in *. apply bool_decide_eq_false. intros Hb. by rewrite Hb in Hi. }
      unfold rts_args. destruct flags; [by apply not_elem_of_nil in Hf|]. rewrite E.
      rewrite !elem_of_app. left. right. by apply list_elem_of_filter.
    + intros Ha. rewrite list.Forall_forall in Ha. by rewrite (Ha f Hf) in Hi.
Qed.

(** ** Streams *)

(** What a step of the stream at [p] may change. *)
Lemma enqueue_spec answer p msg s items :
  boxes s !! p = Some items ->
  enqueue_bytearray_callback answer p (Some msg) (Z.of_nat (length msg)) s =
  match answer with
  | Sent => (Ok 0, mkStreams (<[p := items ++ [msg]]> (boxes s)) (ended s))
  | Full => (Ok (-1), s)
  | Disconnected => (Ok (-2), mkStreams (delete p (boxes s)) (<[p := items]> (ended s)))
  end.
Proof.
  intros Hp. unfold enqueue_bytearray_callback. rewrite Hp.
  assert (E : (if Z.of_nat (length msg) =? 0 then Some [] else Some msg) = Some msg).
  { destruct msg; done. }
  rewrite E. destruct answer; [done..|]. unfold mbind, M_bind, drop_sender. by rewrite Hp.
Qed.
Lemma close_spec p s items :
  boxes s !! p = Some items ->
  enqueue_bytearray_callback Sent p None maxBound s =
  (Ok (-2), mkStreams (delete p (boxes s)) (<[p := items]> (ended s))).
Proof.
  intros Hp. unfold enqueue_bytearray_callback. rewrite Hp. simpl.
  unfold mbind, M_bind, drop_sender. by rewrite Hp.
Qed.

Definition count_sent (answers : list TrySend) : nat :=
  length (filter (fun a => a = Sent) answers).

(** The state of the stream at [p]: still open, or freed. *)
Definition stream_open (p : positive) (items : list (list byte)) (s s' : Streams) : Prop :=
  s' = mkStreams (<[p := items]> (boxes s)) (ended s).
Definition stream_freed (p : positive) (items : list (list byte)) (s s' : Streams) : Prop :=
  s' = mkStreams (delete p (boxes s)) (<[p := items]> (ended s)).

Lemma enqueue_all answers p : forall msgs n items s,
  boxes s !! p = Some items ->
  exists b s' k, enqueueProtoMessages answers p n msgs s = (Ok b, s') /\
    (if b then stream_freed p (items ++ take k msgs) s s'
     else stream_open p (items ++ take k msgs) s s') /\
    (Disconnected ∉ answers -> (length msgs <= count_sent answers)%nat -> b = true /\ take k msgs = msgs).
Proof.
  induction answers as [|a answers IH]; intros [|msg msgs] n items s Hp;
    cbn [enqueueProtoMessages]; unfold mbind, M_bind.
  1,3: rewrite (close_spec p s items) by done; eexists true, _, 0%nat; split_and!; [done| |done];
    simpl; by rewrite app_nil_r.
  - exists false, s, 0%nat. simpl. rewrite app_nil_r. split_and!; [done| |unfold count_sent; simpl; lia].
    unfold stream_open. rewrite insert_id by done. by destruct s.
  - rewrite (enqueue_spec a p msg s items) by done. destruct a; simpl (_ =? _); cbn match.
    + destruct (IH msgs 0%nat (items ++ [msg])
        (mkStreams (<[p := items ++ [msg]]> (boxes s)) (ended s))) as (b & s' & k & E & Hs & Hl).
      { apply lookup_insert_eq. }
      exists b, s', (S k). split_and!; [done| |].
      * simpl. rewrite (cons_middle msg items), app_assoc.
        destruct b; rewrite Hs; unfold stream_freed, stream_open; simpl.
        -- by rewrite delete_insert_eq.
        -- by rewrite insert_insert_eq.
      * intros Hd Hn. destruct Hl as [-> Ht]; [set_solver|unfold count_sent in *; simpl in *; lia|].
        simpl. by rewrite Ht.
    + destruct (IH (msg :: msgs) (Nat.min (S n) 10) items s Hp) as (b & s' & k & E & Hs & Hl).
      exists b, s', k. split_and!; [done..|]. intros Hd Hn. apply Hl; [set_solver|done].
    + exists true, (mkStreams (delete p (boxes s)) (<[p := items]> (ended s))), 0%nat.
      simpl. rewrite app_nil_r. split_and!; [done..|]. intros Hd. set_solver.
Qed.

(** C9: a stream of answers between the two languages: whatever the receiver does,
    the sender is never used after it has been freed; once the thread of the
    library is done the sender has been freed exactly once, and the receiver
    gets an initial part of the messages, in order, and then the end of the
    stream.  It gets all of them if it does not disconnect and makes room for
    each message eventually. *)
Theorem stream_delivers answers p msgs s :
  boxes s !! p = Some [] ->
  exists b s' k, enqueueProtoMessages answers p 0 msgs s = (Ok b, s') /\
    (if b then stream_freed p (take k msgs) s s' else stream_open p (take k msgs) s s') /\
    (Disconnected ∉ answers -> (length msgs <= count_sent answers)%nat -> b = true /\ take k msgs = msgs).
Proof. apply enqueue_all. Qed.

Lemma stream_delivers_witness :
  let s := mkStreams {[ 1%positive := [] ]} ∅ in
  exists s', enqueueProtoMessages [Sent; Full; Full; Sent] 1 0 [[Byte.x01]; []] s = (Ok true, s') /\
    ended s' !! 1%positive = Some [[Byte.x01]; []].
Proof.
  intros s. destruct (stream_delivers [Sent; Full; Full; Sent] 1 [[Byte.x01]; []] s)
    as (b & s' & k & E & Hs & Hl); [reflexivity|].
  destruct Hl as [-> Ht]; [set_solver|vm_compute; lia|].
  exists s'. split; [exact E|]. rewrite Hs, Ht. reflexivity.
Defined.

(** ** From consensus to consensus *)

Section messages.
Context `{External} `{!ChannelLaws} `{ConsensusLib}.

(** The call of the receiving node for each kind of message. *)
Definition received_call (t : CallbackType) (g : Z) (data : list byte) (source : RemotePeerId)
    (n : P2PNode) : ConsensusCall :=
  match t with
  | CbBlock => ReceiveBlock g data
  | CbFinalizationMessage => SendFinalization g data
  | CbFinalizationRecord => SendFinalizationRecord g data
  | CbCatchUpStatus => ReceiveCatchUpStatus g data source (catch_up_batch_limit (config n))
  end.

Definition has_room (c : Chan (QueueMsg ConsensusMessage)) : Prop :=
  (length (chan_items c) < chan_cap c)%nat.

Lemma packet_type_roundtrip p : PacketType_try_from (packet_type_tag p) = Ok p.
Proof. by destruct p. Qed.

(** A packet of a type other than transactions goes to the high-priority queue. *)
Lemma packet_queued dont_relay_to source p payload (bc : bool) n :
  p <> Transaction -> has_room (high_priority (inbound (callback_queue n))) ->
  let msg := packet_type_tag p :: payload in
  let mode := if bc then Helpers.Broadcast else Helpers.Direct in
  let m := mkConsensusMessage (Inbound source mode) p msg dont_relay_to None in
  exists n', handle_pkt_out dont_relay_to source msg bc n = (Ok tt, n') /\ config n' = config n /\
    chan_items (high_priority (inbound (callback_queue n'))) =
    chan_items (high_priority (inbound (callback_queue n))) ++ [Relay m].
Proof.
  intros Hp Hr msg mode m. unfold handle_pkt_out. subst msg. cbn match. rewrite packet_type_roundtrip.
  cbn zeta. rewrite decide_False by done. fold mode. fold m.
  destruct (try_send_room _ (Relay m) _ Hr) as (c' & E & Hc & _).
  unfold send_in_high_priority_message, send_msg. rewrite E. simpl.
  eexists. split_and!; [done..|]. exact Hc.
Qed.

Lemma request_of_message t g data dont_relay_to source mode n :
  (forall v, in_u32 v -> u32_deserial (be_bytes 4 v) = Ok v) -> in_u32 g ->
  consensus_request source
    (mkConsensusMessage (Inbound source mode) (callback_variant t)
       (packet_type_tag (callback_variant t) :: be_bytes 4 g ++ data) dont_relay_to None) n =
  Ok (received_call t g data source n).
Proof.
  intros Hd Hg. unfold consensus_request. cbn [msg_payload mbind outcome_bind variant].
  assert (Es : slice (be_bytes 4 g ++ data) 0 4 = Ok (be_bytes 4 g)).
  { unfold slice. rewrite decide_True; [|rewrite length_app, length_be_bytes; lia].
    simpl. by rewrite take_0. }
  destruct t; cbn [callback_variant received_call]; rewrite Es; cbn [mbind outcome_bind];
    rewrite Hd by done; reflexivity.
Qed.

(** C10: what the consensus library of one node hands over for sending is what the
    library of a receiving node is called with: every message that a callback
    queues is non-empty and long enough, is accepted by the receiving node if
    its queue has room, and becomes the call for its kind, with its genesis
    index and its data. *)
Theorem callback_reaches_consensus target t g data omit q q' dont_relay_to source bc n :
  (forall v, in_u32 v -> u32_deserial (be_bytes 4 v) = Ok v) -> in_u32 g ->
  has_room (high_priority (inbound (callback_queue n))) ->
  sending_callback target (Z.of_nat (match t with CbBlock => 0 | CbFinalizationMessage => 1
     | CbFinalizationRecord => 2 | CbCatchUpStatus => 3 end)) g data omit q = Some q' ->
  has_room (high_priority (outbound q)) ->
  exists m n' m',
    chan_items (high_priority (outbound q')) = chan_items (high_priority (outbound q)) ++ [Relay m] /\
    direction m = Outbound target /\ omit_status m = omit /\
    handle_pkt_out dont_relay_to source (msg_payload m) bc n = (Ok tt, n') /\
    chan_items (high_priority (inbound (callback_queue n'))) =
      chan_items (high_priority (inbound (callback_queue n))) ++ [Relay m'] /\
    consensus_request source m' n' = Ok (received_call t g data source n).
Proof.
  intros Hd Hg Hroom Hsend Hout.
  set (payload := be_bytes 4 g ++ data).
  set (m := mkConsensusMessage (Outbound target) (callback_variant t)
              (packet_type_tag (callback_variant t) :: payload) [] omit).
  assert (Es : send_out_blocking_msg m q = Some q') by (rewrite <-Hsend; by destruct t).
  destruct (packet_queued dont_relay_to source (callback_variant t) payload bc n) as (n' & E & Hc & Hi);
    [by destruct t|done|].
  exists m, n'. eexists. split_and!; [|done|done|exact E|exact Hi|].
  - destruct (try_send_room _ (Relay m) _ Hout) as (c' & Et & Hit & _).
    unfold send_out_blocking_msg, send_blocking_msg in Es. rewrite Et in Es. simpl in Es.
    injection Es as <-. exact Hit.
  - subst payload. rewrite request_of_message by done. unfold received_call. by rewrite Hc.
Qed.
End messages.
