(* ===== verification/Handlers.v ===== *)
(** * Handling of incoming network messages

    Models [concordium-node/src/connection/message_handlers.rs] and the parts
    of [connection/mod.rs] that involve the node.  A connection that is being
    served is taken out of the node: its handlers work on the pair of both. *)

From stdpp Require Import base tactics list gmap strings option numbers.
From Stdlib Require Import ZArith.
From S2P Require Import Prelude Common Helpers LowLevel Wire Conn Buckets CatchUp Queues.
From S2P Require Import Config Bans Node Connectivity Consensus.

Section handlers.
Context `{External}.

Abbreviation Served := (Connection * P2PNode)%type.

Definition on_conn (f : Connection -> Connection) : M Served unit := modify (prod_map f id).
Definition on_node (f : P2PNode -> P2PNode) : M Served unit := modify (prod_map id f).

(** ** Networks of the remote end *)

(** [Connection::populate_remote_end_networks]. *)
Definition populate_remote_end_networks (now : Z) (peer : RemotePeer) (nets : Networks)
    (s : Served) : Served :=
  let '(c, n) := s in
  let c1 := set_remote_end_networks (remote_end_networks c ∪ nets) c in
  if bool_decide (node_type n = Bootstrapper)
     && bool_decide (peer_type (remote_peer c) <> Bootstrapper)
  then
    let '(b, gauge) :=
      insert_into_bucket now peer nets (node_buckets (handler n), peer_bucket_size (node_stats n)) in
    (c1, upd_node_stats (upd_peer_bucket_size (fun _ => gauge)) (upd_node_buckets (fun _ => b) n))
  else (c1, n).

(** [Connection::add_remote_end_network]. *)
Definition add_remote_end_network (now : Z) (network : NetworkId) : M Served unit := fun '(c, n) =>
  if decide (size (remote_end_networks c) < MAX_PEER_NETWORKS)%nat then
    let c1 := set_remote_end_networks ({[network]} ∪ remote_end_networks c) c in
    if conn_is_post_handshake c1 then
      (Ok tt, (c1, upd_node_buckets
                     (update_network_ids now (remote_peer c1) (remote_end_networks c1)) n))
    else (bail "missing handshake", (c1, n))
  else (bail "refusing to add any more networks", (c, n)).

(** [Connection::remove_remote_end_network]. *)
Definition remove_remote_end_network (now : Z) (network : NetworkId) : M Served unit :=
  fun '(c, n) =>
  let c1 := set_remote_end_networks (remote_end_networks c ∖ {[network]}) c in
  if conn_is_post_handshake c1 then
    (Ok tt, (c1, upd_node_buckets
                   (update_network_ids now (remote_peer c1) (remote_end_networks c1)) n))
  else (bail "missing handshake", (c1, n)).

(** ** Handshake *)

(** [Connection::promote_to_post_handshake]. *)
Definition promote_to_post_handshake (now : Z) (id : P2PNodeId) (peer_port : Z) (nets : Networks)
    (version : WireProtocolVersion) (s : Served) : Served :=
  let '(c, n) := s in
  let r := remote_peer c in
  let c1 := set_remote_peer (mkRemotePeer (Some id) (addr r) (local_id r) peer_port (peer_type r)) c in
  let n1 := upd_node_stats
              (fun s => upd_total_peers (fun x => x + 1) (upd_connected_peers (fun x => x + 1) s)) n in
  let n2 := if decide (peer_type (remote_peer c1) = Bootstrapper)
            then update_last_bootstrap now n1 else n1 in
  let '(c2, n3) := populate_remote_end_networks now (remote_peer c1) nets (c1, n2) in
  let c3 := set_wire_version version c2 in
  (c3, register_conn_change (Promotion (token c3)) n3).

(** The answer of [Connection::send_peer_list_resp], if there is one. *)
Definition peer_list_resp (seed : Z) (nets : Networks) (conn_stats : list PeerStats)
    (requestor : RemotePeerId) (n : P2PNode) : option (list P2PPeer) :=
  match node_type n with
  | Bootstrapper =>
      let random_nodes :=
        omap remote_peer_to_peer
          (get_random_nodes seed requestor (bootstrapper_peer_list_size (config n)) nets
             (node_buckets (handler n))) in
      if negb (bool_decide (random_nodes = []))
         && (bootstrapper_wait_minimum_peers (config n) <=? Z.of_nat (length random_nodes))
      then Some random_nodes else None
  | Node =>
      let nodes :=
        (fun stat => mkP2PPeer (ps_self_id stat) (external_address stat) (ps_peer_type stat))
          <$> filter (fun stat => ps_local_id stat <> requestor) conn_stats in
      if bool_decide (nodes = []) then None else Some nodes
  end.

(** [Connection::send_peer_list_resp]. *)
Definition send_peer_list_resp (now seed : Z) (nets : Networks) (conn_stats : list PeerStats)
    (s : Served) : Served :=
  let '(c, n) := s in
  match peer_list_resp seed nets conn_stats (local_id (remote_peer c)) n with
  | Some nodes =>
      let serialized := serialize now (netmsg now (NetworkResponsePayload (Wire.PeerList nodes))) in
      (async_send serialized Normal c, n)
  | None => (c, n)
  end.

(** The first position at which two lists of genesis blocks differ. *)
Definition first_difference (ours theirs : list BlockHash) : option (nat * (BlockHash * BlockHash)) :=
  list_find (fun p => p.1 <> p.2) (zip ours theirs).

(** The checks of [Connection::handle_handshake_req]: the wire protocol version
    to use. *)
Definition check_handshake (h : Handshake) (n : P2PNode) : outcome WireProtocolVersion :=
  _ ← ensure (is_compatible_version (node_version h)) "Rejecting handshake: incompatible client";
  _ ← ensure (negb (bool_decide (wire_versions h = [])))
        "Rejecting handshake: Handshake message lacked wire versions.";
  wire_version ← context (is_compatible_wire_version (wire_versions h))
                   "Rejecting handshake: incompatible wire protocol versions";
  _ ← ensure (bool_decide (size (networks h) <= MAX_PEER_NETWORKS)%nat)
        "Rejecting handshake: too many networks.";
  _ ← match first_difference (regenesis_blocks (regenesis n)) (genesis_blocks h) with
      | Some _ => bail "Rejecting handshake: Didn't find a common prefix on the genesis block hashes."
      | None => Ok tt
      end;
  Ok wire_version.

(** [Connection::handle_handshake_req]. *)
Definition handle_handshake_req (now seed : Z) (h : Handshake) (conn_stats : list PeerStats)
    : M Served unit := fun s =>
  match check_handshake h s.2 with
  | Ok wire_version =>
      let s1 := promote_to_post_handshake now (remote_id h) (remote_port h) (networks h)
                  wire_version s in
      (Ok tt, if decide (node_type s1.2 = Bootstrapper)
              then send_peer_list_resp now seed (networks h) conn_stats s1 else s1)
  | Err e => (Err e, s)
  | Panic => (Panic, s)
  end.

(** ** Messages *)

(** [Connection::handle_incoming_packet]. *)
Definition handle_incoming_packet (pac : NetworkPacket) (id : RemotePeerId) : M Served unit :=
  fun '(c, n) =>
  let is_broadcast := match destination pac with Broadcast _ => true | Direct _ => false end in
  let '(r, n') := handle_pkt_out [id] id (packet_message pac) is_broadcast n in
  (r, (c, n')).

(** [Connection::handle_incoming_message]: a handshake is handled at any time,
    everything else only after one. *)
Definition handle_incoming_message (now seed : Z) (msg : NetworkMessage)
    (conn_stats : list PeerStats) : M Served unit := fun s =>
  match payload msg with
  | NetworkRequestPayload (HandshakeRequest h) => handle_handshake_req now seed h conn_stats s
  | other =>
      if conn_is_post_handshake s.1 then
        match other with
        | NetworkRequestPayload (HandshakeRequest _) => (Ok tt, s)
        | NetworkRequestPayload Ping => on_conn (send_pong now) s
        | NetworkResponsePayload Pong =>
            let '(r, c) := handle_pong now s.1 in (r, (c, s.2))
        | NetworkRequestPayload (GetPeers nets) =>
            (Ok tt, send_peer_list_resp now seed nets conn_stats s)
        | NetworkResponsePayload (Wire.PeerList ps) => on_node (register_conn_change (NewPeers ps)) s
        | NetworkRequestPayload (JoinNetwork network) => add_remote_end_network now network s
        | NetworkRequestPayload (LeaveNetwork network) => remove_remote_end_network now network s
        | NetworkPacketPayload pac =>
            handle_incoming_packet pac (local_id (remote_peer s.1)) s
        end
      else (bail "Connection has not yet completed the handshake.", s)
  end.

(** [Connection::is_packet_duplicate] on the queues of the node. *)
Definition node_packet_duplicate (packet : NetworkPacket) (n : P2PNode) : outcome bool * P2PNode :=
  let '(r, q) := is_packet_duplicate packet (deduplication_queues (handler n)) in
  (r, upd_deduplication_queues (fun _ => q) n).

(** [Connection::process_message]. *)
Definition process_message (now seed : Z) (conn_stats : list PeerStats) (bytes : list byte)
    : M Served unit := fun '(c, n) =>
  let len := Z.of_nat (length bytes) in
  let c1 := update_last_seen (node_type n) now c in
  let c2 := set_stats (count_received len (stats c1)) c1 in
  let n1 := upd_node_totals (totals_received len) n in
  match deserialize now bytes with
  | Ok message =>
      match payload message with
      | NetworkPacketPayload packet =>
          if decide (node_type n1 = Bootstrapper) then (Ok tt, (c2, n1))
          else
            match node_packet_duplicate packet n1 with
            | (Ok true, n2) => (Ok tt, (c2, n2))
            | (Ok false, n2) => handle_incoming_message now seed message conn_stats (c2, n2)
            | (Err e, n2) => (Err e, (c2, n2))
            | (Panic, n2) => (Panic, (c2, n2))
            end
      | _ => handle_incoming_message now seed message conn_stats (c2, n1)
      end
  | Err e => (Err e, (c2, n1))
  | Panic => (Panic, (c2, n1))
  end.

End handlers.
