(* ===== verification/Maintenance.v ===== *)
(** * The poll loop

    Models [spawn], [process_conn_change] and the life cycle of a node of
    [concordium-node/src/p2p/maintenance.rs], and [process_network_events] of
    [p2p/connectivity.rs].  The source serves connections in parallel; they
    share the node through locks and atomics only, and the model serves them
    one after the other, in the arbitrary order of the maps. *)

From stdpp Require Import base tactics list gmap strings option numbers vector.
From Stdlib Require Import ZArith Floats.SpecFloat.
From S2P Require Import Prelude Common Helpers LowLevel Wire Conn Buckets CatchUp Queues.
From S2P Require Import Config Bans Node Connectivity Consensus Handlers.

(** An event of [mio]. *)
Record Event := mkEvent {
  ev_token : Token;
  ev_readable : bool;
  ev_writable : bool;
  ev_closed : bool;
  ev_error : bool;
}.

(** The answer of [socket_server.accept()]. *)
Inductive AcceptAnswer `{External} :=
| Accepted (s : NewSocket) (a : SocketAddr)
| AcceptWouldBlock
| AcceptError.

Section maintenance.
Context `{External}.

(** ** Serving connections *)

Definition has_event (events : list Event) (t : Token) (p : Event -> bool) : bool :=
  existsb (fun e => bool_decide (ev_token e = t) && p e) events.

(** An I/O error closes the connection; any other one is a breach of protocol. *)
Definition change_for_error (e : error) (t : Token) : ConnChange :=
  match e with
  | IoError _ => RemovalByToken t
  | OtherError _ | Status _ _ => ExpulsionByToken t
  end.

(** [send_pending_messages] and then [flush_socket]. *)
Definition send_and_flush : M (Connection * P2PNode) unit := fun '(c, n) =>
  match send_pending_messages (c, node_totals n) with
  | (Ok _, (c1, t)) =>
      let n1 := upd_node_totals (fun _ => t) n in
      let '(r, l) := flush_socket (low_level c1) in
      (r, (set_low_level l c1, n1))
  | (Err e, (c1, t)) => (Err e, (c1, upd_node_totals (fun _ => t) n))
  | (Panic, (c1, t)) => (Panic, (c1, upd_node_totals (fun _ => t) n))
  end.

(** [Connection::read_stream]. *)
Definition conn_read_stream (now seed : Z) (conn_stats : list PeerStats) (fuel : nat)
    : M (Connection * P2PNode) bool := fun '(c, n) =>
  let '(r, (l, (c1, n1))) :=
    read_stream (fun s => produce_handshake_request now s.2)
      (process_message now seed conn_stats) fuel (low_level c, (c, n)) in
  (r, (set_low_level l c1, n1)).

(** The body of [process_network_events] for one connection.  A change that is
    registered is processed by the poll loop later. *)
Definition serve_connection (now seed : Z) (events : list Event) (conn_stats : list PeerStats)
    (fuel : nat) : M (Connection * P2PNode) unit := fun '(c, n) =>
  let t := token c in
  let c0 := if has_event events t ev_writable
            then set_low_level (notify_writable (low_level c)) c else c in
  let check_closed (c : Connection) (n : P2PNode) :=
    (Ok tt, (c, if has_event events t (fun e => ev_closed e || ev_error e)
                then register_conn_change (RemovalByToken t) n else n)) in
  match send_and_flush (c0, n) with
  | (Panic, s) => (Panic, s)
  | (Err e, (c1, n1)) => (Ok tt, (c1, register_conn_change (change_for_error e t) n1))
  | (Ok _, (c1, n1)) =>
      if has_event events t ev_readable then
        match conn_read_stream now seed conn_stats fuel (c1, n1) with
        | (Panic, s) => (Panic, s)
        | (Err e, (c2, n2)) => (Ok tt, (c2, register_conn_change (change_for_error e t) n2))
        | (Ok false, (c2, n2)) => (Ok tt, (c2, register_conn_change (RemovalByToken t) n2))
        | (Ok true, (c2, n2)) => check_closed c2 n2
        end
      else check_closed c1 n1
  end.

Definition serve_candidate (now seed : Z) (events : list Event) (conn_stats : list PeerStats)
    (fuel : nat) (t : Token) : M P2PNode unit := fun n =>
  match candidates_of n !! t with
  | Some c =>
      let '(r, (c', n')) := serve_connection now seed events conn_stats fuel (c, n) in
      (r, upd_conn_candidates <[t := c']> n')
  | None => (Ok tt, n)
  end.

Definition serve_peer (now seed : Z) (events : list Event) (conn_stats : list PeerStats)
    (fuel : nat) (t : Token) : M P2PNode unit := fun n =>
  match connections_of n !! t with
  | Some c =>
      let '(r, (c', n')) := serve_connection now seed events conn_stats fuel (c, n) in
      (r, upd_connections <[t := c']> n')
  | None => (Ok tt, n)
  end.

(** [P2PNode::process_network_events]. *)
Definition process_network_events (now seed : Z) (events : list Event) (fuel : nat)
    : M P2PNode unit :=
  n ← get;
  conn_stats ← lift (get_peer_stats (Some Node) n);
  _ ← for_each (serve_candidate now seed events conn_stats fuel) (keys (candidates_of n));
  for_each (serve_peer now seed events conn_stats fuel) (keys (connections_of n)).

(** ** Changes to the set of connections *)

(** The node forgets a peer that was connected, so as not to reconnect to it. *)
Definition forget_peer (p : RemotePeer) : M P2PNode unit :=
  log_error (on_store (remove_persisted_peer (external_addr p))).

(** The loop over the peers of a [NewPeers] change; [answer] is that of the
    operating system for each address. *)
Fixpoint connect_new_peers (now instant : Z) (answer : SocketAddr -> option NewSocket)
    (curr_peer_count new_peers : nat) (ps : list P2PPeer) : M P2PNode unit := fun n =>
  match ps with
  | [] => (Ok tt, n)
  | p :: ps' =>
      if desired_nodes_count (config n) <=? Z.of_nat (new_peers + curr_peer_count) then (Ok tt, n)
      else
        match connect now instant (answer (peer_addr p)) Node (peer_addr p) true n with
        | (Ok _, n') => connect_new_peers now instant answer curr_peer_count (S new_peers) ps' n'
        | (Err _, n') => connect_new_peers now instant answer curr_peer_count new_peers ps' n'
        | (Panic, n') => (Panic, n')
        end
  end.

(** [process_conn_change]. *)
Definition process_conn_change (now instant seed : Z) (answer : SocketAddr -> option NewSocket)
    (change : ConnChange) : M P2PNode unit := fun n =>
  match change with
  | NewConn a t given =>
      match connect now instant (answer a) t a (negb given) n with
      | (Ok _, n1) =>
          (Ok tt, if given then upd_given_addresses (fun s => {[a]} ∪ s) n1 else n1)
      | (Err _, n1) => (Ok tt, n1)
      | (Panic, n1) => (Panic, n1)
      end
  | Promotion t =>
      match candidates_of n !! t with
      | Some c =>
          let n1 := upd_conn_candidates (delete t) n in
          let a := external_addr (remote_peer c) in
          if is_connected a n1 then (Ok tt, drop_connection c n1)
          else
            let n2 := bump_last_peer_update now (upd_connections <[token c := c]> n1) in
            log_error (on_store (persist_peer a)) n2
      | None => (Ok tt, n)
      end
  | NewPeers ps =>
      match get_peer_stats (Some Node) n with
      | Ok current_peers =>
          connect_new_peers now instant answer (length current_peers) 0 (shuffle seed ps) n
      | Err e => (Err e, n)
      | Panic => (Panic, n)
      end
  | ExpulsionByToken t =>
      match remove_connection now t n with
      | (Some (is_conn, peer), n1) =>
          let n2 := soft_ban instant SOFT_BAN_DURATION_SECS (BanIp (ip (addr peer))) n1 in
          if is_conn then forget_peer peer n2 else (Ok tt, n2)
      | (None, n1) => (Ok tt, n1)
      end
  | RemovalByToken t =>
      match remove_connection now t n with
      | (Some (is_conn, peer), n1) => if is_conn then forget_peer peer n1 else (Ok tt, n1)
      | (None, n1) => (Ok tt, n1)
      end
  | RemoveAllByTokens ts =>
      let '(_, removed_connected_peers, n1) := remove_connections now ts n in
      for_each forget_peer removed_connected_peers n1
  end.

(** [for conn_change in changes.try_iter()]: at most [fuel] changes. *)
Fixpoint process_changes (now instant seed : Z) (answer : SocketAddr -> option NewSocket)
    (fuel : nat) : M P2PNode unit := fun n =>
  match fuel with
  | O => (Ok tt, n)
  | S fuel' =>
      match try_recv (conn_changes (handler n)) with
      | Some (change, q) =>
          match process_conn_change now instant seed answer change
                  (upd_conn_changes (fun _ => q) n) with
          | (Ok _, n') => process_changes now instant seed answer fuel' n'
          | (Err e, n') => (Err e, n')
          | (Panic, n') => (Panic, n')
          end
      | None => (Ok tt, n)
      end
  end.
Definition process_all_changes (now instant seed : Z) (answer : SocketAddr -> option NewSocket)
    : M P2PNode unit := fun n =>
  process_changes now instant seed answer (length (chan_items (conn_changes (handler n)))) n.

(** ** Incoming connections *)

(** The loop that accepts connections, with the answers of the operating
    system; [attempts] are left.  The result is the flag
    [unprocessed_attempts]. *)
Fixpoint accept_connections (now : Z) (attempts : nat) (answers : list AcceptAnswer) (n : P2PNode)
    : bool * P2PNode :=
  match attempts, answers with
  | S attempts', Accepted s a :: answers' =>
      match accept now s a n with
      | (inr (TooManyConnections _), n') => (true, n')
      | (_, n') => accept_connections now attempts' answers' n'
      end
  | S _, AcceptWouldBlock :: _ => (false, n)
  | S attempts', AcceptError :: answers' => accept_connections now attempts' answers' n
  | _, _ => (true, n)
  end.

(** ** The loop *)

(** The local variables of the poll thread. *)
Record LoopState := mkLoop {
  log_time : Z;
  last_buckets_cleaned : Z;
  last_peer_list_update : Z;
  iterations_since_housekeeping : nat;
  unprocessed_attempts : bool;
}.

(** What one iteration reads from outside: the result of [poll], the clocks, a
    random value, the events, and the answers of the operating system and of
    DNS. *)
Record PollInput := mkPollInput {
  in_poll_ok : bool;
  in_now : Z;
  in_instant : Z;
  in_seed : Z;
  in_events : list Event;
  in_accepts : list AcceptAnswer;
  in_answer : SocketAddr -> option NewSocket;
  in_resolve : string -> option (list SocketAddr);
  in_fuel : nat;
}.

(** [Instant::now().duration_since(t)], which saturates. *)
Definition duration_since (instant t : Z) : Z := Z.max 0 (instant - t).

(** Accepting, in one iteration. *)
Definition poll_accept (i : PollInput) (l : LoopState) (n : P2PNode) : LoopState * P2PNode :=
  if unprocessed_attempts l
     || existsb (fun e => bool_decide (ev_token e = SELF_TOKEN)) (in_events i)
  then
    let '(flag, n1) :=
      accept_connections (in_now i) (Z.to_nat (conn_requests_batch_limit (config n)))
        (in_accepts i) n in
    (mkLoop (log_time l) (last_buckets_cleaned l) (last_peer_list_update l)
       (iterations_since_housekeeping l) flag, n1)
  else (l, n).

(** The periodic tasks, when they are due. *)
Definition periodic_tasks (i : PollInput) : M P2PNode unit :=
  attempted_bootstrap ←
    connection_housekeeping (in_now i) (in_instant i) (in_seed i) (in_answer i) (in_resolve i);
  n ← get;
  _ ← modify (if bool_decide (node_type n <> Bootstrapper)
              then measure_connection_latencies (in_now i) else id);
  n ← get;
  peer_stat_list ← lift (get_peer_stats None n);
  _ ← modify (check_peers (in_now i) (in_resolve i) peer_stat_list attempted_bootstrap);
  log_error (measure_throughput (in_now i)).

Definition poll_housekeeping (i : PollInput) (l : LoopState) : M P2PNode LoopState := fun n =>
  if decide (10 <= iterations_since_housekeeping l)%nat then
    if 1000 * housekeeping_interval (config n) <=? duration_since (in_instant i) (log_time l) then
      match periodic_tasks i n with
      | (Ok _, n1) =>
          (Ok (mkLoop (in_instant i) (last_buckets_cleaned l) (last_peer_list_update l) 0
                 (unprocessed_attempts l)), n1)
      | (Err e, n1) => (Err e, n1)
      | (Panic, n1) => (Panic, n1)
      end
    else (Ok l, n)
  else
    (Ok (mkLoop (log_time l) (last_buckets_cleaned l) (last_peer_list_update l)
           (S (iterations_since_housekeeping l)) (unprocessed_attempts l)), n).

Definition poll_clean_buckets (i : PollInput) (l : LoopState) (n : P2PNode) : LoopState * P2PNode :=
  if is_bucket_cleanup_enabled n
     && (bucket_cleanup_interval (config n) <=? duration_since (in_instant i) (last_buckets_cleaned l))
  then
    let '(b, gauge) :=
      clean_buckets (in_now i) (timeout_bucket_entry_period (config n))
        (node_buckets (handler n), peer_bucket_size (node_stats n)) in
    (mkLoop (log_time l) (in_instant i) (last_peer_list_update l)
       (iterations_since_housekeeping l) (unprocessed_attempts l),
     upd_node_stats (upd_peer_bucket_size (fun _ => gauge)) (upd_node_buckets (fun _ => b) n))
  else (l, n).

Section consensus.
Context `{ConsensusLib}.

(** Keeping the catch-up list up to date, if there is a consensus layer. *)
Definition poll_catch_up (has_consensus : bool) (i : PollInput) (l : LoopState)
    : M P2PNode LoopState := fun n =>
  if has_consensus then
    let new_last_peer_update := last_peer_update (handler n) in
    if last_peer_list_update l <? new_last_peer_update then
      match node_update_peer_list n with
      | (Ok _, n1) =>
          let l1 := mkLoop (log_time l) (last_buckets_cleaned l) new_last_peer_update
                      (iterations_since_housekeeping l) (unprocessed_attempts l) in
          let '(r, n2) := check_peer_states (in_now i) n1 in ((fun _ => l1) <$> r, n2)
      | (Err e, n1) => (Err e, n1)
      | (Panic, n1) => (Panic, n1)
      end
    else let '(r, n2) := check_peer_states (in_now i) n in ((fun _ => l) <$> r, n2)
  else (Ok l, n).

(** One iteration of the loop, in the order of the source: connection changes,
    catch-up, socket reads and writes, periodic tasks, cleaning of buckets. *)
Definition poll_tasks (has_consensus : bool) (i : PollInput) (l : LoopState)
    : M P2PNode LoopState :=
  _ ← process_all_changes (in_now i) (in_instant i) (in_seed i) (in_answer i);
  l1 ← poll_catch_up has_consensus i l;
  _ ← process_network_events (in_now i) (in_seed i) (in_events i) (in_fuel i);
  poll_housekeeping i l1.

Definition poll_iteration (has_consensus : bool) (i : PollInput) (l : LoopState)
    : M P2PNode LoopState := fun n =>
  if in_poll_ok i then
    let '(l1, n1) := poll_accept i l n in
    match poll_tasks has_consensus i l1 n1 with
    | (Ok l2, n2) => let '(l3, n3) := poll_clean_buckets i l2 n2 in (Ok l3, n3)
    | (Err e, n2) => (Err e, n2)
    | (Panic, n2) => (Panic, n2)
    end
  else (Ok l, n).

(** What the thread does after the loop: close all connections. *)
Definition shut_down (n : P2PNode) : P2PNode :=
  let n1 := drop_all (values (candidates_of n)) (upd_conn_candidates (fun _ => ∅) n) in
  let n2 := drop_all (values (connections_of n1)) (upd_connections (fun _ => ∅) n1) in
  upd_peers clear n2.

(** The thread, for as long as there are inputs. *)
Fixpoint poll_thread (has_consensus : bool) (inputs : list PollInput) (l : LoopState)
    : M P2PNode unit := fun n =>
  if is_network_stopped n then (Ok tt, shut_down n)
  else
    match inputs with
    | [] => (Ok tt, n)
    | i :: inputs' =>
        match poll_iteration has_consensus i l n with
        | (Ok l', n') => poll_thread has_consensus inputs' l' n'
        | (Err e, n') => (Err e, n')
        | (Panic, n') => (Panic, n')
        end
    end.

End consensus.

(** ** Creation and shutdown *)

(** [P2PNode::close]: stop the network, then the consensus queues; [None] while
    a queue is full. *)
Definition close (n : P2PNode) : option P2PNode :=
  let n1 := stop_network n in
  (fun q => upd_callback_queue (fun _ => q) n1) <$> stop_queues (callback_queue n1).

(** [get_ip_if_suitable]. *)
Definition get_ip_if_suitable (a : IpAddr) : option IpAddr :=
  match a with
  | V4 o =>
      match byte_to_Z <$> vec_to_list o with
      | [b0; b1; b2; b3] =>
          let is_loopback := b0 =? 127 in
          let is_link_local := (b0 =? 169) && (b1 =? 254) in
          let is_multicast := (224 <=? b0) && (b0 <=? 239) in
          let is_broadcast := (b0 =? 255) && (b1 =? 255) && (b2 =? 255) && (b3 =? 255) in
          if is_loopback || is_link_local || is_multicast || is_broadcast then None
          else Some (V4 o)
      | _ => None
      end
  | V6 _ => None
  end.

Definition LOCALHOST : IpAddr := V4 [# Byte.x7f; Byte.x00; Byte.x00; Byte.x01].

(** [P2PNode::get_ip], on the addresses of the network interfaces. *)
Definition get_ip (adapters : list IpAddr) : option IpAddr :=
  let a := foldl (fun a adapter => default a (get_ip_if_suitable adapter)) LOCALHOST adapters in
  if decide (a = LOCALHOST) then None else Some a.

(** [parse_config_nodes]. *)
Definition parse_config_nodes (resolve : string -> option (list SocketAddr))
    (conf : ConnectionConfig) : outcome (gset SocketAddr) :=
  foldl (fun out name =>
    out ← out;
    match resolve name with
    | Some new_addresses => Ok (out ∪ list_to_set new_addresses)
    | None => Err (IoError "to_socket_addrs")
    end) (Ok ∅) (connect_to conf).

(** [P2PNode::new], once the listening socket is bound: [a] is the address of
    the node, [queue] the global queues of consensus. *)
Definition node_new (id : P2PNodeId) (conf : Config) (t : PeerType) (a : IpAddr)
    (resolve : string -> option (list SocketAddr)) (seeds : Z * Z * Z * Z) (store : option Env)
    (stats : NodeStats) (r : Regenesis) (queue : ConsensusQueues) : outcome P2PNode :=
  let own_peer_port :=
    match cc_external_port (common conf) with
    | Some own_port => own_port
    | None => listen_port (common conf)
    end in
  given ← parse_config_nodes resolve (connection conf);
  cfg ← node_config conf t;
  let n := {|
    self_peer := mkP2PPeer id (mkSocketAddr a own_peer_port) t;
    config := cfg;
    given_addresses := given;
    handler := handler_new conf seeds;
    node_totals := mkTotals 0 0 0 0 0 0;
    node_stats := stats;
    kvs := store;
    peers := peer_list_default;
    bad_events := bad_events_default;
    regenesis := r;
    callback_queue := queue;
  |} in
  let n1 := if config_clear_bans cfg then (log_error (on_store clear_bans) n).2 else n in
  let n2 := if config_clear_persisted_peers cfg
            then (log_error (on_store clear_persisted_peers) n1).2 else n1 in
  Ok n2.

End maintenance.
