(* ===== verification/Stats.v ===== *)
(** * Statistics export

    [concordium-node/src/stats_export_service.rs]: the metrics that are registered
    at start-up, the two collectors that read their values on each scrape, and the
    thread that pushes to a gateway.  The Prometheus library is a class with what it
    documents of registration; what a registry gathers is read through it. *)

From stdpp Require Import base tactics list gmap strings option numbers vector.
From Stdlib Require Import ZArith Floats.SpecFloat.
From S2P Require Import Prelude Text Common Helpers LowLevel Wire Conn Buckets CatchUp Queues QueuesProps Config Container.

(** ** The library *)

(** [prometheus::Opts], with the labels of a metric. *)
Record Opts := mkOpts {
  opts_name : string;
  opts_help : string;
  opts_labels : list string;
  opts_const_labels : list (string * string);
}.
Definition opts_new (name help : string) : Opts := mkOpts name help [] [].

(** A name or a label is made of letters, digits and underscores, and does not start
    with a digit. *)
Definition name_start (c : Ascii.ascii) : bool :=
  let n := Z.of_nat (Ascii.nat_of_ascii c) in
  ((65 <=? n) && (n <=? 90)) || ((97 <=? n) && (n <=? 122)) || (n =? 95).
Definition name_char (c : Ascii.ascii) : bool :=
  let n := Z.of_nat (Ascii.nat_of_ascii c) in
  name_start c || ((48 <=? n) && (n <=? 57)).
Fixpoint name_chars (s : string) : bool :=
  match s with EmptyString => true | String c s => name_char c && name_chars s end.
Definition valid_name (s : string) : bool :=
  match s with EmptyString => false | String c s => name_start c && name_chars s end.
Definition valid_opts (o : Opts) : bool :=
  valid_name (opts_name o) && negb (String.eqb (opts_help o) "")
  && forallb valid_name (opts_labels o ++ (opts_const_labels o).*1)
  && bool_decide (NoDup (opts_labels o ++ (opts_const_labels o).*1)).

(** Creating a metric and registering a collector, which describes the metrics it
    gives; [registered] are the names of a registry. *)
Class Prometheus := {
  Registry : Type;
  registry_new : Registry;
  registered : Registry -> list string;
  create : Opts -> outcome unit;
  register : list Opts -> Registry -> outcome Registry;
}.

(** Metrics with valid names and labels can be created, and a collector is registered
    unless one of its names is taken. *)
Class PrometheusLaws `{Prometheus} := {
  registered_new : registered registry_new = [];
  create_valid o : valid_opts o = true -> create o = Ok tt;
  register_fresh os r :
    NoDup (opts_name <$> os) -> (forall o, o ∈ os -> opts_name o ∉ registered r) ->
    exists r', register os r = Ok r' /\ registered r' = registered r ++ (opts_name <$> os);
}.

(** ** Registration *)

(** The metrics of [StatsExportService::new], in the order of their registration. *)
Definition network_metrics : list Opts :=
  [opts_new "network_packets_received_total" "Total number of network packets received";
   opts_new "network_packets_sent_total" "Total number of network packets sent";
   opts_new "network_connected_peers" "Current number of connected peers";
   opts_new "network_connections_received_total" "Total number of connections received";
   opts_new "network_inbound_high_priority_message_queue_size"
     "Current number of inbound high priority messages in queue";
   opts_new "network_inbound_low_priority_message_queue_size"
     "Current number of inbound low priority messages in queue";
   opts_new "network_outbound_high_priority_message_queue_size"
     "Current number of outbound high priority messages in queue";
   opts_new "network_outbound_low_priority_message_queue_size"
     "Current number of outbound low priority messages in queue";
   opts_new "network_received_bytes" "Total number of bytes received";
   opts_new "network_sent_bytes" "Total number of bytes sent"].
Definition consensus_metrics : list Opts :=
  [opts_new "consensus_last_finalized_block_height" "The block height of the last finalized block";
   opts_new "consensus_last_finalized_block_timestamp"
     "Timestamp for processing the last finalized block (Unix time in milliseconds)";
   opts_new "consensus_last_arrived_block_height" "The block height of the last arrived block";
   opts_new "consensus_last_arrived_block_timestamp"
     "Timestamp for processing the last arrived block (Unix time in milliseconds)";
   opts_new "consensus_baked_blocks_total" "Total number of blocks baked by the node since startup";
   opts_new "consensus_finalized_baked_blocks_total"
     "Total number of finalized blocks baked by the node since startup";
   mkOpts "consensus_received_messages_total"
     "Total number of received messages labelled by the type of messages and the resulting outcome"
     ["message"; "result"] [];
   mkOpts "consensus_sent_messages_total"
     "Total number of sent messages labelled by the type of messages" ["message"] []].
Definition node_metrics (version : string) : list Opts :=
  [opts_new "network_soft_banned_peers" "Current number of soft banned peers";
   opts_new "network_soft_banned_peers_total" "Total number of soft banned peers since startup";
   opts_new "network_peers_total" "Total number of peers since startup";
   mkOpts "node_info"
     "Node software information. Provides the node version using a label (`version=<version>`). Always has the value 1"
     [] [("version", version)];
   opts_new "node_startup_timestamp" "Timestamp of starting up the node (Unix time in milliseconds)";
   mkOpts "grpc_request_response_time_seconds" "Response time of gRPC requests in seconds"
     ["method"; "status"] [];
   opts_new "grpc_in_flight_requests" "Current number of gRPC requests being handled by the node";
   opts_new "consensus_unsupported_pending_protocol_version"
     "If non-zero the value represents the effective time of an unsupported protocol update (Unix time in milliseconds)";
   mkOpts "peer_bucket_size"
     "The number of peers that recently connected to the node labelled by the number of the bucket in which they are contained"
     ["bucket"] [];
   opts_new "grpc_connected_clients" "Current number of clients connected to the gRPC V2 interface"].

(** The metrics of [StatsConsensusCollector]. *)
Definition collector_metrics : list Opts :=
  [opts_new "consensus_baking_committee"
     "The baking committee status of the node for the current best block. The value is mapped to a status, see documentation for details";
   opts_new "consensus_finalization_committee"
     "The finalization commmittee status of the node for the current finalization round. The metric will have a value of 1 when member of the finalization committee";
   opts_new "consensus_baking_lottery_power"
     "Baking lottery power for the current epoch of the best block. Is only non-zero when active member of the baking committee.";
   opts_new "consensus_non_finalized_transactions"
     "The current number of non-finalized transactions across all accounts"].

Section registration.
Context `{Prometheus}.

Definition create_and_register (o : Opts) : M Registry unit := fun r =>
  match create o with
  | Ok _ => match register [o] r with
            | Ok r' => (Ok tt, r')
            | Err e => (Err e, r)
            | Panic => (Panic, r)
            end
  | Err e => (Err e, r)
  | Panic => (Panic, r)
  end.

(** [StatsExportService::new] and [instantiate_stats_export_engine]. *)
Definition stats_export_new (version : string) : outcome Registry :=
  let '(res, r) :=
    for_each create_and_register (network_metrics ++ consensus_metrics ++ node_metrics version)
      registry_new in
  _ ← res; Ok r.
Definition instantiate_stats_export_engine (version : string) : outcome Registry :=
  match stats_export_new version with
  | Err _ => bail "Could not start statistics collection engine."
  | res => res
  end.

(** [StatsConsensusCollector::new] and its registration in [cli.rs]. *)
Definition consensus_collector_new : outcome unit :=
  foldr (fun o rest => _ ← create o; rest) (Ok tt) collector_metrics.
Definition register_consensus_collector (r : Registry) : outcome Registry :=
  _ ← consensus_collector_new; register collector_metrics r.
End registration.

(** Registration succeeds: no two metrics of the node, those that query consensus
    included, share a name. *)
Section registration_laws.
Context `{PrometheusLaws}.

Lemma for_each_register os r :
  forallb valid_opts os = true -> NoDup (registered r ++ (opts_name <$> os)) ->
  exists r', for_each create_and_register os r = (Ok tt, r') /\
    registered r' = registered r ++ (opts_name <$> os).
Proof.
  revert r. induction os as [|o os IH]; intros r Hv Hnd; simpl in *.
  - exists r. by rewrite app_nil_r.
  - apply andb_true_iff in Hv as [Ho Hos].
    destruct (register_fresh [o] r) as (r1 & Hr1 & Hn1).
    { apply NoDup_singleton. }
    { intros o' ->%list_elem_of_singleton Hin. apply list.NoDup_app in Hnd as (_ & Hd & _).
      apply (Hd _ Hin). left. }
    unfold create_and_register. rewrite (create_valid o Ho), Hr1.
    destruct (IH r1) as (r' & Hr' & Hn'); [done| |].
    { rewrite Hn1, <-(assoc_L (++)). done. }
    exists r'. split; [done|]. rewrite Hn', Hn1, <-(assoc_L (++)). done.
Qed.

Theorem metrics_registered version :
  exists r r',
    instantiate_stats_export_engine version = Ok r /\
    register_consensus_collector r = Ok r' /\
    registered r' = opts_name <$> network_metrics ++ consensus_metrics ++ node_metrics version
                      ++ collector_metrics.
Proof.
  destruct (for_each_register (network_metrics ++ consensus_metrics ++ node_metrics version)
              registry_new) as (r & Hr & Hn).
  { reflexivity. }
  { rewrite registered_new. apply (bool_decide_unpack _). vm_compute. done. }
  rewrite registered_new in Hn. cbn [app] in Hn.
  destruct (register_fresh collector_metrics r) as (r' & Hr' & Hn').
  { apply (bool_decide_unpack _). vm_compute. done. }
  { intros o Ho. rewrite Hn. revert o Ho. apply list.Forall_forall, (bool_decide_unpack _).
    vm_compute. done. }
  exists r, r'. split_and!.
  - unfold instantiate_stats_export_engine, stats_export_new. rewrite Hr. done.
  - unfold register_consensus_collector, consensus_collector_new. cbn [collector_metrics foldr].
    rewrite !create_valid by reflexivity. exact Hr'.
  - rewrite Hn', Hn. reflexivity.
Qed.
End registration_laws.

(** ** Collecting *)

Inductive MetricValue := IntValue (z : Z) | FloatValue (f : f64).
Record MetricFamily := mkFamily { family_name : string; family_value : MetricValue }.

(** The gauges of [StatsConsensusCollector] and of [GrpcInFlightRequestsCollector]. *)
Record Gauges := mkGauges {
  g_baking_committee : Z;
  g_finalization_committee : Z;
  g_baking_lottery_power : f64;
  g_non_finalized_transactions : Z;
  g_in_flight : Z;
}.

(** [GrpcInFlightRequestsCollector::collect]; the counter is a [usize]. *)
Definition collect_in_flight (counter : Z) : M Gauges (list MetricFamily) := fun g =>
  let g' := mkGauges (g_baking_committee g) (g_finalization_committee g) (g_baking_lottery_power g)
              (g_non_finalized_transactions g) (i64_wrap counter) in
  (Ok [mkFamily "grpc_in_flight_requests" (IntValue (g_in_flight g'))], g').

(** [status as i64]. *)
Definition committee_i64 (status : BakingCommitteeResponse) : Z :=
  match status with
  | ActiveInCommittee => 0
  | NotInCommittee => 1
  | AddedButNotActiveInCommittee => 2
  | AddedButWrongKeys => 3
  end.

Section collecting.
Context `{ConsensusRuntime}.

(** [StatsConsensusCollector::collect]. *)
Definition collect_consensus (c : ConsensusContainer) : M Gauges (list MetricFamily) :=
  '(status, _, _, lottery_power) ← lift (in_baking_committee c);
  _ ← modify (fun g => mkGauges (committee_i64 status) (g_finalization_committee g) lottery_power
                         (g_non_finalized_transactions g) (g_in_flight g));
  in_finalization_committee ← lift (in_finalization_committee c);
  _ ← modify (fun g => mkGauges (g_baking_committee g)
                         (if in_finalization_committee : bool then 1 else 0)
                         (g_baking_lottery_power g) (g_non_finalized_transactions g) (g_in_flight g));
  _ ← modify (fun g => mkGauges (g_baking_committee g) (g_finalization_committee g)
                         (g_baking_lottery_power g)
                         (i64_wrap (number_of_non_finalized_transactions c)) (g_in_flight g));
  g ← get;
  mret [mkFamily "consensus_baking_committee" (IntValue (g_baking_committee g));
        mkFamily "consensus_finalization_committee" (IntValue (g_finalization_committee g));
        mkFamily "consensus_baking_lottery_power" (FloatValue (g_baking_lottery_power g));
        mkFamily "consensus_non_finalized_transactions" (IntValue (g_non_finalized_transactions g))].

(** What a scrape reads does not depend on the previous one, and is given in the
    order of the descriptions of the collector. *)
Theorem collect_consensus_spec c status has baker power fin g :
  in_baking_committee c = Ok (status, has, baker, power) ->
  in_finalization_committee c = Ok fin ->
  exists fs g', collect_consensus c g = (Ok fs, g') /\
    family_value <$> fs =
      [IntValue (committee_i64 status); IntValue (if fin then 1 else 0); FloatValue power;
       IntValue (i64_wrap (number_of_non_finalized_transactions c))] /\
    family_name <$> fs = opts_name <$> collector_metrics /\
    g_in_flight g' = g_in_flight g.
Proof.
  intros Hb Hf. eexists _, _. split.
  { unfold collect_consensus. cbn. rewrite Hb. cbn. rewrite Hf. reflexivity. }
  done.
Qed.

End collecting.

(** ** The push gateway *)

Record PrometheusConfig := mkPrometheusConfig {
  prometheus_listen_addr : IpAddr;
  prometheus_listen_port : option Z;
  prometheus_push_gateway : option text;
  prometheus_job_name : text;
  prometheus_instance_name : option text;
  prometheus_push_username : option text;
  prometheus_push_password : option text;
  prometheus_push_interval : Z;
  prometheus_metric_grpc_response_time_buckets : list f64;
}.
(** With no option given. *)
Definition prometheus_defaults : PrometheusConfig := {|
  prometheus_listen_addr := V4 [# Byte.x7f; Byte.x00; Byte.x00; Byte.x01];
  prometheus_listen_port := None;
  prometheus_push_gateway := None;
  prometheus_job_name := lit "concordium_node_push";
  prometheus_instance_name := None;
  prometheus_push_username := None;
  prometheus_push_password := None;
  prometheus_push_interval := 2;
  prometheus_metric_grpc_response_time_buckets :=
    (fun millis => f64_div (f64_of_Z millis) (f64_of_Z 1000)) <$> [50; 100; 200; 500; 1000];
|}.
Definition prometheus_is_enabled (conf : PrometheusConfig) : bool :=
  bool_decide (is_Some (prometheus_listen_port conf))
  || bool_decide (is_Some (prometheus_push_gateway conf)).

(** What is sent to the gateway, with when. *)
Record Push {Families : Type} := mkPush {
  push_at : Z;
  push_gateway : text;
  push_job : text;
  push_instance : text;
  push_auth : option (text * text);
  push_families : Families;
}.
Arguments Push : clear implicits.

Section push.
Context {Values Families : Type} (gather : Values -> Families).

(** The first [rounds] rounds of the thread of [start_push_to_gateway], started at
    [now] (in seconds), when the metrics have the values [values]; a push takes no
    time and its errors are logged. *)
Definition start_push_to_gateway (gateway : text) (interval : Z) (job instance : text)
    (username password : option text) (now : Z) (values : Values) (rounds : nat)
    : list (Push Families) :=
  let metrics_families := gather values in
  (fun round =>
     let username_pass := name ← username; pass ← password; Some (name, pass) in
     mkPush Families (now + (Z.of_nat round + 1) * interval) gateway job instance username_pass
       metrics_families) <$> seq 0 rounds.

(** [start_push_gateway]. *)
Definition start_push_gateway (conf : PrometheusConfig) (id : P2PNodeId) (now : Z)
    (values : Values) (rounds : nat) : list (Push Families) :=
  match prometheus_push_gateway conf with
  | Some prom_push_addy =>
      let instance_name :=
        match prometheus_instance_name conf with
        | Some instance_id => instance_id
        | None => Z.of_nat ∘ Ascii.nat_of_ascii <$> fmt_016x id
        end in
      start_push_to_gateway prom_push_addy (prometheus_push_interval conf)
        (prometheus_job_name conf) instance_name (prometheus_push_username conf)
        (prometheus_push_password conf) now values rounds
  | None => []
  end.

(** Every push has the values that the metrics had when the thread was started. *)
Theorem pushes_repeat_start conf id now values rounds p :
  p ∈ start_push_gateway conf id now values rounds -> push_families p = gather values.
Proof.
  unfold start_push_gateway, start_push_to_gateway. destruct (prometheus_push_gateway conf).
  - by intros (? & -> & _)%list_elem_of_fmap.
  - by intros ?%elem_of_nil.
Qed.
(** Credentials are only sent if both parts are configured. *)
Theorem push_auth_both conf id now values rounds p auth :
  p ∈ start_push_gateway conf id now values rounds -> push_auth p = Some auth ->
  prometheus_push_username conf = Some auth.1 /\ prometheus_push_password conf = Some auth.2.
Proof.
  unfold start_push_gateway, start_push_to_gateway. destruct (prometheus_push_gateway conf).
  - intros (? & -> & _)%list_elem_of_fmap. simpl.
    destruct (prometheus_push_username conf), (prometheus_push_password conf); naive_solver.
  - by intros ?%elem_of_nil.
Qed.
End push.

(** ** A registry of names *)

Module RegistryWitnesses.
#[local] Instance names_registry : Prometheus := {|
  Registry := list string;
  registry_new := [];
  registered r := r;
  create o := if valid_opts o then Ok tt else bail "invalid metric";
  register os r :=
    if bool_decide (NoDup (opts_name <$> os)) && bool_decide (Forall (fun o => opts_name o ∉ r) os) then Ok (r ++ (opts_name <$> os))
    else bail "Duplicate metrics collector registration attempted";
|}.
#[local] Instance names_registry_laws : PrometheusLaws.
Proof.
  split; simpl; [done|by intros o ->|]. intros os r Hnd Hnew.
  rewrite !bool_decide_eq_true_2 by (done || by apply list.Forall_forall). by eexists.
Qed.
End RegistryWitnesses.
