(* ===== verification/Dumper.v ===== *)
(** * The network dump

    With the feature [network_dump], what connections receive is written to files by
    a thread of its own: [concordium-node/src/dumper.rs], with the operations of the
    node that start and stop it ([p2p/maintenance.rs]) and the one of a connection that
    feeds it ([connection/mod.rs]).  Whether files can be created and written is up to
    the system; a write is taken to write all that it is given. *)

From stdpp Require Import base tactics list gmap strings option numbers.
From Stdlib Require Import ZArith.
From S2P Require Import Prelude Text Common.

(** ** Data *)

(** [DumpItem]. *)
Record DumpItem := mkDumpItem {
  di_timestamp : Z;
  di_inbound : bool;
  di_remote_addr : IpAddr;
  di_msg : list byte;
}.

(** What is written to a file: the start of a dump, an item with [Display], or the
    bytes of a message. *)
Inductive Written :=
| Started (now : Z)
| Pretty (item : DumpItem)
| Raw (msg : list byte).

Record DumpState := mkDumpState {
  dump_dir : option text;
  pretty_dump : option text;
  dump_count : Z;
  dump_files : gmap text (list Written);
}.
Definition dump_initial : DumpState := mkDumpState None None 0 ∅.

Definition show_id (id : P2PNodeId) : text := Z.of_nat ∘ Ascii.nat_of_ascii <$> fmt_016x id.

Section dumper.
Variable id : P2PNodeId.
Variable base_dir : text.
(** A number, as it is shown. *)
Variable show_count : Z -> text.
(** Whether a file can be created, and written to. *)
Variable can_create can_write : text -> bool.

(** [File::create], and writing at the end of an open file. *)
Definition file_create (path : text) (f : gmap text (list Written)) : outcome (gmap text (list Written)) :=
  if can_create path then Ok (<[path := []]> f) else Err (IoError "create").
Definition file_write (path : text) (w : Written) (f : gmap text (list Written))
    : outcome (gmap text (list Written)) :=
  if can_write path then Ok (alter (fun l => l ++ [w]) path f) else Err (IoError "write").

(** The files of a dump. *)
Definition pretty_path (new_path : text) : text :=
  path_join base_dir (path_join new_path (show_id id ++ lit "-pretty.log")).
Definition raw_path (dir : text) (count : Z) : text :=
  path_join dir (show_id id ++ lit "-" ++ show_count count).

(** A message from the switch: [None] if the thread is to stop. *)
Definition switched (now : Z) (path : text) (raw : bool) (s : DumpState) : outcome (option DumpState) :=
  match path with
  | [] => Ok None
  | _ =>
      let new_path := path_join base_dir path in
      files ← file_create (pretty_path new_path) (dump_files s);
      files ← file_write (pretty_path new_path) (Started now) files;
      Ok (Some (mkDumpState (Some new_path) (Some (pretty_path new_path))
                  (if raw then 1 else dump_count s) files))
  end.

(** An item that is received while there is a directory. *)
Definition dumped (item : DumpItem) (dir : text) (s : DumpState) : outcome DumpState :=
  '(count, files) ←
    (if 0 <? dump_count s then
       files ← file_create (raw_path dir (dump_count s)) (dump_files s);
       files ← file_write (raw_path dir (dump_count s)) (Raw (di_msg item)) files;
       Ok (dump_count s + 1, files)
     else Ok (dump_count s, dump_files s));
  files ← match pretty_dump s with
          | Some p => file_write p (Pretty item) files
          | None => Ok files
          end;
  Ok (mkDumpState (dump_dir s) (pretty_dump s) count files).

(** One round of the loop of [create_dump_thread], at [now]: what the switch has, and
    the item that is waited for if there is a directory; without one all senders are
    gone.  [None]: the loop ends. *)
Definition dump_round (now : Z) (switch : option (text * bool)) (item : option DumpItem) (s : DumpState)
    : outcome (option DumpState) :=
  s ← match switch with
      | Some (path, raw) => switched now path raw s
      | None => Ok (Some s)
      end;
  match s with
  | None => Ok None
  | Some s =>
      match dump_dir s with
      | None => Ok (Some s)
      | Some dir => match item with
                    | None => bail "receiving on an empty and disconnected channel"
                    | Some item => Some <$> dumped item dir s
                    end
      end
  end.

(** Rounds without a message from the switch. *)
Fixpoint dump_items (items : list DumpItem) (s : DumpState) : outcome (option DumpState) :=
  match items with
  | [] => Ok (Some s)
  | item :: items' =>
      s ← dump_round 0 None (Some item) s;
      match s with Some s => dump_items items' s | None => Ok None end
  end.
End dumper.

(** ** The node *)

(** [NetworkDumper] and [log_dumper]: whether the thread still receives from the
    switch, what the switch holds, and whether connections send to the thread. *)
Record NetworkDumper := mkDumper {
  thread_alive : bool;
  switch_queue : list (text * bool);
  log_dumper : bool;
}.
Definition dumper_new : NetworkDumper := mkDumper true [] false.

(** [switch.send]; the queue is taken to have room. *)
Definition switch_send (m : text * bool) : M NetworkDumper unit := fun d =>
  if thread_alive d then (Ok tt, mkDumper true (switch_queue d ++ [m]) (log_dumper d))
  else (bail "sending on a disconnected channel", d).
(** [activate_dump] and [stop_dump]. *)
Definition activate_dump (path : text) (raw : bool) : M NetworkDumper unit :=
  _ ← switch_send (path, raw);
  modify (fun d => mkDumper (thread_alive d) (switch_queue d) true).
Definition stop_dump : M NetworkDumper unit :=
  _ ← switch_send ([], false);
  modify (fun d => mkDumper (thread_alive d) (switch_queue d) false).

(** The thread takes what is next, and ends if that is an empty path. *)
Definition thread_takes (d : NetworkDumper) : NetworkDumper :=
  match switch_queue d with
  | [] => d
  | (path, _) :: rest =>
      mkDumper (negb (bool_decide (path = [])) && thread_alive d) rest (log_dumper d)
  end.

(** [send_to_dump]: what a connection hands over. *)
Definition send_to_dump (now : Z) (d : NetworkDumper) (remote : IpAddr) (buf : list byte) (inbound : bool)
    : option DumpItem :=
  if log_dumper d then Some (mkDumpItem now inbound remote buf) else None.

(** ** What is dumped *)

Lemma hex_digit_not_slash d : 0 <= d < 16 -> Z.of_nat (Ascii.nat_of_ascii (hex_digit d)) <> SLASH.
Proof.
  intros Hd. assert (Hl : d ∈ seqZ 0 16) by (apply elem_of_seqZ; lia).
  clear Hd. revert d Hl. apply list.Forall_forall. vm_compute. repeat constructor; discriminate.
Qed.
Lemma hex_digits_not_slash n z : Forall (fun c => Z.of_nat (Ascii.nat_of_ascii c) <> SLASH) (hex_digits n z).
Proof.
  revert z. induction n as [|n IH]; intros z; cbn [hex_digits]; [constructor|].
  apply Forall_app. split; [apply IH|]. constructor; [|constructor].
  apply hex_digit_not_slash, Z.mod_pos_bound. lia.
Qed.
(** The name of a file that starts with an id is relative. *)
Lemma path_join_id id base s1 s2 :
  path_join base (show_id id ++ s1) = path_join base (show_id id ++ s2) -> s1 = s2.
Proof.
  assert (H0 : show_id id <> [] /\ Forall (fun c => c <> SLASH) (show_id id)).
  { unfold show_id, fmt_016x. split.
    - intros E%(f_equal length). rewrite length_fmap, length_hex_digits in E. simpl in E. lia.
    - apply Forall_fmap, hex_digits_not_slash. }
  destruct (show_id id) as [|c l]; [by destruct H0|]. destruct H0 as [_ Hc].
  assert (Hs : (c =? SLASH) = false) by (apply Z.eqb_neq; by inversion Hc).
  cbn [app path_join]. rewrite Hs. destruct base; [|destruct (decide _)]; intros E; simplify_list_eq; done.
Qed.

Section dumped_files.
Variable id : P2PNodeId.
Variable base_dir : text.
Variable show_count : Z -> text.
Context `{!Inj (=) (=) show_count}.
(** The system lets the files be created and written. *)
Variable can_create can_write : text -> bool.
Hypothesis creates : forall p, can_create p = true.
Hypothesis writes : forall p, can_write p = true.

Lemma raw_path_inj dir c1 c2 : raw_path id show_count dir c1 = raw_path id show_count dir c2 -> c1 = c2.
Proof.
  unfold raw_path. intros E%path_join_id. simplify_list_eq. by apply (inj show_count).
Qed.

Lemma dumped_written item dir p s :
  pretty_dump s = Some p ->
  dumped id show_count can_create can_write item dir s = Ok
    (let rp := raw_path id show_count dir (dump_count s) in
     let show := alter (fun l => l ++ [Pretty item]) p in
     if 0 <? dump_count s
     then mkDumpState (dump_dir s) (pretty_dump s) (dump_count s + 1)
            (show (alter (fun l => l ++ [Raw (di_msg item)]) rp (<[rp := []]> (dump_files s))))
     else mkDumpState (dump_dir s) (pretty_dump s) (dump_count s) (show (dump_files s))).
Proof.
  intros Hp. unfold dumped, file_create, file_write. rewrite Hp, !creates, !writes.
  destruct (0 <? dump_count s); reflexivity.
Qed.
Lemma dump_items_cons item items dir s s1 :
  dump_dir s = Some dir -> dumped id show_count can_create can_write item dir s = Ok s1 ->
  dump_items id base_dir show_count can_create can_write (item :: items) s =
  dump_items id base_dir show_count can_create can_write items s1.
Proof. intros Hd E. cbn [dump_items]. unfold dump_round. cbn. rewrite Hd, E. reflexivity. Qed.

(** Every item is shown in the file, in the order in which they are received; with
    raw dumps, the bytes of each are in a file with its number. *)
Theorem dump_complete items s dir p old :
  dump_dir s = Some dir -> pretty_dump s = Some p -> dump_files s !! p = Some old ->
  (forall c, raw_path id show_count dir c <> p) -> 0 <= dump_count s ->
  exists s',
    dump_items id base_dir show_count can_create can_write items s = Ok (Some s') /\
    dump_files s' !! p = Some (old ++ (Pretty <$> items)) /\
    (0 < dump_count s -> forall k item, items !! k = Some item ->
       dump_files s' !! raw_path id show_count dir (dump_count s + Z.of_nat k) = Some [Raw (di_msg item)]) /\
    (dump_count s = 0 -> dom (dump_files s') = dom (dump_files s)) /\
    (forall c, c < dump_count s ->
       dump_files s' !! raw_path id show_count dir c = dump_files s !! raw_path id show_count dir c).
Proof.
  revert s old. induction items as [|item items IH]; intros s old Hd Hp Hf Hr Hc.
  { exists s. rewrite app_nil_r. by split_and!. }
  rewrite (dump_items_cons item items dir s _ Hd (dumped_written item dir p s Hp)). cbn zeta.
  destruct (0 <? dump_count s) eqn:E; [apply Z.ltb_lt in E|apply Z.ltb_ge in E].
  - set (rp := raw_path id show_count dir (dump_count s)).
    set (files := alter _ p _).
    destruct (IH (mkDumpState (dump_dir s) (pretty_dump s) (dump_count s + 1) files) (old ++ [Pretty item]))
      as (s' & E' & Hp' & Hraw & _ & Hold); [exact Hd|exact Hp| |exact Hr|simpl; lia|].
    { subst files. simpl. rewrite lookup_alter_eq, lookup_alter_ne by apply Hr.
      rewrite lookup_insert_ne by apply Hr. by rewrite Hf. }
    exists s'. split_and!; [exact E'| | |lia|].
    + rewrite Hp'. simpl. by rewrite <- app_assoc.
    + intros _ [|k] item' Hk; simpl in *.
      * injection Hk as ->. rewrite Z.add_0_r, Hold by (simpl; lia). subst files. simpl.
        rewrite lookup_alter_ne by (intros Hx; by apply (Hr (dump_count s))).
        by rewrite lookup_alter_eq, lookup_insert_eq.
      * replace (dump_count s + Z.of_nat (S k)) with (dump_count s + 1 + Z.of_nat k) by lia.
        apply Hraw; [simpl; lia|done].
    + intros c Hlt. rewrite Hold by (simpl; lia). subst files. simpl.
      rewrite lookup_alter_ne by (intros Hx; by apply (Hr c)).
      assert (rp <> raw_path id show_count dir c) by (intros Hx%raw_path_inj; lia).
      by rewrite lookup_alter_ne, lookup_insert_ne.
  - destruct (IH (mkDumpState (dump_dir s) (pretty_dump s) (dump_count s)
                    (alter (fun l => l ++ [Pretty item]) p (dump_files s))) (old ++ [Pretty item]))
      as (s' & E' & Hp' & _ & Hdom & Hold); [exact Hd|exact Hp| |exact Hr|exact Hc|].
    { simpl. by rewrite lookup_alter_eq, Hf. }
    exists s'. split_and!; [exact E'| |lia| |].
    + rewrite Hp'. simpl. by rewrite <- app_assoc.
    + intros E0. rewrite Hdom by done. simpl. apply dom_alter_L.
    + intros c Hlt. rewrite Hold by done. simpl. by rewrite lookup_alter_ne by (intros Hx; by apply (Hr c)).
Qed.
End dumped_files.

(** ** Restarting *)

(** Starting a dump without raw files does not end one with raw files. *)
Theorem raw_dump_continues id base_dir can_create can_write now path s s' :
  switched id base_dir can_create can_write now path false s = Ok (Some s') ->
  dump_count s' = dump_count s.
Proof.
  unfold switched. destruct path; [done|].
  destruct (file_create _ _ _) as [files| |]; [|done..]. cbn [mbind outcome_bind].
  destruct (file_write _ _ _ _) as [files'| |]; [|done..]. cbn [mbind outcome_bind].
  by intros [= <-].
Qed.

(** Once the thread has read that a dump is to stop, none can be started. *)
Theorem restart_refused path raw path' raw' :
  path <> [] ->
  let started := (activate_dump path raw dumper_new).2 in
  let stopped := thread_takes (thread_takes (stop_dump started).2) in
  is_ok (activate_dump path' raw' stopped).1 = false /\ log_dumper stopped = false.
Proof. intros Hp. destruct path; [done|]. done. Qed.

(** With a data directory that is relative, the two parts of a dump go to different
    places. *)
Example relative_data_dir :
  pretty_path 7 (lit "data") (path_join (lit "data") (lit "dump")) =
    lit "data/data/dump/0000000000000007-pretty.log" /\
  raw_path 7 (fun _ => lit "1") (path_join (lit "data") (lit "dump")) 1 =
    lit "data/dump/0000000000000007-1".
Proof. split; vm_compute; reflexivity. Qed.
