(* ===== verification/Grpc.v ===== *)
(** * The gRPC server

    The service [concordium.v2.Queries] of [concordium-node/src/grpc2.rs]: which
    endpoints are enabled, what each of them does with the node and with
    consensus, the tasks that relay new blocks to clients, dry-run sessions, the
    limit on connections and the statistics of requests. *)

From stdpp Require Import base tactics list gmap strings option numbers.
From Stdlib Require Import ZArith Floats.SpecFloat.
From S2P Require Import Prelude Text Common IpText Helpers LowLevel Wire Conn Buckets CatchUp Queues.
From S2P Require Import Config Container GrpcTypes GrpcTransactions Bans Node Callbacks Queries Connectivity.
From S2P Require Import Consensus Handlers Maintenance.

(** ** Endpoints *)

Module Endpoint.
Inductive t :=
| get_finalized_blocks
| get_blocks
| get_account_list
| get_account_info
| get_module_list
| get_module_source
| get_instance_list
| get_instance_info
| get_instance_state
| instance_state_lookup
| get_next_account_sequence_number
| get_consensus_info
| get_ancestors
| get_block_item_status
| invoke_instance
| get_cryptographic_parameters
| get_block_info
| get_baker_list
| get_pool_info
| get_passive_delegation_info
| get_blocks_at_height
| get_tokenomics_info
| get_pool_delegators
| get_pool_delegators_reward_period
| get_passive_delegators
| get_passive_delegators_reward_period
| get_branches
| get_election_info
| get_identity_providers
| get_anonymity_revokers
| get_account_non_finalized_transactions
| get_block_transaction_events
| get_block_special_events
| get_block_pending_updates
| get_next_update_sequence_numbers
| get_block_chain_parameters
| get_block_finalization_summary
| shutdown
| peer_connect
| peer_disconnect
| get_banned_peers
| ban_peer
| unban_peer
| dump_start
| dump_stop
| get_peers_info
| get_node_info
| send_block_item
| get_account_transaction_sign_hash
| get_block_items
| get_bakers_reward_period
| get_block_certificates
| get_baker_earliest_win_time
| get_first_block_epoch
| get_winning_bakers_epoch
| dry_run.

(** The name of the field in the configuration file. *)
Definition name (e : t) : string :=
  match e with
  | get_finalized_blocks => "get_finalized_blocks"
  | get_blocks => "get_blocks"
  | get_account_list => "get_account_list"
  | get_account_info => "get_account_info"
  | get_module_list => "get_module_list"
  | get_module_source => "get_module_source"
  | get_instance_list => "get_instance_list"
  | get_instance_info => "get_instance_info"
  | get_instance_state => "get_instance_state"
  | instance_state_lookup => "instance_state_lookup"
  | get_next_account_sequence_number => "get_next_account_sequence_number"
  | get_consensus_info => "get_consensus_info"
  | get_ancestors => "get_ancestors"
  | get_block_item_status => "get_block_item_status"
  | invoke_instance => "invoke_instance"
  | get_cryptographic_parameters => "get_cryptographic_parameters"
  | get_block_info => "get_block_info"
  | get_baker_list => "get_baker_list"
  | get_pool_info => "get_pool_info"
  | get_passive_delegation_info => "get_passive_delegation_info"
  | get_blocks_at_height => "get_blocks_at_height"
  | get_tokenomics_info => "get_tokenomics_info"
  | get_pool_delegators => "get_pool_delegators"
  | get_pool_delegators_reward_period => "get_pool_delegators_reward_period"
  | get_passive_delegators => "get_passive_delegators"
  | get_passive_delegators_reward_period => "get_passive_delegators_reward_period"
  | get_branches => "get_branches"
  | get_election_info => "get_election_info"
  | get_identity_providers => "get_identity_providers"
  | get_anonymity_revokers => "get_anonymity_revokers"
  | get_account_non_finalized_transactions => "get_account_non_finalized_transactions"
  | get_block_transaction_events => "get_block_transaction_events"
  | get_block_special_events => "get_block_special_events"
  | get_block_pending_updates => "get_block_pending_updates"
  | get_next_update_sequence_numbers => "get_next_update_sequence_numbers"
  | get_block_chain_parameters => "get_block_chain_parameters"
  | get_block_finalization_summary => "get_block_finalization_summary"
  | shutdown => "shutdown"
  | peer_connect => "peer_connect"
  | peer_disconnect => "peer_disconnect"
  | get_banned_peers => "get_banned_peers"
  | ban_peer => "ban_peer"
  | unban_peer => "unban_peer"
  | dump_start => "dump_start"
  | dump_stop => "dump_stop"
  | get_peers_info => "get_peers_info"
  | get_node_info => "get_node_info"
  | send_block_item => "send_block_item"
  | get_account_transaction_sign_hash => "get_account_transaction_sign_hash"
  | get_block_items => "get_block_items"
  | get_bakers_reward_period => "get_bakers_reward_period"
  | get_block_certificates => "get_block_certificates"
  | get_baker_earliest_win_time => "get_baker_earliest_win_time"
  | get_first_block_epoch => "get_first_block_epoch"
  | get_winning_bakers_epoch => "get_winning_bakers_epoch"
  | dry_run => "dry_run"
  end.
End Endpoint.

(** [ServiceConfig]: a flag for each endpoint. *)
Definition ServiceConfig : Type := Endpoint.t -> bool.
Definition new_all_enabled : ServiceConfig := fun _ => true.
(** [ServiceConfig::from_file]: [parse] is that of a TOML file with flags; a field
    that is not there is [false]. *)
Definition from_file (parse : list byte -> option (gmap string bool)) (contents : option (list byte))
    : outcome ServiceConfig :=
  bytes ← context contents "Unable to read the endpoints configuration file.";
  fields ← context (parse bytes) "Unable to parse the endpoints configuration file.";
  Ok (fun e => default false (fields !! Endpoint.name e)).

(** ** Responses *)

(** The functions of [hex] and [tonic] that [add_hash] uses. *)
Class Metadata := {
  hex_encode : list byte -> text;
  metadata_value : text -> option text;
}.

Record Response (A : Type) := mkResponse { body : A; blockhash : option text }.
Arguments mkResponse {A} body blockhash.
Arguments body {A} r.
Arguments blockhash {A} r.

Definition new_response {A} (a : A) : Response A := mkResponse a None.
Definition add_hash `{Metadata} {A} (response : Response A) (hash : list byte) : outcome (Response A) :=
  match metadata_value (hex_encode hash) with
  | Some value => Ok (mkResponse (body response) (Some value))
  | None => fail_with Code.Internal "Cannot add metadata hash."
  end.

Inductive CatchupStatus := Uptodate | PendingStatus | Catchingup.
Inductive PeerConsensusInfo := NodeCatchupStatus (s : CatchupStatus) | BootstrapperInfo.
(** [PeersInfo]. *)
Record PeerInfo := mkPeerInfo {
  pi_peer_id : list Ascii.ascii;
  pi_ip : text;
  pi_port : Z;
  pi_consensus_info : PeerConsensusInfo;
  pi_packets_sent : Z;
  pi_packets_received : Z;
  pi_latency : Z;
}.

Inductive BakerStatus :=
| PassiveCommitteeInfo (why : BakingCommitteeResponse)
| ActiveBakerCommitteeInfo
| ActiveFinalizerCommitteeInfo.
Inductive ConsensusStatus :=
| StatusNotRunning
| StatusPassive
| StatusActive (baker_id : Z) (status : BakerStatus).
Inductive NodeDetails := DetailsBootstrapper | DetailsNode (status : ConsensusStatus).
(** [NodeInfo], without the version. *)
Record NodeInfo := mkNodeInfo {
  ni_local_time : Z;
  ni_peer_uptime : Z;
  ni_node_id : list Ascii.ascii;
  ni_peer_total_sent : Z;
  ni_peer_total_received : Z;
  ni_avg_bps_in : Z;
  ni_avg_bps_out : Z;
  ni_details : NodeDetails;
}.

(** ** The server *)

(** A client that listens for blocks, and what it has been sent. *)
Record Client := mkClient { client_id : positive; client_received : list (list byte) }.
Abbreviation Clients := (list Client).

Record DryRunStream := mkDryRunStream {
  dr_handle : dry_run_handle;
  dr_permit : bool;
  dr_done : bool;
}.

(** The fields of [RpcServerImpl] that do not change; [rpc_start_time] is that of
    the node. *)
Record RpcConfig := mkRpcConfig {
  service_config : ServiceConfig;
  invoke_max_energy : Z;
  dry_run_max_energy : Z;
  dry_run_timeout : Z;
  rpc_start_time : Z;
}.

Section server.
Context `{External} `{ConsensusRuntime} `{ChainTypes} `{ConcordiumBase} `{Metadata}.
Variable ffi : ffi_call -> Runner -> Answer * Runner.
Variable rpc : RpcConfig.

(** [RpcServerImpl], with the streams that are open; [dry_run_semaphore] holds the
    permits that are left. *)
Record Server := mkServer {
  container : ConsensusContainer;
  open_streams : Streams;
  p2p : P2PNode;
  blocks_channels : Clients;
  finalized_blocks_channels : Clients;
  dry_run_semaphore : option nat;
  dry_runs : gmap positive DryRunStream;
}.

Definition set_world (w : World) (s : Server) : Server :=
  mkServer (set_consensus (library w) (container s)) (streams w) (p2p s) (blocks_channels s)
    (finalized_blocks_channels s) (dry_run_semaphore s) (dry_runs s).
Definition set_p2p (n : P2PNode) (s : Server) : Server :=
  mkServer (container s) (open_streams s) n (blocks_channels s) (finalized_blocks_channels s)
    (dry_run_semaphore s) (dry_runs s).
Definition set_clients (b f : Clients) (s : Server) : Server :=
  mkServer (container s) (open_streams s) (p2p s) b f (dry_run_semaphore s) (dry_runs s).
Definition set_dry_runs (sem : option nat) (d : gmap positive DryRunStream) (s : Server) : Server :=
  mkServer (container s) (open_streams s) (p2p s) (blocks_channels s) (finalized_blocks_channels s) sem d.

(** A query of consensus. *)
Definition on_consensus {A} (m : M World A) : M Server A := fun s =>
  let '(r, w) := m (mkWorld (consensus (container s)) (open_streams s)) in (r, set_world w s).
(** An operation of the node. *)
Definition on_node {A} (m : M P2PNode A) : M Server A := fun s =>
  let '(r, n) := m (p2p s) in (r, set_p2p n s).

(** [run_blocking].  A panic in the thread pool ends the process. *)
Definition run_blocking {A} : M World A -> M Server A := on_consensus.

(** The check at the start of each handler. *)
Definition enabled (e : Endpoint.t) (refusal : string) : M Server unit :=
  if service_config rpc e then mret tt else lift (fail_with Code.Unimplemented refusal).

(** The common form of the handlers that answer a query, with or without the hash
    of the block that was used. *)
Definition answer_with_hash {A} (m : M World (list byte * A)) : M Server (Response A) :=
  '(hash, response) ← run_blocking m;
  lift (add_hash (new_response response) hash).
Definition answer {A} (m : M World A) : M Server (Response A) :=
  response ← run_blocking m; mret (new_response response).
(** The common form of the handlers that answer with a stream: [sender] is the
    channel that is made. *)
Definition answer_with_stream (m : positive -> M World (list byte)) (sender : positive)
    : M Server (Response positive) :=
  hash ← run_blocking (m sender);
  lift (add_hash (new_response sender) hash).

(** *** Queries of a block *)

Definition get_block_info (request : option BlockHashInput) : M Server (Response (list byte)) :=
  _ ← enabled Endpoint.get_block_info "`GetBlockInfo` is not enabled.";
  answer_with_hash (get_block_info_v2 ffi request).
Definition get_passive_delegation_info (request : option BlockHashInput) : M Server (Response (list byte)) :=
  _ ← enabled Endpoint.get_passive_delegation_info "`GetPassiveDelegationInfo` is not enabled.";
  answer_with_hash (get_passive_delegation_info_v2 ffi request).
Definition get_tokenomics_info (request : option BlockHashInput) : M Server (Response (list byte)) :=
  _ ← enabled Endpoint.get_tokenomics_info "`GetTokenomicsInfo` is not enabled.";
  answer_with_hash (get_tokenomics_info_v2 ffi request).
Definition get_election_info (request : option BlockHashInput) : M Server (Response (list byte)) :=
  _ ← enabled Endpoint.get_election_info "`GetElectionInfo` is not enabled.";
  answer_with_hash (get_election_info_v2 ffi request).
Definition get_next_update_sequence_numbers (request : option BlockHashInput) : M Server (Response (list byte)) :=
  _ ← enabled Endpoint.get_next_update_sequence_numbers "`GetNextUpdateSequenceNumber` is not enabled.";
  answer_with_hash (get_next_update_sequence_numbers_v2 ffi request).
Definition get_block_chain_parameters (request : option BlockHashInput) : M Server (Response (list byte)) :=
  _ ← enabled Endpoint.get_block_chain_parameters "`GetBlockChainParameters` is not enabled.";
  answer_with_hash (get_block_chain_parameters_v2 ffi request).
Definition get_block_finalization_summary (request : option BlockHashInput) : M Server (Response (list byte)) :=
  _ ← enabled Endpoint.get_block_finalization_summary "`GetBlockFinalizationSummary` is not enabled.";
  answer_with_hash (get_block_finalization_summary_v2 ffi request).
Definition get_block_certificates (request : option BlockHashInput) : M Server (Response (list byte)) :=
  _ ← enabled Endpoint.get_block_certificates "`GetBlockCertificates` is not enabled.";
  answer_with_hash (get_block_certificates_v2 ffi request).

Definition get_account_list (request : option BlockHashInput) (sender : positive) : M Server (Response positive) :=
  _ ← enabled Endpoint.get_account_list "`GetAccountList` is not enabled.";
  answer_with_stream (get_account_list_v2 ffi request) sender.
Definition get_module_list (request : option BlockHashInput) (sender : positive) : M Server (Response positive) :=
  _ ← enabled Endpoint.get_module_list "`GetModuleList` is not enabled.";
  answer_with_stream (get_module_list_v2 ffi request) sender.
Definition get_instance_list (request : option BlockHashInput) (sender : positive) : M Server (Response positive) :=
  _ ← enabled Endpoint.get_instance_list "`GetInstanceList` is not enabled.";
  answer_with_stream (get_instance_list_v2 ffi request) sender.
Definition get_baker_list (request : option BlockHashInput) (sender : positive) : M Server (Response positive) :=
  _ ← enabled Endpoint.get_baker_list "`GetBakerList` is not enabled.";
  answer_with_stream (get_baker_list_v2 ffi request) sender.
Definition get_passive_delegators (request : option BlockHashInput) (sender : positive) : M Server (Response positive) :=
  _ ← enabled Endpoint.get_passive_delegators "`GetPassiveDelegators` is not enabled.";
  answer_with_stream (get_passive_delegators_v2 ffi request) sender.
Definition get_passive_delegators_reward_period (request : option BlockHashInput) (sender : positive) : M Server (Response positive) :=
  _ ← enabled Endpoint.get_passive_delegators_reward_period "`GetPassiveDelegatorsRewardPeriod` is not enabled.";
  answer_with_stream (get_passive_delegators_reward_period_v2 ffi request) sender.
Definition get_identity_providers (request : option BlockHashInput) (sender : positive) : M Server (Response positive) :=
  _ ← enabled Endpoint.get_identity_providers "`GetIdentityProviders` is not enabled.";
  answer_with_stream (get_identity_providers_v2 ffi request) sender.
Definition get_anonymity_revokers (request : option BlockHashInput) (sender : positive) : M Server (Response positive) :=
  _ ← enabled Endpoint.get_anonymity_revokers "`GetAnonymityRevokers` is not enabled.";
  answer_with_stream (get_anonymity_revokers_v2 ffi request) sender.
Definition get_block_items (request : option BlockHashInput) (sender : positive) : M Server (Response positive) :=
  _ ← enabled Endpoint.get_block_items "`GetBlockItems` is not enabled.";
  answer_with_stream (get_block_items_v2 ffi request) sender.
Definition get_block_transaction_events (request : option BlockHashInput) (sender : positive) : M Server (Response positive) :=
  _ ← enabled Endpoint.get_block_transaction_events "`GetBlockTransactionEvents` is not enabled.";
  answer_with_stream (get_block_transaction_events_v2 ffi request) sender.
Definition get_block_special_events (request : option BlockHashInput) (sender : positive) : M Server (Response positive) :=
  _ ← enabled Endpoint.get_block_special_events "`GetBlockSpecialEvents` is not enabled.";
  answer_with_stream (get_block_special_events_v2 ffi request) sender.
Definition get_block_pending_updates (request : option BlockHashInput) (sender : positive) : M Server (Response positive) :=
  _ ← enabled Endpoint.get_block_pending_updates "`GetBlockPendingUpdates` is not enabled.";
  answer_with_stream (get_block_pending_updates_v2 ffi request) sender.
Definition get_bakers_reward_period (request : option BlockHashInput) (sender : positive) : M Server (Response positive) :=
  _ ← enabled Endpoint.get_bakers_reward_period "`GetBakersRewardPeriod` is not enabled.";
  answer_with_stream (get_bakers_reward_period_v2 ffi request) sender.

(** *** Other queries *)

Definition get_account_info (block_hash : option (option BlockHashInput))
    (account_identifier : option (option AccountIdentifierInput)) : M Server (Response (list byte)) :=
  _ ← enabled Endpoint.get_account_info "`GetAccountInfo` is not enabled.";
  answer_with_hash (
    block_hash ← lift (require block_hash);
    account_identifier ← lift (require account_identifier);
    get_account_info_v2 ffi block_hash account_identifier).
Definition get_module_source (block_hash : option (option BlockHashInput))
    (module_ref : option (list byte)) : M Server (Response (list byte)) :=
  _ ← enabled Endpoint.get_module_source "`GetModuleSource` is not enabled.";
  answer_with_hash (
    block_hash ← lift (require block_hash);
    module_ref ← lift (require module_ref);
    get_module_source_v2 ffi block_hash module_ref).
Definition get_instance_info (block_hash : option (option BlockHashInput))
    (address : option ContractAddress) : M Server (Response (list byte)) :=
  _ ← enabled Endpoint.get_instance_info "`GetInstanceInfo` is not enabled.";
  answer_with_hash (
    block_hash ← lift (require block_hash);
    contract_address ← lift (require address);
    get_instance_info_v2 ffi block_hash contract_address).

(** The stream of a contract's state has all of its items. *)
Definition get_instance_state (block_hash : option (option BlockHashInput))
    (address : option ContractAddress) : M Server (Response (list (list byte * list byte))) :=
  _ ← enabled Endpoint.get_instance_state "`GetInstanceState` is not enabled.";
  '(hash, response) ← run_blocking (
    block_hash ← lift (require block_hash);
    contract_address ← lift (require address);
    get_instance_state_v2 ffi block_hash contract_address);
  lift (add_hash (new_response (match response with
                                | ContractV0 state => [([], state)]
                                | ContractV1 state => state_items state
                                end)) hash).
Definition instance_state_lookup (block_hash : option (option BlockHashInput))
    (address : option ContractAddress) (key : list byte) : M Server (Response (list byte)) :=
  _ ← enabled Endpoint.instance_state_lookup "`InstanceStateLookup` is not enabled.";
  block_hash ← lift (require block_hash);
  contract_address ← lift (require address);
  '(hash, response) ← run_blocking (get_instance_state_v2 ffi block_hash contract_address);
  match response with
  | ContractV0 state => lift (add_hash (new_response state) hash)
  | ContractV1 state =>
      match state_lookup state key with
      | Some value => lift (add_hash (new_response value) hash)
      | None => lift (fail_with Code.NotFound "Key not found.")
      end
  end.

Definition get_next_account_sequence_number (request : list byte) : M Server (Response (list byte)) :=
  _ ← enabled Endpoint.get_next_account_sequence_number "`GetNextAccountSequenceNumber` is not enabled.";
  answer (get_next_account_sequence_number_v2 ffi request).
Definition get_consensus_info : M Server (Response (list byte)) :=
  _ ← enabled Endpoint.get_consensus_info "`GetConsensusInfo` is not enabled.";
  answer (get_consensus_info_v2 ffi).
Definition get_ancestors (block_hash : option (option BlockHashInput)) (amount : Z) (sender : positive)
    : M Server (Response positive) :=
  _ ← enabled Endpoint.get_ancestors "`GetAncestors` is not enabled.";
  answer_with_stream (fun sender =>
    block_hash ← lift (require block_hash);
    get_ancestors_v2 ffi block_hash amount sender) sender.
Definition get_block_item_status (request : list byte) : M Server (Response (list byte)) :=
  _ ← enabled Endpoint.get_block_item_status "`GetBlockItemStatus` is not enabled.";
  answer (get_block_item_status_v2 ffi request).

(** The energy of an invocation is limited. *)
Definition cap_energy (max_energy : Z) (request : InvokeInstanceRequest) : InvokeInstanceRequest :=
  mkInvokeInstance (ii_block_hash request) (ii_invoker request) (ii_amount request)
    (ii_entrypoint request) (ii_parameter request)
    (Some (match ii_energy request with Some nrg => Z.min max_energy nrg | None => max_energy end))
    (ii_instance request).
Definition invoke_instance (request : InvokeInstanceRequest) : M Server (Response (list byte)) :=
  _ ← enabled Endpoint.invoke_instance "`InvokeInstance` is not enabled.";
  answer_with_hash (invoke_instance_v2 ffi (cap_energy (invoke_max_energy rpc) request)).

Definition get_cryptographic_parameters (request : option BlockHashInput)
    : M Server (Response CryptographicParameters) :=
  _ ← enabled Endpoint.get_cryptographic_parameters "`GetCryptographicParameters` is not enabled.";
  answer_with_hash (get_cryptographic_parameters_v2 ffi request).
Definition get_pool_info (request : PoolRequest) : M Server (Response (list byte)) :=
  _ ← enabled Endpoint.get_pool_info "`GetPoolInfo` is not enabled.";
  answer_with_hash (get_pool_info_v2 ffi request).
Definition get_blocks_at_height (request : option BlocksAtHeight) : M Server (Response (list byte)) :=
  _ ← enabled Endpoint.get_blocks_at_height "`GetBlocksAtHeight` is not enabled.";
  answer (get_blocks_at_height_v2 ffi request).
Definition get_pool_delegators (request : PoolRequest) (sender : positive)
    : M Server (Response positive) :=
  _ ← enabled Endpoint.get_pool_delegators "`GetPoolDelegators` is not enabled.";
  answer_with_stream (get_pool_delegators_v2 ffi request) sender.
Definition get_pool_delegators_reward_period (request : PoolRequest) (sender : positive)
    : M Server (Response positive) :=
  _ ← enabled Endpoint.get_pool_delegators_reward_period "`GetPoolDelegatorsRewardPeriod` is not enabled.";
  answer_with_stream (get_pool_delegators_reward_period_v2 ffi request) sender.
Definition get_branches : M Server (Response (list byte)) :=
  _ ← enabled Endpoint.get_branches "`GetBranches` is not enabled.";
  answer (get_branches_v2 ffi).
Definition get_account_non_finalized_transactions (request : list byte) (sender : positive)
    : M Server (Response positive) :=
  _ ← enabled Endpoint.get_account_non_finalized_transactions "`GetAccountNonFinalizedTransactions` is not enabled.";
  _ ← run_blocking (get_account_non_finalized_transactions_v2 ffi request sender);
  mret (new_response sender).
Definition get_baker_earliest_win_time (request : Z) : M Server (Response (list byte)) :=
  _ ← enabled Endpoint.get_baker_earliest_win_time "`GetBakerEarliestWinTime` is not enabled.";
  answer (get_baker_earliest_win_time_v2 ffi request).
Definition get_first_block_epoch (request : option EpochRequestInput) : M Server (Response (list byte)) :=
  _ ← enabled Endpoint.get_first_block_epoch "`GetFirstBlockEpoch` is not enabled.";
  answer (get_first_block_epoch_v2 ffi request).
Definition get_winning_bakers_epoch (request : option EpochRequestInput) (sender : positive)
    : M Server (Response positive) :=
  _ ← enabled Endpoint.get_winning_bakers_epoch "`GetWinningBakersEpoch` is not enabled.";
  _ ← run_blocking (get_winning_bakers_epoch_v2 ffi request sender);
  mret (new_response sender).

(** *** New blocks *)

(** [get_blocks] and [get_finalized_blocks]: the client is added to the list.  The
    lock is never poisoned, as nothing panics while it is held. *)
Definition get_blocks (id : positive) : M Server positive :=
  _ ← enabled Endpoint.get_blocks "`GetBlocks` is not enabled.";
  _ ← modify (fun s => set_clients (blocks_channels s ++ [mkClient id []])
                         (finalized_blocks_channels s) s);
  mret id.
Definition get_finalized_blocks (id : positive) : M Server positive :=
  _ ← enabled Endpoint.get_finalized_blocks "`GetFinalizedBlocks` is not enabled.";
  _ ← modify (fun s => set_clients (blocks_channels s)
                         (finalized_blocks_channels s ++ [mkClient id []]) s);
  mret id.

(** The body of the tasks [blocks_relay] and [finalized_blocks_relay], for one
    block: [answers] are those of [try_send] for each client. *)
Definition relay_block (answers : positive -> TrySend) (v : list byte) (senders : Clients) : Clients :=
  omap (fun c => match answers (client_id c) with
                 | Sent => Some (mkClient (client_id c) (client_received c ++ [v]))
                 | Full => Some c
                 | Disconnected => None
                 end) senders.

(** *** The node *)

Definition NETWORK_STOPPED : string := "The network is stopped due to unrecognized protocol update.".

(** [ip.require()?.value.parse::<IpAddr>()]. *)
Definition parse_ip (value : option text) (refusal : string) : outcome IpAddr :=
  s ← require value;
  match ip_from_str s with
  | Some ip => Ok ip
  | None => fail_with Code.InvalidArgument refusal
  end.
(** The address in a request to connect or to disconnect; [as u16] of the port. *)
Definition parse_address (ip port : option _) : outcome SocketAddr :=
  ip ← parse_ip ip "Invalid IP address.";
  port ← require port;
  Ok (mkSocketAddr ip (u16_wrap port)).

Definition peer_connect (ip : option text) (port : option Z) : M Server unit :=
  _ ← enabled Endpoint.peer_connect "`PeerConnect` is not enabled.";
  s ← get;
  if is_network_stopped (p2p s) then lift (fail_with Code.FailedPrecondition NETWORK_STOPPED)
  else
    addr ← lift (parse_address ip port);
    modify (fun s => set_p2p (register_conn_change (NewConn addr Node true) (p2p s)) s).

Definition peer_disconnect (ip : option text) (port : option Z) : M Server unit :=
  _ ← enabled Endpoint.peer_disconnect "`PeerDisconnect` is not enabled.";
  s ← get;
  if is_network_stopped (p2p s) then lift (fail_with Code.FailedPrecondition NETWORK_STOPPED)
  else
    addr ← lift (parse_address ip port);
    dropped ← on_node (fun n => let '(b, n') := drop_addr addr n in (Ok b, n'));
    if dropped : bool then mret tt else lift (fail_with Code.NotFound "The peer was not found.").

Definition get_banned_peers : M Server (list text) :=
  _ ← enabled Endpoint.get_banned_peers "`GetBannedPeers` is not enabled.";
  s ← get;
  match get_banlist (kvs (p2p s)) with
  | Ok banned_peers => mret ((fun '(PersistedIp a) => ip_to_string a) <$> banned_peers)
  | Err _ => lift (fail_with Code.Internal "Could not load banned peers.")
  | Panic => lift Panic
  end.

(** An error of the node, as a status. *)
Definition internal_error {A} (what : string) (m : M Server A) : M Server A := fun s =>
  match m s with
  | (Err _, s') => (fail_with Code.Internal what, s')
  | r => r
  end.

Definition ban_peer (ip_address : option text) : M Server unit :=
  _ ← enabled Endpoint.ban_peer "`BanPeer` is not enabled.";
  ip_addr ← lift (parse_ip ip_address "Invalid IP address provided");
  _ ← internal_error "Could not ban peer" (on_node (drop_by_ip_and_ban ip_addr));
  mret tt.
Definition unban_peer (ip_address : option text) : M Server unit :=
  _ ← enabled Endpoint.unban_peer "`UnbanPeer` is not enabled.";
  ip_addr ← lift (parse_ip ip_address "Invalid IP address");
  internal_error "Could not unban peer" (on_node (on_store (unban_node (PersistedIp ip_addr)))).

(** [dump_start] and [dump_stop], without the feature [network_dump]. *)
Definition dump_start : M Server unit :=
  _ ← enabled Endpoint.dump_start "`DumpStart` is not enabled.";
  lift (fail_with Code.FailedPrecondition "Feature network_dump is not active.").
Definition dump_stop : M Server unit :=
  _ ← enabled Endpoint.dump_stop "`DumpStop` is not enabled.";
  lift (fail_with Code.FailedPrecondition "Feature network_dump is not active.").

(** What [get_peers_info] reports of a peer. *)
Definition peer_info (peer_statuses : gmap RemotePeerId PeerStatus) (peer_stats : PeerStats)
    : PeerInfo :=
  mkPeerInfo (fmt_016x (ps_self_id peer_stats)) (ip_to_string (ip (external_address peer_stats)))
    (ps_external_port peer_stats)
    (match ps_peer_type peer_stats with
     | Node => NodeCatchupStatus (match peer_statuses !! ps_local_id peer_stats with
                                  | Some CatchingUp => Catchingup
                                  | Some UpToDate => Uptodate
                                  | _ => PendingStatus
                                  end)
     | Bootstrapper => BootstrapperInfo
     end)
    (ps_msgs_sent peer_stats) (ps_msgs_received peer_stats) (ps_latency peer_stats).
Definition get_peers_info : M Server (list PeerInfo) :=
  _ ← enabled Endpoint.get_peers_info "`GetPeersInfo` is not enabled.";
  s ← get;
  let peer_statuses := peer_states (peers (p2p s)) in
  peer_stats ← lift (get_peer_stats None (p2p s));
  mret (peer_info peer_statuses <$> peer_stats).

(** [get_uptime], at the time [now]. *)
Definition get_uptime (now : Z) : Z := now - rpc_start_time rpc.

(** What [get_node_info] reports of consensus. *)
Definition consensus_status (c : ConsensusContainer) : outcome ConsensusStatus :=
  running ← is_consensus_running c;
  if negb running then Ok StatusNotRunning
  else if decide (consensus_type c = Active) then
    '(status, _, bid, _) ← in_baking_committee c;
    baker_status ←
      match status with
      | ActiveInCommittee =>
          finalizer ← in_finalization_committee c;
          Ok (if finalizer : bool then ActiveFinalizerCommitteeInfo else ActiveBakerCommitteeInfo)
      | other => Ok (PassiveCommitteeInfo other)
      end;
    Ok (StatusActive bid baker_status)
  else Ok StatusPassive.
Definition node_details (n : P2PNode) (c : ConsensusContainer) : outcome NodeDetails :=
  match node_type n with
  | Bootstrapper => Ok DetailsBootstrapper
  | Node => DetailsNode <$> consensus_status c
  end.
(** [get_node_info]; a clock before 1970 is a panic. *)
Definition get_node_info (now : Z) : M Server NodeInfo :=
  _ ← enabled Endpoint.get_node_info "`GetNodeInfo` is not enabled.";
  s ← get;
  _ ← lift (if now <? 0 then Panic else Ok tt);
  details ← lift (node_details (p2p s) (container s));
  mret (mkNodeInfo (u64_wrap now) (u64_wrap (get_uptime now)) (fmt_016x (node_id (p2p s)))
          (total_sent (node_totals (p2p s))) (total_received (node_totals (p2p s)))
          (avg_bps_in (node_stats (p2p s))) (avg_bps_out (node_stats (p2p s))) details).

(** [shutdown]: blocks, as [None], while a queue of consensus is full. *)
Definition shutdown (s : Server) : option (outcome unit * Server) :=
  match enabled Endpoint.shutdown "`Shutdown` is not enabled." s with
  | (Ok _, s1) => (fun n => (Ok tt, set_p2p n s1)) <$> close (p2p s1)
  | r => Some r
  end.

(** *** Transactions *)

(** What [send_block_item] does in the thread pool. *)
Definition submit_block_item (request : option SendBlockItemRequest)
    : M World (option (list byte) * ConsensusFfiResponse * list byte) :=
  transaction_bytes ← lift (get_v0_format request);
  _ ← lift (if PROTOCOL_MAX_TRANSACTION_SIZE <? Z.of_nat (length transaction_bytes)
            then fail_with Code.InvalidArgument "Transaction size exceeds maximum allowed size."
            else Ok tt);
  r ← send_transaction ffi transaction_bytes;
  mret (r, transaction_bytes).
(** The message to the peers; [false] if the queue is full. *)
Definition transaction_message (transaction_bytes : list byte) : ConsensusMessage :=
  mkConsensusMessage (Outbound None) Transaction (packet_type_tag Transaction :: transaction_bytes) []
    None.
Definition enqueue_transaction (transaction_bytes : list byte) : M P2PNode bool := fun n =>
  match send_out_message (transaction_message transaction_bytes) (callback_queue n) with
  | Some q => (Ok true, upd_callback_queue (fun _ => q) n)
  | None => (Ok false, n)
  end.

(** [send_block_item]. *)
Definition send_block_item (request : option SendBlockItemRequest) : M Server (list byte) :=
  _ ← enabled Endpoint.send_block_item "`SendBlockItem` is not enabled.";
  s ← get;
  _ ← lift (if is_network_stopped (p2p s) then fail_with Code.FailedPrecondition NETWORK_STOPPED
            else Ok tt);
  '((transaction_hash, consensus_result), transaction_bytes) ← run_blocking (submit_block_item request);
  match consensus_result with
  | Success =>
      sent ← on_node (enqueue_transaction transaction_bytes);
      if sent : bool then
        match transaction_hash with
        | Some h => mret h
        | None =>
            lift (fail_with Code.Internal "Block item hash not present, but transaction is accepted.")
        end
      else lift (fail_with Code.Internal "Couldn't put a transaction in the outbound queue")
  | DuplicateEntry => lift (fail_with Code.AlreadyExists "Duplicate entry")
  | _ => lift (fail_with Code.InvalidArgument "The transaction was not accepted")
  end.

Definition get_account_transaction_sign_hash (request : PreAccountTransaction) : M Server (list byte) :=
  _ ← enabled Endpoint.get_account_transaction_sign_hash "`GetAccountTransactionSignHash` is not enabled.";
  '(header, payload) ← lift (pre_account_transaction request);
  mret (compute_transaction_sign_hash header payload).

(** *** Dry runs *)

(** [dry_run]: the new session is [id]; the answer has the quota and the timeout
    in milliseconds. *)
Definition dry_run (id : positive) : M Server (Z * Z) :=
  _ ← enabled Endpoint.dry_run "`DryRun` is not enabled.";
  s ← get;
  '(sem, permit) ← match dry_run_semaphore s with
                   | None => mret (None, false)
                   | Some O => lift (fail_with Code.ResourceExhausted
                                       "Too many concurrent `DryRun` requests")
                   | Some (S available) => mret (Some available, true)
                   end;
  let energy_quota := dry_run_max_energy rpc in
  handle ← on_consensus (dry_run_start ffi energy_quota);
  _ ← modify (fun s => set_dry_runs sem (<[id := mkDryRunStream handle permit false]> (dry_runs s)) s);
  mret (energy_quota, Z.min (2 ^ 64 - 1) (dry_run_timeout rpc * 1000)).

Inductive DryRunStateQuery :=
| GetAccountInfo (account : option AccountIdentifierInput)
| GetInstanceInfo (instance : ContractAddress)
| InvokeInstance (input : InvokeInstanceRequest).
Inductive DryRunStateOperation :=
| SetTimestamp (timestamp : Z)
| MintToAccount (account : option (list byte)) (amount : option Z)
| RunTransaction (input : DryRunTransaction).
Inductive DryRunRequest :=
| LoadBlockState (block_hash_input : option BlockHashInput)
| StateQuery (query : option DryRunStateQuery)
| StateOperation (operation : option DryRunStateOperation).

(** What a poll of the requests of a client gives. *)
Inductive DryRunInput :=
| InputPending
| InputEnd
| InputInvalid
| InputRequest (request : option DryRunRequest).
(** [Poll<Option<..>>]. *)
Inductive Polled := PollPending | ReadyNone | ReadySome (item : outcome (list byte)).

(** What is to be done for a request, if its fields are there. *)
Definition dry_run_operation (handle : dry_run_handle) (request : DryRunRequest)
    : outcome (M World (list byte)) :=
  match request with
  | LoadBlockState block_hash_input => Ok (dry_load_block_state ffi handle block_hash_input)
  | StateQuery query =>
      query ← require query;
      Ok (match query with
          | GetAccountInfo account => dry_get_account_info ffi handle account
          | GetInstanceInfo instance => dry_get_instance_info ffi handle instance
          | InvokeInstance input => dry_invoke_instance ffi handle input
          end)
  | StateOperation operation =>
      operation ← require operation;
      Ok (match operation with
          | SetTimestamp timestamp => dry_set_timestamp ffi handle timestamp
          | MintToAccount account amount => dry_mint_to_account ffi handle account amount
          | RunTransaction input => dry_transaction ffi handle input
          end)
  end.

Definition mark_done (id : positive) (d : bool) (s : Server) : Server :=
  set_dry_runs (dry_run_semaphore s)
    (alter (fun st => mkDryRunStream (dr_handle st) (dr_permit st) d) id (dry_runs s)) s.

(** [DryRunStream::poll_next]; a field that is missing returns early. *)
Definition dry_run_poll_next (id : positive) (timed_out : bool) (input : DryRunInput) (s : Server)
    : Polled * Server :=
  match dry_runs s !! id with
  | None => (ReadyNone, s)
  | Some st =>
      if dr_done st then (ReadyNone, s)
      else if timed_out then
        (ReadySome (fail_with Code.DeadlineExceeded "dry run deadline elapsed"), mark_done id true s)
      else match input with
      | InputPending => (PollPending, s)
      | InputEnd => (ReadyNone, mark_done id true s)
      | InputInvalid =>
          (ReadySome (fail_with Code.InvalidArgument "invalid dry run request"), mark_done id true s)
      | InputRequest request =>
          match (r ← require request; dry_run_operation (dr_handle st) r) with
          | Ok operation =>
              let '(result, s1) := on_consensus operation s in
              (ReadySome result, mark_done id (negb (is_ok result)) s1)
          | Err e => (ReadySome (Err e), s)
          | Panic => (ReadySome Panic, s)
          end
      end
  end.

(** [drop] of a [DryRunStream]: the session ends, and its permit is returned. *)
Definition dry_run_stream_drop (id : positive) : M Server unit :=
  s ← get;
  match dry_runs s !! id with
  | None => mret tt
  | Some st =>
      _ ← on_consensus (dry_run_drop ffi (dr_handle st));
      modify (fun s =>
        set_dry_runs (if dr_permit st then S <$> dry_run_semaphore s else dry_run_semaphore s)
          (delete id (dry_runs s)) s)
  end.

(** ** Any request *)

Inductive Request :=
| ReqGetBlockInfo (request : option BlockHashInput)
| ReqGetPassiveDelegationInfo (request : option BlockHashInput)
| ReqGetTokenomicsInfo (request : option BlockHashInput)
| ReqGetElectionInfo (request : option BlockHashInput)
| ReqGetNextUpdateSequenceNumbers (request : option BlockHashInput)
| ReqGetBlockChainParameters (request : option BlockHashInput)
| ReqGetBlockFinalizationSummary (request : option BlockHashInput)
| ReqGetBlockCertificates (request : option BlockHashInput)
| ReqGetAccountList (request : option BlockHashInput) (sender : positive)
| ReqGetModuleList (request : option BlockHashInput) (sender : positive)
| ReqGetInstanceList (request : option BlockHashInput) (sender : positive)
| ReqGetBakerList (request : option BlockHashInput) (sender : positive)
| ReqGetPassiveDelegators (request : option BlockHashInput) (sender : positive)
| ReqGetPassiveDelegatorsRewardPeriod (request : option BlockHashInput) (sender : positive)
| ReqGetIdentityProviders (request : option BlockHashInput) (sender : positive)
| ReqGetAnonymityRevokers (request : option BlockHashInput) (sender : positive)
| ReqGetBlockItems (request : option BlockHashInput) (sender : positive)
| ReqGetBlockTransactionEvents (request : option BlockHashInput) (sender : positive)
| ReqGetBlockSpecialEvents (request : option BlockHashInput) (sender : positive)
| ReqGetBlockPendingUpdates (request : option BlockHashInput) (sender : positive)
| ReqGetBakersRewardPeriod (request : option BlockHashInput) (sender : positive)
| ReqGetAccountInfo (block_hash : option (option BlockHashInput)) (account_identifier : option (option AccountIdentifierInput))
| ReqGetModuleSource (block_hash : option (option BlockHashInput)) (module_ref : option (list byte))
| ReqGetInstanceInfo (block_hash : option (option BlockHashInput)) (address : option ContractAddress)
| ReqGetInstanceState (block_hash : option (option BlockHashInput)) (address : option ContractAddress)
| ReqInstanceStateLookup (block_hash : option (option BlockHashInput)) (address : option ContractAddress) (key : list byte)
| ReqGetNextAccountSequenceNumber (account : list byte)
| ReqGetConsensusInfo
| ReqGetAncestors (block_hash : option (option BlockHashInput)) (amount : Z) (sender : positive)
| ReqGetBlockItemStatus (hash : list byte)
| ReqInvokeInstance (invoke : InvokeInstanceRequest)
| ReqGetCryptographicParameters (request : option BlockHashInput)
| ReqGetPoolInfo (pool : PoolRequest)
| ReqGetBlocksAtHeight (height : option BlocksAtHeight)
| ReqGetPoolDelegators (pool : PoolRequest) (sender : positive)
| ReqGetPoolDelegatorsRewardPeriod (pool : PoolRequest) (sender : positive)
| ReqGetBranches
| ReqGetAccountNonFinalizedTransactions (account : list byte) (sender : positive)
| ReqGetBakerEarliestWinTime (baker : Z)
| ReqGetFirstBlockEpoch (epoch : option EpochRequestInput)
| ReqGetWinningBakersEpoch (epoch : option EpochRequestInput) (sender : positive)
| ReqGetBlocks (id : positive)
| ReqGetFinalizedBlocks (id : positive)
| ReqPeerConnect (ip : option text) (port : option Z)
| ReqPeerDisconnect (ip : option text) (port : option Z)
| ReqGetBannedPeers
| ReqBanPeer (ip_address : option text)
| ReqUnbanPeer (ip_address : option text)
| ReqDumpStart
| ReqDumpStop
| ReqGetPeersInfo
| ReqGetNodeInfo (now : Z)
| ReqSendBlockItem (item : option SendBlockItemRequest)
| ReqGetAccountTransactionSignHash (transaction : PreAccountTransaction)
| ReqDryRun (id : positive)
| ReqShutdown.

Definition endpoint_of (r : Request) : Endpoint.t :=
  match r with
  | ReqGetBlockInfo _ => Endpoint.get_block_info
  | ReqGetPassiveDelegationInfo _ => Endpoint.get_passive_delegation_info
  | ReqGetTokenomicsInfo _ => Endpoint.get_tokenomics_info
  | ReqGetElectionInfo _ => Endpoint.get_election_info
  | ReqGetNextUpdateSequenceNumbers _ => Endpoint.get_next_update_sequence_numbers
  | ReqGetBlockChainParameters _ => Endpoint.get_block_chain_parameters
  | ReqGetBlockFinalizationSummary _ => Endpoint.get_block_finalization_summary
  | ReqGetBlockCertificates _ => Endpoint.get_block_certificates
  | ReqGetAccountList _ _ => Endpoint.get_account_list
  | ReqGetModuleList _ _ => Endpoint.get_module_list
  | ReqGetInstanceList _ _ => Endpoint.get_instance_list
  | ReqGetBakerList _ _ => Endpoint.get_baker_list
  | ReqGetPassiveDelegators _ _ => Endpoint.get_passive_delegators
  | ReqGetPassiveDelegatorsRewardPeriod _ _ => Endpoint.get_passive_delegators_reward_period
  | ReqGetIdentityProviders _ _ => Endpoint.get_identity_providers
  | ReqGetAnonymityRevokers _ _ => Endpoint.get_anonymity_revokers
  | ReqGetBlockItems _ _ => Endpoint.get_block_items
  | ReqGetBlockTransactionEvents _ _ => Endpoint.get_block_transaction_events
  | ReqGetBlockSpecialEvents _ _ => Endpoint.get_block_special_events
  | ReqGetBlockPendingUpdates _ _ => Endpoint.get_block_pending_updates
  | ReqGetBakersRewardPeriod _ _ => Endpoint.get_bakers_reward_period
  | ReqGetAccountInfo _ _ => Endpoint.get_account_info
  | ReqGetModuleSource _ _ => Endpoint.get_module_source
  | ReqGetInstanceInfo _ _ => Endpoint.get_instance_info
  | ReqGetInstanceState _ _ => Endpoint.get_instance_state
  | ReqInstanceStateLookup _ _ _ => Endpoint.instance_state_lookup
  | ReqGetNextAccountSequenceNumber _ => Endpoint.get_next_account_sequence_number
  | ReqGetConsensusInfo => Endpoint.get_consensus_info
  | ReqGetAncestors _ _ _ => Endpoint.get_ancestors
  | ReqGetBlockItemStatus _ => Endpoint.get_block_item_status
  | ReqInvokeInstance _ => Endpoint.invoke_instance
  | ReqGetCryptographicParameters _ => Endpoint.get_cryptographic_parameters
  | ReqGetPoolInfo _ => Endpoint.get_pool_info
  | ReqGetBlocksAtHeight _ => Endpoint.get_blocks_at_height
  | ReqGetPoolDelegators _ _ => Endpoint.get_pool_delegators
  | ReqGetPoolDelegatorsRewardPeriod _ _ => Endpoint.get_pool_delegators_reward_period
  | ReqGetBranches => Endpoint.get_branches
  | ReqGetAccountNonFinalizedTransactions _ _ => Endpoint.get_account_non_finalized_transactions
  | ReqGetBakerEarliestWinTime _ => Endpoint.get_baker_earliest_win_time
  | ReqGetFirstBlockEpoch _ => Endpoint.get_first_block_epoch
  | ReqGetWinningBakersEpoch _ _ => Endpoint.get_winning_bakers_epoch
  | ReqGetBlocks _ => Endpoint.get_blocks
  | ReqGetFinalizedBlocks _ => Endpoint.get_finalized_blocks
  | ReqPeerConnect _ _ => Endpoint.peer_connect
  | ReqPeerDisconnect _ _ => Endpoint.peer_disconnect
  | ReqGetBannedPeers => Endpoint.get_banned_peers
  | ReqBanPeer _ => Endpoint.ban_peer
  | ReqUnbanPeer _ => Endpoint.unban_peer
  | ReqDumpStart => Endpoint.dump_start
  | ReqDumpStop => Endpoint.dump_stop
  | ReqGetPeersInfo => Endpoint.get_peers_info
  | ReqGetNodeInfo _ => Endpoint.get_node_info
  | ReqSendBlockItem _ => Endpoint.send_block_item
  | ReqGetAccountTransactionSignHash _ => Endpoint.get_account_transaction_sign_hash
  | ReqDryRun _ => Endpoint.dry_run
  | ReqShutdown => Endpoint.shutdown
  end.

Inductive Reply :=
| AMessage (response : Response (list byte))
| AStream (response : Response positive)
| AState (response : Response (list (list byte * list byte)))
| AParameters (response : Response CryptographicParameters)
| AId (client : positive)
| AUnit (u : unit)
| ABanned (peers : list text)
| APeers (peers : list PeerInfo)
| ANodeInfo (info : NodeInfo)
| ABytes (value : list byte)
| ADryRun (quota_and_timeout : Z * Z).

(** A handler with its reply. *)
Definition reply {A} (f : A -> Reply) (m : M Server A) (s : Server) : option (outcome Reply * Server) :=
  Some ((a ← m; mret (f a)) s).

(** The service: the reply to a request, or [None] if the handler blocks. *)
Definition serve (r : Request) : Server -> option (outcome Reply * Server) :=
  match r with
  | ReqGetBlockInfo request => reply AMessage (get_block_info request)
  | ReqGetPassiveDelegationInfo request => reply AMessage (get_passive_delegation_info request)
  | ReqGetTokenomicsInfo request => reply AMessage (get_tokenomics_info request)
  | ReqGetElectionInfo request => reply AMessage (get_election_info request)
  | ReqGetNextUpdateSequenceNumbers request => reply AMessage (get_next_update_sequence_numbers request)
  | ReqGetBlockChainParameters request => reply AMessage (get_block_chain_parameters request)
  | ReqGetBlockFinalizationSummary request => reply AMessage (get_block_finalization_summary request)
  | ReqGetBlockCertificates request => reply AMessage (get_block_certificates request)
  | ReqGetAccountList request sender => reply AStream (get_account_list request sender)
  | ReqGetModuleList request sender => reply AStream (get_module_list request sender)
  | ReqGetInstanceList request sender => reply AStream (get_instance_list request sender)
  | ReqGetBakerList request sender => reply AStream (get_baker_list request sender)
  | ReqGetPassiveDelegators request sender => reply AStream (get_passive_delegators request sender)
  | ReqGetPassiveDelegatorsRewardPeriod request sender => reply AStream (get_passive_delegators_reward_period request sender)
  | ReqGetIdentityProviders request sender => reply AStream (get_identity_providers request sender)
  | ReqGetAnonymityRevokers request sender => reply AStream (get_anonymity_revokers request sender)
  | ReqGetBlockItems request sender => reply AStream (get_block_items request sender)
  | ReqGetBlockTransactionEvents request sender => reply AStream (get_block_transaction_events request sender)
  | ReqGetBlockSpecialEvents request sender => reply AStream (get_block_special_events request sender)
  | ReqGetBlockPendingUpdates request sender => reply AStream (get_block_pending_updates request sender)
  | ReqGetBakersRewardPeriod request sender => reply AStream (get_bakers_reward_period request sender)
  | ReqGetAccountInfo block_hash account_identifier => reply AMessage (get_account_info block_hash account_identifier)
  | ReqGetModuleSource block_hash module_ref => reply AMessage (get_module_source block_hash module_ref)
  | ReqGetInstanceInfo block_hash address => reply AMessage (get_instance_info block_hash address)
  | ReqGetInstanceState block_hash address => reply AState (get_instance_state block_hash address)
  | ReqInstanceStateLookup block_hash address key => reply AMessage (instance_state_lookup block_hash address key)
  | ReqGetNextAccountSequenceNumber account => reply AMessage (get_next_account_sequence_number account)
  | ReqGetConsensusInfo => reply AMessage (get_consensus_info)
  | ReqGetAncestors block_hash amount sender => reply AStream (get_ancestors block_hash amount sender)
  | ReqGetBlockItemStatus hash => reply AMessage (get_block_item_status hash)
  | ReqInvokeInstance invoke => reply AMessage (invoke_instance invoke)
  | ReqGetCryptographicParameters request => reply AParameters (get_cryptographic_parameters request)
  | ReqGetPoolInfo pool => reply AMessage (get_pool_info pool)
  | ReqGetBlocksAtHeight height => reply AMessage (get_blocks_at_height height)
  | ReqGetPoolDelegators pool sender => reply AStream (get_pool_delegators pool sender)
  | ReqGetPoolDelegatorsRewardPeriod pool sender => reply AStream (get_pool_delegators_reward_period pool sender)
  | ReqGetBranches => reply AMessage (get_branches)
  | ReqGetAccountNonFinalizedTransactions account sender => reply AStream (get_account_non_finalized_transactions account sender)
  | ReqGetBakerEarliestWinTime baker => reply AMessage (get_baker_earliest_win_time baker)
  | ReqGetFirstBlockEpoch epoch => reply AMessage (get_first_block_epoch epoch)
  | ReqGetWinningBakersEpoch epoch sender => reply AStream (get_winning_bakers_epoch epoch sender)
  | ReqGetBlocks id => reply AId (get_blocks id)
  | ReqGetFinalizedBlocks id => reply AId (get_finalized_blocks id)
  | ReqPeerConnect ip port => reply AUnit (peer_connect ip port)
  | ReqPeerDisconnect ip port => reply AUnit (peer_disconnect ip port)
  | ReqGetBannedPeers => reply ABanned (get_banned_peers)
  | ReqBanPeer ip_address => reply AUnit (ban_peer ip_address)
  | ReqUnbanPeer ip_address => reply AUnit (unban_peer ip_address)
  | ReqDumpStart => reply AUnit (dump_start)
  | ReqDumpStop => reply AUnit (dump_stop)
  | ReqGetPeersInfo => reply APeers (get_peers_info)
  | ReqGetNodeInfo now => reply ANodeInfo (get_node_info now)
  | ReqSendBlockItem item => reply ABytes (send_block_item item)
  | ReqGetAccountTransactionSignHash transaction => reply ABytes (get_account_transaction_sign_hash transaction)
  | ReqDryRun id => reply ADryRun (dry_run id)
  | ReqShutdown => fun s => (fun x : outcome unit * Server => (AUnit <$> x.1, x.2)) <$> shutdown s
  end.
End server.
