(* ===== verification/GrpcServer.v ===== *)
(** * The gRPC server as a task

    How the server is set up and shut down, how the number of its connections is
    limited, and which statistics are kept of its requests
    ([concordium-node/src/grpc2.rs]). *)

From stdpp Require Import base tactics list gmap strings option numbers relations.
From Stdlib Require Import ZArith.
From S2P Require Import Prelude Text Common IpText Helpers LowLevel Wire Conn Buckets CatchUp Queues.
From S2P Require Import Config Container GrpcTypes GrpcTransactions Bans Node Callbacks Queries Connectivity.
From S2P Require Import Consensus Handlers Maintenance Grpc.

(** ** Connections *)

Inductive Incoming := IncomingPending | IncomingEnd | IncomingError | IncomingConn (id : positive).
Inductive Accepted := NotReady | StreamEnd | AcceptError | Accept (id : positive).

(** [ConnStreamWithTicket], with the connections that are open: the permits that
    are left, and the gauge. *)
Record ConnStreamWithTicket := mkConnStream {
  cs_permits : nat;
  grpc_connected_clients : Z;
  cs_open : gset positive;
}.

(** [poll_next]: a permit is needed before a connection is looked for, and is kept
    only with a connection. *)
Definition conn_poll_next (incoming : Incoming) (c : ConnStreamWithTicket)
    : Accepted * ConnStreamWithTicket :=
  match cs_permits c with
  | O => (NotReady, c)
  | S left_ =>
      match incoming with
      | IncomingPending => (NotReady, c)
      | IncomingEnd => (StreamEnd, c)
      | IncomingError => (AcceptError, c)
      | IncomingConn id =>
          (Accept id, mkConnStream left_ (u64_wrap (grpc_connected_clients c + 1)) ({[id]} ∪ cs_open c))
      end
  end.
(** [Drop for AddrStreamWithTicket], and then of its permit. *)
Definition conn_drop (id : positive) (c : ConnStreamWithTicket) : ConnStreamWithTicket :=
  mkConnStream (S (cs_permits c)) (u64_wrap (grpc_connected_clients c - 1)) (cs_open c ∖ {[id]}).

Inductive conn_step : ConnStreamWithTicket -> ConnStreamWithTicket -> Prop :=
| conn_step_poll incoming c :
    (forall id, incoming = IncomingConn id -> id ∉ cs_open c) -> conn_step c (conn_poll_next incoming c).2
| conn_step_drop id c : id ∈ cs_open c -> conn_step c (conn_drop id c).

Definition conns_ok (max_connections : nat) (c : ConnStreamWithTicket) : Prop :=
  (cs_permits c + size (cs_open c))%nat = max_connections /\
  grpc_connected_clients c = Z.of_nat (size (cs_open c)).

Lemma conn_step_ok max c c' :
  Z.of_nat max < 2 ^ 64 -> conn_step c c' -> conns_ok max c -> conns_ok max c'.
Proof.
  intros Hmax Hstep [Hp Hg]. destruct Hstep as [incoming c Hfresh|id c Hid].
  - unfold conn_poll_next. destruct (cs_permits c) as [|k] eqn:Ek; [by unfold conns_ok; simpl; rewrite Ek|].
    destruct incoming as [| | |id]; try by unfold conns_ok; simpl; rewrite Ek.
    specialize (Hfresh id eq_refl). unfold conns_ok. cbn [snd cs_permits cs_open grpc_connected_clients].
    rewrite size_union, size_singleton by set_solver. split; [lia|].
    rewrite Hg. unfold wrap. rewrite Z.mod_small by lia. lia.
  - unfold conn_drop, conns_ok. cbn [cs_permits cs_open grpc_connected_clients].
    assert (Hs : size (cs_open c) = S (size (cs_open c ∖ {[id]}))).
    { rewrite size_difference by set_solver. rewrite size_singleton.
      assert (size (cs_open c) <> 0%nat); [|lia]. apply size_non_empty_iff. set_solver. }
    rewrite Hg. split; [lia|]. unfold wrap. rewrite Z.mod_small by lia. lia.
Qed.

(** C21: connections of clients.  However connections are accepted, fail and are
    closed, there are never more of them than configured, the gauge shows their
    number, and no permit is lost: a connection is accepted whenever fewer are
    open. *)
Theorem connections_limited max c c' :
  Z.of_nat max < 2 ^ 64 -> conns_ok max c -> rtc conn_step c c' ->
  (size (cs_open c') <= max)%nat /\
  grpc_connected_clients c' = Z.of_nat (size (cs_open c')) /\
  forall id, (conn_poll_next (IncomingConn id) c').1 =
    if decide (size (cs_open c') < max)%nat then Accept id else NotReady.
Proof.
  intros Hmax Hc Hsteps.
  assert (Hc' : conns_ok max c') by (induction Hsteps; eauto using conn_step_ok).
  destruct Hc' as [Hp Hg]. split_and!; [lia|done|]. intros id. unfold conn_poll_next.
  destruct (cs_permits c') eqn:E; case_decide; done || lia.
Qed.

Lemma connections_limited_witness :
  let c := mkConnStream 2 0 ∅ in
  let c1 := (conn_poll_next (IncomingConn 1%positive) c).2 in
  let c2 := (conn_poll_next (IncomingConn 2%positive) c1).2 in
  (conn_poll_next (IncomingConn 3%positive) c2).1 = NotReady.
Proof.
  intros c c1 c2.
  assert (Hsteps : rtc conn_step c c2).
  { eapply rtc_l; [apply (conn_step_poll (IncomingConn 1%positive)); intros ? [= <-]; set_solver|].
    apply rtc_once. apply (conn_step_poll (IncomingConn 2%positive)). intros ? [= <-].
    vm_compute. set_solver. }
  pose proof (connections_limited 2 c c2 ltac:(lia) ltac:(done) Hsteps) as (_ & _ & H).
  rewrite (H 3%positive). reflexivity.
Defined.

(** ** Statistics of requests *)

(** [get_grpc_code_label]. *)
Definition get_grpc_code_label (code : Code.t) : string :=
  match code with
  | Code.Ok => "ok"
  | Code.Cancelled => "cancelled"
  | Code.Unknown => "unknown"
  | Code.InvalidArgument => "invalid argument"
  | Code.DeadlineExceeded => "deadline exceeded"
  | Code.NotFound => "not found"
  | Code.AlreadyExists => "already exists"
  | Code.PermissionDenied => "permission denied"
  | Code.ResourceExhausted => "resource exhausted"
  | Code.FailedPrecondition => "failed precondition"
  | Code.Aborted => "aborted"
  | Code.OutOfRange => "out of range"
  | Code.Unimplemented => "unimplemented"
  | Code.Internal => "internal"
  | Code.Unavailable => "unavailable"
  | Code.DataLoss => "data loss"
  | Code.Unauthenticated => "unauthenticated"
  end.

(** What the inner service gives: an error, by the load-shedding layer or another,
    or a response with the value of the header [grpc-status], if any, and its
    trailers with that of [grpc-status]. *)
Inductive Trailers := TrailersError | NoTrailers | WithTrailers (status : option (list byte)).
Inductive InnerResult :=
| InnerError (overloaded : bool)
| InnerResponse (status : option (list byte)) (trailers : Trailers).
Inductive OuterResult := OuterError | OuterResponse (shed : bool).

(** [StatsMiddleware::call]: the response, and the labels that a duration is
    observed with.  [from_bytes] is [tonic::Code::from_bytes]. *)
Definition stats_call (from_bytes : list byte -> Code.t) (endpoint_name : text) (result : InnerResult)
    : OuterResult * list (text * string) :=
  let observe code := [(endpoint_name, get_grpc_code_label code)] in
  match result with
  | InnerError true => (OuterResponse true, observe Code.ResourceExhausted)
  | InnerError false => (OuterError, observe Code.Internal)
  | InnerResponse (Some header_value) _ => (OuterResponse false, observe (from_bytes header_value))
  | InnerResponse None (WithTrailers (Some header_value)) =>
      (OuterResponse false, observe (from_bytes header_value))
  | InnerResponse None (WithTrailers None) => (OuterResponse false, [])
  | InnerResponse None _ => (OuterResponse false, observe Code.Unknown)
  end.

#[export] Instance grpc_code_label_inj : Inj (=) (=) get_grpc_code_label.
Proof. by intros [] []. Qed.

(** A request is counted once, under the status that the client gets, unless its
    trailers have no status. *)
Lemma stats_call_spec from_bytes endpoint_name result :
  let labels := (stats_call from_bytes endpoint_name result).2 in
  (labels = [] <-> result = InnerResponse None (WithTrailers None)) /\ (length labels <= 1)%nat /\
  forall status trailers, result = InnerResponse (Some status) trailers ->
    labels = [(endpoint_name, get_grpc_code_label (from_bytes status))].
Proof.
  destruct result as [[]|[v|] [| |[v'|]]]; simpl; split_and!; try lia; try done; naive_solver.
Qed.

(** ** Set-up *)

(** [GRPC2Config]; durations are in seconds. *)
Record GRPC2Config := mkGRPC2Config {
  g2_listen_addr : option IpAddr;
  g2_listen_port : option Z;
  g2_x509_cert : option text;
  g2_cert_private_key : option text;
  g2_enable_grpc_web : bool;
  g2_endpoint_config : option text;
  g2_invoke_max_energy : Z;
  g2_dry_run_timeout : Z;
  g2_dry_run_concurrency : option nat;
  g2_health_max_finalized_delay : Z;
  g2_health_min_peers : option Z;
  g2_max_connections : nat;
  g2_tcp_keepalive : option Z;
  g2_max_concurrent_requests_per_connection : nat;
  g2_max_concurrent_streams : Z;
  g2_max_concurrent_requests : nat;
  g2_max_threads : option nat;
  g2_request_timeout : Z;
  g2_keepalive_interval : option Z;
  g2_keepalive_timeout : Z;
}.

(** With no option given. *)
Definition grpc2_defaults : GRPC2Config := {|
  g2_listen_addr := None;
  g2_listen_port := None;
  g2_x509_cert := None;
  g2_cert_private_key := None;
  g2_enable_grpc_web := false;
  g2_endpoint_config := None;
  g2_invoke_max_energy := 1000000;
  g2_dry_run_timeout := 30;
  g2_dry_run_concurrency := None;
  g2_health_max_finalized_delay := 300;
  g2_health_min_peers := None;
  g2_max_connections := 500;
  g2_tcp_keepalive := None;
  g2_max_concurrent_requests_per_connection := 10;
  g2_max_concurrent_streams := 200;
  g2_max_concurrent_requests := 100;
  g2_max_threads := None;
  g2_request_timeout := 30;
  g2_keepalive_interval := None;
  g2_keepalive_timeout := 20;
|}.

(** The options that an option [requires]. *)
Definition present {A} (o : option A) : bool := match o with Some _ => true | None => false end.
Definition grpc2_requirements (config : GRPC2Config) : bool :=
  let addr := present (g2_listen_addr config) in
  implb addr (present (g2_listen_port config))
  && implb (present (g2_listen_port config)) addr
  && implb (present (g2_x509_cert config)) (addr && present (g2_cert_private_key config))
  && implb (present (g2_cert_private_key config)) (addr && present (g2_x509_cert config))
  && implb (g2_enable_grpc_web config) addr
  && implb (present (g2_endpoint_config config)) addr.

(** [GRPC2Config::is_enabled]. *)
Definition grpc2_is_enabled (config : GRPC2Config) : bool :=
  present (g2_listen_addr config) && present (g2_listen_port config).

(** The limits that are passed on to the transport. *)
Record TransportLimits := mkTransportLimits {
  concurrency_limit_per_connection : nat;
  max_concurrent_streams : Z;
  request_timeout : Z;
  http2_keepalive_interval : option Z;
  http2_keepalive_timeout : Z;
  concurrency_limit : nat;
  tcp_keepalive : option Z;
}.

(** What [GRPC2Server::new] makes. *)
Record ServerSetup := mkServerSetup {
  su_rpc : RpcConfig;
  su_dry_run_semaphore : option nat;
  su_identity : option (list byte * list byte);
  su_threads : nat;
  su_limits : TransportLimits;
  su_accept_http1 : bool;
  su_grpc_web : bool;
  su_health : Z * option Z;
  su_listen : SocketAddr;
  su_incoming : ConnStreamWithTicket;
}.

Section setup.
(** The file system, the parser of the endpoints' configuration, the number of
    processors, and whether a thread pool can be made, TLS configured and the
    address bound. *)
Variable read_file : text -> option (list byte).
Variable parse : list byte -> option (gmap string bool).
Variable num_cpus : nat.
Variable build_pool : nat -> bool.
Variable tls_config : list byte * list byte -> bool.
Variable bind : SocketAddr -> bool.

Definition server_identity (config : GRPC2Config) : outcome (option (list byte * list byte)) :=
  match g2_x509_cert config, g2_cert_private_key config with
  | None, None => Ok None
  | None, Some _ => bail "Private key supplied, but not the certificate."
  | Some _, None => bail "Certificate supplied, but not the private key."
  | Some cert_path, Some key_path =>
      cert ← context (read_file cert_path) "Unable to read certificate.";
      key ← context (read_file key_path) "Unable to read key.";
      Ok (Some (cert, key))
  end.

Definition configured_endpoints (config : GRPC2Config) : outcome ServiceConfig :=
  match g2_endpoint_config config with
  | Some source => from_file parse (read_file source)
  | None => Ok new_all_enabled
  end.
Definition configure_tls (id : option (list byte * list byte)) : outcome unit :=
  match id with Some id => ensure (tls_config id) "Unable to configure TLS." | None => Ok tt end.

Definition transport_limits (config : GRPC2Config) : TransportLimits :=
  mkTransportLimits (g2_max_concurrent_requests_per_connection config)
    (g2_max_concurrent_streams config) (g2_request_timeout config) (g2_keepalive_interval config)
    (g2_keepalive_timeout config) (g2_max_concurrent_requests config) (g2_tcp_keepalive config).

(** [GRPC2Server::new], up to the start of the tasks. *)
Definition grpc2_new (config : GRPC2Config) (start_time : Z) : outcome (option ServerSetup) :=
  match g2_listen_addr config with
  | None => Ok None
  | Some listen_addr =>
      listen_port ← context (g2_listen_port config) "Missing GRPC port";
      service_config ← configured_endpoints config;
      id ← server_identity config;
      let num_threads := default num_cpus (g2_max_threads config) in
      _ ← ensure (build_pool num_threads) "Unable to create thread pool for handling gRPC requests.";
      _ ← configure_tls id;
      let accept_http1 := match id with Some _ => false | None => g2_enable_grpc_web config end in
      let addr := mkSocketAddr listen_addr listen_port in
      _ ← ensure (bind addr) "Error creating listener";
      Ok (Some (mkServerSetup
            (mkRpcConfig service_config (g2_invoke_max_energy config) (g2_invoke_max_energy config)
               (g2_dry_run_timeout config) start_time)
            (g2_dry_run_concurrency config) id num_threads (transport_limits config) accept_http1
            (g2_enable_grpc_web config)
            (g2_health_max_finalized_delay config, g2_health_min_peers config) addr
            (mkConnStream (g2_max_connections config) 0 ∅)))
  end.

(** A server that is started has what the limits on connections and on dry-run
    sessions start from, and serves either with TLS or without. *)
Lemma grpc2_new_spec config start_time su :
  grpc2_new config start_time = Ok (Some su) ->
  conns_ok (g2_max_connections config) (su_incoming su) /\
  su_dry_run_semaphore su = g2_dry_run_concurrency config /\
  (is_Some (su_identity su) <->
     is_Some (g2_x509_cert config) /\ is_Some (g2_cert_private_key config)) /\
  (g2_endpoint_config config = None -> forall e, service_config (su_rpc su) e = true).
Proof.
  unfold grpc2_new. destruct (g2_listen_addr config); [|done].
  destruct (g2_listen_port config); [|done]. cbn [context mbind outcome_bind].
  destruct (configured_endpoints config) as [sc| |] eqn:Esc; [|done..].
  cbn [mbind outcome_bind].
  destruct (server_identity config) as [id| |] eqn:Eid; [|done..]. cbn [mbind outcome_bind].
  unfold ensure. destruct (build_pool _); [|done]. cbn [mbind outcome_bind].
  destruct (configure_tls id) as [[]| |]; [|done..]. cbn [mbind outcome_bind].
  destruct (bind _); [|done]. intros [= <-]. cbn. split_and!.
  - split; cbn; [|done]. rewrite size_empty. lia.
  - done.
  - unfold server_identity in Eid. destruct (g2_x509_cert config), (g2_cert_private_key config);
      simplify_eq/=; [|naive_solver]. unfold context, mbind, outcome_bind in Eid.
    repeat (case_match; simplify_eq/=; try done).
  - intros E. unfold configured_endpoints in Esc. rewrite E in Esc. by injection Esc as <-.
Qed.

(** Failures that come from the files and the system. *)
Definition environment_errors : list string :=
  ["Unable to read the endpoints configuration file.";
   "Unable to parse the endpoints configuration file.";
   "Unable to read certificate."; "Unable to read key.";
   "Unable to create thread pool for handling gRPC requests.";
   "Unable to configure TLS."; "Error creating listener"].

(** With options that the command line accepts, the server is started exactly if
    there is an address to listen on, unless files or the system do not allow it:
    no combination of options is refused. *)
Theorem grpc2_options config start_time :
  grpc2_requirements config = true ->
  if grpc2_is_enabled config
  then (exists su, grpc2_new config start_time = Ok (Some su)) \/
       (exists what, grpc2_new config start_time = Err (OtherError what) /\ what ∈ environment_errors)
  else grpc2_new config start_time = Ok None.
Proof.
  unfold grpc2_requirements, grpc2_is_enabled, grpc2_new, server_identity, configured_endpoints,
    configure_tls, from_file, ensure, environment_errors, context, mbind, outcome_bind, bail.
  destruct (g2_listen_addr config) as [addr|]; [|done].
  destruct (g2_listen_port config) as [port|]; [|done].
  destruct (g2_x509_cert config), (g2_cert_private_key config); try done; intros _;
    cbn [present andb]; repeat (case_match; simplify_eq);
    first [left; eexists; reflexivity|right; eexists; split; [reflexivity|set_solver]].
Qed.
End setup.

(** ** Shutdown *)

(** How a task ends up: by itself, aborted, or still running. *)
Inductive TaskEnd := TaskFinished | TaskAborted | TaskRunning.

(** [GRPC2Server::shutdown]: whether the task still listens for the signal to
    stop, and after how many milliseconds it would stop by itself.  Dropping the
    handle when the time is up does not stop the task. *)
Definition grpc2_shutdown (listening : bool) (ends_after : option Z) : TaskEnd :=
  if negb listening then TaskAborted
  else match ends_after with
       | Some t => if t <=? 10000 then TaskFinished else TaskRunning
       | None => TaskRunning
       end.
(** The tasks that relay blocks are aborted. *)
Definition relays_after_shutdown : TaskEnd := TaskAborted.
