(* ===== verification/NodeInv.v ===== *)
(** * The invariant of the node

    Connections are filed under unique tokens; every connection that was
    promoted has completed the handshake, so that the [unwrap] of
    [get_peer_stats] cannot fail.  The invariant holds in every state that the
    threads of the node can reach, whatever peers send and however the
    operations of the threads interleave. *)

From stdpp Require Import base tactics list gmap strings option numbers relations.
From Stdlib Require Import ZArith Floats.SpecFloat.
From S2P Require Import Prelude Common Helpers LowLevel Wire Conn Buckets CatchUp Queues.
From S2P Require Import QueuesProps Config Bans Node Connectivity Consensus Handlers.
From S2P Require Import Maintenance.

Section invariant.
Context `{External} `{!ChannelLaws}.

Abbreviation Served := (Connection * P2PNode)%type.

Definition changes_of (n : P2PNode) : list ConnChange := chan_items (conn_changes (handler n)).

Record node_ok (n : P2PNode) : Prop := {
  ok_next : 0 < next_token (handler n);
  ok_candidate t c : candidates_of n !! t = Some c -> token c = t /\ 0 < t < next_token (handler n);
  ok_connection t c : connections_of n !! t = Some c -> token c = t /\ 0 < t < next_token (handler n);
  ok_disjoint t : is_Some (candidates_of n !! t) -> connections_of n !! t = None;
  ok_peer t c : connections_of n !! t = Some c -> is_Some (self_id (remote_peer c));
  ok_promotion t c :
    Promotion t ∈ changes_of n -> candidates_of n !! t = Some c -> is_Some (self_id (remote_peer c));
  ok_promoted t : Promotion t ∈ changes_of n -> t < next_token (handler n);
}.

(** ** Operations that leave the connections alone *)

Record same_conns (n n' : P2PNode) : Prop := {
  same_next : next_token (handler n') = next_token (handler n);
  same_candidates : candidates_of n' = candidates_of n;
  same_connections : connections_of n' = connections_of n;
  same_changes : changes_of n' = changes_of n;
  same_received : connections_received (node_stats n') = connections_received (node_stats n);
}.

#[global] Instance same_conns_refl : Reflexive same_conns.
Proof. by split. Qed.
#[global] Instance same_conns_trans : Transitive same_conns.
Proof. intros n1 n2 n3 [] []. split; congruence. Qed.

Lemma node_ok_same n n' : same_conns n n' -> node_ok n -> node_ok n'.
Proof.
  intros [E1 E2 E3 E4 _] []. split; rewrite ?E1, ?E2, ?E3, ?E4; try done;
    intros; rewrite ?E1, ?E2, ?E3, ?E4 in *; eauto.
Qed.

(** ** Changes of the four parts *)

Lemma node_ok_changes n n' extra :
  next_token (handler n') = next_token (handler n) -> candidates_of n' = candidates_of n ->
  connections_of n' = connections_of n -> (forall x, x ∈ changes_of n' -> x ∈ changes_of n ++ extra) ->
  (forall t, Promotion t ∈ extra -> t < next_token (handler n) /\
     forall c, candidates_of n !! t = Some c -> is_Some (self_id (remote_peer c))) ->
  node_ok n -> node_ok n'.
Proof.
  intros E1 E2 E3 E4 Hx []. split; rewrite ?E1, ?E2, ?E3; try done.
  - intros t c [Hp|Hp]%E4%elem_of_app Hl; [eauto|]. destruct (Hx t Hp) as [_ Hs]. eauto.
  - intros t [Hp|Hp]%E4%elem_of_app; [eauto|]. by destruct (Hx t Hp).
Qed.

Lemma register_conn_change_parts change n :
  let n' := register_conn_change change n in
  next_token (handler n') = next_token (handler n) /\ candidates_of n' = candidates_of n /\
  connections_of n' = connections_of n /\
  connections_received (node_stats n') = connections_received (node_stats n) /\
  exists extra, changes_of n' = changes_of n ++ extra /\ (forall x, x ∈ extra -> x = change).
Proof.
  cbn zeta. unfold register_conn_change, changes_of.
  pose proof (try_send_cases change (conn_changes (handler n))) as HC.
  destruct (try_send change (conn_changes (handler n))) as [q|].
  - split_and!; try done. exists (accepted change (conn_changes (handler n))).
    split; [exact HC|]. unfold accepted. case_decide; set_solver.
  - split_and!; try done. exists [].
    split; [by rewrite app_nil_r|]. set_solver.
Qed.

Definition not_promotion (change : ConnChange) : Prop := forall t, change <> Promotion t.

Lemma register_conn_change_ok change n :
  not_promotion change -> node_ok n -> node_ok (register_conn_change change n).
Proof.
  intros Hn Hok. destruct (register_conn_change_parts change n) as (E1 & E2 & E3 & E5 & extra & E4 & Hx).
  eapply (node_ok_changes _ _ extra); try done.
  - intros x. by rewrite E4.
  - intros t Ht%Hx. by destruct (Hn t).
Qed.

Lemma drop_connection_same c n : same_conns n (drop_connection c n).
Proof. unfold drop_connection. by destruct (conn_is_post_handshake c). Qed.

Lemma drop_all_same cs : forall n, same_conns n (drop_all cs n).
Proof.
  induction cs as [|c cs IH]; intros n; [done|].
  etrans; [apply (drop_connection_same c)|apply IH].
Qed.

(** ** Operations that add no connections *)

(** The connections of [m] are among those of [m'], and lead to the same
    peers. *)
Definition conns_le (m m' : gmap Token Connection) : Prop :=
  forall t c, m !! t = Some c -> exists c', m' !! t = Some c' /\ remote_peer c = remote_peer c'.

#[global] Instance conns_le_refl : Reflexive conns_le.
Proof. intros m t c Hl. eauto. Qed.
#[global] Instance conns_le_trans : Transitive conns_le.
Proof.
  intros m1 m2 m3 H12 H23 t c (c2 & (c3 & Hl & E2)%H23 & E1)%H12. exists c3. by rewrite E1.
Qed.
Lemma conns_le_sub m m' : m ⊆ m' -> conns_le m m'.
Proof. intros Hs t c Hl. exists c. split; [|done]. by eapply lookup_weaken. Qed.
Lemma conns_le_fmap (f : Connection -> Connection) m :
  (forall c, remote_peer (f c) = remote_peer c) -> conns_le (f <$> m) m.
Proof. intros Hf t c (c' & <- & Hl)%lookup_fmap_Some. eauto. Qed.

Record quiet (n n' : P2PNode) : Prop := {
  q_next : next_token (handler n') = next_token (handler n);
  q_candidates : conns_le (candidates_of n') (candidates_of n);
  q_connections : conns_le (connections_of n') (connections_of n);
  q_changes : changes_of n' = changes_of n;
  q_received : connections_received (node_stats n') = connections_received (node_stats n);
}.

#[global] Instance quiet_refl : Reflexive quiet.
Proof. by split. Qed.
#[global] Instance quiet_trans : Transitive quiet.
Proof. intros n1 n2 n3 [] []. split; try congruence; by etrans. Qed.
Lemma same_quiet n n' : same_conns n n' -> quiet n n'.
Proof. intros [E1 E2 E3 E4 E5]. split; rewrite ?E2, ?E3; done. Qed.

Lemma quiet_ok n n' : quiet n n' -> node_ok n -> node_ok n'.
Proof.
  intros [E1 Ec Ep E4 _] []. split; rewrite ?E1, ?E4; unfold token in *; try done.
  - intros t c (c' & Hl & ->)%Ec. eauto.
  - intros t c (c' & Hl & ->)%Ep. eauto.
  - intros t [c (c' & Hl & _)%Ec]. destruct (connections_of n' !! t) as [x|] eqn:E; [|done].
    apply Ep in E as (x' & Hx & _). rewrite ok_disjoint0 in Hx by eauto. done.
  - intros t c (c' & Hl & ->)%Ep. eauto.
  - intros t c Hp (c' & Hl & ->)%Ec. eauto.
Qed.

Lemma drop_quiet n c n' : quiet n n' -> quiet n (drop_connection c n').
Proof. intros. etrans; [done|]. apply same_quiet, drop_connection_same. Qed.
Lemma drop_all_quiet n cs n' : quiet n n' -> quiet n (drop_all cs n').
Proof. intros. etrans; [done|]. apply same_quiet, drop_all_same. Qed.

Lemma candidates_quiet f n :
  (forall m, conns_le (f m) m) -> quiet n (upd_conn_candidates f n).
Proof. intros Hf. split; try done. apply Hf. Qed.
Lemma connections_quiet f n :
  (forall m, conns_le (f m) m) -> quiet n (upd_connections f n).
Proof. intros Hf. split; try done. apply Hf. Qed.

Lemma retain_candidates_quiet keep n : quiet n (retain_candidates keep n).
Proof.
  apply drop_all_quiet, candidates_quiet. intros m. apply conns_le_sub, map_filter_subseteq.
Qed.
Lemma retain_connections_quiet keep n : quiet n (retain_connections keep n).
Proof.
  apply drop_all_quiet, connections_quiet. intros m. apply conns_le_sub, map_filter_subseteq.
Qed.
Lemma delete_candidate_quiet t n : quiet n (upd_conn_candidates (delete t) n).
Proof. apply candidates_quiet. intros m. apply conns_le_sub, delete_subseteq. Qed.
Lemma delete_connection_quiet t n : quiet n (upd_connections (delete t) n).
Proof. apply connections_quiet. intros m. apply conns_le_sub, delete_subseteq. Qed.
Lemma bump_quiet now n n' : quiet n n' -> quiet n (bump_last_peer_update now n').
Proof. intros. etrans; [done|]. by apply same_quiet. Qed.

Lemma remove_connection_quiet now t n : quiet n (remove_connection now t n).2.
Proof.
  unfold remove_connection. destruct (candidates_of n !! t) as [c|].
  { apply drop_quiet, delete_candidate_quiet. }
  destruct (connections_of n !! t) as [c|]; [|done].
  apply drop_quiet, bump_quiet, delete_connection_quiet.
Qed.

Lemma remove_loop_quiet ts : forall acc n, quiet n (remove_loop ts acc n).2.
Proof.
  induction ts as [|t ts IH]; intros acc n; [done|]. simpl.
  destruct (candidates_of n !! t) as [c|].
  { etrans; [|apply IH]. apply drop_quiet, delete_candidate_quiet. }
  destruct (connections_of n !! t) as [c|]; [|by apply IH].
  etrans; [|apply IH]. apply drop_quiet, delete_connection_quiet.
Qed.
Lemma remove_connections_quiet now ts n : quiet n (remove_connections now ts n).2.
Proof.
  unfold remove_connections. pose proof (remove_loop_quiet ts (false, []) n) as Hl.
  destruct (remove_loop ts (false, []) n) as [[b ps] n1].
  destruct (negb _); [|done]. by apply bump_quiet.
Qed.

(** ** Serving a connection *)

(** What serving a connection does to it and to the node: the connection keeps
    its token and, once set, an id; the node gets changes, and promotions only
    of the connection itself, after its handshake. *)
Record serves (s s' : Served) : Prop := {
  sv_local : local_id (remote_peer s'.1) = local_id (remote_peer s.1);
  sv_self : is_Some (self_id (remote_peer s.1)) -> is_Some (self_id (remote_peer s'.1));
  sv_next : next_token (handler s'.2) = next_token (handler s.2);
  sv_candidates : candidates_of s'.2 = candidates_of s.2;
  sv_connections : connections_of s'.2 = connections_of s.2;
  sv_received : connections_received (node_stats s'.2) = connections_received (node_stats s.2);
  sv_changes : exists extra, changes_of s'.2 = changes_of s.2 ++ extra /\
    forall t, Promotion t ∈ extra -> t = token s.1 /\ is_Some (self_id (remote_peer s'.1));
}.

#[global] Instance serves_refl : Reflexive serves.
Proof. intros s. split; try done. exists []. split; [by rewrite app_nil_r|]. set_solver. Qed.
#[global] Instance serves_trans : Transitive serves.
Proof.
  intros s1 s2 s3 [L1 S1 N1 A1 B1 R1 (x1 & C1 & P1)] [L2 S2 N2 A2 B2 R2 (x2 & C2 & P2)].
  split; try congruence; [eauto|]. exists (x1 ++ x2). split; [by rewrite C2, C1, app_assoc|].
  unfold token in *. rewrite L1 in P2. intros t [Ht|Ht]%elem_of_app; [|eauto].
  apply P1 in Ht as [-> ?]. eauto.
Qed.

Lemma serves_same c c' n n' :
  remote_peer c' = remote_peer c -> same_conns n n' -> serves (c, n) (c', n').
Proof.
  intros E []. split; simpl; rewrite ?E; try done.
  exists []. split; [by rewrite app_nil_r|]. set_solver.
Qed.

Lemma serves_register c n change :
  not_promotion change -> serves (c, n) (c, register_conn_change change n).
Proof.
  intros Hn. destruct (register_conn_change_parts change n) as (E1 & E2 & E3 & E5 & extra & E4 & Hx).
  split; try done. exists extra. split; [done|]. intros t Ht%Hx. by destruct (Hn t).
Qed.

Lemma serves_promotion c n :
  is_Some (self_id (remote_peer c)) -> serves (c, n) (c, register_conn_change (Promotion (token c)) n).
Proof.
  intros Hs. destruct (register_conn_change_parts (Promotion (token c)) n)
    as (E1 & E2 & E3 & E5 & extra & E4 & Hx).
  split; try done. exists extra. split; [done|]. intros t Ht%Hx. by simplify_eq.
Qed.

(** The same for a computation, whatever it returns. *)
Definition m_serves {A} (m : M Served A) : Prop := forall s, serves s (m s).2.

Lemma on_conn_serves f : (forall c, remote_peer (f c) = remote_peer c) -> m_serves (on_conn f).
Proof. intros Hf [c n]. by apply serves_same. Qed.

Lemma populate_serves now peer nets s : serves s (populate_remote_end_networks now peer nets s).
Proof.
  destruct s as [c n]. unfold populate_remote_end_networks.
  destruct (_ && _); [|by apply serves_same].
  destruct (insert_into_bucket _ _ _ _). by apply serves_same.
Qed.
Lemma add_remote_serves now net : m_serves (add_remote_end_network now net).
Proof.
  intros [c n]. unfold add_remote_end_network.
  destruct (decide _); [|done]. destruct (conn_is_post_handshake _); by apply serves_same.
Qed.
Lemma remove_remote_serves now net : m_serves (remove_remote_end_network now net).
Proof.
  intros [c n]. unfold remove_remote_end_network.
  destruct (conn_is_post_handshake _); by apply serves_same.
Qed.

Lemma promote_serves now id p nets v s : serves s (promote_to_post_handshake now id p nets v s).
Proof.
  destruct s as [c n]. unfold promote_to_post_handshake.
  set (c1 := set_remote_peer _ c).
  set (n2 := if decide _ then _ else _).
  assert (H1 : serves (c, n) (c1, n2)).
  { split; try done; subst n2; try (by destruct (decide _)).
    exists []. split; [|set_solver]. rewrite app_nil_r. by destruct (decide _). }
  pose proof (populate_serves now (remote_peer c1) nets (c1, n2)) as H2.
  destruct (populate_remote_end_networks now (remote_peer c1) nets (c1, n2)) as [c2 n3].
  set (c3 := set_wire_version v c2).
  assert (H3 : serves (c2, n3) (c3, n3)) by (by apply serves_same).
  do 3 (etrans; [eassumption|]). apply serves_promotion.
  apply (sv_self _ _ H3), (sv_self _ _ H2). by eexists.
Qed.

Lemma peer_list_resp_serves now seed nets st s : serves s (send_peer_list_resp now seed nets st s).
Proof.
  destruct s as [c n]. unfold send_peer_list_resp.
  destruct (peer_list_resp _ _ _ _ _); [by apply serves_same|done].
Qed.

Lemma handshake_serves now seed h st : m_serves (handle_handshake_req now seed h st).
Proof.
  intros s. unfold handle_handshake_req. destruct (check_handshake h s.2) as [v| |]; [|done..].
  simpl. set (s1 := promote_to_post_handshake _ _ _ _ _ s).
  assert (serves s s1) by apply promote_serves.
  destruct (decide _); [|done]. etrans; [done|]. apply peer_list_resp_serves.
Qed.

Lemma handle_pkt_out_same dont id msg b n : same_conns n (handle_pkt_out dont id msg b n).2.
Proof.
  unfold handle_pkt_out. destruct msg as [|t p]; [done|].
  destruct (PacketType_try_from t) as [pt| |]; [|done..].
  destruct (decide _); [destruct (_ <? _); [done|]|]; simpl;
    by case_match.
Qed.

Lemma incoming_packet_serves pac id : m_serves (handle_incoming_packet pac id).
Proof.
  intros [c n]. unfold handle_incoming_packet.
  pose proof (handle_pkt_out_same [id] id (packet_message pac)
    (match destination pac with Wire.Broadcast _ => true | Wire.Direct _ => false end) n) as HS.
  destruct (handle_pkt_out _ _ _ _ n) as [r n']. by apply serves_same.
Qed.

Lemma incoming_message_serves now seed msg st : m_serves (handle_incoming_message now seed msg st).
Proof.
  intros s. unfold handle_incoming_message.
  destruct (payload msg) as [[|nets|h|net|net]|[|ps]|pac]; try apply handshake_serves;
    (destruct (conn_is_post_handshake s.1); [|done]).
  - by apply on_conn_serves.
  - apply peer_list_resp_serves.
  - apply add_remote_serves.
  - apply remove_remote_serves.
  - destruct s as [c n]. simpl. unfold handle_pong. destruct (notify_pong now (stats c)).
    by apply serves_same.
  - destruct s as [c n]. by apply serves_register.
  - apply incoming_packet_serves.
Qed.

Lemma process_message_serves now seed st bytes : m_serves (process_message now seed st bytes).
Proof.
  intros [c n]. unfold process_message. cbn zeta.
  set (c2 := set_stats _ _). set (n1 := upd_node_totals _ n).
  assert (Hs : serves (c, n) (c2, n1)).
  { apply serves_same; [|done]. simpl. unfold update_last_seen. by destruct (decide _). }
  destruct (deserialize now bytes) as [msg| |]; [|done..].
  destruct (payload msg) as [| |pac]; [etrans; [done|apply incoming_message_serves]..|].
  destruct (decide _); [done|].
  assert (Hq : forall r n2, node_packet_duplicate pac n1 = (r, n2) -> serves (c, n) (c2, n2)).
  { intros r n2. unfold node_packet_duplicate.
    destruct (is_packet_duplicate pac _) as [r' q]. intros [= <- <-].
    etrans; [done|]. by apply serves_same. }
  destruct (node_packet_duplicate pac n1) as [[[]| |] n2]; specialize (Hq _ _ eq_refl); [done| |done..].
  etrans; [done|]. apply incoming_message_serves.
Qed.

Lemma read_stream_serves (request : Served -> outcome (list byte)) process :
  (forall m, m_serves (process m)) ->
  forall fuel l s, serves s (read_stream request process fuel (l, s)).2.2.
Proof.
  intros Hp. induction fuel as [|fuel IH]; intros l s; [done|]. cbn [read_stream].
  destruct (read_from_socket (request s) l) as [[[msg| | |]| |] l']; try done; try apply IH.
  pose proof (Hp msg s) as Hs. destruct (process msg s) as [[[]| |] s']; [|done..].
  etrans; [exact Hs|apply IH].
Qed.

Lemma conn_read_stream_serves now seed st fuel : m_serves (conn_read_stream now seed st fuel).
Proof.
  intros [c n]. unfold conn_read_stream.
  pose proof (read_stream_serves (fun s => produce_handshake_request now s.2)
    (process_message now seed st) (process_message_serves now seed st) fuel (low_level c) (c, n)) as Hs.
  destruct (read_stream _ _ _ _) as [r [l [c1 n1]]]. simpl in *.
  etrans; [done|]. by apply serves_same.
Qed.

Lemma send_pending_loop_peer fuel : forall c t,
  remote_peer (send_pending_loop fuel (c, t)).2.1 = remote_peer c.
Proof.
  induction fuel as [|fuel IH]; intros c t; [done|]. simpl.
  destruct (dequeue (pending_messages c)) as [[msg|] q]; [|done].
  destruct (write_to_socket msg _) as [[[]| |] l]; [|done..]. by rewrite IH.
Qed.

Lemma send_and_flush_serves : m_serves send_and_flush.
Proof.
  intros [c n]. unfold send_and_flush.
  pose proof (send_pending_loop_peer
    (S (length (high (pending_messages c)) + length (low (pending_messages c)))) c (node_totals n)) as HP.
  unfold send_pending_messages. cbn zeta.
  destruct (send_pending_loop _ _) as [[[]| |] [c1 t]]; simpl in HP; [|by apply serves_same..].
  destruct (flush_socket _) as [r l]. by apply serves_same.
Qed.

Lemma change_for_error_spec e t : not_promotion (change_for_error e t).
Proof. by destruct e; intros ?. Qed.

Lemma serve_connection_serves now seed ev st fuel : m_serves (serve_connection now seed ev st fuel).
Proof.
  intros [c n]. unfold serve_connection. cbn zeta.
  set (c0 := if has_event _ _ _ then _ else c).
  assert (Hs0 : serves (c, n) (c0, n)) by (apply serves_same; [by subst c0; case_match|done]).
  pose proof (send_and_flush_serves (c0, n)) as H1.
  destruct (send_and_flush (c0, n)) as [[[]|e|] [c1 n1]]; cbn [fst snd] in *.
  - assert (H01 : serves (c, n) (c1, n1)) by (by etrans).
    assert (Hc : forall c2 n2 (b : bool), serves (c, n) (c2, n2) ->
      serves (c, n) (c2, if b then register_conn_change (RemovalByToken (token c)) n2 else n2)).
    { intros c2 n2 []; [|done]. intros. etrans; [done|]. by apply serves_register. }
    destruct (has_event _ _ ev_readable); [|by apply Hc].
    pose proof (conn_read_stream_serves now seed st fuel (c1, n1)) as H2.
    destruct (conn_read_stream _ _ _ _ _) as [[[]|e|] [c2 n2]]; cbn [fst snd] in *.
    + apply Hc. by etrans.
    + apply (Hc c2 n2 true). by etrans.
    + do 2 (etrans; [eassumption|]). apply serves_register, change_for_error_spec.
    + by etrans.
  - do 2 (etrans; [eassumption|]). apply serves_register, change_for_error_spec.
  - by etrans.
Qed.

(** The node and one of its connections, after it was served. *)
Lemma served_candidate_ok c n c' n' :
  serves (c, n) (c', n') -> node_ok n -> candidates_of n !! token c = Some c ->
  node_ok (upd_conn_candidates <[token c := c']> n').
Proof.
  intros [L S N A B R (extra & C & P)] [] Hl. simpl in *.
  assert (Ht : token c' = token c) by (unfold token; congruence).
  destruct (ok_candidate0 _ _ Hl) as [_ Hb].
  split; unfold candidates_of, connections_of, changes_of in *; simpl; rewrite ?N, ?A, ?B, ?C; try done.
  - intros t x [[<- <-]|[? ?]]%lookup_insert_Some; eauto.
  - intros t. destruct (decide (t = token c)) as [->|?]; [|by rewrite lookup_insert_ne; eauto]. eauto.
  - intros t x Hp [[<- <-]|[Hn Hx]]%lookup_insert_Some.
    { apply elem_of_app in Hp as [Hp|Hp]; [|by apply P in Hp as [_ ?]]. eauto. }
    apply elem_of_app in Hp as [Hp|Hp]; [eauto|]. by apply P in Hp as [-> _].
  - intros t [Hp|Hp]%elem_of_app; [eauto|]. apply P in Hp as [-> _]. lia.
Qed.
Lemma served_peer_ok c n c' n' :
  serves (c, n) (c', n') -> node_ok n -> connections_of n !! token c = Some c ->
  node_ok (upd_connections <[token c := c']> n').
Proof.
  intros [L S N A B R (extra & C & P)] [] Hl. simpl in *.
  assert (Ht : token c' = token c) by (unfold token; congruence).
  destruct (ok_connection0 _ _ Hl) as [_ Hb].
  split; unfold candidates_of, connections_of, changes_of in *; simpl; rewrite ?N, ?A, ?B, ?C; try done.
  - intros t x [[<- <-]|[? ?]]%lookup_insert_Some; eauto.
  - intros t Hc. destruct (decide (t = token c)) as [->|?]; [|by rewrite lookup_insert_ne; eauto].
    apply ok_disjoint0 in Hc. congruence.
  - intros t x [[<- <-]|[? ?]]%lookup_insert_Some; eauto.
  - intros t x [Hp|Hp]%elem_of_app Hx; [eauto|]. apply P in Hp as [-> _].
    rewrite (ok_disjoint0 (token c)) in Hl; eauto. done.
  - intros t [Hp|Hp]%elem_of_app; [eauto|]. apply P in Hp as [-> _]. lia.
Qed.

Lemma serve_candidate_ok now seed ev st fuel t n :
  node_ok n -> node_ok (serve_candidate now seed ev st fuel t n).2.
Proof.
  intros Hok. unfold serve_candidate. destruct (candidates_of n !! t) as [c|] eqn:E; [|done].
  destruct (ok_candidate _ Hok _ _ E) as [<- _].
  pose proof (serve_connection_serves now seed ev st fuel (c, n)) as Hs.
  destruct (serve_connection _ _ _ _ _ _) as [r [c' n']]. by eapply served_candidate_ok.
Qed.
Lemma serve_peer_ok now seed ev st fuel t n :
  node_ok n -> node_ok (serve_peer now seed ev st fuel t n).2.
Proof.
  intros Hok. unfold serve_peer. destruct (connections_of n !! t) as [c|] eqn:E; [|done].
  destruct (ok_connection _ Hok _ _ E) as [<- _].
  pose proof (serve_connection_serves now seed ev st fuel (c, n)) as Hs.
  destruct (serve_connection _ _ _ _ _ _) as [r [c' n']]. by eapply served_peer_ok.
Qed.

(** ** Opening connections *)

(** A node that hands out its next token. *)
Lemma take_token_ok n :
  next_token (handler n) < 2 ^ 64 - 1 -> node_ok n -> node_ok (take_token n).2.
Proof.
  intros Hb [Hn Hc Hp Hd Hs Hq Hr]. unfold take_token, u64_wrap. simpl.
  assert (E : (next_token (handler n) + 1) mod 2 ^ 64 = next_token (handler n) + 1)
    by (apply Z.mod_small; lia).
  split; try done; simpl; unfold u64_wrap; rewrite ?E; [lia|..].
  - intros t c Hl. destruct (Hc t c Hl). split; [done|lia].
  - intros t c Hl. destruct (Hp t c Hl). split; [done|lia].
  - intros t Ht. specialize (Hr t Ht). lia.
Qed.

(** A candidate under the token that was just taken. *)
Lemma fresh_candidate_ok n c :
  next_token (handler n) < 2 ^ 64 - 1 -> token c = next_token (handler n) -> node_ok n ->
  node_ok (upd_conn_candidates <[token c := c]> (take_token n).2).
Proof.
  intros Hb Ht [].
  assert (E : next_token (handler (upd_conn_candidates <[token c := c]> (take_token n).2))
              = next_token (handler n) + 1) by (apply Z.mod_small; lia).
  assert (Ec : candidates_of (upd_conn_candidates <[token c := c]> (take_token n).2)
               = <[token c := c]> (candidates_of n)) by done.
  assert (Hf : connections_of n !! token c = None).
  { destruct (connections_of n !! token c) as [x|] eqn:E'; [|done].
    destruct (ok_connection0 _ _ E'). lia. }
  split; rewrite ?E, ?Ec; try done; [lia|..].
  - intros t x [[<- <-]|[_ Hx]]%lookup_insert_Some; [split; [done|lia]|].
    destruct (ok_candidate0 _ _ Hx). split; [done|lia].
  - intros t x Hx. destruct (ok_connection0 t x Hx). split; [done|lia].
  - intros t. destruct (decide (t = token c)) as [->|?]; [done|]. rewrite lookup_insert_ne by done. eauto.
  - intros t x Hp [[<- <-]|[_ Hx]]%lookup_insert_Some; [|eauto].
    specialize (ok_promoted0 _ Hp). lia.
  - intros t Hp. specialize (ok_promoted0 _ Hp). lia.
Qed.

Lemma received_ok n : node_ok n -> node_ok (inc_connections_received n).
Proof. by intros []. Qed.

Lemma accept_ok now s a n :
  next_token (handler n) < 2 ^ 64 - 1 -> node_ok n -> node_ok (accept now s a n).2.
Proof.
  intros Hb Hok. unfold accept.
  pose proof (received_ok n Hok) as Hok1.
  destruct (accept_refusal a _); [done|].
  unfold new_connection, connection_new. simpl. destruct (ns_registered s).
  - by apply (fresh_candidate_ok (inc_connections_received n)).
  - by apply (take_token_ok (inc_connections_received n)).
Qed.

Lemma connect_ok now instant answer ty a b n :
  next_token (handler n) < 2 ^ 64 - 1 -> node_ok n -> node_ok (connect now instant answer ty a b n).2.
Proof.
  intros Hb Hok. unfold connect.
  pose proof (received_ok n Hok) as Hok1.
  destruct (connect_checks ty a b n) as [[]| |]; [|done..].
  destruct answer as [s|]; simpl.
  - unfold new_connection, connection_new. simpl.
    pose proof (take_token_ok (inc_connections_received n) Hb Hok1).
    destruct (ns_registered s); [|done].
    destruct (send_handshake_message_a _) as [[[]| |] l]; [|done..].
    by apply (fresh_candidate_ok (inc_connections_received n)
      (set_low_level l (mkConnection (mkRemotePeer None a (next_token (handler n)) (port a) ty) _ _ _ _ _))).
  - destruct (bool_decide _); [|done]. by apply (node_ok_same n).
Qed.
End invariant.
