(* ===== verification/NodeSteps.v ===== *)
(** * Reachable states of the node

    The operations of all threads of the node, as sequences of elementary
    steps; the invariant of [NodeInv] holds after any of them. *)

From stdpp Require Import base tactics list gmap strings option numbers relations.
From Stdlib Require Import ZArith Floats.SpecFloat.
From S2P Require Import Prelude Common Helpers LowLevel Wire Conn Buckets CatchUp Queues.
From S2P Require Import QueuesProps Config Bans Node Connectivity Consensus Handlers.
From S2P Require Import Maintenance NodeInv.

(** Operations that are sequences of steps. *)
Create HintDb steps.

Section steps.
Context `{External} `{!ChannelLaws}.

Definition received (n : P2PNode) : Z := connections_received (node_stats n).

(** An elementary step of one of the threads.  Threads only share the node
    through locks and atomics, so that steps of different threads interleave. *)
Inductive node_step : relation P2PNode :=
| step_quiet n n' : quiet n n' -> node_step n n'
| step_register change n : not_promotion change -> node_step n (register_conn_change change n)
| step_pop n x q :
    try_recv (conn_changes (handler n)) = Some (x, q) ->
    node_step n (upd_conn_changes (fun _ => q) n)
| step_promote now instant seed answer n t q :
    try_recv (conn_changes (handler n)) = Some (Promotion t, q) ->
    node_step n (process_conn_change now instant seed answer (Promotion t)
                   (upd_conn_changes (fun _ => q) n)).2
| step_serve_candidate now seed ev st fuel t n :
    node_step n (serve_candidate now seed ev st fuel t n).2
| step_serve_peer now seed ev st fuel t n : node_step n (serve_peer now seed ev st fuel t n).2
| step_accept now s a n : node_step n (accept now s a n).2
| step_connect now instant answer ty a b n : node_step n (connect now instant answer ty a b n).2.

Abbreviation steps := (rtc node_step).

(** ** The invariant *)

Lemma on_store_same f n : same_conns n (on_store f n).2.
Proof. unfold on_store. by destruct (apply_store f tt (kvs n)). Qed.

Lemma pop_ok n x q :
  try_recv (conn_changes (handler n)) = Some (x, q) -> node_ok n ->
  node_ok (upd_conn_changes (fun _ => q) n) /\
  (forall t c, x = Promotion t -> candidates_of n !! t = Some c -> is_Some (self_id (remote_peer c))).
Proof.
  intros E Hok. pose proof (try_recv_cases (conn_changes (handler n))) as HC. rewrite E in HC.
  split.
  - apply (node_ok_changes n _ []); try done; [|set_solver].
    intros y Hy. unfold changes_of in *. rewrite HC, app_nil_r. by right.
  - intros t c -> Hl. eapply (ok_promotion _ Hok); [|done]. unfold changes_of. rewrite HC. by left.
Qed.

(** Moving a candidate with an id to the connections. *)
Lemma move_ok c n now :
  is_Some (self_id (remote_peer c)) -> candidates_of n !! token c = Some c -> node_ok n ->
  node_ok (bump_last_peer_update now
             (upd_connections <[token c := c]> (upd_conn_candidates (delete (token c)) n))).
Proof.
  intros Hs Hl []. set (n' := bump_last_peer_update _ _).
  assert (Ec : candidates_of n' = delete (token c) (candidates_of n)) by done.
  assert (Ep : connections_of n' = <[token c := c]> (connections_of n)) by done.
  split; rewrite ?Ec, ?Ep; try done.
  - intros t x [? Hx]%lookup_delete_Some. eauto.
  - intros t x [[<- <-]|[_ Hx]]%lookup_insert_Some; eauto.
  - intros t [x [Ht Hx]%lookup_delete_Some]. rewrite lookup_insert_ne by done. eauto.
  - intros t x [[<- <-]|[_ Hx]]%lookup_insert_Some; eauto.
  - intros t x Hp [_ Hx]%lookup_delete_Some. eauto.
Qed.

Lemma promote_ok now instant seed answer n t q :
  try_recv (conn_changes (handler n)) = Some (Promotion t, q) -> node_ok n ->
  node_ok (process_conn_change now instant seed answer (Promotion t)
             (upd_conn_changes (fun _ => q) n)).2.
Proof.
  intros E Hok. destruct (pop_ok _ _ _ E Hok) as [Hok1 Hp]. unfold process_conn_change.
  change (candidates_of (upd_conn_changes (fun _ => q) n)) with (candidates_of n).
  destruct (candidates_of n !! t) as [c|] eqn:Hl; [|done].
  destruct (ok_candidate _ Hok _ _ Hl) as [<- _]. specialize (Hp _ c eq_refl Hl).
  destruct (is_connected _ _).
  - eapply quiet_ok; [|exact Hok1]. apply drop_quiet, delete_candidate_quiet.
  - rewrite log_error_state. eapply node_ok_same; [apply on_store_same|].
    by apply (move_ok c (upd_conn_changes (fun _ => q) n)).
Qed.

Lemma serve_candidate_received now seed ev st fuel t n :
  let n' := (serve_candidate now seed ev st fuel t n).2 in
  received n' = received n /\ next_token (handler n') = next_token (handler n).
Proof.
  cbn zeta. unfold serve_candidate. destruct (candidates_of n !! t) as [c|]; [|done].
  pose proof (serve_connection_serves now seed ev st fuel (c, n)) as [].
  destruct (serve_connection _ _ _ _ _ _) as [r [c' n']]. done.
Qed.
Lemma serve_peer_received now seed ev st fuel t n :
  let n' := (serve_peer now seed ev st fuel t n).2 in
  received n' = received n /\ next_token (handler n') = next_token (handler n).
Proof.
  cbn zeta. unfold serve_peer. destruct (connections_of n !! t) as [c|]; [|done].
  pose proof (serve_connection_serves now seed ev st fuel (c, n)) as [].
  destruct (serve_connection _ _ _ _ _ _) as [r [c' n']]. done.
Qed.

(** Every token handed out is counted. *)
Definition counted (n n' : P2PNode) : Prop :=
  (received n' = received n /\ next_token (handler n') = next_token (handler n)) \/
  (received n' = received n + 1 /\
   (next_token (handler n') = next_token (handler n) \/
    next_token (handler n') = u64_wrap (next_token (handler n) + 1))).

Lemma accept_counted now s a n : counted n (accept now s a n).2.
Proof.
  right. unfold accept. destruct (accept_refusal a _); [by split; [|left]|].
  simpl. destruct (new_connection now s _ false _); by split; [|right].
Qed.
Lemma connect_counted now instant answer ty a b n :
  counted n (connect now instant answer ty a b n).2.
Proof.
  unfold connect. destruct (connect_checks ty a b n); [|by left..].
  destruct answer as [s|]; simpl.
  - right. destruct (new_connection now s _ true _) as [conn| |]; [|by split; [|right]..].
    destruct (send_handshake_message_a _) as [[[]| |] l]; by split; [|right].
  - left. by destruct (bool_decide _).
Qed.

Lemma step_counted n n' : node_step n n' -> counted n n'.
Proof.
  destruct 1 as [n n' []|change n _|n x q _|now instant seed answer n t q _|now seed ev st fuel t n
    |now seed ev st fuel t n|now s a n|now instant answer ty a b n].
  - by left.
  - left. by destruct (register_conn_change_parts change n) as (? & ? & ? & ? & _).
  - by left.
  - left. unfold process_conn_change. simpl.
    destruct (candidates_of _ !! t) as [c|]; [|done].
    destruct (is_connected _ _).
    + unfold drop_connection. by destruct (conn_is_post_handshake c).
    + rewrite log_error_state. by destruct (on_store_same (persist_peer (external_addr (remote_peer c)))
        (bump_last_peer_update now (upd_connections <[token c := c]>
          (upd_conn_candidates (delete t) (upd_conn_changes (fun _ => q) n))))).
  - left. apply serve_candidate_received.
  - left. apply serve_peer_received.
  - apply accept_counted.
  - apply connect_counted.
Qed.

Lemma step_ok n n' :
  node_step n n' -> next_token (handler n) < 2 ^ 64 - 1 -> node_ok n -> node_ok n'.
Proof.
  destruct 1; intros Hb Hok.
  - by eapply quiet_ok.
  - by apply register_conn_change_ok.
  - by eapply pop_ok.
  - by apply promote_ok.
  - by apply serve_candidate_ok.
  - by apply serve_peer_ok.
  - by apply accept_ok.
  - by apply connect_ok.
Qed.

(** The invariant, as long as the tokens have not been exhausted since the node
    had counted [r] connections. *)
Definition node_inv (r : Z) (n : P2PNode) : Prop :=
  received n - r < 2 ^ 64 - 2 -> node_ok n /\ next_token (handler n) <= 1 + received n - r.

Lemma steps_inv r n n' : steps n n' -> node_inv r n -> node_inv r n'.
Proof.
  induction 1 as [n|n n1 n' Hs _ IH]; [done|]. intros Hi. apply IH. clear IH.
  pose proof (step_counted _ _ Hs) as HC. intros Hb.
  destruct Hi as [Hok Hn]; [destruct HC; lia|]. pose proof (ok_next _ Hok).
  assert (Hb' : next_token (handler n) < 2 ^ 64 - 1) by (destruct HC; lia).
  split; [by eapply step_ok|]. destruct HC as [[-> ->]|[-> [-> | ->]]]; [lia..|].
  unfold u64_wrap. rewrite Z.mod_small by lia. lia.
Qed.

(** ** The operations of the threads are sequences of steps *)

Definition runs {A} (m : M P2PNode A) : Prop := forall n, steps n (m n).2.

Lemma quiet_steps n n' : quiet n n' -> steps n n'.
Proof. intros. by apply rtc_once, step_quiet. Qed.
Lemma same_steps n n' : same_conns n n' -> steps n n'.
Proof. intros. by apply quiet_steps, same_quiet. Qed.
Lemma register_steps change n : not_promotion change -> steps n (register_conn_change change n).
Proof. intros. by apply rtc_once, step_register. Qed.

Lemma runs_bind {A B} (m : M P2PNode A) (f : A -> M P2PNode B) :
  runs m -> (forall a, runs (f a)) -> runs (m ≫= f).
Proof.
  intros Hm Hf n. specialize (Hm n). unfold mbind, M_bind.
  destruct (m n) as [[a| |] n1]; [|done..]. by etrans; [|apply Hf].
Qed.
Lemma runs_ret {A} (a : A) : runs (mret a).
Proof. intros n. done. Qed.
Lemma runs_get : runs get.
Proof. intros n. done. Qed.
Lemma runs_lift {A} (o : outcome A) : runs (lift o).
Proof. intros n. done. Qed.
Lemma runs_modify f : (forall n, steps n (f n)) -> runs (modify f).
Proof. intros Hf n. apply Hf. Qed.
Lemma runs_log_error {A} (m : M P2PNode A) : runs m -> runs (log_error m).
Proof. intros Hm n. rewrite log_error_state. apply Hm. Qed.
Lemma runs_for_each {A} (f : A -> M P2PNode unit) l : (forall a, runs (f a)) -> runs (for_each f l).
Proof.
  intros Hf. induction l as [|a l IH]; intros n; [done|]. simpl. specialize (Hf a n).
  destruct (f a n) as [[[]| |] n1]; [|done..]. by etrans; [|apply IH].
Qed.
Lemma runs_on_store f : runs (on_store f).
Proof. intros n. apply same_steps, on_store_same. Qed.
Lemma runs_connect now instant answer ty a b : runs (connect now instant answer ty a b).
Proof. intros n. apply rtc_once, step_connect. Qed.
Lemma foldl_steps {A} (f : P2PNode -> A -> P2PNode) l :
  (forall n a, steps n (f n a)) -> forall n, steps n (foldl f n l).
Proof. intros Hf. induction l as [|a l IH]; intros n; [done|]. simpl. etrans; [apply Hf|apply IH]. Qed.

#[local] Hint Resolve runs_bind runs_ret runs_get runs_lift runs_modify runs_log_error
  runs_for_each runs_on_store runs_connect : steps.
#[local] Hint Extern 1 (not_promotion _) => (intros ?; discriminate) : steps.
#[local] Hint Resolve register_steps : steps.

(** Changes of the set of connections. *)

Lemma runs_forget_peer p : runs (forget_peer p).
Proof. unfold forget_peer. auto with steps. Qed.
#[local] Hint Resolve runs_forget_peer : steps.

Lemma runs_connect_new_peers now instant answer count ps :
  forall new, runs (connect_new_peers now instant answer count new ps).
Proof.
  induction ps as [|p ps IH]; intros new n; [done|]. simpl. destruct (_ <=? _); [done|].
  pose proof (runs_connect now instant (answer (peer_addr p)) Node (peer_addr p) true n) as HC.
  destruct (connect _ _ _ _ _ _ n) as [[[]| |] n1]; [| |done]; etrans; [exact HC|apply IH|exact HC|apply IH].
Qed.

Lemma soft_ban_same instant secs id n : same_conns n (soft_ban instant secs id n).
Proof. done. Qed.
Lemma remove_steps now t n : steps n (remove_connection now t n).2.
Proof. apply quiet_steps, remove_connection_quiet. Qed.

Lemma runs_change now instant seed answer change :
  not_promotion change -> runs (process_conn_change now instant seed answer change).
Proof.
  intros Hn n. destruct change as [t|a ty given|ps|t|t|ts]; simpl.
  - pose proof (remove_steps now t n) as HR.
    destruct (remove_connection now t n) as [[[is_conn p]|] n1]; [|done].
    assert (Hb : steps n (soft_ban instant SOFT_BAN_DURATION_SECS (BanIp (ip (addr p))) n1))
      by (etrans; [exact HR|apply same_steps, soft_ban_same]).
    destruct is_conn; [|done]. etrans; [exact Hb|apply runs_forget_peer].
  - pose proof (runs_connect now instant (answer a) ty a (negb given) n) as HC.
    destruct (connect _ _ _ _ _ _ n) as [[[]| |] n1]; [|done..].
    etrans; [exact HC|]. by apply same_steps; destruct given.
  - destruct (get_peer_stats (Some Node) n); [|done..]. apply runs_connect_new_peers.
  - by destruct (Hn t).
  - pose proof (remove_steps now t n) as HR.
    destruct (remove_connection now t n) as [[[[] p]|] n1]; [|done..].
    etrans; [exact HR|apply runs_forget_peer].
  - pose proof (remove_connections_quiet now ts n) as HR.
    destruct (remove_connections now ts n) as [[b ps] n1].
    etrans; [by apply quiet_steps|]. by apply runs_for_each, runs_forget_peer.
Qed.

Lemma next_change_steps now instant seed answer n x q :
  try_recv (conn_changes (handler n)) = Some (x, q) ->
  steps n (process_conn_change now instant seed answer x (upd_conn_changes (fun _ => q) n)).2.
Proof.
  intros E. assert (Hd : not_promotion x \/ exists t, x = Promotion t).
  { destruct x; try (left; intros ?; discriminate). eauto. }
  destruct Hd as [Hn|[t ->]].
  - eapply rtc_l; [by eapply step_pop|]. by apply runs_change.
  - by apply rtc_once, step_promote.
Qed.

Lemma runs_process_changes now instant seed answer fuel :
  runs (process_changes now instant seed answer fuel).
Proof.
  induction fuel as [|fuel IH]; intros n; [done|]. simpl.
  destruct (try_recv (conn_changes (handler n))) as [[x q]|] eqn:E; [|done].
  pose proof (next_change_steps now instant seed answer n x q E) as HS.
  destruct (process_conn_change _ _ _ _ _ _) as [[[]| |] n1]; [|done..].
  etrans; [exact HS|apply IH].
Qed.

Lemma accept_connections_steps now answers : forall attempts n,
  steps n (accept_connections now attempts answers n).2.
Proof.
  induction answers as [|ans answers IH]; intros [|attempts] n; try done. simpl.
  destruct ans as [s a| |]; [|done|apply IH].
  pose proof (step_accept now s a n) as HA.
  destruct (accept now s a n) as [[t|[]] n1]; simpl in HA;
    solve [by apply rtc_once | eapply rtc_l; [exact HA|apply IH]].
Qed.

(** Sending. *)

Lemma send_over_all_steps data p n : steps n (send_over_all_connections data p n).2.
Proof.
  apply quiet_steps, connections_quiet. intros m. apply conns_le_fmap. intros c. by destruct (p c).
Qed.
Lemma runs_network_packet now seed pkt : runs (process_network_packet now seed pkt).
Proof.
  intros n. unfold process_network_packet. destruct (peers_to_skip _ _ _); [|done..].
  cbn zeta. pose proof (send_over_all_steps
    (serialize now (netmsg now (NetworkPacketPayload pkt)))
    (fun c => match destination pkt with
              | Wire.Direct receiver => bool_decide (local_id (remote_peer c) = receiver)
              | Wire.Broadcast _ => is_valid_broadcast_target c a (network_id pkt)
              end) n) as HS.
  destruct (send_over_all_connections _ _ n). done.
Qed.
Lemma runs_send_message now seed target dont net msg :
  runs (send_message_over_network now seed target dont net msg).
Proof.
  intros n. unfold send_message_over_network. cbn zeta.
  pose proof (runs_network_packet now seed (mkPacket
    (match target with Some id => Wire.Direct id | None => Wire.Broadcast dont end) net msg) n) as HS.
  by destruct (process_network_packet _ _ _ n) as [[]?].
Qed.
Lemma runs_send_consensus now seed dont target p :
  runs (send_consensus_msg_to_net now seed dont target p).
Proof.
  intros n. unfold send_consensus_msg_to_net, send_direct_message, send_broadcast_message. cbn zeta.
  destruct target as [id|].
  - pose proof (runs_send_message now 0 (Some id) [] (default_network (config n)) p n).
    by destruct (send_message_over_network _ _ _ _ _ _ n) as [[]?].
  - pose proof (runs_send_message now seed None dont (default_network (config n)) p n).
    by destruct (send_message_over_network _ _ _ _ _ _ n) as [[]?].
Qed.
#[local] Hint Resolve runs_send_consensus runs_send_message : steps.

(** Consensus. *)

Lemma runs_outbound now seed message : runs (handle_consensus_outbound_msg now seed message).
Proof.
  intros n. unfold handle_consensus_outbound_msg. cbn zeta.
  assert (Hc : steps n (count_sent_message (packet_label (variant message)) n)) by (by apply same_steps).
  destruct (omit_status message).
  - etrans; [exact Hc|]. apply runs_for_each. intros. apply runs_send_consensus.
  - destruct (target_peer message); [|done..]. etrans; [exact Hc|apply runs_send_consensus].
Qed.

Section library.
Context `{ConsensusLib}.

Lemma runs_to_consensus source m : runs (send_msg_to_consensus source m).
Proof.
  intros n. unfold send_msg_to_consensus. destruct (consensus_request _ _ _) as [call| |]; [|done..].
  apply same_steps. by destruct (is_acceptable _).
Qed.
Lemma runs_update_peer_states now seed request result :
  runs (update_peer_states now seed request result).
Proof.
  intros n. unfold update_peer_states. destruct (source_peer request) as [source| |]; [|done..].
  destruct (update_states_of request source result (peers n)) as [p expel].
  etrans; [|apply runs_for_each; intros; apply runs_send_consensus].
  etrans; [by apply (same_steps n (upd_peers (fun _ => p) n))|].
  destruct expel; [|done]. auto with steps.
Qed.
#[local] Hint Resolve runs_to_consensus runs_update_peer_states : steps.

Lemma runs_inbound now seed request : runs (handle_consensus_inbound_msg now seed request).
Proof.
  unfold handle_consensus_inbound_msg. do 4 (apply runs_bind; [auto with steps|intros]).
  apply runs_bind; [auto with steps|intros]. apply runs_bind.
  { apply runs_modify. intros n. by apply same_steps. }
  intros. apply runs_bind; [|auto with steps]. destruct (_ && _); auto with steps.
Qed.

Lemma runs_update_peer_list : runs node_update_peer_list.
Proof. intros n. unfold node_update_peer_list. destruct (_ ≫= _); [by apply same_steps|done..]. Qed.
Lemma runs_try_catch_up now : runs (node_try_catch_up now).
Proof.
  intros n. unfold node_try_catch_up, send_direct_message.
  destruct (next_pending (peers n)).1 as [id|]; [|by apply same_steps].
  pose proof (runs_send_message now 0 (Some id) [] (default_network (config n)) get_catch_up_status n) as HS.
  destruct (send_message_over_network _ _ _ _ _ _ n) as [[sent| |] n1]; [|done..].
  etrans; [exact HS|by apply same_steps].
Qed.
Lemma runs_check_peer_states now : runs (check_peer_states now).
Proof.
  intros n. unfold check_peer_states. cbn zeta. set (n1 := if trigger_catchup _ then _ else n).
  assert (Hn1 : steps n n1) by (apply same_steps; by subst n1; case_match).
  destruct (catch_up_peer (peers n1)) as [id|].
  - destruct (decide _).
    + etrans; [exact Hn1|]. simpl. destruct (_ <? _); [|done]. auto with steps.
    + etrans; [exact Hn1|]. etrans; [|apply runs_try_catch_up]. by apply same_steps.
  - etrans; [exact Hn1|apply runs_try_catch_up].
Qed.
End library.

(** The poll thread. *)

Lemma runs_serve now seed events fuel : runs (process_network_events now seed events fuel).
Proof.
  unfold process_network_events. do 2 (apply runs_bind; [auto with steps|intros]).
  apply runs_bind; intros; apply runs_for_each; intros t n; apply rtc_once;
    [apply step_serve_candidate|apply step_serve_peer].
Qed.

Lemma remove_stale_quiet now n : quiet n (remove_stale now n).
Proof.
  unfold remove_stale. cbn zeta.
  destruct (existsb _ _); [apply bump_quiet|];
    (etrans; [apply retain_candidates_quiet|apply retain_connections_quiet]).
Qed.
Lemma remove_stale_steps now n : steps n (remove_stale now n).
Proof. apply quiet_steps, remove_stale_quiet. Qed.
Lemma runs_remove_excess now seed : runs (remove_excess now seed).
Proof.
  intros n. unfold remove_excess. destruct (bool_decide _); [|done].
  destruct (get_peer_stats _ n); [|done..]. destruct (_ <? _); [|done].
  apply quiet_steps, remove_connections_quiet.
Qed.
Lemma lift_soft_bans_steps instant n : steps n (lift_soft_bans instant n).
Proof. apply same_steps. unfold lift_soft_bans. by destruct (bool_decide _). Qed.
Lemma runs_connect_given now instant answer : runs (connect_given now instant answer).
Proof. intros n. apply runs_for_each. auto with steps. Qed.
Lemma attempt_bootstrap_steps resolve n : steps n (attempt_bootstrap resolve n).
Proof.
  unfold attempt_bootstrap. destruct (no_net (config n)); [done|].
  destruct (get_bootstrap_nodes _ _); [|done..]. apply foldl_steps. auto with steps.
Qed.
#[local] Hint Resolve remove_stale_steps runs_remove_excess lift_soft_bans_steps
  runs_connect_given attempt_bootstrap_steps : steps.

Lemma runs_housekeeping now instant seed answer resolve :
  runs (connection_housekeeping now instant seed answer resolve).
Proof.
  unfold connection_housekeeping. do 4 (apply runs_bind; [auto with steps|intros]).
  apply runs_bind; [apply runs_modify; intros; by apply same_steps|intros].
  apply runs_bind; [auto with steps|intros]. destruct (_ && _); auto with steps.
Qed.

Lemma check_peers_steps now resolve stats b n : steps n (check_peers now resolve stats b n).
Proof.
  unfold check_peers. cbn zeta. destruct (bool_decide _); [|done].
  destruct (_ && _); [|done]. destruct (bool_decide _).
  - destruct (_ && _); auto with steps.
  - apply send_over_all_steps.
Qed.
Lemma runs_throughput now : runs (measure_throughput now).
Proof.
  intros n. apply same_steps. unfold measure_throughput. cbn zeta.
  by destruct (calculate_average_throughput _ _ _ _ _ _) as [[]| |].
Qed.
Lemma latencies_steps now n : steps n (measure_connection_latencies now n).
Proof. apply quiet_steps, connections_quiet. intros m. by apply conns_le_fmap. Qed.
#[local] Hint Resolve runs_housekeeping check_peers_steps runs_throughput latencies_steps : steps.

Lemma runs_periodic i : runs (periodic_tasks i).
Proof.
  unfold periodic_tasks. do 2 (apply runs_bind; [auto with steps|intros]).
  apply runs_bind; [|auto 10 with steps].
  apply runs_modify. intros n. destruct (bool_decide _); [|done]. auto with steps.
Qed.
Lemma runs_poll_housekeeping i l : runs (poll_housekeeping i l).
Proof.
  intros n. unfold poll_housekeeping. destruct (decide _); [|done]. destruct (_ <=? _); [|done].
  pose proof (runs_periodic i n). by destruct (periodic_tasks i n) as [[]?].
Qed.
Lemma poll_accept_steps i l n : steps n (poll_accept i l n).2.
Proof.
  unfold poll_accept. destruct (_ || _); [|done].
  pose proof (accept_connections_steps (in_now i) (in_accepts i)
    (Z.to_nat (conn_requests_batch_limit (config n))) n).
  by destruct (accept_connections _ _ _ n).
Qed.
Lemma clean_buckets_steps i l n : steps n (poll_clean_buckets i l n).2.
Proof.
  apply same_steps. unfold poll_clean_buckets. destruct (_ && _); [|done].
  by destruct (clean_buckets _ _ _).
Qed.
Lemma shut_down_steps n : steps n (shut_down n).
Proof.
  assert (He : forall m, conns_le ((fun _ => ∅) m) m) by (intros m t c; by rewrite lookup_empty).
  apply quiet_steps. unfold shut_down. cbn zeta.
  etrans; [apply drop_all_quiet, (candidates_quiet (fun _ => ∅)), He|].
  etrans; [apply drop_all_quiet, (connections_quiet (fun _ => ∅)), He|].
  by apply same_quiet.
Qed.

Section poll.
Context `{ConsensusLib}.

Lemma runs_catch_up has i l : runs (poll_catch_up has i l).
Proof.
  intros n. unfold poll_catch_up. destruct has; [|done]. cbn zeta. destruct (_ <? _).
  - pose proof (runs_update_peer_list n) as Hu.
    destruct (node_update_peer_list n) as [[[]| |] n1]; [|done..].
    pose proof (runs_check_peer_states (in_now i) n1).
    destruct (check_peer_states _ n1). by etrans.
  - pose proof (runs_check_peer_states (in_now i) n). by destruct (check_peer_states _ n).
Qed.
#[local] Hint Resolve runs_catch_up runs_serve runs_poll_housekeeping : steps.

Lemma runs_poll_tasks has i l : runs (poll_tasks has i l).
Proof.
  unfold poll_tasks. apply runs_bind; [intros n; apply runs_process_changes|intros].
  auto 10 with steps.
Qed.

Lemma runs_poll_iteration has i l : runs (poll_iteration has i l).
Proof.
  intros n. unfold poll_iteration. destruct (in_poll_ok i); [|done].
  pose proof (poll_accept_steps i l n) as Ha. destruct (poll_accept i l n) as [l1 n1].
  pose proof (runs_poll_tasks has i l1 n1) as Ht.
  destruct (poll_tasks has i l1 n1) as [[l2| |] n2]; [|by etrans..].
  pose proof (clean_buckets_steps i l2 n2). destruct (poll_clean_buckets i l2 n2).
  etrans; [exact Ha|]. by etrans.
Qed.

Lemma runs_poll_thread has inputs : forall l, runs (poll_thread has inputs l).
Proof.
  induction inputs as [|i inputs IH]; intros l n; simpl;
    (destruct (is_network_stopped n); [apply shut_down_steps|]); [done|].
  pose proof (runs_poll_iteration has i l n) as Hi.
  destruct (poll_iteration has i l n) as [[l'| |] n']; [|done..]. etrans; [exact Hi|apply IH].
Qed.
End poll.

(** ** Operations of all threads *)

Lemma runs_establish now instant answer resolve : runs (establish_connections now instant answer resolve).
Proof.
  unfold establish_connections. apply runs_bind.
  { intros n. apply runs_for_each. auto with steps. }
  intros _. apply runs_bind.
  { apply runs_log_error. intros n. unfold connect_to_stored_nodes.
    destruct (stored_keys PEERS_STORE_NAME (kvs n)) as [entries| |]; [|done..].
    apply runs_for_each. intros entry n'. destruct (_ ≫= _) as [p| |]; [|done..].
    by apply runs_log_error, runs_connect. }
  intros _. apply runs_bind; [auto with steps|]. intros n. destruct (negb _); auto with steps.
Qed.

(** What the threads of the node, its API and the network do: start-up, the
    iterations of the poll thread, the consensus threads, the calls of the API,
    changes by consensus, and whatever happens on the sockets. *)
Inductive NodeOp :=
| DoStart (now instant : Z) (answer : SocketAddr -> option NewSocket)
    (resolve : string -> option (list SocketAddr))
| DoPoll (lib : ConsensusLib) (has_consensus : bool) (i : PollInput) (l : LoopState)
| DoInbound (lib : ConsensusLib) (now seed : Z) (request : ConsensusMessage)
| DoOutbound (now seed : Z) (message : ConsensusMessage)
| DoConnect (a : SocketAddr)
| DoDropById (id : RemotePeerId)
| DoDropAddr (a : SocketAddr)
| DoBan (a : IpAddr)
| DoUnban (id : PersistedBanId)
| DoJoin (now : Z) (id : NetworkId)
| DoLeave (now : Z) (id : NetworkId)
| DoRegenesis (r : Regenesis)
| DoQueues (q : ConsensusQueues)
| DoSockets (f : LowLevel -> LowLevel)
| DoShutDown.

Definition exec_op (op : NodeOp) (n : P2PNode) : P2PNode :=
  match op with
  | DoStart now instant answer resolve => (establish_connections now instant answer resolve n).2
  | DoPoll lib has i l => (poll_iteration has i l n).2
  | DoInbound lib now seed request => (handle_consensus_inbound_msg now seed request n).2
  | DoOutbound now seed message => (handle_consensus_outbound_msg now seed message n).2
  | DoConnect a => register_conn_change (NewConn a Node true) n
  | DoDropById id => (drop_by_id id n).2
  | DoDropAddr a => (drop_addr a n).2
  | DoBan a => (drop_by_ip_and_ban a n).2
  | DoUnban id => (on_store (unban_node id) n).2
  | DoJoin now id => send_join_network now id (add_network id n)
  | DoLeave now id => send_leave_network now id n
  | DoRegenesis r => upd_regenesis (fun _ => r) n
  | DoQueues q => upd_callback_queue (fun _ => q) n
  | DoSockets f =>
      let g c := set_low_level (f (low_level c)) c in
      upd_connections (fmap g) (upd_conn_candidates (fmap g) n)
  | DoShutDown => shut_down n
  end.
Definition exec_ops (ops : list NodeOp) (n : P2PNode) : P2PNode :=
  foldl (fun n op => exec_op op n) n ops.

Lemma exec_op_steps op n : steps n (exec_op op n).
Proof.
  destruct op as [now instant answer resolve|lib has i l|lib now seed request|now seed message|a|id|a|a|id
    |now id|now id|r|q|f|]; cbn [exec_op].
  - apply runs_establish.
  - apply runs_poll_iteration.
  - apply runs_inbound.
  - apply runs_outbound.
  - by apply register_steps.
  - unfold drop_by_id. destruct (find_conn_token_by_id id n); [|done]. by apply register_steps.
  - unfold drop_addr. cbn zeta. etrans; [|destruct (find_conn_to a _); [apply register_steps|]; done].
    by apply same_steps.
  - unfold drop_by_ip_and_ban. destruct (ban_ip a (kvs n)) as [e| |]; [|done..]. cbn zeta. simpl.
    etrans; [|apply register_steps; done]. by apply same_steps.
  - apply runs_on_store.
  - etrans; [|apply send_over_all_steps]. by apply same_steps.
  - apply send_over_all_steps.
  - by apply same_steps.
  - by apply same_steps.
  - apply quiet_steps. etrans; [apply candidates_quiet|apply connections_quiet];
      intros m; by apply conns_le_fmap.
  - apply shut_down_steps.
Qed.

Lemma exec_ops_steps ops n : steps n (exec_ops ops n).
Proof. apply foldl_steps. intros. apply exec_op_steps. Qed.

Lemma node_new_inv id conf ty a resolve seeds store stats r queue n :
  node_new id conf ty a resolve seeds store stats r queue = Ok n ->
  node_inv (connections_received stats) n /\ received n = connections_received stats.
Proof.
  unfold node_new. cbn zeta.
  destruct (parse_config_nodes resolve _) as [given| |]; [|done..].
  destruct (node_config conf ty) as [cfg| |]; [|done..]. simpl.
  set (n0 := mkNode _ _ _ _ _ _ _ _ _ _ _). intros [= <-].
  assert (Hs : forall n (b : bool) f, same_conns n0 n ->
    same_conns n0 (if b then (log_error (on_store f) n).2 else n)).
  { intros n b f Hn. destruct b; [|done]. rewrite log_error_state. etrans; [done|apply on_store_same]. }
  assert (Hi : node_ok n0).
  { assert (Ec : changes_of n0 = []) by apply items_bounded.
    split; rewrite ?Ec; try done; simpl; set_solver. }
  set (n1 := if config_clear_persisted_peers cfg then _ else _).
  assert (Hn : same_conns n0 n1) by (by do 2 apply Hs).
  split; [|apply Hn]. intros _. split; [by eapply node_ok_same|].
  unfold received. destruct Hn as [-> _ _ _ ->]. simpl. lia.
Qed.

(** No operation panics on a peer without an id. *)
Lemma get_peer_stats_ok n ty : node_ok n -> exists l, get_peer_stats ty n = Ok l.
Proof.
  intros Hok. unfold get_peer_stats.
  assert (Hp : Forall (fun c => is_Some (self_id (remote_peer c))) (values (connections_of n))).
  { apply list.Forall_forall. intros c [[t c'] [-> Hl]]%list_elem_of_fmap.
    eapply (ok_peer _ Hok t). by apply elem_of_iter_map. }
  induction Hp as [|c cs [id E] _ IH]; [by eexists|]. rewrite filter_cons.
  destruct (decide _); [|done]. destruct IH as [l IH]. simpl. rewrite E. simpl in *.
  rewrite IH. by eexists.
Qed.
End steps.
