(* ===== verification/NodeProps.v ===== *)
(** * Correctness of the node

    Theorems on the operations of the node as a whole: its invariant, who may
    connect, housekeeping, the handshake between two nodes, and the relaying of
    consensus messages. *)

From stdpp Require Import base tactics list gmap strings option numbers relations vector.
From Stdlib Require Import ZArith Floats.SpecFloat.
From S2P Require Import Prelude Common Helpers LowLevel LowLevelProps Wire WireProps Conn.
From S2P Require Import ConnProps Buckets CatchUp Queues QueuesProps Config Bans BansProps.
From S2P Require Import Node Connectivity Consensus Handlers Maintenance NodeInv NodeSteps.

(** ** The invariant *)

Section reachable.
Context `{External} `{!ChannelLaws}.

(** C2: after any sequence of operations of the threads of a node, until it has
    handed out all its 64-bit tokens: connections are filed under their own
    tokens, which are unique and smaller than the next one; no connection is
    both a candidate and a peer; every peer, and every candidate with a pending
    promotion, has an id; so that the peer statistics, which unwrap the ids,
    never panic. *)
Theorem node_invariant id conf ty a resolve seeds store stats r queue n ops :
  node_new id conf ty a resolve seeds store stats r queue = Ok n ->
  connections_received (node_stats (exec_ops ops n)) - connections_received stats < 2 ^ 64 - 2 ->
  node_ok (exec_ops ops n) /\ forall t, exists l, get_peer_stats t (exec_ops ops n) = Ok l.
Proof.
  intros [Hi _]%node_new_inv Hb.
  destruct (steps_inv _ _ _ (exec_ops_steps ops n) Hi Hb) as [Hok _].
  split; [done|]. intros t. by apply get_peer_stats_ok.
Qed.
End reachable.

(** ** Who may connect *)

Section admission.
Context `{External}.

Definition ip_banned (a : SocketAddr) (n : P2PNode) : Prop :=
  is_banned (PersistedIp (ip a)) (kvs n) = Ok true.
Definition soft_banned (a : SocketAddr) (n : P2PNode) : Prop :=
  is_Some (soft_bans (handler n) !! BanIp (ip a)) \/ is_Some (soft_bans (handler n) !! BanSocket a).
Definition conn_count (n : P2PNode) : Z :=
  Z.of_nat (size (candidates_of n) + size (connections_of n)).

(** The connections of a node, of either kind. *)
Definition has_conn (n : P2PNode) (c : Connection) : Prop :=
  exists t, candidates_of n !! t = Some c \/ connections_of n !! t = Some c.

(** [c] occupies the address [a], for an incoming connection. *)
Definition occupies (n : P2PNode) (a : SocketAddr) (c : Connection) : Prop :=
  ip (remote_addr c) = ip a /\
  (disallow_multiple_peers_on_ip (config n) = true \/
   port (remote_addr c) = port a \/ external_port (remote_peer c) = port a).

Record admissible (n : P2PNode) (a : SocketAddr) : Prop := {
  adm_ban : ~ ip_banned a n;
  adm_limit : node_type n = Node -> conn_count n < hard_connection_limit (config n);
  adm_free : forall c, has_conn n c -> ~ occupies n a c;
  adm_soft : ~ soft_banned a n;
}.

Lemma has_conn_elem n c : c ∈ all_connections n <-> has_conn n c.
Proof.
  unfold all_connections, has_conn. rewrite elem_of_app, !elem_of_values. naive_solver.
Qed.

Lemma is_soft_banned_spec a n : is_soft_banned a (handler n) = true <-> soft_banned a n.
Proof. unfold is_soft_banned, soft_banned. by rewrite orb_true_iff, !bool_decide_eq_true. Qed.

Lemma ok_or_banned a n : ok_or false (is_banned (PersistedIp (ip a)) (kvs n)) = true <-> ip_banned a n.
Proof. unfold ip_banned. destruct (is_banned _ _) as [[]| |]; simpl; naive_solver. Qed.

(** When a reason to turn down a connection applies. *)
Definition applies (n : P2PNode) (a : SocketAddr) (reason : AcceptFailureReason) : Prop :=
  match reason with
  | Banned => ip_banned a n
  | TooManyConnections x =>
      x = a /\ node_type n = Node /\ hard_connection_limit (config n) <= conn_count n
  | AlreadyConnectedToIP x =>
      x = ip a /\ disallow_multiple_peers_on_ip (config n) = true /\
      exists c, has_conn n c /\ ip (remote_addr c) = ip a
  | DuplicateConnection x => x = a /\ exists c, has_conn n c /\ occupies n a c
  | SoftBanned => soft_banned a n
  | OtherFailure _ => False
  end.

Lemma elem_of_same_ip a n c :
  c ∈ filter (fun c => ip (remote_addr c) = ip a) (all_connections n) <->
  has_conn n c /\ ip (remote_addr c) = ip a.
Proof. rewrite list_elem_of_filter, has_conn_elem. tauto. Qed.

Lemma applies_not_admissible n a reason : applies n a reason -> ~ admissible n a.
Proof.
  intros Ha [Hb Hl Hf Hs]. destruct reason; simpl in *; try tauto.
  - destruct Ha as (-> & Ht & Ha). specialize (Hl Ht). lia.
  - destruct Ha as (-> & Hd & c & Hc & Hi). apply (Hf c Hc). split; auto.
  - destruct Ha as (-> & c & Hc & Ho). by apply (Hf c Hc).
Qed.

Lemma accept_refusal_spec a n :
  match accept_refusal a n with
  | None => admissible n a
  | Some reason => applies n a reason
  end.
Proof.
  unfold accept_refusal. cbn zeta.
  destruct (ok_or false _) eqn:Hb; [by apply ok_or_banned in Hb|].
  destruct (_ && (_ <=? _)) eqn:Hl.
  { apply andb_true_iff in Hl as [Ht%bool_decide_eq_true Hl%Z.leb_le]. done. }
  set (same := filter _ (all_connections n)). destruct (_ && negb _) eqn:Hd.
  { apply andb_true_iff in Hd as [Hd Hs%negb_true_iff%bool_decide_eq_false].
    destruct same as [|c cs] eqn:E; [done|]. assert (Hc : c ∈ same) by (rewrite E; left).
    apply elem_of_same_ip in Hc. simpl. eauto 6. }
  destruct (_ && existsb _ _) eqn:He.
  { apply andb_true_iff in He as [_ (c & Hc & Hp)%existsb_exists].
    apply list_elem_of_In, elem_of_same_ip in Hc as [Hc Hi]. split; [done|]. exists c.
    split; [done|]. split; [done|]. right. apply orb_true_iff in Hp as [Hp|Hp]; apply bool_decide_eq_true in Hp; auto. }
  destruct (is_soft_banned a (handler n)) eqn:Hsb; [by apply is_soft_banned_spec in Hsb|].
  split.
  - by rewrite <-ok_or_banned, Hb.
  - intros Ht. apply andb_false_iff in Hl as [Hl%bool_decide_eq_false|Hl%Z.leb_gt]; [done|done].
  - intros c Hc [Hi Ho]. assert (Hin : c ∈ same) by (by apply elem_of_same_ip).
    destruct (disallow_multiple_peers_on_ip (config n)); simpl in *.
    + apply negb_false_iff, bool_decide_eq_true in Hd. rewrite Hd in Hin. set_solver.
    + apply not_true_iff_false in He. apply He, existsb_exists. exists c.
      split; [by apply list_elem_of_In|]. destruct Ho as [?|[Ho|Ho]]; [done| |];
        rewrite (bool_decide_eq_true_2 _ Ho); [done|apply orb_true_r].
  - by rewrite <-is_soft_banned_spec, Hsb.
Qed.

(** C15: an incoming connection from an address is accepted exactly if the
    address is not banned, the node has not reached its connection limit, no
    connection occupies the address, and it is not soft-banned (and the socket
    can be registered).  It then becomes a candidate under the next token, with
    its handshake outstanding.  Otherwise no connection is added, and the
    reason given applies. *)
Theorem accept_spec now s a n r n' :
  accept now s a n = (r, n') ->
  connections_of n' = connections_of n /\
  match r with
  | inl t =>
      admissible n a /\ t = next_token (handler n) /\
      exists c, candidates_of n' = <[t := c]> (candidates_of n) /\ token c = t /\
                remote_addr c = a /\ conn_is_post_handshake c = false
  | inr (OtherFailure _) => candidates_of n' = candidates_of n /\ admissible n a /\ ns_registered s = false
  | inr reason => candidates_of n' = candidates_of n /\ applies n a reason /\ ~ admissible n a
  end.
Proof.
  unfold accept. pose proof (accept_refusal_spec a (inc_connections_received n)) as HR.
  destruct (accept_refusal a _) as [reason|].
  { intros [= <- <-]. split; [done|].
    assert (Ha : applies n a reason) by (by destruct reason).
    pose proof (applies_not_admissible n a reason Ha). by destruct reason. }
  unfold new_connection, connection_new. simpl. destruct (ns_registered s) eqn:Hr; intros [= <- <-].
  - split; [done|]. split; [|split; [done|]]; [destruct HR; by split|].
    eexists. by split_and!.
  - split; [done|]. split_and!; try done. destruct HR; by split.
Qed.

Lemma accept_config now s a n : config (accept now s a n).2 = config n /\ self_peer (accept now s a n).2 = self_peer n.
Proof.
  unfold accept. destruct (accept_refusal a _); [done|]. simpl.
  by destruct (new_connection now s _ false _).
Qed.

Lemma accept_count now s a n :
  let n' := (accept now s a n).2 in
  conn_count n' <= conn_count n + 1 /\
  (node_type n = Node -> conn_count n' <= Z.max (conn_count n) (hard_connection_limit (config n))).
Proof.
  cbn zeta. unfold accept. pose proof (accept_refusal_spec a (inc_connections_received n)) as HR.
  assert (Hsame : forall n', conn_count n' = conn_count n -> conn_count n' <= conn_count n + 1 /\
    (node_type n = Node -> conn_count n' <= Z.max (conn_count n) (hard_connection_limit (config n))))
    by lia.
  destruct (accept_refusal a _); [by apply Hsame|]. simpl.
  unfold new_connection, connection_new. destruct (ns_registered s); simpl; [|by apply Hsame].
  unfold conn_count, candidates_of, connections_of. simpl. rewrite map_size_insert.
  destruct HR as [_ Hl _ _].
  change (node_type n = Node -> conn_count n < hard_connection_limit (config n)) in Hl.
  unfold conn_count, candidates_of, connections_of in Hl.
  case_match; unfold id; (split; [lia|]); intros Ht; specialize (Hl Ht); lia.
Qed.

(** However many connections wait to be accepted, in one iteration the node
    takes at most the number of attempts it is configured with, and an ordinary
    node never grows beyond its hard connection limit by accepting. *)
Theorem accepts_bounded now attempts answers n :
  let n' := (accept_connections now attempts answers n).2 in
  conn_count n' <= conn_count n + Z.of_nat attempts /\
  (node_type n = Node -> conn_count n' <= Z.max (conn_count n) (hard_connection_limit (config n))).
Proof.
  cbn zeta. revert attempts n. induction answers as [|ans answers IH]; intros [|attempts] n; simpl; try lia.
  destruct ans as [s a| |]; [|simpl; lia|destruct (IH attempts n); split; [lia|done]].
  pose proof (accept_count now s a n) as [Hc Hm]. destruct (accept_config now s a n) as [Ec Es].
  unfold node_type in *. destruct (accept now s a n) as [r n1]. simpl in *.
  destruct (IH attempts n1) as [I1 I2]. rewrite Es, Ec in I2.
  assert (Hgoal : conn_count (accept_connections now attempts answers n1).2 <= conn_count n + Z.of_nat (S attempts)
    /\ (peer_peer_type (self_peer n) = Node -> conn_count (accept_connections now attempts answers n1).2
          <= Z.max (conn_count n) (hard_connection_limit (config n)))).
  { split; [lia|]. intros Ht. specialize (Hm Ht). specialize (I2 Ht). lia. }
  destruct r as [t|[]]; try exact Hgoal. simpl. split; [lia|done].
Qed.

(** ** Opening connections *)

Definition node_peers (n : P2PNode) : nat :=
  length (filter (fun c => remote_peer_type c = Node) (values (connections_of n))).

Lemma get_peer_stats_length n l : get_peer_stats (Some Node) n = Ok l -> length l = node_peers n.
Proof.
  unfold get_peer_stats, node_peers. revert l.
  induction (values (connections_of n)) as [|c cs IH]; intros l; [by intros [= <-]|].
  rewrite !filter_cons.
  destruct (decide (remote_peer_type c = Node)) as [E|E].
  - rewrite decide_True by (right; congruence). simpl.
    destruct (self_id (remote_peer c)); [|done]. simpl.
    destruct (mapM _ _) as [l'| |] eqn:El; [|done..]. simpl. intros [= <-]. simpl. f_equal. by apply IH.
  - rewrite decide_False by (intros [?|?]; congruence). apply IH.
Qed.

(** The conditions for opening a connection to [a]. *)
Record may_connect (n : P2PNode) (ty : PeerType) (a : SocketAddr) (respect : bool) : Prop := {
  may_room : respect = true -> ty = Node ->
    u16_wrap (Z.of_nat (node_peers n)) < max_allowed_nodes (config n);
  may_self : a <> internal_addr n;
  may_ban : ~ ip_banned a n;
  may_soft : ~ soft_banned a n;
  may_free c : has_conn n c ->
    if disallow_multiple_peers_on_ip (config n) then ip (remote_addr c) <> ip a
    else remote_addr c <> a /\ external_addr (remote_peer c) <> a;
}.

Lemma bind_unit_Ok (m k : outcome unit) : (_ ← m; k) = Ok tt <-> m = Ok tt /\ k = Ok tt.
Proof. destruct m as [[]| |]; simpl; naive_solver. Qed.

Lemma connect_checks_spec ty a respect n :
  connect_checks ty a respect n = Ok tt -> may_connect n ty a respect.
Proof.
  unfold connect_checks. rewrite !bind_unit_Ok, !ensure_Ok, !negb_true_iff.
  intros (H1 & H2%bool_decide_eq_true & H3 & H4 & H5). split.
  - intros -> ->. simpl in H1. destruct (get_peer_stats (Some Node) n) as [l| |] eqn:El; [|done..].
    apply ensure_Ok, Z.ltb_lt in H1. by rewrite <-(get_peer_stats_length _ _ El).
  - intros ->. by apply H2.
  - by rewrite <-ok_or_banned, H3.
  - by rewrite <-is_soft_banned_spec, H4.
  - intros c Hc. apply not_true_iff_false in H5. rewrite existsb_exists in H5.
    assert (Hin : In c (values (connections_of n) ++ values (candidates_of n))).
    { apply list_elem_of_In. apply has_conn_elem in Hc. unfold all_connections in Hc. set_solver. }
    destruct (disallow_multiple_peers_on_ip (config n)).
    + intros E. apply H5. exists c. by rewrite bool_decide_eq_true_2.
    + split; intros E; apply H5; exists c; (split; [done|]); unfold leads_to;
        rewrite (bool_decide_eq_true_2 _ E); [done|apply orb_true_r].
Qed.

Lemma connect_connections now instant answer ty a respect n :
  connections_of (connect now instant answer ty a respect n).2 = connections_of n.
Proof.
  unfold connect. destruct (connect_checks ty a respect n); [|done..].
  destruct answer as [s|]; simpl; [|by destruct (bool_decide _)].
  destruct (new_connection now s _ true _) as [c| |]; [|done..].
  by destruct (send_handshake_message_a (low_level c)) as [[[]| |] l].
Qed.

(** C16: the node opens a connection only to an address that is not its own, not
    banned or soft-banned, and not one it is connected to or is connecting to,
    and, unless told otherwise, only if it has fewer peers than allowed.  The
    connection becomes a candidate under the next token.  On failure nothing is
    added; a node that cannot be reached is soft-banned for a while. *)
Theorem connect_spec now instant answer ty a respect n r n' :
  connect now instant answer ty a respect n = (r, n') ->
  connections_of n' = connections_of n /\
  match r with
  | Ok _ =>
      may_connect n ty a respect /\
      exists c, candidates_of n' = <[next_token (handler n) := c]> (candidates_of n) /\
        token c = next_token (handler n) /\ remote_addr c = a /\ remote_peer_type c = ty /\
        conn_is_post_handshake c = false
  | Err _ =>
      candidates_of n' = candidates_of n /\
      (connect_checks ty a respect n = Ok tt -> answer = None -> ty = Node ->
       soft_bans (handler n') !! BanSocket a = Some (instant + 1000 * UNREACHABLE_EXPIRATION_SECS) /\
       soft_banned a n')
  | Panic => candidates_of n' = candidates_of n
  end.
Proof.
  intros E. pose proof (connect_connections now instant answer ty a respect n) as HC.
  rewrite E in HC. split; [exact HC|]. clear HC. revert E. unfold connect.
  pose proof (connect_checks_spec ty a respect n) as HM.
  destruct (connect_checks ty a respect n) as [[]| |]; [|by intros [= <- <-]..].
  specialize (HM eq_refl). destruct answer as [s|]; simpl.
  - unfold new_connection, connection_new. destruct (ns_registered s); [|by intros [= <- <-]].
    destruct (send_handshake_message_a _) as [[[]| |] l]; intros [= <- <-]; [|done..].
    split; [done|]. eexists. by split_and!.
  - intros [= <- <-]. split; [by destruct (bool_decide _)|]. intros _ _ ->.
    rewrite bool_decide_eq_true_2 by done.
    assert (Hs : soft_bans (handler (soft_ban instant UNREACHABLE_EXPIRATION_SECS (BanSocket a) n))
      !! BanSocket a = Some (instant + 1000 * UNREACHABLE_EXPIRATION_SECS)) by apply lookup_insert_eq.
    split; [exact Hs|]. right. by rewrite Hs.
Qed.
End admission.

(** ** Processing of the queued changes *)

(** The store reports failures as errors. *)
Class RkvSafe `{Rkv} := {
  open_single_safe name e : open_single name e <> Panic;
  env_write_safe e : env_write e <> Panic;
  store_put_safe s w k : store_put s w k <> Panic;
  store_delete_safe s w k : store_delete s w k <> Panic;
  commit_safe w e : commit w e <> Panic;
}.

Section changes.
Context `{External} `{!ChannelLaws} `{!NoiseLaws} `{!AddrFormatLaws} `{!RkvSafe}.

(** The connections that processing a change may open. *)
Definition opens (change : ConnChange) : nat :=
  match change with
  | NewConn _ _ _ => 1
  | NewPeers ps => length ps
  | _ => 0
  end.

(** [n'] results from [n] by handling a change: the invariant is kept, the queue
    is left alone, and at most [w] tokens are handed out. *)
Record processed (w : nat) (n n' : P2PNode) : Prop := {
  h_ok : node_ok n';
  h_changes : changes_of n' = changes_of n;
  h_next : next_token (handler n') <= next_token (handler n) + Z.of_nat w;
}.

Lemma processed_trans w1 w2 n n1 n2 : processed w1 n n1 -> processed w2 n1 n2 -> processed (w1 + w2) n n2.
Proof. intros [] []. split; [done|congruence|lia]. Qed.
Lemma processed_weaken w w' n n' : (w <= w')%nat -> processed w n n' -> processed w' n n'.
Proof. intros Hw []. split; [done..|lia]. Qed.
Lemma quiet_processed n n' : node_ok n -> quiet n n' -> processed 0 n n'.
Proof. intros Hok Hq. split; [by eapply quiet_ok|apply Hq|]. rewrite (q_next _ _ Hq). lia. Qed.
Lemma same_processed n n' : node_ok n -> same_conns n n' -> processed 0 n n'.
Proof. intros Hok Hs. by apply quiet_processed, same_quiet. Qed.

Lemma bind_safe {A B} (m : outcome A) (f : A -> outcome B) :
  m <> Panic -> (forall a, f a <> Panic) -> (m ≫= f) <> Panic.
Proof. destruct m; simpl; auto. Qed.
Lemma kvs_read_safe k : kvs_read k <> Panic.
Proof. by destruct k. Qed.
Lemma json_safe a : addr_to_json a <> Panic.
Proof. by destruct (addr_from_to_json a) as (? & -> & _). Qed.

Lemma persist_safe a k : persist_peer a k <> Panic.
Proof.
  unfold persist_peer. repeat (apply bind_safe; [|intros]);
    auto using kvs_read_safe, open_single_safe, json_safe, env_write_safe, store_put_safe, commit_safe.
Qed.
Lemma remove_persisted_safe a k : remove_persisted_peer a k <> Panic.
Proof.
  unfold remove_persisted_peer. repeat (apply bind_safe; [|intros]);
    auto using kvs_read_safe, open_single_safe, json_safe, env_write_safe, store_delete_safe, commit_safe.
Qed.
Lemma on_store_safe f n :
  (forall k, f k <> Panic) -> exists n', log_error (on_store f) n = (Ok tt, n') /\ same_conns n n'.
Proof.
  intros Hf. unfold log_error, on_store, apply_store. specialize (Hf (kvs n)).
  destruct (f (kvs n)); [eexists; by split..|done].
Qed.
Lemma forget_peer_safe p n : exists n', forget_peer p n = (Ok tt, n') /\ same_conns n n'.
Proof. apply on_store_safe. intros. apply remove_persisted_safe. Qed.
Lemma forget_peers_safe ps : forall n, exists n', for_each forget_peer ps n = (Ok tt, n') /\ same_conns n n'.
Proof.
  induction ps as [|p ps IH]; intros n; [by exists n|]. simpl.
  destruct (forget_peer_safe p n) as (n1 & -> & Hs1). destruct (IH n1) as (n2 & -> & Hs2).
  exists n2. split; [done|]. by etrans.
Qed.

(** The first message of a handshake is queued, not written, so that it cannot
    go wrong on the socket. *)
Lemma message_a_safe s kp linger rs ws : exists o l,
  send_handshake_message_a (new s true kp linger rs ws) = (o, l) /\ o <> Panic.
Proof.
  unfold send_handshake_message_a, send_xx_msg. simpl.
  destruct (send_message _ _) as [[[] out] s']; do 2 eexists; split; done.
Qed.

Lemma connect_processed now instant answer ty a b n :
  node_ok n -> next_token (handler n) < 2 ^ 64 - 1 ->
  exists r n', connect now instant answer ty a b n = (r, n') /\ r <> Panic /\ processed 1 n n'.
Proof.
  intros Hok Hb. destruct (connect now instant answer ty a b n) as [r n'] eqn:E. exists r, n'.
  split; [done|].
  pose proof (connect_ok now instant answer ty a b n Hb Hok) as Hok'.
  pose proof (connect_counted now instant answer ty a b n) as Hc. rewrite E in *. simpl in *.
  assert (Hr : r <> Panic /\ changes_of n' = changes_of n); [|split; [apply Hr|]].
  - revert E. unfold connect. destruct (connect_checks ty a b n) as [[]|e|] eqn:Ec.
    + destruct answer as [s|]; simpl.
      * unfold new_connection, connection_new. destruct (ns_registered s); [|by intros [= <- <-]].
        simpl. destruct (message_a_safe (ns_socket s) (ns_keypair s) (socket_so_linger (config n))
          (socket_read_size (config n)) (socket_write_size (config n))) as (o & l & -> & Ho).
        destruct o as [[]| |]; [by intros [= <- <-]..|done].
      * intros [= <- <-]. by destruct (bool_decide _).
    + by intros [= <- <-].
    + exfalso. destruct (get_peer_stats_ok n (Some Node) Hok) as [l Hl].
      unfold connect_checks in Ec. rewrite Hl in Ec. unfold ensure in Ec. repeat case_match; done.
  - split; [done|apply Hr|]. unfold counted, u64_wrap in Hc. pose proof (ok_next _ Hok).
    rewrite (Z.mod_small (next_token (handler n) + 1)) in Hc by lia. lia.
Qed.

Lemma new_peers_processed now instant answer count ps : forall new n,
  node_ok n -> next_token (handler n) + Z.of_nat (length ps) < 2 ^ 64 ->
  exists n', connect_new_peers now instant answer count new ps n = (Ok tt, n') /\
             processed (length ps) n n'.
Proof.
  induction ps as [|p ps IH]; intros new n Hok Hb; simpl in *.
  { exists n. split; [done|]. by apply same_processed. }
  destruct (_ <=? _).
  { exists n. split; [done|]. apply (processed_weaken 0); [lia|]. by apply same_processed. }
  destruct (connect_processed now instant (answer (peer_addr p)) Node (peer_addr p) true n)
    as (r & n1 & -> & Hr & Hh); [done|lia|].
  pose proof (h_next _ _ _ Hh). pose proof (h_ok _ _ _ Hh).
  destruct r as [[]| |]; [| |done].
  - destruct (IH (S new) n1) as (n2 & -> & Hh2); [done|lia|]. exists n2. split; [done|].
    by apply (processed_trans 1 (length ps) n n1).
  - destruct (IH new n1) as (n2 & -> & Hh2); [done|lia|]. exists n2. split; [done|].
    by apply (processed_trans 1 (length ps) n n1).
Qed.

Lemma promotion_processed now instant seed answer n t q :
  try_recv (conn_changes (handler n)) = Some (Promotion t, q) -> node_ok n ->
  exists n', process_conn_change now instant seed answer (Promotion t)
               (upd_conn_changes (fun _ => q) n) = (Ok tt, n') /\
             processed 0 (upd_conn_changes (fun _ => q) n) n'.
Proof.
  intros E Hok. pose proof (promote_ok now instant seed answer n t q E Hok) as Hok'.
  pose proof (step_counted _ _ (step_promote now instant seed answer n t q E)) as Hc.
  revert Hok' Hc. unfold process_conn_change. set (n1 := upd_conn_changes (fun _ => q) n).
  destruct (candidates_of n1 !! t) as [c|].
  - destruct (is_connected _ _).
    + intros Hok' _. eexists. split; [done|]. split; [done|..].
      * by rewrite (same_changes _ _ (drop_connection_same c _)).
      * rewrite (same_next _ _ (drop_connection_same c _)). simpl. lia.
    + destruct (on_store_safe (persist_peer (external_addr (remote_peer c)))
        (bump_last_peer_update now (upd_connections <[token c := c]> (upd_conn_candidates (delete t) n1))))
        as (n2 & -> & Hs); [intros; apply persist_safe|].
      intros Hok' _. exists n2. split; [done|]. split; [done|by rewrite (same_changes _ _ Hs)|].
      rewrite (same_next _ _ Hs). simpl. lia.
  - intros Hok' _. eexists. split; [done|]. split; [done|done|]. simpl. lia.
Qed.

Lemma change_processed now instant seed answer change n :
  not_promotion change -> node_ok n ->
  next_token (handler n) + Z.of_nat (opens change) < 2 ^ 64 ->
  exists n', process_conn_change now instant seed answer change n = (Ok tt, n') /\
             processed (opens change) n n'.
Proof.
  intros Hn Hok Hb. destruct change as [t|a ty given|ps|t|t|ts]; simpl in *.
  - pose proof (remove_connection_quiet now t n) as Hq.
    destruct (remove_connection now t n) as [[[is_conn p]|] n1]; [|eexists; split; [done|by apply quiet_processed]].
    set (n2 := soft_ban _ _ _ n1). assert (Hq2 : quiet n n2) by (etrans; [exact Hq|by apply same_quiet]).
    destruct is_conn; [|eexists; split; [done|by apply quiet_processed]].
    destruct (forget_peer_safe p n2) as (n3 & -> & Hs). exists n3. split; [done|].
    apply quiet_processed; [done|]. etrans; [exact Hq2|by apply same_quiet].
  - destruct (connect_processed now instant (answer a) ty a (negb given) n) as (r & n1 & -> & Hr & Hh);
      [done|lia|].
    destruct r as [[]| |]; [|eauto|done]. eexists. split; [done|]. destruct given; [|done].
    apply (processed_trans 1 0 n n1); [done|]. by apply same_processed; [apply (h_ok _ _ _ Hh)|].
  - destruct (get_peer_stats_ok n (Some Node) Hok) as [l ->].
    pose proof (shuffle_perm _ seed ps) as Hp%Permutation_length. rewrite <-Hp in *.
    by apply new_peers_processed.
  - by destruct (Hn t).
  - pose proof (remove_connection_quiet now t n) as Hq.
    destruct (remove_connection now t n) as [[[[] p]|] n1]; [|eexists; split; [done|by apply quiet_processed]..].
    destruct (forget_peer_safe p n1) as (n2 & -> & Hs). exists n2. split; [done|].
    apply quiet_processed; [done|]. etrans; [exact Hq|by apply same_quiet].
  - pose proof (remove_connections_quiet now ts n) as Hq.
    destruct (remove_connections now ts n) as [[b ps] n1].
    destruct (forget_peers_safe ps n1) as (n2 & -> & Hs). exists n2. split; [done|].
    apply quiet_processed; [done|]. etrans; [exact Hq|by apply same_quiet].
Qed.

Lemma next_change_processed now instant seed answer n x q :
  try_recv (conn_changes (handler n)) = Some (x, q) -> node_ok n ->
  next_token (handler n) + Z.of_nat (opens x) < 2 ^ 64 ->
  exists n', process_conn_change now instant seed answer x (upd_conn_changes (fun _ => q) n) = (Ok tt, n') /\
             processed (opens x) (upd_conn_changes (fun _ => q) n) n'.
Proof.
  intros E Hok Hb. assert (Hd : not_promotion x \/ exists t, x = Promotion t).
  { destruct x; try (left; intros ?; discriminate). eauto. }
  destruct Hd as [Hn|[t ->]]; [|by apply promotion_processed].
  apply change_processed; [done| |done]. by eapply pop_ok.
Qed.

(** C13: processing the queued changes handles each of them, empties the queue and
    does not fail: neither the failure of a connection attempt or of the store,
    nor a connection that is gone, stops it. *)
Theorem changes_drained now instant seed answer n :
  node_ok n ->
  next_token (handler n) + Z.of_nat (sum_list (opens <$> changes_of n)) < 2 ^ 64 ->
  exists n', process_all_changes now instant seed answer n = (Ok tt, n') /\
             changes_of n' = [] /\ node_ok n'.
Proof.
  unfold process_all_changes. fold (changes_of n). remember (changes_of n) as l eqn:El.
  revert n El. induction l as [|x l IH]; intros n El Hok Hb; [by exists n|].
  change (sum_list (opens <$> x :: l)) with (opens x + sum_list (opens <$> l))%nat in Hb.
  cbn [length process_changes].
  destruct (try_recv_cons _ (conn_changes (handler n)) x l (eq_sym El)) as (q & E & Hq & _).
  rewrite E. destruct (next_change_processed now instant seed answer n x q E Hok)
    as (n1 & -> & [Hok1 Hc1 Hn1]); [lia|].
  change (next_token (handler n1) <= next_token (handler n) + Z.of_nat (opens x)) in Hn1.
  apply IH; [|done|lia]. rewrite Hc1. by unfold changes_of.
Qed.
End changes.
