(* ===== verification/Housekeeping.v ===== *)
(** * Correctness of connection housekeeping

    Which connections survive [connection_housekeeping] of
    [concordium-node/src/p2p/connectivity.rs], and that it returns. *)

From stdpp Require Import base tactics list gmap strings option numbers relations.
From Stdlib Require Import ZArith Floats.SpecFloat.
From S2P Require Import Prelude Common Helpers LowLevel Wire Conn Buckets CatchUp Queues.
From S2P Require Import QueuesProps Config Bans Node Connectivity Consensus Handlers.
From S2P Require Import Maintenance NodeInv NodeSteps NodeProps.

Section housekeeping.
Context `{External} `{!ChannelLaws}.

(** The parts of a node that removing connections leaves alone. *)
Record kept (n n' : P2PNode) : Prop := {
  k_config : config n' = config n;
  k_self : self_peer n' = self_peer n;
  k_given : given_addresses n' = given_addresses n;
  k_soft : soft_bans (handler n') = soft_bans (handler n);
}.
#[local] Instance kept_refl : Reflexive kept.
Proof. by split. Qed.
#[local] Instance kept_trans : Transitive kept.
Proof. intros n1 n2 n3 [] []. split; congruence. Qed.

Lemma drop_connection_kept c n : kept n (drop_connection c n).
Proof. unfold drop_connection. by destruct (conn_is_post_handshake c). Qed.
Lemma drop_all_kept cs : forall n, kept n (drop_all cs n).
Proof.
  induction cs as [|c cs IH]; intros n; [done|].
  etrans; [apply (drop_connection_kept c)|apply IH].
Qed.

Lemma bump_kept now n n' : kept n n' -> kept n (bump_last_peer_update now n').
Proof. by intros []. Qed.

(** ** Stale connections *)

Definition healthy (now : Z) (n : P2PNode) (c : Connection) : bool :=
  negb (is_conn_faulty n c || is_conn_inactive now n c).

(** The connections that are not stale. *)
Definition healthy_conns (now : Z) (n : P2PNode) : gmap Token Connection :=
  filter (fun e => healthy now n e.2 = true) (connections_of n).

Lemma healthy_kept now n n' c : kept n n' -> healthy now n' c = healthy now n c.
Proof.
  intros []. unfold healthy, is_conn_faulty, is_conn_inactive, node_type. by rewrite k_config0, k_self0.
Qed.

Lemma retain_connections_kept keep n :
  kept n (retain_connections keep n) /\
  connections_of (retain_connections keep n) = filter (fun e => keep e.2 = true) (connections_of n).
Proof.
  unfold retain_connections. set (cs := filter _ (values _)).
  set (n1 := upd_connections _ n). split.
  - etrans; [|apply drop_all_kept]. done.
  - by rewrite (same_connections _ _ (drop_all_same cs n1)).
Qed.
Lemma retain_candidates_kept keep n :
  kept n (retain_candidates keep n) /\ connections_of (retain_candidates keep n) = connections_of n.
Proof.
  unfold retain_candidates. set (cs := filter _ (values _)).
  set (n1 := upd_conn_candidates _ n). split.
  - etrans; [|apply drop_all_kept]. done.
  - by rewrite (same_connections _ _ (drop_all_same cs n1)).
Qed.

Lemma remove_stale_spec now n :
  kept n (remove_stale now n) /\ connections_of (remove_stale now n) = healthy_conns now n.
Proof.
  unfold remove_stale. cbn zeta.
  destruct (retain_candidates_kept (fun c => negb (is_conn_without_handshake now c)) n) as [K1 E1].
  set (n1 := retain_candidates _ n) in *.
  destruct (retain_connections_kept (fun c => healthy now n1 c) n1) as [K2 E2].
  change (fun c => negb (is_conn_faulty n1 c || is_conn_inactive now n1 c)) with (fun c => healthy now n1 c).
  set (n2 := retain_connections _ n1) in *.
  assert (Hn2 : kept n n2 /\ connections_of n2 = healthy_conns now n).
  { split; [by etrans|]. rewrite E2, E1. unfold healthy_conns. apply map_filter_ext.
    intros t c _. simpl. by rewrite (healthy_kept now n n1). }
  destruct Hn2. destruct (existsb _ _); [|done]. split; [by apply bump_kept|done].
Qed.

(** ** Excess connections *)

Lemma remove_loop_spec ts : forall acc n,
  NoDup ts -> (forall t, t ∈ ts -> candidates_of n !! t = None /\ is_Some (connections_of n !! t)) ->
  let n' := (remove_loop ts acc n).2 in
  kept n n' /\
  (forall t, connections_of n' !! t = if decide (t ∈ ts) then None else connections_of n !! t) /\
  (size (connections_of n') + length ts = size (connections_of n))%nat.
Proof.
  induction ts as [|t ts IH]; intros acc n Hd Hts; cbn zeta.
  { split_and!; [done..|simpl; lia]. }
  apply list.NoDup_cons in Hd as [Hn Hd]. simpl.
  destruct (Hts t) as [-> [c Hc]]; [by left|]. rewrite Hc.
  set (n1 := drop_connection c (upd_connections (delete t) n)).
  assert (Kn : kept n n1) by (etrans; [|apply drop_connection_kept]; done).
  assert (Ec : candidates_of n1 = candidates_of n)
    by apply (same_candidates _ _ (drop_connection_same c (upd_connections (delete t) n))).
  assert (Ep : connections_of n1 = delete t (connections_of n))
    by (subst n1; by rewrite (same_connections _ _ (drop_connection_same c _))).
  destruct (IH (acc.1, acc.2 ++ [remote_peer c]) n1 Hd) as (K & L & S).
  { intros x Hx. destruct (Hts x) as [? Hs]; [by right|]. rewrite Ec, Ep.
    rewrite lookup_delete_ne by (intros ->; done). done. }
  split_and!.
  - by etrans.
  - intros x. rewrite L, Ep. destruct (decide (x ∈ ts)); [by rewrite decide_True by (by right)|].
    destruct (decide (x = t)) as [->|Hx].
    + by rewrite decide_True, lookup_delete_eq by left.
    + by rewrite decide_False, lookup_delete_ne by (try done; set_solver).
  - rewrite Ep in S. rewrite map_size_delete_Some in S by eauto.
    assert (0 < size (connections_of n))%nat; [|simpl; lia].
    apply Nat.neq_0_lt_0. intros E%map_size_empty_iff. rewrite E in Hc. done.
Qed.

(** The tokens of connections that were not asked for by the user. *)
Definition not_given (n : P2PNode) : list Token :=
  (filter (fun e => is_given_connection e.2 n = false) (iter_map (connections_of n))).*1.

Lemma elem_of_not_given n t :
  t ∈ not_given n <-> exists c, connections_of n !! t = Some c /\ is_given_connection c n = false.
Proof.
  unfold not_given. rewrite list_elem_of_fmap. split.
  - intros ([t' c] & -> & [Hg Hl]%list_elem_of_filter). exists c. by apply elem_of_iter_map in Hl.
  - intros (c & Hl & Hg). exists (t, c). split; [done|]. apply list_elem_of_filter.
    split; [done|]. by apply elem_of_iter_map.
Qed.
Lemma NoDup_not_given n : NoDup (not_given n).
Proof.
  eapply (submseteq_NoDup _ (keys (connections_of n))); [|auto with node].
  unfold not_given, keys. apply fmap_submseteq, sublist_submseteq, sublist_filter.
Qed.

(** By how much the number of peers exceeds the limit. *)
Definition excess (n : P2PNode) : nat :=
  if decide (node_type n = Node)
  then Z.to_nat (u16_wrap (Z.of_nat (node_peers n)) - max_allowed_nodes (config n)) else 0.

Lemma remove_excess_spec now seed n :
  node_ok n ->
  exists n', remove_excess now seed n = (Ok tt, n') /\ kept n n' /\ quiet n n' /\
    (forall t c, connections_of n !! t = Some c -> is_given_connection c n = true ->
                 connections_of n' !! t = Some c) /\
    (size (connections_of n') = size (connections_of n) - Nat.min (excess n) (length (not_given n)))%nat.
Proof.
  intros Hok.
  assert (Hsame : excess n = 0%nat -> (size (connections_of n) =
    size (connections_of n) - Nat.min (excess n) (length (not_given n)))%nat) by lia.
  unfold remove_excess. destruct (decide (node_type n = Node)) as [Ht|Ht].
  2: { rewrite bool_decide_eq_false_2 by done. exists n. split_and!; try done.
       apply Hsame. unfold excess. by rewrite decide_False. }
  rewrite bool_decide_eq_true_2 by done.
  destruct (get_peer_stats_ok n (Some Node) Hok) as [l El]. rewrite El.
  rewrite (get_peer_stats_length _ _ El). destruct (_ <? _) eqn:Hx.
  2: { apply Z.ltb_ge in Hx. exists n. split_and!; try done. apply Hsame.
       unfold excess. rewrite decide_True by done. lia. }
  fold (not_given n). set (ts := choose_multiple seed _ _).
  assert (Hts : NoDup ts) by (eapply submseteq_NoDup; [apply choose_submseteq|apply NoDup_not_given]).
  assert (Hin : forall t, t ∈ ts -> exists c, connections_of n !! t = Some c /\ is_given_connection c n = false).
  { intros t Hin%elem_of_choose. by apply elem_of_not_given. }
  destruct (remove_loop_spec ts (false, []) n) as (K & L & S); [done|..].
  { intros t (c & Hc & _)%Hin. split; [|eauto].
    destruct (candidates_of n !! t) eqn:E; [|done]. rewrite (ok_disjoint _ Hok t) in Hc; [done|eauto]. }
  eexists. split; [done|]. pose proof (remove_connections_quiet now ts n) as Hq.
  unfold remove_connections in *. destruct (remove_loop ts (false, []) n) as [[b ps] n1].
  cbn [fst snd] in *. assert (Hl : length ts = Nat.min (excess n) (length (not_given n))).
  { subst ts. rewrite choose_length. unfold excess. by rewrite decide_True. }
  assert (Hgoal : (forall t c, connections_of n !! t = Some c -> is_given_connection c n = true ->
      connections_of n1 !! t = Some c) /\ (size (connections_of n1) = size (connections_of n)
        - Nat.min (excess n) (length (not_given n)))%nat).
  { split; [|lia]. intros t c Hc Hg. rewrite L. rewrite decide_False; [done|].
    intros (c' & Hc' & Hg')%Hin. congruence. }
  destruct Hgoal. split; [|split; [done|]]; destruct (negb _); try done. by apply bump_kept.
Qed.

(** ** The remaining tasks leave the connections alone *)

Definition bans_current (instant : Z) (n : P2PNode) : Prop :=
  forall id e, soft_bans (handler n) !! id = Some e -> instant < e.

Lemma lift_soft_bans_spec instant n :
  bans_current instant (lift_soft_bans instant n) /\ same_conns n (lift_soft_bans instant n) /\
  given_addresses (lift_soft_bans instant n) = given_addresses n.
Proof.
  unfold lift_soft_bans. destruct (bool_decide _) eqn:E.
  - apply bool_decide_eq_true in E. split; [|done]. intros id e. by rewrite E, lookup_empty.
  - split; [|done]. intros id e [_ He]%map_lookup_filter_Some. done.
Qed.

Lemma connect_bans now instant answer ty a b n :
  bans_current instant n -> bans_current instant (connect now instant answer ty a b n).2.
Proof.
  intros Hb. unfold connect. destruct (connect_checks ty a b n); [|done..].
  destruct answer as [s|]; simpl.
  - destruct (new_connection now s _ true _) as [c| |]; [|done..].
    by destruct (send_handshake_message_a (low_level c)) as [[[]| |] l].
  - destruct (bool_decide _); [|done].
    intros id e He.
    change (<[BanSocket a := instant + 1000 * UNREACHABLE_EXPIRATION_SECS]> (soft_bans (handler n)) !! id
            = Some e) in He.
    apply lookup_insert_Some in He as [[_ <-]|[_ He]]; [|by eapply Hb].
    unfold UNREACHABLE_EXPIRATION_SECS. lia.
Qed.

Lemma connect_loop_spec now instant answer l : forall n,
  node_ok n -> next_token (handler n) + Z.of_nat (length l) < 2 ^ 64 -> bans_current instant n ->
  exists n', for_each (fun a => log_error (connect now instant (answer a) Node a false)) l n = (Ok tt, n') /\
    connections_of n' = connections_of n /\ bans_current instant n'.
Proof.
  induction l as [|a l IH]; intros n Hok Hn Hb; [by exists n|]. simpl in *. unfold log_error.
  destruct (connect_processed now instant (answer a) Node a false n) as (r & n1 & E & Hr & [Hok1 _ Hn1]);
    [done|lia|].
  pose proof (connect_bans now instant (answer a) Node a false n Hb) as Hb1.
  pose proof (connect_connections now instant (answer a) Node a false n) as Hc1.
  rewrite E in *. cbn [snd] in *. destruct (IH n1) as (n2 & E2 & Hc2 & Hb2); [done|lia|done|].
  destruct r as [[]| |]; [| |done]; (exists n2; split; [exact E2|split; [congruence|done]]).
Qed.

Lemma unconnected_subset n : unconnected_given_addresses n ⊆ given_addresses n.
Proof.
  unfold unconnected_given_addresses. generalize (given_addresses n).
  induction (values (connections_of n)) as [|c cs IH]; intros g; simpl; [done|].
  etrans; [apply IH|]. set_solver.
Qed.

Lemma attempt_bootstrap_parts resolve n :
  connections_of (attempt_bootstrap resolve n) = connections_of n /\
  soft_bans (handler (attempt_bootstrap resolve n)) = soft_bans (handler n).
Proof.
  unfold attempt_bootstrap. destruct (no_net (config n)); [done|].
  destruct (get_bootstrap_nodes resolve _) as [l| |]; [|done..].
  revert n. induction l as [|a l IH]; intros n; [done|]. simpl.
  destruct (IH (register_conn_change (NewConn a Bootstrapper false) n)) as [-> ->].
  unfold register_conn_change. by destruct (try_send _ _).
Qed.

Lemma rest_of_housekeeping now instant answer resolve n :
  node_ok n -> next_token (handler n) + Z.of_nat (size (given_addresses n)) < 2 ^ 64 ->
  exists b n',
    (_ ← modify (lift_soft_bans instant);
     _ ← connect_given now instant answer;
     _ ← modify (upd_bad_events (fun _ => bad_events_default));
     n ← get;
     if negb (no_bootstrap_dns (config n)) && bool_decide (node_type n = Node)
        && (u64_wrap (last_bootstrap (handler n) + bootstrapping_interval (config n) * 1000) <=? now)
     then _ ← modify (attempt_bootstrap resolve); mret true
     else mret false) n = (Ok b, n') /\
    connections_of n' = connections_of n /\ bans_current instant n'.
Proof.
  intros Hok Hn. destruct (lift_soft_bans_spec instant n) as (Hb & Hs & Hg).
  unfold mbind, M_bind, modify. set (n1 := lift_soft_bans instant n) in *.
  destruct (connect_loop_spec now instant answer (iter_set (unconnected_given_addresses n1)) n1)
    as (n2 & E2 & Hc2 & Hb2); [by eapply node_ok_same| |done|].
  { rewrite (same_next _ _ Hs). pose proof (unconnected_subset n1) as Hsub%subseteq_size.
    rewrite Hg in Hsub. rewrite iter_set_perm. change (length (elements ?X)) with (size X). lia. }
  unfold connect_given. rewrite E2. cbn [fst snd get].
  set (n3 := upd_bad_events _ n2).
  assert (H3 : connections_of n3 = connections_of n /\ bans_current instant n3).
  { split; [|done]. change (connections_of n3) with (connections_of n2).
    by rewrite Hc2, (same_connections _ _ Hs). }
  destruct H3 as [Hc3 Hb3]. destruct (_ && _); do 2 eexists; (split; [done|]); [|done].
  destruct (attempt_bootstrap_parts resolve n3) as [Hp1 Hp2]. split; [congruence|].
  intros id e. rewrite Hp2. apply Hb3.
Qed.

(** C14: housekeeping returns.  The peers that survive it are peers from before
    that are neither faulty (too slow) nor inactive; those among them that were
    given by the user all survive, and of the others as many are closed as there
    are peers in excess of the limit, no more.  No expired soft ban is left. *)
Theorem housekeeping_survivors now instant seed answer resolve n :
  node_ok n -> next_token (handler n) + Z.of_nat (size (given_addresses n)) < 2 ^ 64 ->
  let healthy_node := remove_stale now n in
  exists b n', connection_housekeeping now instant seed answer resolve n = (Ok b, n') /\
    (forall t c, connections_of n' !! t = Some c ->
       exists c0, connections_of n !! t = Some c0 /\ remote_peer c = remote_peer c0 /\
                  healthy now n c0 = true) /\
    (forall t c, connections_of n !! t = Some c -> healthy now n c = true ->
       is_given_connection c n = true -> connections_of n' !! t = Some c) /\
    (size (connections_of n') =
       size (healthy_conns now n) - Nat.min (excess healthy_node) (length (not_given healthy_node)))%nat /\
    (forall id e, soft_bans (handler n') !! id = Some e -> instant < e).
Proof.
  intros Hok Hn healthy_node.
  destruct (remove_stale_spec now n) as [K1 E1]. fold healthy_node in K1, E1.
  assert (Hq1 : quiet n healthy_node).
  { apply (remove_stale_quiet now n). }
  assert (Hok1 : node_ok healthy_node) by (by eapply quiet_ok).
  destruct (remove_excess_spec now seed healthy_node Hok1) as (n2 & E2 & K2 & Hq2 & Hg2 & Hs2).
  destruct (rest_of_housekeeping now instant answer resolve n2) as (b & n' & E3 & Hc & Hb).
  { by eapply quiet_ok. }
  { rewrite (q_next _ _ Hq2), (q_next _ _ Hq1), (k_given _ _ K2), (k_given _ _ K1). done. }
  exists b, n'. split.
  { unfold connection_housekeeping, mbind, M_bind, modify at 1. fold healthy_node. rewrite E2. exact E3. }
  rewrite Hc. split_and!; [..|by rewrite Hs2, E1|done].
  - intros t c (c0 & Hl & Hp)%(q_connections _ _ Hq2). exists c0. rewrite E1 in Hl.
    apply map_lookup_filter_Some in Hl as [Hl Hh]. done.
  - intros t c Hl Hh Hg. apply Hg2.
    + rewrite E1. by apply map_lookup_filter_Some.
    + unfold is_given_connection in *. by rewrite (k_given _ _ K1).
Qed.
End housekeeping.
