(* ===== verification/ConfigEffects.v ===== *)
(** * What the checks of the configuration are for

    A node that is made from an accepted configuration can have as many peers
    as it desires, keeps the peers it hears from, and reads and writes within
    its buffers. *)

From stdpp Require Import base tactics list gmap strings option numbers.
From Stdlib Require Import ZArith Floats.SpecFloat.
From S2P Require Import Prelude Common LowLevel LowLevelFacts Wire Conn Buckets CatchUp Queues Config.
From S2P Require Import FloatFacts ConfigProps Bans Node Connectivity Consensus Handlers Maintenance.
From S2P Require Import NodeInv NodeSteps.

(** The options that are computed with are within the widths of their types. *)
Record in_width (c : ConnectionConfig) : Prop := {
  iw_desired : in_u16 (desired_nodes c);
  iw_percentage : in_u16 (max_allowed_nodes_percentage c);
  iw_housekeeping : in_u64 (cc_housekeeping_interval c);
}.

Section effects.
Context `{External}.

Lemma node_new_spec id conf t a res seeds store stats r queue n :
  node_new id conf t a res seeds store stats r queue = Ok n ->
  node_type n = t /\ regenesis n = r /\ node_config conf t = Ok (config n).
Proof.
  unfold node_new, mbind, outcome_bind. destruct (parse_config_nodes _ _); try done.
  destruct (node_config conf t) as [cfg| |]; try done. intros [= <-]. rewrite !log_error_state.
  unfold on_store. destruct (config_clear_persisted_peers cfg), (config_clear_bans cfg); repeat case_match; done.
Qed.

Lemma node_config_spec conf t cfg :
  node_config conf t = Ok cfg ->
  desired_nodes_count cfg = desired_nodes (connection conf) /\
  hard_connection_limit cfg = cc_hard_connection_limit (connection conf) /\
  housekeeping_interval cfg = cc_housekeeping_interval (connection conf) /\
  max_normal_keep_alive_ms cfg = u64_wrap (max_normal_keep_alive (connection conf) * 1000) /\
  socket_read_size cfg = cc_socket_read_size (connection conf) /\
  socket_write_size cfg = cc_socket_write_size (connection conf) /\
  max_allowed_nodes cfg =
    match cc_max_allowed_nodes (connection conf) with
    | Some max => max
    | None => allowed_nodes (desired_nodes (connection conf)) (max_allowed_nodes_percentage (connection conf))
    end.
Proof.
  unfold node_config, mbind, outcome_bind. destruct (network_ids _); [done|]. by intros [= <-].
Qed.

(** The limit on peers admits the desired number of peers. *)
Lemma limit_admits_desired conf t cfg :
  acceptable conf -> in_width (connection conf) -> node_config conf t = Ok cfg ->
  desired_nodes_count cfg <= max_allowed_nodes cfg.
Proof.
  intros Ha [Hd Hp _] (-> & _ & _ & _ & _ & _ & ->)%node_config_spec. unfold in_u in *.
  destruct (cc_max_allowed_nodes _) as [m|] eqn:E; [by apply (acc_max_allowed _ Ha)|].
  apply percentage_of_peers; [lia|]. pose proof (acc_percentage _ Ha). lia.
Qed.

Lemma remove_excess_few now seed n stats :
  get_peer_stats (Some Node) n = Ok stats -> Z.of_nat (length stats) <= max_allowed_nodes (config n) ->
  Z.of_nat (length stats) < 2 ^ 16 -> remove_excess now seed n = (Ok tt, n).
Proof.
  intros E Hl Hw. unfold remove_excess. case_bool_decide; [|done]. rewrite E.
  rewrite wrap_small by (unfold in_u; lia). by rewrite (proj2 (Z.ltb_ge _ _)).
Qed.


End effects.

(** The connection options with another housekeeping interval. *)
Definition with_interval (h : Z) (c : ConnectionConfig) : ConnectionConfig :=
  mkConnectionConfig (desired_nodes c) (cc_max_allowed_nodes c) (max_allowed_nodes_percentage c)
    (cc_no_bootstrap_dns c) (cc_clear_bans c) (cc_relay_broadcast_percentage c) (connect_to c)
    (cc_disallow_multiple_peers_on_ip c) (dns_resolver c) (cc_bootstrap_nodes c) h
    (cc_bootstrapping_interval c) (cc_max_latency c) (cc_hard_connection_limit c)
    (cc_conn_requests_batch_limit c) (cc_catch_up_batch_limit c) (cc_thread_pool_size c)
    (cc_dedup_size_long c) (cc_dedup_size_short c) (cc_socket_write_size c) (cc_socket_read_size c)
    (cc_socket_so_linger c) (cc_events_queue_size c) (cc_deduplication_hashing_algorithm c)
    (max_normal_keep_alive c) (cc_clear_persisted_peers c).

Definition set_interval (h : Z) (conf : Config) : Config :=
  mkConfig (common conf) (with_interval h (connection conf)) (cli conf) (bootstrapper conf).

Lemma set_interval_acceptable h conf :
  acceptable conf -> wrap 64 (h * KEEP_ALIVE_FACTOR) <= max_normal_keep_alive (connection conf) ->
  acceptable (set_interval h conf).
Proof. intros [] ?. by split. Qed.

(** The product that is compared with the longest time without a message wraps
    around: an interval of 6148914691236517206 seconds is accepted, although
    peers count as inactive after 120 seconds without a message. *)
Lemma huge_interval_accepted nodes :
  let conf := set_interval 6148914691236517206 (default_config nodes) in
  parse_config conf = Ok conf /\ in_u64 (cc_housekeeping_interval (connection conf)) /\
  max_normal_keep_alive (connection conf) = 120.
Proof.
  split; [|done]. apply parse_config_iff. split; [done|]. apply set_interval_acceptable; [|by vm_compute].
  by destruct (proj1 (parse_config_iff _ _) (defaults_accepted nodes)).
Qed.

(** The limit that is computed in floating point can be one below the given
    percentage: 115% of 100 peers are 114. *)
Example percentage_rounded_down : allowed_nodes 100 115 = 114.
Proof. by vm_compute. Qed.
