(* ===== verification/PeerProps.v ===== *)
(** * Correctness of the protocol between nodes

    The handshake, from the request that one node produces to the promotion of
    the connection on the other, and the relaying of consensus messages. *)

From stdpp Require Import base tactics list gmap strings option numbers relations.
From Stdlib Require Import ZArith Floats.SpecFloat.
From S2P Require Import Prelude Common Helpers LowLevel Wire WireProps Conn Buckets CatchUp.
From S2P Require Import Queues QueuesProps Config Bans Node Connectivity Consensus Handlers.
From S2P Require Import Maintenance NodeInv NodeSteps.

(** ** The handshake *)

Section handshake.
Context `{External} `{!ChannelLaws}.

(** One chain of genesis blocks continues the other. *)
Definition chains_agree (l1 l2 : list BlockHash) : Prop := l1 `prefix_of` l2 \/ l2 `prefix_of` l1.

Lemma first_difference_None l1 l2 : first_difference l1 l2 = None <-> chains_agree l1 l2.
Proof.
  unfold first_difference, chains_agree. rewrite list_find_None. revert l2.
  induction l1 as [|x l1 IH]; intros l2; simpl.
  { split; [|done]. intros _. left. apply prefix_nil. }
  destruct l2 as [|y l2]; simpl.
  { split; [|done]. intros _. right. apply prefix_nil. }
  rewrite list.Forall_cons, IH. simpl. split.
  - intros [->%dec_stable [?|?]]; [left|right]; by apply prefix_cons.
  - intros [Hp|Hp]; pose proof (prefix_cons_inv_1 _ _ _ _ Hp) as E; apply prefix_cons_inv_2 in Hp; subst; auto.
Qed.

Lemma check_handshake_spec h n v :
  check_handshake h n = Ok v <->
  is_compatible_version (node_version h) = true /\ is_compatible_wire_version (wire_versions h) = Some v /\
  (size (networks h) <= MAX_PEER_NETWORKS)%nat /\
  chains_agree (regenesis_blocks (regenesis n)) (genesis_blocks h).
Proof.
  unfold check_handshake. rewrite <-first_difference_None.
  destruct (is_compatible_version _); simpl; [|naive_solver].
  destruct (wire_versions h) as [|w ws]; simpl.
  { split; [done|]. by intros (_ & ? & _). }
  destruct (is_compatible_wire_version _) as [v'|]; simpl; [|naive_solver].
  destruct (bool_decide _) eqn:Hs; simpl.
  - apply bool_decide_eq_true in Hs. destruct (first_difference _ _); simpl; naive_solver.
  - apply bool_decide_eq_false in Hs. naive_solver.
Qed.

Lemma check_handshake_safe h n : check_handshake h n <> Panic.
Proof.
  unfold check_handshake. destruct (is_compatible_version _); simpl; [|done].
  destruct (negb _); simpl; [|done]. destruct (is_compatible_wire_version _); simpl; [|done].
  destruct (bool_decide _); simpl; [|done]. by destruct (first_difference _ _).
Qed.

(** What a handshake does to the connection and the gauge. *)
Lemma promote_spec now id p nets v c n c' n' :
  promote_to_post_handshake now id p nets v (c, n) = (c', n') ->
  remote_peer c' = mkRemotePeer (Some id) (addr (remote_peer c)) (local_id (remote_peer c)) p
                     (peer_type (remote_peer c)) /\
  remote_end_networks c' = remote_end_networks c ∪ nets /\ wire_version c' = v /\
  connected_peers (node_stats n') = connected_peers (node_stats n) + 1 /\
  regenesis n' = regenesis n /\ self_peer n' = self_peer n /\ config n' = config n.
Proof.
  unfold promote_to_post_handshake, populate_remote_end_networks.
  set (n2 := if decide _ then _ else _).
  assert (Hn : connected_peers (node_stats n2) = connected_peers (node_stats n) + 1 /\
    regenesis n2 = regenesis n /\ self_peer n2 = self_peer n /\ config n2 = config n)
    by (subst n2; by case_match).
  destruct Hn as (E1 & E2 & E3 & E4). unfold register_conn_change. destruct (_ && _).
  - destruct (insert_into_bucket _ _ _ _) as [b g].
    destruct (try_send _ _); intros [= <- <-]; by split_and!.
  - destruct (try_send _ _); intros [= <- <-]; by split_and!.
Qed.

Lemma peer_list_resp_parts now seed nets st s :
  remote_peer (send_peer_list_resp now seed nets st s).1 = remote_peer s.1 /\
  remote_end_networks (send_peer_list_resp now seed nets st s).1 = remote_end_networks s.1 /\
  (send_peer_list_resp now seed nets st s).2 = s.2.
Proof. destruct s as [c n]. unfold send_peer_list_resp. by destruct (peer_list_resp _ _ _ _ _). Qed.

Lemma handshake_spec now seed h st c n v c' n' r :
  check_handshake h n = Ok v -> handle_handshake_req now seed h st (c, n) = (r, (c', n')) ->
  r = Ok tt /\
  remote_peer c' = mkRemotePeer (Some (remote_id h)) (addr (remote_peer c)) (local_id (remote_peer c))
                     (remote_port h) (peer_type (remote_peer c)) /\
  remote_end_networks c' = remote_end_networks c ∪ networks h /\
  connected_peers (node_stats n') = connected_peers (node_stats n) + 1 /\ regenesis n' = regenesis n.
Proof.
  unfold handle_handshake_req. cbn [snd]. intros ->.
  destruct (promote_to_post_handshake _ _ _ _ _ _) as [c1 n1] eqn:Ep.
  intros [<- E]%pair_eq.
  apply promote_spec in Ep as (E1 & E2 & _ & E4 & E5 & _). split; [done|].
  destruct (decide _); [|by simplify_eq].
  destruct (peer_list_resp_parts now seed (networks h) st (c1, n1)) as (P1 & P2 & P3).
  rewrite E in *. simpl in *. subst n1. by rewrite P1, P2.
Qed.

Section wire.
Context `{!BaseLaws} `{!FlatbuffersLaws}.

Lemma process_handshake now now' seed st h c n :
  exists c1 n1, process_message now' seed st
      (serialize now (netmsg now (NetworkRequestPayload (HandshakeRequest h)))) (c, n) =
    handle_handshake_req now' seed (mkHandshake (remote_id h) (remote_port h) (networks h)
      (node_version h) (wire_versions h) (genesis_blocks h) []) st (c1, n1) /\
  remote_peer c1 = remote_peer c /\ remote_end_networks c1 = remote_end_networks c /\
  same_conns n n1 /\ node_stats n1 = node_stats n /\ regenesis n1 = regenesis n.
Proof.
  unfold process_message. cbn zeta.
  rewrite (deserialize_serialize_eq now now' (netmsg now (NetworkRequestPayload (HandshakeRequest h)))) by done.
  do 2 eexists. split; [reflexivity|]. unfold update_last_seen. by destruct (decide _).
Qed.

(** C4: two nodes of this version complete the handshake exactly if their chains
    of genesis blocks agree and the first is on no more networks than allowed:
    the second node receives the request that the first produced, records its
    id, listening port and networks, and counts a peer.  Otherwise the
    connection fails, and still leads to the same peer and networks. *)
Theorem handshake_between_nodes now now' seed st n1 n2 c v :
  version_parse CARGO_PKG_VERSION = Ok v -> is_compatible_version v = true ->
  let agreed := (size (node_networks (handler n1)) <= MAX_PEER_NETWORKS)%nat /\
    chains_agree (regenesis_blocks (regenesis n2)) (regenesis_blocks (regenesis n1)) in
  exists bytes r c' n',
    produce_handshake_request now n1 = Ok bytes /\
    process_message now' seed st bytes (c, n2) = (r, (c', n')) /\
    (agreed /\ r = Ok tt /\ self_id (remote_peer c') = Some (node_id n1) /\
     external_port (remote_peer c') = port (internal_addr n1) /\
     remote_end_networks c' = remote_end_networks c ∪ node_networks (handler n1) /\
     connected_peers (node_stats n') = connected_peers (node_stats n2) + 1
     \/
     ~ agreed /\ (exists e, r = Err e) /\ remote_peer c' = remote_peer c /\
     remote_end_networks c' = remote_end_networks c /\ same_conns n2 n').
Proof.
  intros Hv Hc agreed. unfold produce_handshake_request. rewrite Hv. cbn [mbind outcome_bind].
  set (h := mkHandshake _ _ _ _ _ _ _). set (bytes := serialize now _).
  destruct (process_handshake now now' seed st h c n2) as (c1 & n1' & E & Ep & En & Hs & Est & Er).
  fold bytes in E. change (mkHandshake (remote_id h) (remote_port h) (networks h) (node_version h)
    (wire_versions h) (genesis_blocks h) []) with h in E.
  destruct (handle_handshake_req now' seed h st (c1, n1')) as [r [c' n']] eqn:Eh.
  exists bytes, r, c', n'. split; [done|]. split; [done|].
  destruct (check_handshake h n1') as [w|e|] eqn:Ec.
  - left. pose proof Ec as (_ & _ & Hn & Ha)%check_handshake_spec.
    destruct (handshake_spec _ _ _ _ _ _ _ _ _ _ Ec Eh) as (-> & Hp & Hnet & Hg & _).
    rewrite Er in Ha. rewrite Hp, Hnet, Hg, En, Est. by split_and!.
  - right. assert (Hna : ~ agreed).
    { intros [Hn Ha]. assert (check_handshake h n1' = Ok WIRE_PROTOCOL_CURRENT_VERSION); [|congruence].
      apply check_handshake_spec. rewrite Er. by split_and!. }
    unfold handle_handshake_req in Eh. cbn [snd] in Eh. rewrite Ec in Eh. simplify_eq.
    split_and!; eauto.
  - by destruct (check_handshake_safe h n1').
Qed.
End wire.

(** A peer that repeats the handshake. *)
Definition handshakes (now seed : Z) (st : list PeerStats) (hs : list Handshake)
    : M (Connection * P2PNode) unit :=
  for_each (fun h => handle_handshake_req now seed h st) hs.

Lemma handshakes_spec now seed st hs : forall c n,
  Forall (fun h => exists v, check_handshake h n = Ok v) hs ->
  let '(r, (c', n')) := handshakes now seed st hs (c, n) in
  r = Ok tt /\ (hs <> [] -> conn_is_post_handshake c' = true) /\
  (conn_is_post_handshake c = true -> conn_is_post_handshake c' = true) /\
  connected_peers (node_stats n') = connected_peers (node_stats n) + Z.of_nat (length hs).
Proof.
  unfold handshakes. induction hs as [|h hs IH]; intros c n Hf; simpl.
  { split_and!; try done. lia. }
  apply list.Forall_cons in Hf as [[v Hv] Hf].
  destruct (handle_handshake_req now seed h st (c, n)) as [r [c1 n1]] eqn:Eh.
  destruct (handshake_spec _ _ _ _ _ _ _ _ _ _ Hv Eh) as (-> & Hp & _ & Hg & Er).
  assert (H1 : conn_is_post_handshake c1 = true).
  { unfold conn_is_post_handshake. by rewrite Hp. }
  specialize (IH c1 n1).
  destruct (for_each _ hs (c1, n1)) as [r2 [c2 n2]]. destruct IH as (-> & _ & I2 & I3).
  { eapply Forall_impl; [exact Hf|]. intros h' [v' Hv']. exists v'.
    apply check_handshake_spec. rewrite Er. by apply check_handshake_spec. }
  split_and!; auto. lia.
Qed.

(** Every acceptable handshake on one connection counts another connected
    peer, but closing the connection uncounts only one: a peer that sends [k + 1]
    handshakes leaves the gauge too high by [k] for good. *)
Theorem repeated_handshakes_inflate now seed st hs c n :
  hs <> [] -> Forall (fun h => exists v, check_handshake h n = Ok v) hs ->
  let '(r, (c', n')) := handshakes now seed st hs (c, n) in
  r = Ok tt /\ connected_peers (node_stats n') = connected_peers (node_stats n) + Z.of_nat (length hs) /\
  connected_peers (node_stats (drop_connection c' n')) =
  connected_peers (node_stats n) + Z.of_nat (length hs) - 1.
Proof.
  intros Hne Hf. pose proof (handshakes_spec now seed st hs c n Hf) as HS.
  destruct (handshakes now seed st hs (c, n)) as [r [c' n']]. destruct HS as (-> & Hp & _ & Hg).
  split_and!; [done..|]. unfold drop_connection. rewrite (Hp Hne). simpl. lia.
Qed.
End handshake.

(** ** Relaying *)

Section relaying.
Context `{External} `{!ChannelLaws}.

(** A connection to a node that is on the network. *)
Definition on_network (net : NetworkId) (c : Connection) : Prop :=
  peer_type (remote_peer c) <> Bootstrapper /\ net ∈ remote_end_networks c.

Lemma broadcast_target_spec c skip net :
  is_valid_broadcast_target c skip net = true <-> on_network net c /\ local_id (remote_peer c) ∉ skip.
Proof.
  unfold is_valid_broadcast_target, on_network. rewrite !andb_true_iff, !bool_decide_eq_true. tauto.
Qed.

Lemma send_over_all_lookup data p n t :
  connections_of (send_over_all_connections data p n).2 !! t =
  (fun c => if p c then async_send data Normal c else c) <$> connections_of n !! t.
Proof. apply lookup_fmap. Qed.

(** The bytes of a relayed packet. *)
Definition relayed (now : Z) (dont_relay_to : list RemotePeerId) (net : NetworkId)
    (message : list byte) : list byte :=
  serialize now (netmsg now (NetworkPacketPayload (mkPacket (Wire.Broadcast dont_relay_to) net message))).

(** A broadcast goes to the nodes on the network that are not skipped. *)
Lemma broadcast_unskipped now seed dont net message n skip :
  peers_to_skip seed (Wire.Broadcast dont) n = Ok skip ->
  exists sent n', send_broadcast_message now seed dont net message n = (Ok sent, n') /\
    forall t, connections_of n' !! t =
      (fun c => if decide (on_network net c /\ local_id (remote_peer c) ∉ skip)
                then async_send (relayed now dont net message) Normal c else c)
      <$> connections_of n !! t.
Proof.
  intros Hp. unfold send_broadcast_message, send_message_over_network, process_network_packet.
  cbn [destination network_id]. rewrite Hp.
  eexists _, (send_over_all_connections (relayed now dont net message)
    (fun c => is_valid_broadcast_target c skip net) n).2.
  split; [reflexivity|]. intros t. rewrite send_over_all_lookup.
  destruct (connections_of n !! t) as [c|]; [|done]. simpl. f_equal.
  pose proof (broadcast_target_spec c skip net) as HB.
  destruct (is_valid_broadcast_target c skip net).
  - by rewrite decide_True by (by apply HB).
  - by rewrite decide_False by (by intros ?%HB).
Qed.

(** Which peers are skipped: those given, or a sample of the others. *)
Definition skipped (dont : list RemotePeerId) (n : P2PNode) (skip : list RemotePeerId) : Prop :=
  let share := relay_broadcast_percentage (config n) in
  if SFltb share (f64_of_Z 1) then
    exists nodes, get_node_peer_tokens n = Ok nodes /\
      let others := filter (fun id => id ∉ dont) nodes in
      skip ⊆+ others /\
      length skip =
        Nat.min (Z.to_nat (floor_as_uint 64
                   (f64_mul (f64_of_Z (u32_wrap (Z.of_nat (length others)))) share)))
          (length others)
  else skip = dont.

Lemma peers_to_skip_ok seed dont n :
  node_ok n -> exists skip, peers_to_skip seed (Wire.Broadcast dont) n = Ok skip /\ skipped dont n skip.
Proof.
  intros Hok. unfold peers_to_skip, skipped. destruct (SFltb _ _); [|by eexists].
  unfold get_node_peer_tokens. destruct (get_peer_stats_ok n (Some Node) Hok) as [l El].
  rewrite El. cbn [fmap outcome_fmap]. eexists. split; [done|].
  eexists. split; [done|]. cbn zeta. split; [apply choose_submseteq|apply choose_length].
Qed.

Lemma peers_to_skip_ext seed d n n' :
  connections_of n' = connections_of n -> config n' = config n ->
  peers_to_skip seed d n' = peers_to_skip seed d n.
Proof.
  intros Ec Ef. unfold peers_to_skip, get_node_peer_tokens, get_peer_stats. by rewrite Ec, Ef.
Qed.

(** Whether a message is not to be relayed, by chance; a probability that is not
    one is an error. *)
Definition dropped_by_chance (seed : Z) (n : P2PNode) : outcome bool :=
  match drop_rebroadcast_probability (config n) with
  | Some probability => bernoulli seed probability
  | None => Ok false
  end.

Section library.
Context `{ConsensusLib}.

Definition inbound_broadcast (source : RemotePeerId) (t : PacketType) (message : list byte)
    : ConsensusMessage :=
  mkConsensusMessage (Inbound source Helpers.Broadcast) t message [source] None.

(** The part of handling an inbound broadcast before it is relayed. *)
Lemma inbound_before_relay source t message now seed result n :
  exists n', update_peer_states now seed (inbound_broadcast source t message) result n = (Ok tt, n') /\
    connections_of n' = connections_of n /\ config n' = config n.
Proof.
  unfold update_peer_states. cbn [source_peer direction inbound_broadcast].
  destruct (update_states_of _ _ _ _) as [p expel].
  assert (Er : relay_targets (inbound_broadcast source t message) source result p = []) by (by destruct t).
  unfold inbound_broadcast in *. rewrite Er. eexists. split; [reflexivity|].
  destruct expel; [|done]. unfold register_conn_change. by destruct (try_send _ _).
Qed.

End library.

(** With a relay percentage below 1 the node draws a sample of the peers that a
    broadcast may be relayed to, and then skips the sample instead of sending to
    it: a peer that the packet is not to be relayed to, such as the one it came
    from, gets it. *)
Theorem relay_percentage_skips_sample now seed dont net message n :
  SFltb (relay_broadcast_percentage (config n)) (f64_of_Z 1) = true -> node_ok n ->
  exists sent n', send_broadcast_message now seed dont net message n = (Ok sent, n') /\
    forall t c, connections_of n !! t = Some c -> on_network net c ->
      local_id (remote_peer c) ∈ dont ->
      connections_of n' !! t = Some (async_send (relayed now dont net message) Normal c).
Proof.
  intros Hp Hok. unfold send_broadcast_message, send_message_over_network, process_network_packet, peers_to_skip.
  cbn [destination network_id]. rewrite Hp.
  unfold get_node_peer_tokens. destruct (get_peer_stats_ok n (Some Node) Hok) as [l El].
  rewrite El. cbn [fmap outcome_fmap]. set (skip := choose_multiple seed _ _).
  eexists _, (send_over_all_connections (relayed now dont net message)
    (fun c => is_valid_broadcast_target c skip net) n).2.
  split; [reflexivity|]. intros t c Hl Hc Hd. rewrite send_over_all_lookup, Hl. simpl. f_equal.
  assert (HB : is_valid_broadcast_target c skip net = true); [|by rewrite HB].
  apply broadcast_target_spec. split; [done|]. intros [Hn _]%elem_of_choose%list_elem_of_filter. done.
Qed.

(** ** Short packets *)

(** C36: a packet of one to four bytes, a broadcast or not, whose first byte is that
    of a kind other than transactions passes the checks on receipt and is queued
    for consensus if there is room; the thread that handles it panics, unless the
    node has a probability for dropping messages that is not between 0 and 1, which
    is an error that any message leads to. *)
Theorem short_packet_panics `{ConsensusLib} now seed dont source message broadcast n kind rest t :
  message = kind :: rest -> (length rest < 4)%nat ->
  PacketType_try_from kind = Ok t -> t <> Transaction ->
  let mode := if broadcast : bool then Helpers.Broadcast else Helpers.Direct in
  let request := mkConsensusMessage (Inbound source mode) t message dont None in
  (handle_pkt_out dont source message broadcast n).1 = Ok tt /\
  (forall q, send_in_high_priority_message request (callback_queue n) = Some q ->
     callback_queue (handle_pkt_out dont source message broadcast n).2 = q) /\
  (handle_consensus_inbound_msg now seed request n).1 =
    match dropped_by_chance seed n with Ok _ => Panic | Err e => Err e | Panic => Panic end.
Proof.
  intros -> Hl Ht Hn mode request. unfold handle_pkt_out. rewrite Ht, decide_False by done.
  split; [done|]. split.
  { intros q Hq. cbn [snd]. fold mode request. by rewrite Hq. }
  unfold handle_consensus_inbound_msg, mbind, M_bind, get, lift. fold (dropped_by_chance seed n).
  destruct (dropped_by_chance seed n); [|done..].
  unfold send_msg_to_consensus, consensus_request. cbn [source_peer direction request msg_payload variant].
  assert (Hs : slice rest 0 4 = Panic).
  { unfold slice. rewrite decide_False by lia. done. }
  destruct t; simpl; rewrite ?Hs; done.
Qed.
End relaying.
