(* ===== verification/GrpcProps.v ===== *)
(** * The gRPC server: theorems

    Whatever clients ask for, an endpoint that is disabled does nothing, the
    library is only passed what it can read, the invariant of the node is kept
    and the server does not panic. *)

From stdpp Require Import base tactics list gmap strings option numbers relations.
From Stdlib Require Import ZArith Floats.SpecFloat.
From S2P Require Import Prelude Text Common IpText Helpers LowLevel Wire Conn Buckets CatchUp Queues.
From S2P Require Import QueuesProps Config Container GrpcTypes GrpcTransactions Bans BansProps Node.
From S2P Require Import Callbacks Queries QueriesProps Connectivity Consensus Handlers Maintenance Grpc.
From S2P Require Import NodeInv NodeSteps NodeProps.

(** The store reports failures of reading as errors. *)
Class RkvReadSafe `{Rkv} `{AddrFormats} := {
  env_read_safe e : env_read e <> Panic;
  store_iter_safe s r : store_iter s r <> Panic;
  store_entry_safe s r l entry : store_iter s r = Ok l -> entry ∈ l -> entry <> Panic;
  ip_deserial_safe bytes : ip_deserial bytes <> Panic;
}.

Section disabled.
Context `{External} `{ConsensusRuntime} `{ChainTypes} `{ConcordiumBase} `{Metadata}.
Variable ffi : ffi_call -> Runner -> Answer * Runner.
Variable rpc : RpcConfig.

Lemma enabled_bind {A} e what (k : unit -> M Server A) s :
  service_config rpc e = false ->
  (enabled rpc e what ≫= k) s = (fail_with Code.Unimplemented what, s).
Proof. intros E. unfold enabled. by rewrite E. Qed.

Lemma disabled_reply {A} e what (k : unit -> M Server A) (f : A -> Reply) s :
  service_config rpc e = false ->
  reply f (enabled rpc e what ≫= k) s = Some (fail_with Code.Unimplemented what, s).
Proof.
  intros E. unfold reply. f_equal. pose proof (enabled_bind e what k s E) as Hb.
  revert Hb. generalize (enabled rpc e what ≫= k). intros m Hm. unfold mbind, M_bind. by rewrite Hm.
Qed.

(** A request to an endpoint that is not enabled, whichever it is, is refused
    and has no effect: on consensus, the node, the ban list, the queues, the
    streams and the clients. *)
Theorem disabled_endpoint_inert r s :
  service_config rpc (endpoint_of r) = false ->
  exists what, serve ffi rpc r s = Some (fail_with Code.Unimplemented what, s).
Proof.
  destruct r; intros E; (eexists; eapply disabled_reply; exact E) || idtac.
  eexists. unfold serve, shutdown, enabled. cbn [endpoint_of] in E. by rewrite E.
Qed.
End disabled.

(** ** Safety of all requests *)

Section safety.
Context `{External} `{!ChannelLaws} `{!AddrFormatLaws} `{!RkvSafe} `{!RkvReadSafe}.
Context `{ConsensusRuntime} `{ChainTypes} `{ConcordiumBase} `{Metadata}.
Variable ffi : ffi_call -> Runner -> Answer * Runner.
Variable rpc : RpcConfig.

(** The library answers with the codes that are agreed on. *)
Record speaks_protocol : Prop := {
  sp_transaction data r :
    is_ok (ConsensusFfiResponse_try_from (ret_code (ffi (receiveTransaction data) r).1)) = true;
  sp_running r : checkIfRunning r = 0 \/ checkIfRunning r = 1;
  sp_finalizer r : checkIfWeAreFinalizer r = 0 \/ checkIfWeAreFinalizer r = 1;
  sp_committee r : is_ok (BakingCommitteeResponse_try_from (bakerStatusBestBlock r).1) = true;
}.

(** What is to be kept of the library. *)
Variable I : Runner -> Prop.
Hypothesis I_kept :
  forall c r, allowed (Z.max (invoke_max_energy rpc) (dry_run_max_energy rpc)) c -> I r -> I (ffi c r).2.
Hypothesis protocol : speaks_protocol.

Definition server_ok (s : Server) : Prop := node_ok (p2p s) /\ I (consensus (container s)).
Definition safe {A} (m : M Server A) : Prop :=
  forall s, server_ok s -> (m s).1 <> Panic /\ server_ok (m s).2.

Lemma safe_ret {A} (a : A) : safe (mret a).
Proof. by intros s. Qed.
Lemma safe_lift {A} (o : outcome A) : calm o -> safe (lift o).
Proof. by intros Ho s. Qed.
Lemma safe_bind {A B} (m : M Server A) (k : A -> M Server B) :
  safe m -> (forall a, safe (k a)) -> safe (m ≫= k).
Proof.
  intros Hm Hk s Hs. unfold mbind, M_bind. destruct (Hm s Hs) as [Hx1 Hx2].
  destruct (m s) as [[a| |] s']; [by apply Hk|done|done].
Qed.
(** After reading the state, which is fine. *)
Lemma safe_get {B} (k : Server -> M Server B) :
  (forall s, server_ok s -> (k s s).1 <> Panic /\ server_ok (k s s).2) -> safe (get ≫= k).
Proof. intros Hk s Hs. by apply Hk. Qed.
Lemma safe_modify f : (forall s, server_ok s -> server_ok (f s)) -> safe (modify f).
Proof. intros Hf s Hs. split; [done|]. by apply Hf. Qed.
Lemma safe_reply {A} (m : M Server A) : safe m -> forall f s, server_ok s ->
  exists r s', reply f m s = Some (r, s') /\ r <> Panic /\ server_ok s'.
Proof.
  intros Hm f s Hs. destruct (safe_bind m (fun a => mret (f a)) Hm (fun a => safe_ret _) s Hs) as [Hx1 Hx2].
  unfold reply. destruct ((m ≫= _) s) as [r s']. eauto.
Qed.

Lemma safe_consensus {A} (m : M World A) :
  keeps (in_world I) m -> no_panic m -> safe (on_consensus m).
Proof.
  intros Hk Hn s [Hok Hi]. unfold on_consensus.
  set (w := mkWorld _ _). pose proof (Hk w Hi) as H'. pose proof (Hn w) as Hw.
  by destruct (m w) as [r w'].
Qed.
Lemma safe_enabled e what : safe (enabled rpc e what).
Proof. unfold enabled. destruct (service_config rpc e); [apply safe_ret|by apply safe_lift]. Qed.
Lemma calm_add_hash {A} (r : Response A) hash : calm (add_hash r hash).
Proof. unfold add_hash. calm_all. Qed.

Lemma safe_answer_with_hash {A} (m : M World (list byte * A)) :
  keeps (in_world I) m -> no_panic m -> safe (answer_with_hash m).
Proof.
  intros. apply safe_bind; [by apply safe_consensus|]. intros [hash a]. apply safe_lift, calm_add_hash.
Qed.
Lemma safe_answer {A} (m : M World A) : keeps (in_world I) m -> no_panic m -> safe (answer m).
Proof. intros. apply safe_bind; [by apply safe_consensus|]. intros a. apply safe_ret. Qed.
Lemma safe_answer_with_stream m sender :
  keeps (in_world I) (m sender) -> no_panic (m sender) -> safe (answer_with_stream m sender).
Proof.
  intros. apply safe_bind; [by apply safe_consensus|]. intros hash. apply safe_lift, calm_add_hash.
Qed.

(** A conversion, before a query. *)
Lemma query_require {A B} (o : outcome A) (k : A -> M World B) :
  calm o -> (forall a, keeps (in_world I) (k a) /\ no_panic (k a)) ->
  keeps (in_world I) (lift o ≫= k) /\ no_panic (lift o ≫= k).
Proof.
  intros Ho Hk. split.
  - apply keeps_bind_lift. intros a _. apply Hk.
  - apply no_panic_bind; [by apply no_panic_lift|]. intros a. apply Hk.
Qed.

(** A query is fine: its calls are allowed, and it does not panic. *)
Ltac keeps_query :=
  first
    [ eapply keeps_block_query; [exact I_kept|by intros]
    | eapply keeps_block_stream; [exact I_kept|by intros]
    | eapply keeps_pool_stream; [exact I_kept|by intros]
    | eapply keeps_get_account_list; exact I_kept
    | eapply keeps_get_account_info; exact I_kept
    | eapply keeps_get_next_account_sequence_number; exact I_kept
    | eapply keeps_get_consensus_info; exact I_kept
    | eapply keeps_get_cryptographic_parameters; exact I_kept
    | eapply keeps_get_module_source; exact I_kept
    | eapply keeps_get_instance_state; exact I_kept
    | eapply keeps_get_first_block_epoch; exact I_kept
    | eapply keeps_get_winning_bakers_epoch; exact I_kept
    | eapply keeps_get_block_item_status; exact I_kept
    | eapply keeps_get_pool_info; exact I_kept
    | eapply keeps_get_blocks_at_height; exact I_kept
    | eapply keeps_get_branches; exact I_kept
    | eapply keeps_get_account_non_finalized_transactions; exact I_kept
    | eapply keeps_get_baker_earliest_win_time; exact I_kept
    | eapply keeps_invoke_instance; [exact I_kept|] ].
Ltac quiet_query :=
  first
    [ apply no_panic_block_query | apply no_panic_block_stream | apply no_panic_pool_stream
    | apply no_panic_get_account_list | apply no_panic_get_account_info
    | apply no_panic_get_next_account_sequence_number | apply no_panic_get_consensus_info
    | apply no_panic_get_cryptographic_parameters | apply no_panic_get_module_source
    | apply no_panic_get_instance_state | apply no_panic_get_first_block_epoch
    | apply no_panic_get_winning_bakers_epoch | apply no_panic_get_block_item_status
    | apply no_panic_get_pool_info | apply no_panic_get_blocks_at_height
    | apply no_panic_get_branches | apply no_panic_get_account_non_finalized_transactions
    | apply no_panic_get_baker_earliest_win_time | apply no_panic_invoke_instance ].
(** A query behind some required fields. *)
Ltac query :=
  lazymatch goal with
  | |- keeps _ (mbind _ (lift _)) /\ _ =>
      apply query_require; [apply calm_require|intros ?]; query
  | |- _ => split; [keeps_query|quiet_query]
  end.
Ltac safe_step :=
  lazymatch goal with
  | |- safe (mbind _ (enabled _ _ _)) => apply safe_bind; [apply safe_enabled|intros _]
  | |- safe (answer_with_hash ?m) =>
      cut (keeps (in_world I) m /\ no_panic m); [intros []; by apply safe_answer_with_hash|]
  | |- safe (answer ?m) =>
      cut (keeps (in_world I) m /\ no_panic m); [intros []; by apply safe_answer|]
  | |- safe (answer_with_stream ?m ?sender) =>
      cut (keeps (in_world I) (m sender) /\ no_panic (m sender));
      [intros []; by apply safe_answer_with_stream|]
  | |- safe (mbind _ (run_blocking ?m)) =>
      apply safe_bind;
      [cut (keeps (in_world I) m /\ no_panic m); [intros []; by apply safe_consensus|]|intros ?]
  | |- safe (mbind _ (lift _)) => apply safe_bind; [apply safe_lift; calm_all|intros ?]
  | |- safe (mret _) => apply safe_ret
  | |- safe (lift (add_hash _ _)) => apply safe_lift, calm_add_hash
  | |- safe (lift _) => apply safe_lift; calm_all
  | |- safe (let '(_, _) := ?x in _) => destruct x
  | |- safe (match ?x with _ => _ end) => destruct x
  | |- _ => query
  end.
Ltac safe_query := repeat safe_step.

Lemma safe_get_account_info bh acc : safe (get_account_info ffi rpc bh acc).
Proof. unfold get_account_info. safe_query. Qed.
Lemma safe_get_instance_state bh a : safe (get_instance_state ffi rpc bh a).
Proof. unfold get_instance_state. safe_query. Qed.
Lemma safe_instance_state_lookup bh a key : safe (instance_state_lookup ffi rpc bh a key).
Proof. unfold instance_state_lookup. safe_query. Qed.
Lemma safe_get_ancestors bh amount sender : safe (get_ancestors ffi rpc bh amount sender).
Proof. unfold get_ancestors. do 2 safe_step. cbn beta. query. Qed.
Lemma safe_invoke_instance request : safe (invoke_instance ffi rpc request).
Proof.
  unfold invoke_instance. safe_query. intros energy. unfold cap_energy. cbn [ii_energy].
  intros [= <-]. destruct (ii_energy request); lia.
Qed.

(** *** The node *)

Lemma safe_on_node {A} (m : M P2PNode A) :
  (forall n, node_ok n -> (m n).1 <> Panic /\ node_ok (m n).2) -> safe (on_node m).
Proof.
  intros Hm s [Hok Hi]. unfold on_node. destruct (Hm _ Hok). by destruct (m (p2p s)) as [r n].
Qed.
Lemma calm_parse_ip v what : calm (parse_ip v what).
Proof. unfold parse_ip. calm_all. Qed.
Lemma calm_parse_address ip port : calm (parse_address ip port).
Proof. unfold parse_address. calm_all. apply calm_parse_ip. Qed.
#[local] Hint Resolve calm_parse_ip calm_parse_address : calm.

Lemma safe_peer_connect ip port : safe (peer_connect rpc ip port).
Proof.
  unfold peer_connect. safe_step. apply safe_get. intros s Hs.
  destruct (is_network_stopped (p2p s)); [done|]. revert s Hs. change (safe (
    addr ← lift (parse_address ip port);
    modify (fun s => set_p2p (register_conn_change (NewConn addr Node true) (p2p s)) s))).
  safe_step. apply safe_modify. intros s [Hok Hi]. split; [|done]. by apply register_conn_change_ok.
Qed.

Lemma drop_addr_ok a n : node_ok n -> node_ok (drop_addr a n).2.
Proof.
  intros Hok. unfold drop_addr. set (n1 := upd_given_addresses _ n).
  assert (Hok1 : node_ok n1) by (eapply node_ok_same, Hok; done).
  destruct (find_conn_to a n1); [|done]. by apply register_conn_change_ok.
Qed.
Lemma safe_peer_disconnect ip port : safe (peer_disconnect rpc ip port).
Proof.
  unfold peer_disconnect. safe_step. apply safe_get. intros s Hs.
  destruct (is_network_stopped (p2p s)); [done|]. revert s Hs. change (safe (
    addr ← lift (parse_address ip port);
    dropped ← on_node (fun n => let '(b, n') := drop_addr addr n in (Ok b, n'));
    if dropped : bool then mret tt else lift (fail_with Code.NotFound "The peer was not found."))).
  safe_step. apply safe_bind; [|intros b; safe_query].
  apply safe_on_node. intros n Hn. pose proof (drop_addr_ok a n Hn) as Hd.
  by destruct (drop_addr a n) as [b n'].
Qed.

Lemma update_store_calm name change k :
  (forall st w, change st w <> Panic) -> calm (update_store name change k).
Proof.
  intros Hc. unfold update_store. apply calm_bind; [apply kvs_read_safe|intros e].
  apply calm_bind; [apply open_single_safe|intros st].
  apply calm_bind; [apply env_write_safe|intros w].
  apply calm_bind; [apply Hc|intros w']. apply commit_safe.
Qed.
Lemma drop_by_ip_and_ban_safe a n :
  node_ok n -> (drop_by_ip_and_ban a n).1 <> Panic /\ node_ok (drop_by_ip_and_ban a n).2.
Proof.
  intros Hok. unfold drop_by_ip_and_ban.
  assert (Hb : calm (ban_ip a (kvs n))) by (apply update_store_calm; intros; apply store_put_safe).
  destruct (ban_ip a (kvs n)); [|done|done]. split; [done|]. cbn [snd].
  apply register_conn_change_ok; [done|]. eapply node_ok_same, Hok. done.
Qed.
Lemma internal_error_safe {A} what (m : M Server A) : safe m -> safe (internal_error what m).
Proof. intros Hm s Hs. unfold internal_error. destruct (Hm s Hs). by destruct (m s) as [[] ?]. Qed.
Lemma safe_ban_peer ip : safe (ban_peer rpc ip).
Proof.
  unfold ban_peer. do 2 safe_step. apply safe_bind; [|intros _; apply safe_ret].
  apply internal_error_safe, safe_on_node. intros n. apply drop_by_ip_and_ban_safe.
Qed.
Lemma safe_unban_peer ip : safe (unban_peer rpc ip).
Proof.
  unfold unban_peer. do 2 safe_step. apply internal_error_safe, safe_on_node. intros n Hn.
  split; [|eapply node_ok_same, Hn; apply on_store_same].
  unfold on_store. assert (Hu : calm (unban_node (PersistedIp a) (kvs n)))
    by (apply update_store_calm; intros; apply store_delete_safe).
  unfold apply_store. by destruct (unban_node _ (kvs n)).
Qed.

Lemma calm_get_banlist k : calm (get_banlist k).
Proof.
  unfold get_banlist, stored_keys. destruct (kvs_read k) as [e| |] eqn:E;
    [|done|by apply kvs_read_safe in E]. cbn [mbind outcome_bind].
  destruct (open_single _ e) as [st| |] eqn:E1; [|done|by apply open_single_safe in E1].
  cbn [mbind outcome_bind].
  destruct (env_read st.2) as [r| |] eqn:E2; [|done|by apply env_read_safe in E2].
  cbn [mbind outcome_bind].
  destruct (store_iter st.1 r) as [l| |] eqn:E3; [|done|by apply store_iter_safe in E3].
  cbn [mbind outcome_bind]. pose proof (fun entry => store_entry_safe st.1 r l entry E3) as Hl.
  clear E3. induction l as [|entry l IH]; [done|]. cbn [mapM]. apply calm_bind.
  - apply calm_bind; [apply Hl; left|]. intros bytes. unfold ban_deserial. destruct bytes; [done|].
    case_decide; [|done]. apply calm_bind; [apply ip_deserial_safe|done].
  - intros b. apply calm_bind; [|done]. apply IH. intros x Hx. apply Hl. by right.
Qed.
Lemma safe_get_banned_peers : safe (get_banned_peers rpc).
Proof.
  unfold get_banned_peers. safe_step. apply safe_get. intros s Hs.
  pose proof (calm_get_banlist (kvs (p2p s))) as Hc. by destruct (get_banlist _).
Qed.
Lemma safe_get_peers_info : safe (get_peers_info rpc).
Proof.
  unfold get_peers_info. safe_step. apply safe_get. intros s [Hok Hi].
  destruct (get_peer_stats_ok (p2p s) None Hok) as [l El]. unfold mbind, M_bind, lift. rewrite El. done.
Qed.

Lemma calm_bool_call f c : f (consensus c) = 0 \/ f (consensus c) = 1 -> calm (wrap_c_bool_call f c).
Proof. unfold wrap_c_bool_call. by intros [-> | ->]. Qed.
Lemma calm_consensus_status c : calm (consensus_status c).
Proof.
  destruct protocol as [_ Hrun Hfin Hcom]. unfold consensus_status.
  apply calm_bind; [by apply calm_bool_call|]. intros [|]; [|done]. simpl. case_decide; [|done].
  apply calm_bind.
  - unfold in_baking_committee. specialize (Hcom (consensus c)).
    destruct (bakerStatusBestBlock _) as [code [[bid has] power]]. cbn [fst] in Hcom.
    by destruct (BakingCommitteeResponse_try_from code).
  - intros [[[status has] bid] power]. apply calm_bind; [|done]. destruct status; try done.
    apply calm_bind; [by apply calm_bool_call|]. done.
Qed.
Lemma safe_get_node_info now : 0 <= now -> safe (get_node_info rpc now).
Proof.
  intros Hnow. unfold get_node_info. safe_step. apply safe_get. intros s Hs.
  rewrite (proj2 (Z.ltb_ge _ _)) by lia. unfold mbind, M_bind, lift.
  assert (Hc : calm (node_details (p2p s) (container s)))
    by (unfold node_details; case_match; [apply calm_fmap, calm_consensus_status|done]).
  by destruct (node_details _ _).
Qed.

Lemma close_ok n n' : close n = Some n' -> node_ok n -> node_ok n'.
Proof.
  unfold close. intros (q & _ & ->)%fmap_Some Hok. eapply node_ok_same, Hok. done.
Qed.

(** *** Transactions, blocks and dry runs *)

Lemma submit_block_item_ok request :
  keeps (in_world I) (submit_block_item ffi request) /\ no_panic (submit_block_item ffi request).
Proof.
  unfold submit_block_item. apply query_require; [apply calm_get_v0_format|intros bytes].
  apply query_require; [by case_match|intros _]. split.
  - apply keeps_bind; [eapply keeps_send_transaction; exact I_kept|]. intros r. apply keeps_ret.
  - apply no_panic_bind; [|intros r; apply no_panic_ret].
    apply no_panic_send_transaction. intros r. by apply protocol.
Qed.
Lemma enqueue_transaction_ok bytes n :
  node_ok n -> (enqueue_transaction bytes n).1 <> Panic /\ node_ok (enqueue_transaction bytes n).2.
Proof.
  intros Hok. unfold enqueue_transaction. destruct (send_out_message _ _); [|done].
  split; [done|]. eapply node_ok_same, Hok. done.
Qed.
Lemma safe_send_block_item request : safe (send_block_item ffi rpc request).
Proof.
  unfold send_block_item. safe_step.
  apply safe_bind; [by intros s Hs|]. intros s. safe_step.
  apply safe_bind; [destruct (submit_block_item_ok request); by apply safe_consensus|].
  intros [[hash result] bytes]. destruct result; try by apply safe_lift.
  apply safe_bind; [apply safe_on_node; apply enqueue_transaction_ok|]. intros b. safe_query.
Qed.
Lemma safe_sign_hash request : safe (get_account_transaction_sign_hash rpc request).
Proof. unfold get_account_transaction_sign_hash. safe_query. Qed.

Lemma safe_get_blocks id : safe (get_blocks rpc id).
Proof. unfold get_blocks. safe_step. apply safe_bind; [by apply safe_modify|intros ?; safe_query]. Qed.
Lemma safe_get_finalized_blocks id : safe (get_finalized_blocks rpc id).
Proof. unfold get_finalized_blocks. safe_step. apply safe_bind; [by apply safe_modify|intros ?; safe_query]. Qed.

Lemma safe_dry_run id : safe (dry_run ffi rpc id).
Proof.
  unfold dry_run. safe_step. apply safe_bind; [by intros s Hs|]. intros s.
  apply safe_bind; [destruct (dry_run_semaphore s) as [[|k]|]; safe_query|]. intros [sem permit].
  apply safe_bind.
  - apply safe_consensus; [|apply no_panic_dry_run_start].
    eapply keeps_dry_run_start; [exact I_kept|lia].
  - intros handle. apply safe_bind; [by apply safe_modify|intros ?; safe_query].
Qed.

(** *** Steps of the server *)

Definition clock_ok (r : Request) : Prop :=
  match r with ReqGetNodeInfo now => 0 <= now | _ => True end.

Ltac unfold_handler := lazymatch goal with |- safe ?m => let h := head_of m in unfold h end.

Lemma serve_safe r s :
  clock_ok r -> server_ok s ->
  match serve ffi rpc r s with
  | Some (o, s') => o <> Panic /\ server_ok s'
  | None => True
  end.
Proof.
  intros Hclock Hs.
  assert (Hr : forall A (f : A -> Reply) m, safe m ->
            match reply f m s with Some (o, s') => o <> Panic /\ server_ok s' | None => True end).
  { intros A f m Hm. destruct (safe_reply m Hm f s Hs) as (o & s' & -> & ?). done. }
  destruct r; cbn [serve]; try (apply Hr; solve [unfold_handler; safe_query]).
  all: try apply Hr.
  - apply safe_get_ancestors.
  - apply safe_invoke_instance.
  - apply safe_get_blocks.
  - apply safe_get_finalized_blocks.
  - apply safe_peer_connect.
  - apply safe_peer_disconnect.
  - apply safe_get_banned_peers.
  - apply safe_ban_peer.
  - apply safe_unban_peer.
  - apply safe_get_peers_info.
  - by apply safe_get_node_info.
  - apply safe_send_block_item.
  - apply safe_dry_run.
  - unfold shutdown. destruct (safe_enabled Endpoint.shutdown "`Shutdown` is not enabled." s Hs) as [Hx1 Hx2].
    destruct (enabled _ _ _ s) as [[] s1]; [|done..]. cbn [snd] in Hx2.
    destruct (close (p2p s1)) as [n'|] eqn:Ec; [|done]. split; [done|]. destruct Hx2 as [Hok Hi].
    split; [|done]. by eapply close_ok.
Qed.

Lemma dry_run_operation_ok handle request m :
  dry_run_operation ffi handle request = Ok m -> keeps (in_world I) m /\ no_panic m.
Proof.
  assert (Hc : forall c origin, call_ok c -> metered c = None ->
            keeps (in_world I) (dry_run_call ffi c origin) /\ no_panic (dry_run_call ffi c origin)).
  { intros c origin Hc Hm. split; [|apply no_panic_dry_run_call].
    eapply keeps_dry_run_call; [exact I_kept|done..]. }
  intros E. destruct request as [bhi|[[acc|c|inv]|]|[[t|acc amount|tr]|]]; simplify_eq/=.
  - unfold dry_load_block_state. apply (fun H => conj (keeps_dry_load_block_state _ _ _ I_kept _ _) H).
    apply no_panic_bind; [apply no_panic_lift; auto with calm|]. intros []. apply no_panic_dry_run_call.
  - split; [eapply keeps_dry_get_account_info; exact I_kept|].
    apply no_panic_bind; [apply no_panic_lift; auto with calm|]. intros []. apply no_panic_dry_run_call.
  - by apply Hc.
  - split; [eapply keeps_dry_invoke_instance; exact I_kept|].
    apply no_panic_bind; [apply no_panic_lift; auto with calm|]. intros i. apply no_panic_dry_run_call.
  - by apply Hc.
  - split; [eapply keeps_dry_mint_to_account; exact I_kept|].
    repeat (apply no_panic_bind; [apply no_panic_lift; auto with calm|]; intros ?).
    apply no_panic_dry_run_call.
  - split; [eapply keeps_dry_transaction; exact I_kept|].
    repeat (apply no_panic_bind; [apply no_panic_lift; calm_all|]; intros ?).
    apply no_panic_dry_run_call.
Qed.

(** What can happen to a server: requests, polls and drops of dry-run sessions,
    relays of blocks, and whatever the other threads do to the node and to
    consensus that keeps the invariants. *)
Inductive rpc_step : Server -> Server -> Prop :=
| rs_serve r s o s' : clock_ok r -> serve ffi rpc r s = Some (o, s') -> rpc_step s s'
| rs_poll id timed_out input s : rpc_step s (dry_run_poll_next ffi id timed_out input s).2
| rs_drop id s : rpc_step s (dry_run_stream_drop ffi id s).2
| rs_blocks answers v s :
    rpc_step s (set_clients (relay_block answers v (blocks_channels s)) (finalized_blocks_channels s) s)
| rs_finalized answers v s :
    rpc_step s (set_clients (blocks_channels s) (relay_block answers v (finalized_blocks_channels s)) s)
| rs_node n s : node_ok n -> rpc_step s (set_p2p n s)
| rs_library w s : I (library w) -> rpc_step s (set_world w s).

Lemma poll_next_safe id timed_out input s :
  server_ok s ->
  (dry_run_poll_next ffi id timed_out input s).1 <> ReadySome Panic /\
  server_ok (dry_run_poll_next ffi id timed_out input s).2.
Proof.
  intros Hs. unfold dry_run_poll_next. destruct (dry_runs s !! id) as [st|]; [|done].
  destruct (dr_done st); [done|]. destruct timed_out; [done|]. destruct input as [| | |request]; try done.
  destruct (r ← require request; dry_run_operation ffi (dr_handle st) r) as [m| |] eqn:E; [|done|].
  - destruct request as [request|]; [|done]. apply dry_run_operation_ok in E as [Hk Hn].
    destruct (safe_consensus m Hk Hn s Hs) as [Hx1 Hx2]. destruct (on_consensus m s) as [r s1]. split; [|done].
    cbn [fst] in *. congruence.
  - destruct request as [[| [[]|] | [[]|]]|]; done.
Qed.

Lemma stream_drop_safe id : safe (dry_run_stream_drop ffi id).
Proof.
  unfold dry_run_stream_drop. apply safe_bind; [by intros s Hs|]. intros s.
  destruct (dry_runs s !! id) as [st|]; [|apply safe_ret]. apply safe_bind; [|intros _; by apply safe_modify].
  apply safe_consensus; [eapply keeps_dry_run_drop; exact I_kept|].
  apply no_panic_bind; [apply no_panic_call|]. intros a. apply no_panic_ret.
Qed.

Lemma rpc_step_ok s s' : rpc_step s s' -> server_ok s -> server_ok s'.
Proof.
  intros Hstep Hs. destruct Hstep as [r s o s' Hc E|id t input s|id s|answers v s|answers v s|n s Hn|w s Hw];
    [|by apply poll_next_safe|by apply stream_drop_safe|done|done|by split; [|apply Hs]|by split; [apply Hs|]].
  pose proof (serve_safe r s Hc Hs) as H'. rewrite E in H'. by destruct H'.
Qed.

(** C3: type safety of the server.  Suppose that the library keeps an invariant
    when it is called with arguments that it can read in full (the data has the
    length that it reads, the tags are known, the lengths are those of the data)
    and with no more energy than is configured, and that it answers with codes
    that are agreed on.  Then, whatever clients ask for, in whatever order, with
    malformed requests, dry-run sessions and bans, and interleaved with the other
    threads of the node: the invariant of the library is kept, so is that of the
    node, and no request and no poll of a dry-run session panics. *)
Theorem rpc_safe s s' :
  server_ok s -> rtc rpc_step s s' ->
  server_ok s' /\
  (forall r, clock_ok r ->
     match serve ffi rpc r s' with Some (o, s'') => o <> Panic /\ server_ok s'' | None => True end) /\
  (forall id timed_out input, (dry_run_poll_next ffi id timed_out input s').1 <> ReadySome Panic).
Proof.
  intros Hs Hsteps.
  assert (Hs' : server_ok s') by (induction Hsteps; eauto using rpc_step_ok).
  split_and!; [done|intros r Hr; by apply serve_safe|intros; by apply poll_next_safe].
Qed.
End safety.
