(* ===== verification/GrpcEffects.v ===== *)
(** * The gRPC server: effects of requests

    Blocks reach the clients that listen for them, transactions reach the peers,
    bans reach the store, and dry-run sessions are limited. *)

From stdpp Require Import base tactics list gmap strings option numbers relations.
From Stdlib Require Import ZArith Floats.SpecFloat.
From S2P Require Import Prelude Text Common IpText Helpers LowLevel Wire Conn Buckets CatchUp Queues.
From S2P Require Import QueuesProps Config Container GrpcTypes GrpcTransactions Bans BansProps Node.
From S2P Require Import Callbacks Queries QueriesProps Connectivity Consensus CallbacksProps Handlers.
From S2P Require Import Maintenance Grpc NodeInv NodeSteps NodeProps GrpcProps.

(** ** New blocks *)

(** The task that relays blocks, over some blocks with the answers of the channels
    of the clients. *)
Definition relay_task (blocks : list ((positive -> TrySend) * list byte)) (clients : Clients) : Clients :=
  foldl (fun senders b => relay_block b.1 b.2 senders) clients blocks.

(** The notifications that consensus makes, one after the other. *)
Record Notice := mkNotice {
  notice_now : Z;
  notice_type : Z;
  notice_data : list byte;
  notice_height : Z;
  notice_home_baked : Z;
}.
Definition notify_all (notices : list Notice) (c : NotificationContext) : NotificationContext :=
  foldl (fun c n => notify_callback (notice_now n) (notice_type n) (notice_data n) (notice_height n)
                      (notice_home_baked n) c) c notices.
(** The blocks among them, with type 0 for those that arrive and 1 for those that
    are finalized. *)
Definition announced (ty : Z) (notices : list Notice) : list (list byte) :=
  notice_data <$> filter (fun n => notice_type n = ty) notices.

Lemma notify_all_blocks notices c l f :
  nc_blocks c = Some (mkNotifications l true) -> nc_finalized_blocks c = Some (mkNotifications f true) ->
  nc_blocks (notify_all notices c) = Some (mkNotifications (l ++ announced 0 notices) true) /\
  nc_finalized_blocks (notify_all notices c) = Some (mkNotifications (f ++ announced 1 notices) true).
Proof.
  revert c l f. induction notices as [|n notices IH]; intros c l f Hb Hf.
  { by rewrite !app_nil_r. }
  cbn [notify_all foldl]. fold (notify_all notices). unfold announced. rewrite !filter_cons.
  set (c' := notify_callback _ _ _ _ _ c).
  destruct (decide (notice_type n = 0)) as [E0|E0].
  { rewrite E0. rewrite decide_False by done. cbn [fmap list_fmap].
    rewrite (cons_middle _ l), app_assoc. apply IH; subst c'; unfold notify_callback; rewrite E0; simpl;
      [by rewrite Hb|done]. }
  destruct (decide (notice_type n = 1)) as [E1|E1].
  { cbn [fmap list_fmap]. rewrite (cons_middle _ f), (app_assoc f).
    apply IH; subst c'; unfold notify_callback; rewrite E1; simpl; [done|by rewrite Hf]. }
  apply IH; subst c'; unfold notify_callback; rewrite !(proj2 (Z.eqb_neq _ _)) by done; done.
Qed.

(** What a client has got after some blocks: those that its channel took, unless
    it has gone. *)
Definition client_after (blocks : list ((positive -> TrySend) * list byte)) (c : Client) : option Client :=
  if existsb (fun b => bool_decide (b.1 (client_id c) = Disconnected)) blocks then None
  else Some (mkClient (client_id c)
               (client_received c ++ (filter (fun b => b.1 (client_id c) = Sent) blocks).*2)).

Lemma client_after_cons answers v blocks c :
  client_after ((answers, v) :: blocks) c =
    match answers (client_id c) with
    | Sent => client_after blocks (mkClient (client_id c) (client_received c ++ [v]))
    | Full => client_after blocks c
    | Disconnected => None
    end.
Proof.
  unfold client_after. cbn [existsb client_id client_received fst snd]. rewrite filter_cons. cbn [fst].
  destruct (answers (client_id c)) eqn:E; simpl; [|done..].
  destruct (existsb _ blocks); [done|]. by rewrite <- app_assoc.
Qed.

Lemma relay_task_exact blocks clients : relay_task blocks clients = omap (client_after blocks) clients.
Proof.
  revert clients. induction blocks as [|[answers v] blocks IH]; intros clients.
  - induction clients as [|[id l] clients IHc]; [done|]. simpl. rewrite app_nil_r.
    f_equal. exact IHc.
  - change (relay_task ((answers, v) :: blocks) clients)
      with (relay_task blocks (relay_block answers v clients)). rewrite IH. clear IH.
    unfold relay_block. induction clients as [|c clients IHc]; [done|].
    change (omap (client_after ((answers, v) :: blocks)) (c :: clients)) with
      (match client_after ((answers, v) :: blocks) c with
       | Some c' => c' :: omap (client_after ((answers, v) :: blocks)) clients
       | None => omap (client_after ((answers, v) :: blocks)) clients
       end).
    rewrite client_after_cons, <- IHc. simpl. by destruct (answers (client_id c)).
Qed.

(** C20: blocks reach the clients.  Of all that consensus announces, the blocks
    that arrive go to the clients of [get_blocks], those that are finalized to the
    clients of [get_finalized_blocks], in the order in which they are announced.
    A client gets each of them that its channel has room for; it misses those for
    which it is too slow, but stays; and it is removed when it has gone, without
    an effect on the others. *)
Theorem announced_blocks_relayed notices ctx blocks finalized clients fin_clients :
  nc_blocks ctx = Some (mkNotifications [] true) ->
  nc_finalized_blocks ctx = Some (mkNotifications [] true) ->
  let ctx' := notify_all notices ctx in
  from_option notified [] (nc_blocks ctx') = blocks.*2 ->
  from_option notified [] (nc_finalized_blocks ctx') = finalized.*2 ->
  blocks.*2 = announced 0 notices /\ finalized.*2 = announced 1 notices /\
  relay_task blocks clients = omap (client_after blocks) clients /\
  relay_task finalized fin_clients = omap (client_after finalized) fin_clients /\
  (forall c, (forall b, b ∈ blocks -> b.1 (client_id c) = Sent) ->
     client_after blocks c = Some (mkClient (client_id c) (client_received c ++ announced 0 notices))).
Proof.
  intros Hb Hf ctx' Eb Ef. destruct (notify_all_blocks notices ctx [] [] Hb Hf) as [Hx Hy].
  subst ctx'. rewrite Hx in Eb. rewrite Hy in Ef. simpl in Eb, Ef.
  split_and!; [done..|apply relay_task_exact|apply relay_task_exact|].
  intros c Hall. unfold client_after. rewrite Eb.
  destruct (existsb _ blocks) eqn:Ee.
  { apply existsb_exists in Ee as (b & Hin%list_elem_of_In & Hd). apply bool_decide_eq_true in Hd.
    by rewrite (Hall b Hin) in Hd. }
  do 3 f_equal. clear -Hall. induction blocks as [|b blocks IH]; [done|].
  rewrite filter_cons, decide_True by (apply Hall; left). cbn [fmap list_fmap]. f_equal.
  apply IH. intros b' Hb'. apply Hall. by right.
Qed.

(** ** Transactions *)

Section transactions.
Context `{External} `{!ChannelLaws} `{ConsensusRuntime} `{ChainTypes} `{ConcordiumBase} `{Metadata}.
Variable ffi : ffi_call -> Runner -> Answer * Runner.
Variable rpc : RpcConfig.

(** The queue of what is to be sent to peers, that of [send_block_item]. *)
Definition outgoing (n : P2PNode) : list (QueueMsg ConsensusMessage) :=
  chan_items (low_priority (outbound (callback_queue n))).

Lemma submit_cases request w r w' :
  submit_block_item ffi request w = (r, w') ->
  match r with
  | Ok (hash, code, bytes) =>
      get_v0_format request = Ok bytes /\ Z.of_nat (length bytes) <= PROTOCOL_MAX_TRANSACTION_SIZE /\
      let '(a, cs) := ffi (receiveTransaction bytes) (library w) in
      library w' = cs /\ ConsensusFfiResponse_try_from (ret_code a) = Ok code /\
      hash = (if decide (code = Success) then Some (out_hash a) else None)
  | _ => True
  end.
Proof.
  unfold submit_block_item, send_transaction, call, mbind, M_bind, lift, mret, M_ret.
  destruct (get_v0_format request) as [bytes| |]; [|by intros [= <- _]..].
  destruct (PROTOCOL_MAX_TRANSACTION_SIZE <? _) eqn:El; [by intros [= <- _]|]. bool_hyps.
  destruct (ffi _ (library w)) as [a cs] eqn:Ef.
  destruct (ConsensusFfiResponse_try_from (ret_code a)) as [code| |] eqn:Ec; intros [= <- <-]; [|done..].
  rewrite Ef. done.
Qed.

Lemma try_send_Some {A} (m : A) c c' : try_send m c = Some c' -> chan_items c' = chan_items c ++ [m].
Proof.
  intros E. destruct (decide (length (chan_items c) < chan_cap c)%nat) as [Hr|Hr].
  - destruct (try_send_room _ m c Hr) as (c'' & E' & Hc & _). congruence.
  - by rewrite try_send_full in E by lia.
Qed.

Lemma enqueue_cases bytes n b n' :
  enqueue_transaction bytes n = (Ok b, n') ->
  if b then outgoing n' = outgoing n ++ [Relay (transaction_message bytes)] else n' = n.
Proof.
  unfold enqueue_transaction, send_out_message, send_msg.
  destruct (try_send _ (low_priority (outbound (callback_queue n)))) as [c|] eqn:E; simpl;
    intros [= <- <-]; [|done]. by apply try_send_Some.
Qed.

(** A packet with a transaction goes to the low-priority queue, and from there to
    consensus. *)
Lemma transaction_packet_queued `{ConsensusLib} dont_relay_to source bytes (bc : bool) n :
  Z.of_nat (length bytes) <= PROTOCOL_MAX_TRANSACTION_SIZE ->
  has_room (low_priority (inbound (callback_queue n))) ->
  exists n' m,
    handle_pkt_out dont_relay_to source (packet_type_tag Transaction :: bytes) bc n = (Ok tt, n') /\
    chan_items (low_priority (inbound (callback_queue n'))) =
      chan_items (low_priority (inbound (callback_queue n))) ++ [Relay m] /\
    consensus_request source m n' = Ok (SendTransaction bytes).
Proof.
  intros Hl Hr. unfold handle_pkt_out. rewrite packet_type_roundtrip. cbn zeta.
  rewrite decide_True by done. rewrite (proj2 (Z.ltb_ge _ _)) by done.
  set (m := mkConsensusMessage _ _ _ _ _).
  destruct (try_send_room _ (Relay m) _ Hr) as (c' & E & Hc & _).
  unfold send_in_low_priority_message, send_msg. rewrite E. simpl. eexists _, m. split_and!; done.
Qed.

(** C6: a transaction that is submitted to one node.  If the client gets a hash,
    then consensus has accepted exactly the bytes of the request, the hash is that
    of consensus, and the transaction is the next message to the peers; a peer
    whose queue has room accepts that message, whatever its size, and passes the
    same bytes to its consensus.  If the client gets an error, then nothing is
    sent. *)
Theorem transaction_submitted `{ConsensusLib} request s r s' :
  send_block_item ffi rpc request s = (r, s') ->
  match r with
  | Ok hash => exists bytes,
      get_v0_format request = Ok bytes /\
      (let a := (ffi (receiveTransaction bytes) (consensus (container s))).1 in
       ConsensusFfiResponse_try_from (ret_code a) = Ok Success /\ hash = out_hash a) /\
      outgoing (p2p s') = outgoing (p2p s) ++ [Relay (transaction_message bytes)] /\
      forall dont_relay_to source bc n, has_room (low_priority (inbound (callback_queue n))) ->
        exists n' m,
          handle_pkt_out dont_relay_to source (msg_payload (transaction_message bytes)) bc n = (Ok tt, n') /\
          chan_items (low_priority (inbound (callback_queue n'))) =
            chan_items (low_priority (inbound (callback_queue n))) ++ [Relay m] /\
          consensus_request source m n' = Ok (SendTransaction bytes)
  | _ => p2p s' = p2p s
  end.
Proof.
  unfold send_block_item, enabled. destruct (service_config rpc _); [|by intros [= <- <-]].
  unfold mbind, M_bind, get, lift, mret, M_ret.
  destruct (is_network_stopped (p2p s)); [by intros [= <- <-]|].
  unfold run_blocking, on_consensus. set (w := mkWorld _ _).
  destruct (submit_block_item ffi request w) as [[[[hash code] bytes]| |] w'] eqn:Es;
    [|by intros [= <- <-]..].
  apply submit_cases in Es as (Hf & Hlen & Ha). subst w. cbn [library] in Ha.
  destruct (ffi _ (consensus (container s))) as [a cs] eqn:Ef. destruct Ha as (_ & Hc & ->).
  destruct code; try by intros [= <- <-]. rewrite decide_True by done. unfold on_node.
  destruct (enqueue_transaction bytes _) as [[b| |] n'] eqn:En; cbn [set_world p2p] in En.
  2,3: unfold enqueue_transaction in En; by destruct (send_out_message _ _).
  apply enqueue_cases in En. destruct b; intros [= <- <-].
  - exists bytes. rewrite Ef. cbn [fst]. split_and!; try done.
    intros dont_relay_to source bc n Hr. by apply transaction_packet_queued.
  - done.
Qed.
End transactions.

(** ** Bans *)

#[export] Instance ip_to_string_inj : Inj (=) (=) ip_to_string.
Proof.
  intros a b E. assert (Some a = Some b) as [=]; [|done].
  by rewrite <- (ip_from_to_string a), E, ip_from_to_string.
Qed.

Section bans.
Context `{External} `{!RkvLaws} `{!AddrFormatLaws}.
Context `{ConsensusRuntime} `{ChainTypes} `{ConcordiumBase} `{Metadata}.
Variable rpc : RpcConfig.

(** The store of the node holds these sets. *)
Definition holds (s : Server) (st : AbstractStore) : Prop :=
  exists e, kvs (p2p s) = Some e /\ represents e st.

Lemma parse_shown_ip a what : parse_ip (Some (ip_to_string a)) what = Ok a.
Proof. unfold parse_ip. simpl. by rewrite ip_from_to_string. Qed.

Lemma ban_peer_spec a s st s' :
  holds s st -> ban_peer rpc (Some (ip_to_string a)) s = (Ok tt, s') ->
  holds s' (spec_op (OpBan a) st) /\ (forall x, x ∈ given_addresses (p2p s') -> ip x <> a).
Proof.
  intros (e & He & Hr) E. unfold ban_peer, enabled in E. destruct (service_config rpc _); [|done].
  unfold mbind, M_bind, mret, M_ret, lift in E. rewrite parse_shown_ip in E.
  unfold internal_error, on_node, drop_by_ip_and_ban in E. rewrite He in E.
  destruct (ban_ip a (Some e)) as [e'| |] eqn:Eb; [|done..]. injection E as <-.
  cbn [p2p set_p2p]. split.
  - exists e'. split; [|by eapply (run_op_refines (OpBan a))].
    unfold register_conn_change. by destruct (try_send _ _).
  - intros x. unfold register_conn_change.
    assert (Hg : forall n, x ∈ given_addresses (upd_given_addresses
                   (filter (fun x => ip x <> a)) n) -> ip x <> a).
    { intros n Hx. apply elem_of_filter in Hx as [Hx _]. done. }
    destruct (try_send _ _); apply Hg.
Qed.

Lemma unban_peer_spec a s st s' :
  holds s st -> unban_peer rpc (Some (ip_to_string a)) s = (Ok tt, s') ->
  holds s' (spec_op (OpUnban a) st).
Proof.
  intros (e & He & Hr) E. unfold unban_peer, enabled in E. destruct (service_config rpc _); [|done].
  unfold mbind, M_bind, mret, M_ret, lift in E. rewrite parse_shown_ip in E.
  unfold internal_error, on_node, on_store, apply_store in E. rewrite He in E.
  destruct (unban_node _ (Some e)) as [e'| |] eqn:Eb; [|done..]. injection E as <-.
  exists e'. split; [done|]. by eapply (run_op_refines (OpUnban a)).
Qed.

Lemma get_banned_peers_spec s st l s' :
  holds s st -> get_banned_peers rpc s = (Ok l, s') ->
  s' = s /\ NoDup l /\ forall v, v ∈ l <-> exists a, v = ip_to_string a /\ a ∈ banned st.
Proof.
  intros (e & He & Hr) E. unfold get_banned_peers, enabled in E. destruct (service_config rpc _); [|done].
  unfold mbind, M_bind, mret, M_ret, lift, get in E. rewrite He in E.
  destruct (get_banlist (Some e)) as [bans| |] eqn:Eb; [|done..]. injection E as <- <-.
  split; [done|]. destruct (ban_queries e st (V4 [# Byte.x00; Byte.x00; Byte.x00; Byte.x00]) Hr) as [_ Hl].
  destruct (Hl bans Eb) as [Hnd Hin]. split.
  - apply NoDup_fmap_2; [|done]. intros [a] [b] Hab. f_equal. by apply (inj ip_to_string).
  - intros v. rewrite list_elem_of_fmap. split.
    + intros ([a] & -> & Ha). exists a. split; [done|]. by apply Hin.
    + intros (a & -> & Ha). exists (PersistedIp a). split; [done|]. by apply Hin.
Qed.

(** C22: the ban list through the gRPC interface.  Banning the address that a text
    shows adds exactly that address to the stored set, and no peer with it is left
    among the given addresses; the list that is reported has every banned address
    once, and nothing else; and each entry of that list, given back to be
    unbanned, removes exactly the address that it shows. *)
Theorem bans_through_rpc s st :
  holds s st ->
  (forall a s', ban_peer rpc (Some (ip_to_string a)) s = (Ok tt, s') ->
     holds s' (spec_op (OpBan a) st) /\ forall x, x ∈ given_addresses (p2p s') -> ip x <> a) /\
  (forall l s', get_banned_peers rpc s = (Ok l, s') ->
     s' = s /\ NoDup l /\ (forall a, ip_to_string a ∈ l <-> a ∈ banned st) /\
     forall v s'', v ∈ l -> unban_peer rpc (Some v) s = (Ok tt, s'') ->
       exists a, ip_from_str v = Some a /\ holds s'' (spec_op (OpUnban a) st)).
Proof.
  intros Hs. split; [intros a s' E; by eapply ban_peer_spec|].
  intros l s' E. destruct (get_banned_peers_spec s st l s' Hs E) as (-> & Hnd & Hl).
  split_and!; [done..| |].
  - intros a. rewrite Hl. split; [|eauto]. by intros (b & ->%(inj ip_to_string) & ?).
  - intros v s'' (a & -> & Ha)%Hl E'. exists a. split; [apply ip_from_to_string|].
    by eapply unban_peer_spec.
Qed.
End bans.

(** ** Dry-run sessions *)

Section sessions.
Context `{External} `{ConsensusRuntime} `{ChainTypes} `{ConcordiumBase} `{Metadata}.
Variable ffi : ffi_call -> Runner -> Answer * Runner.
Variable rpc : RpcConfig.

(** What does not concern dry-run sessions leaves them and their permits alone. *)
Definition frames {A} (m : M Server A) : Prop :=
  forall s, dry_run_semaphore (m s).2 = dry_run_semaphore s /\ dry_runs (m s).2 = dry_runs s.

Lemma frames_ret {A} (a : A) : frames (mret a).
Proof. done. Qed.
Lemma frames_lift {A} (o : outcome A) : frames (lift o).
Proof. done. Qed.
Lemma frames_get : frames get.
Proof. done. Qed.
Lemma frames_bind {A B} (m : M Server A) (k : A -> M Server B) :
  frames m -> (forall a, frames (k a)) -> frames (m ≫= k).
Proof.
  intros Hm Hk s. unfold mbind, M_bind. destruct (Hm s) as [E1 E2].
  destruct (m s) as [[a| |] s1]; [|done|done]. destruct (Hk a s1) as [-> ->]. done.
Qed.
Lemma frames_consensus {A} (m : M World A) : frames (on_consensus m).
Proof. intros s. unfold on_consensus. by destruct (m _). Qed.
Lemma frames_blocking {A} (m : M World A) : frames (run_blocking m).
Proof. apply frames_consensus. Qed.
Lemma frames_node {A} (m : M P2PNode A) : frames (on_node m).
Proof. intros s. unfold on_node. by destruct (m _). Qed.
Lemma frames_enabled e what : frames (enabled rpc e what).
Proof. unfold enabled. by destruct (service_config rpc e). Qed.
Lemma frames_internal_error {A} what (m : M Server A) : frames m -> frames (internal_error what m).
Proof. intros Hm s. unfold internal_error. destruct (Hm s). by destruct (m s) as [[] ?]. Qed.
Lemma frames_modify f :
  (forall s, dry_run_semaphore (f s) = dry_run_semaphore s /\ dry_runs (f s) = dry_runs s) ->
  frames (modify f).
Proof. intros Hf s. apply Hf. Qed.

Ltac frames_step :=
  lazymatch goal with
  | |- frames (mbind _ _) => apply frames_bind; [|intros ?]
  | |- frames (enabled _ _ _) => apply frames_enabled
  | |- frames (run_blocking _) => apply frames_blocking
  | |- frames (on_consensus _) => apply frames_consensus
  | |- frames (on_node _) => apply frames_node
  | |- frames (mret _) => apply frames_ret
  | |- frames (lift _) => apply frames_lift
  | |- frames get => apply frames_get
  | |- frames (modify _) => by apply frames_modify
  | |- frames (internal_error _ _) => apply frames_internal_error
  | |- frames (let '(_, _) := ?x in _) => destruct x
  | |- frames (match ?x with _ => _ end) => destruct x
  | |- frames ?m => let h := head_of m in unfold h
  end.

Lemma serve_frames r s o s' :
  (forall id, r <> ReqDryRun id) -> serve ffi rpc r s = Some (o, s') ->
  dry_run_semaphore s' = dry_run_semaphore s /\ dry_runs s' = dry_runs s.
Proof.
  assert (Hr : forall A (f : A -> Reply) m, frames m -> reply f m s = Some (o, s') ->
            dry_run_semaphore s' = dry_run_semaphore s /\ dry_runs s' = dry_runs s).
  { intros A f m Hm E. unfold reply in E. injection E as E.
    pose proof (frames_bind m (fun a => mret (f a)) Hm (fun a => frames_ret _) s) as HF.
    by rewrite E in HF. }
  intros Hn. destruct r; cbn [serve]; try (apply Hr; solve [repeat frames_step]); [by destruct (Hn id)|].
  unfold shutdown. pose proof (frames_enabled Endpoint.shutdown "`Shutdown` is not enabled." s) as HF.
  destruct (enabled _ _ _ s) as [[] s1]; cbn [snd] in HF; [|intros [= <- <-]; done..].
  destruct (close (p2p s1)); intros [= <- <-]. done.
Qed.

(** With a limit, every session has a permit, and the others are in the semaphore. *)
Definition sessions_ok (limit : nat) (s : Server) : Prop :=
  (exists available, dry_run_semaphore s = Some available /\
     (available + size (dry_runs s))%nat = limit) /\
  forall id st, dry_runs s !! id = Some st -> dr_permit st = true.

(** What can happen to sessions; a new session is a new stream. *)
Inductive session_step : Server -> Server -> Prop :=
| ss_serve r s o s' :
    (forall id, r = ReqDryRun id -> dry_runs s !! id = None) ->
    serve ffi rpc r s = Some (o, s') -> session_step s s'
| ss_poll id timed_out input s : session_step s (dry_run_poll_next ffi id timed_out input s).2
| ss_drop id s : session_step s (dry_run_stream_drop ffi id s).2
| ss_other s s' :
    dry_run_semaphore s' = dry_run_semaphore s -> dry_runs s' = dry_runs s -> session_step s s'.

Lemma sessions_same limit s s' :
  dry_run_semaphore s' = dry_run_semaphore s -> dry_runs s' = dry_runs s ->
  sessions_ok limit s -> sessions_ok limit s'.
Proof. unfold sessions_ok. by intros -> ->. Qed.

Lemma mark_done_ok limit id d s : sessions_ok limit s -> sessions_ok limit (mark_done id d s).
Proof.
  intros [(k & Ek & Hk) Hp]. split.
  - exists k. split; [done|]. cbn [mark_done set_dry_runs dry_runs]. by rewrite <- size_dom, dom_alter_L, size_dom.
  - intros id' st. cbn [mark_done set_dry_runs dry_runs].
    rewrite lookup_alter_Some. intros [(-> & st' & Hl & ->)|[_ Hl]]; exact (Hp _ _ Hl).
Qed.

Lemma poll_next_ok limit id timed_out input s :
  sessions_ok limit s -> sessions_ok limit (dry_run_poll_next ffi id timed_out input s).2.
Proof.
  intros Hs. unfold dry_run_poll_next. destruct (dry_runs s !! id) as [st|]; [|done].
  destruct (dr_done st); [done|]. destruct timed_out; [by apply mark_done_ok|].
  destruct input as [| | |request]; [done|by apply mark_done_ok..|].
  destruct (r ← require request; _) as [m| |]; [|done|done].
  pose proof (frames_consensus m s) as HF. destruct (on_consensus m s) as [r s1]. cbn [snd] in *.
  apply mark_done_ok. eapply sessions_same, Hs; apply HF.
Qed.

Lemma start_cases id s :
  service_config rpc Endpoint.dry_run = true ->
  match dry_run_semaphore s with
  | Some O => dry_run ffi rpc id s =
      (fail_with Code.ResourceExhausted "Too many concurrent `DryRun` requests", s)
  | sem => exists quota s' handle, dry_run ffi rpc id s = (Ok quota, s') /\
      dry_run_semaphore s' = pred <$> sem /\
      dry_runs s' = <[id := mkDryRunStream handle (bool_decide (is_Some sem)) false]> (dry_runs s)
  end.
Proof.
  intros He. unfold dry_run, enabled. rewrite He. unfold mbind, M_bind, get, mret, M_ret, lift.
  destruct (dry_run_semaphore s) as [[|k]|]; [done|..];
    (unfold on_consensus, dry_run_start, call, mbind, M_bind, mret, M_ret;
     destruct (ffi _ _) as [a cs]; by do 3 eexists).
Qed.

Lemma serve_sessions_ok limit r s o s' :
  (forall id, r = ReqDryRun id -> dry_runs s !! id = None) -> serve ffi rpc r s = Some (o, s') ->
  sessions_ok limit s -> sessions_ok limit s'.
Proof.
  intros Hfresh E Hs.
  assert ((exists id, r = ReqDryRun id) \/ forall id, r <> ReqDryRun id) as [[id ->]|Hr]
    by (destruct r; by eauto).
  2:{ destruct (serve_frames r s o s' Hr E) as [E1 E2]. by eapply sessions_same. }
  cbn [serve reply] in E. injection E as E.
  destruct (service_config rpc Endpoint.dry_run) eqn:He.
  2:{ unfold dry_run, enabled in E. rewrite He in E. unfold mbind, M_bind, lift in E.
      injection E as <- <-. done. }
  pose proof (start_cases id s He) as Hc. destruct Hs as [(k & Ek & Hk) Hp]. rewrite Ek in Hc.
  unfold mbind, M_bind in E. destruct k as [|k].
  { rewrite Hc in E. injection E as <- <-. split; [by exists O|done]. }
  destruct Hc as (quota & s1 & handle & Hd & Esem & Eruns). rewrite Hd in E. injection E as <- <-.
  split.
  - exists k. split; [done|]. rewrite Eruns, map_size_insert_None by by apply Hfresh. lia.
  - intros id' st. rewrite Eruns, lookup_insert_Some. intros [[<- <-]|[_ Hl]]; [done|by apply (Hp id')].
Qed.
Lemma stream_drop_sessions_ok limit id s :
  sessions_ok limit s -> sessions_ok limit (dry_run_stream_drop ffi id s).2.
Proof.
  intros Hs.
  unfold dry_run_stream_drop, mbind, M_bind, get. destruct (dry_runs s !! id) as [st|] eqn:El; [|done].
  pose proof (frames_consensus (dry_run_drop ffi (dr_handle st)) s) as [E1 E2].
  assert (exists s1, on_consensus (dry_run_drop ffi (dr_handle st)) s = (Ok tt, s1)) as [s1 Es].
  { unfold on_consensus, dry_run_drop, call, mbind, M_bind, mret, M_ret.
    destruct (ffi _ _) as [a cs]. by eexists. }
  rewrite Es in *. cbn [snd] in E1, E2. destruct Hs as [(k & Ek & Hk) Hp].
  rewrite (Hp _ _ El). unfold modify. cbn [snd set_dry_runs dry_run_semaphore dry_runs].
  split.
  - exists (S k). cbn [set_dry_runs dry_run_semaphore dry_runs]. rewrite E1, Ek, E2. split; [done|].
    assert (is_Some (dry_runs s !! id)) as Hi by by eexists.
    rewrite (map_size_delete_Some id) by done.
    pose proof (map_size_ne_0_lookup_2 (dry_runs s) id Hi). lia.
  - intros id' st'. cbn [set_dry_runs dry_runs]. rewrite E2. intros [_ Hl]%lookup_delete_Some.
    by apply (Hp id').
Qed.

Lemma session_step_ok limit s s' : session_step s s' -> sessions_ok limit s -> sessions_ok limit s'.
Proof.
  intros [r ? o ? Hfresh E|id t input ?|id ?|? ? E1 E2] Hs;
    [by eapply serve_sessions_ok|by apply poll_next_ok|by apply stream_drop_sessions_ok|].
  by eapply sessions_same.
Qed.

(** C19: dry-run sessions.  If their number is limited, then however they are
    started, used, fail, time out and are dropped, and whatever else clients ask
    for: there are never more than the limit, and none of the permits is lost: a
    new session is refused if and only if that many are open. *)
Theorem dry_run_sessions limit s s' id :
  service_config rpc Endpoint.dry_run = true ->
  dry_run_semaphore s = Some limit -> dry_runs s = ∅ -> rtc session_step s s' ->
  (size (dry_runs s') <= limit)%nat /\
  if decide (size (dry_runs s') = limit)
  then (dry_run ffi rpc id s').1 =
         fail_with Code.ResourceExhausted "Too many concurrent `DryRun` requests"
  else is_ok (dry_run ffi rpc id s').1 = true /\ is_Some (dry_runs (dry_run ffi rpc id s').2 !! id).
Proof.
  intros He Es Ed Hsteps.
  assert (Hs : sessions_ok limit s).
  { split; [exists limit|]; rewrite Ed; [|done]. split; [done|]. rewrite map_size_empty. lia. }
  assert (Hs' : sessions_ok limit s') by (clear Es Ed; induction Hsteps; eauto using session_step_ok).
  destruct Hs' as [(k & Ek & Hk) _]. split; [lia|].
  pose proof (start_cases id s' He) as Hc. rewrite Ek in Hc. case_decide as Hsize.
  - assert (k = 0%nat) as -> by lia. by rewrite Hc.
  - destruct k as [|k]; [lia|]. destruct Hc as (quota & s1 & handle & -> & _ & E). split; [done|].
    cbn [snd]. rewrite E, lookup_insert_eq. by eexists.
Qed.
End sessions.
