(* ===== verification/Health.v ===== *)
(** * The health service

    The health criterion of a node and the answers of the two health services
    ([concordium-node/src/health.rs]). *)

From stdpp Require Import base tactics list gmap strings option numbers.
From Stdlib Require Import ZArith.
From S2P Require Import Prelude Text Common Helpers Wire Conn Buckets CatchUp Queues Config Bans Node.
From S2P Require Import NodeInv NodeSteps NodeProps.

(** [ServiceError]. *)
Inductive ServiceError :=
| ConsensusNotRunning
| TooFewPeers (num_peers min_allowed_peers : Z)
| LastFinalFarBehind
| NotInCommittee
| TimeInPast
| ServiceNotFound (service : text).
Definition is_not_found (e : ServiceError) : bool :=
  match e with ServiceNotFound _ => true | _ => false end.

(** The conversion to a [tonic::Status], of which the code is kept. *)
Definition Status_from (e : ServiceError) : Code.t :=
  if is_not_found e then Code.NotFound else Code.Unavailable.

(** What the consensus answers. *)
Record ConsensusView := mkView {
  is_consensus_running : bool;
  (* [get_last_finalized_block_slot_time_v2], in milliseconds *)
  last_fin_slot_time : Z;
  is_active : bool;
  committee_status : BakingCommitteeResponse;
}.

(** [HealthServiceImpl], without the consensus and the node. *)
Record HealthConfig := mkHealth {
  health_max_finalization_delay : Z;
  health_min_peers : option Z;
}.

(** A check ends with the error of the service, or panics. *)
Inductive checked (A : Type) := Passed (a : A) | Failed (e : ServiceError) | Panicked.
Arguments Passed {A} a.
Arguments Failed {A} e.
Arguments Panicked {A}.

Section health.
Context `{External}.

(** [check_service]; [now] is the time in milliseconds since the Unix epoch. *)
Definition check_service (conf : HealthConfig) (view : ConsensusView) (now : Z) (service : text)
    (n : P2PNode) : checked unit :=
  if negb (bool_decide (service = [])) && negb (bool_decide (service = lit "concordium.v2.Queries"))
  then Failed (ServiceNotFound service)
  else if negb (is_consensus_running view) then Failed ConsensusNotRunning
  else if now <? 0 then Failed TimeInPast
  else
    let current_time := u64_wrap now in
    let delta := Z.max 0 (current_time - last_fin_slot_time view) in
    if u64_wrap (1000 * health_max_finalization_delay conf) <? delta then Failed LastFinalFarBehind
    else
      let committee :=
        if is_active view && negb (bool_decide (committee_status view = ActiveInCommittee))
        then Failed NotInCommittee else Passed tt in
      match health_min_peers conf with
      | Some min_allowed_peers =>
          match get_peer_stats (Some Node) n with
          | Ok stats =>
              let num_peers := Z.of_nat (length stats) in
              if num_peers <? min_allowed_peers then Failed (TooFewPeers num_peers min_allowed_peers)
              else committee
          | _ => Panicked
          end
      | None => committee
      end.

(** [grpc_health_v1]: [true] is [Serving]. *)
Definition check_v1 (conf : HealthConfig) (view : ConsensusView) (now : Z) (service : text)
    (n : P2PNode) : option (bool + Code.t) :=
  match check_service conf view now service n with
  | Passed _ => Some (inl true)
  | Failed e => Some (if is_not_found e then inr (Status_from e) else inl false)
  | Panicked => None
  end.
(** [watch]. *)
Definition watch : Code.t := Code.Unimplemented.
(** The service [concordium]: [None] as an error is an empty response. *)
Definition check_concordium (conf : HealthConfig) (view : ConsensusView) (now : Z) (n : P2PNode)
    : option (option Code.t) :=
  match check_service conf view now [] n with
  | Passed _ => Some None
  | Failed e => Some (Some (Status_from e))
  | Panicked => None
  end.

(** ** The criterion *)

Record healthy (conf : HealthConfig) (view : ConsensusView) (now : Z) (n : P2PNode) : Prop := {
  h_running : is_consensus_running view = true;
  h_final : now <= last_fin_slot_time view + 1000 * health_max_finalization_delay conf;
  h_peers k : health_min_peers conf = Some k -> k <= Z.of_nat (node_peers n);
  h_committee : is_active view = true -> committee_status view = ActiveInCommittee;
}.

Definition known (service : text) : Prop := service = [] \/ service = lit "concordium.v2.Queries".

Lemma check_service_passed conf view now service n :
  node_ok n -> known service -> 0 <= now < 2 ^ 64 -> 0 <= last_fin_slot_time view ->
  0 <= 1000 * health_max_finalization_delay conf < 2 ^ 64 ->
  (check_service conf view now service n = Passed tt /\ healthy conf view now n) \/
  (exists e, check_service conf view now service n = Failed e /\ is_not_found e = false /\
             ~ healthy conf view now n).
Proof.
  intros Hok Hk Hnow Hslot Hd. unfold check_service.
  rewrite (proj2 (andb_false_iff _ _)) by
    (destruct Hk as [->| ->]; [left|right]; by rewrite bool_decide_eq_true_2).
  destruct (is_consensus_running view) eqn:Hr; simpl.
  2:{ right. eexists. split_and!; [done..|]. intros []. congruence. }
  rewrite (proj2 (Z.ltb_ge _ _)) by lia. unfold wrap. rewrite !Z.mod_small by done.
  destruct (_ <? Z.max _ _) eqn:Hf; bool_hyps.
  { right. eexists. split_and!; [done..|]. intros []. lia. }
  destruct (is_active view && _) eqn:Hc.
  - bool_hyps. right.
    assert (Hn : ~ healthy conf view now n) by (intros [? ? ? Hx]; auto).
    destruct (health_min_peers conf) as [k|]; [|by eexists].
    destruct (get_peer_stats_ok n (Some Node) Hok) as [l ->]. destruct (_ <? k); by eexists.
  - assert (Hc' : is_active view = true -> committee_status view = ActiveInCommittee).
    { intros Ha. rewrite Ha in Hc. simpl in Hc. by bool_hyps. }
    destruct (health_min_peers conf) as [k|] eqn:Em.
    + destruct (get_peer_stats_ok n (Some Node) Hok) as [l El]. rewrite El.
      apply get_peer_stats_length in El. destruct (_ <? k) eqn:Hp; bool_hyps.
      * right. eexists. split_and!; [done..|]. intros [_ _ Hx _]. specialize (Hx k Em). lia.
      * left. split; [done|]. split; [done|lia| |done]. intros k' [= <-]%(eq_trans (eq_sym Em)). lia.
    + left. split; [done|]. split; [done|lia| |done]. by intros k; rewrite Em.
Qed.

(** A node that is in a reachable state answers every health request: both
    services agree, and report the node as healthy if and only if its consensus
    is running, its last finalized block is recent enough, it has enough peers,
    and a baker is in the committee.  Only the check of an unknown service is
    not found. *)
Theorem health_check_spec conf view now n :
  node_ok n -> 0 <= now < 2 ^ 64 -> 0 <= last_fin_slot_time view ->
  0 <= 1000 * health_max_finalization_delay conf < 2 ^ 64 ->
  (forall service, known service -> exists b, check_v1 conf view now service n = Some (inl b) /\
     (b = true <-> healthy conf view now n)) /\
  (forall service, ~ known service -> check_v1 conf view now service n = Some (inr Code.NotFound)) /\
  (exists s, check_concordium conf view now n = Some s /\ s <> Some Code.NotFound /\
     (s = None <-> healthy conf view now n)).
Proof.
  intros Hok Hnow Hslot Hd. unfold check_v1, check_concordium, Status_from. split_and!.
  - intros service Hk. destruct (check_service_passed conf view now service n)
      as [[-> Hh]|(e & -> & He & Hh)]; try done; eexists; [|rewrite He]; split; done || naive_solver.
  - intros service Hk. unfold check_service.
    rewrite !bool_decide_eq_false_2 by (intros ->; apply Hk; (by left) || by right). done.
  - destruct (check_service_passed conf view now [] n) as [[-> Hh]|(e & -> & He & Hh)];
      try done; [by left|..]; eexists; [|rewrite He]; split_and!; done || naive_solver.
Qed.
End health.
