(* ===== verification/NodeWitnesses.v ===== *)
(** * Instances of the node theorems

    Concrete instances of the external libraries, all of which satisfy their
    laws, and concrete nodes at which the theorems on the node apply. *)

From stdpp Require Import base tactics list gmap strings option numbers relations vector.
From Stdlib Require Import ZArith Floats.SpecFloat.
From S2P Require Import Prelude Common Helpers LowLevel LowLevelProps Wire WireProps Conn.
From S2P Require Import ConnProps Buckets CatchUp Queues QueuesProps Config ConfigProps ConfigEffects Bans.
From S2P Require Import BansProps Node Connectivity Consensus Handlers Maintenance NodeInv.
From S2P Require Import NodeSteps NodeProps Housekeeping PeerProps Text Health.

(** ** Libraries *)

Definition is_ascii (l : list byte) : bool := forallb (fun b => byte_to_Z b <? 128) l.

(** Versions kept as text; the numbers are those of one digit. *)
Definition text_base : BaseTypes := {|
  Version := { l : list byte | is_ascii l = true };
  version_to_string := proj1_sig;
  version_parse l :=
    match decide (is_ascii l = true) with left E => Ok (exist _ l E) | right _ => bail "version" end;
  version_major v := default 0 (byte_to_Z <$> proj1_sig v !! 0%nat) - 48;
  version_minor v := default 0 (byte_to_Z <$> proj1_sig v !! 2%nat) - 48;
  BlockHash := vec byte 32;
  hash_bytes := fun h => vec_to_list h;
  hash_try_from := read_exact 32;
|}.

Lemma text_base_laws : @BaseLaws text_base.
Proof.
  split.
  - intros [l E]. simpl. destruct (decide _) as [E'|E']; [|done]. do 2 f_equal. apply proof_irrel.
  - intros [l E]. simpl. apply list.Forall_forall. intros b Hb. apply list_elem_of_In in Hb.
    unfold is_ascii in E. rewrite forallb_forall in E. by apply Z.ltb_lt, E.
  - intros h. apply length_vec_to_list.
  - intros h. exact (read_exact_vec h).
Qed.

#[local] Instance sample : External := {|
  ext_noise := Toy.noise;
  ext_layout := contiguous_layout;
  ext_base := text_base;
  ext_flatbuffers := Sample.flatbuffers;
  ext_order := canonical_order;
  ext_rng := first_choice;
  ext_circular := ConnWitnesses.list_queue;
  ext_hashes := ConnWitnesses.toy_hashes;
  ext_channels := ChannelWitnesses.list_channels;
  ext_rkv := BansWitnesses.mem_rkv;
  ext_formats := BansWitnesses.mem_formats;
|}.
#[local] Instance sample_channels : ChannelLaws := ChannelWitnesses.list_channel_laws.
#[local] Instance sample_formats : AddrFormatLaws := BansWitnesses.mem_format_laws.
#[local] Instance sample_flatbuffers : FlatbuffersLaws := Sample.flatbuffers_laws.
#[local] Instance sample_base : BaseLaws := text_base_laws.
#[local] Instance sample_store : RkvSafe.
Proof. by split. Qed.

(** ** A node *)

Definition get_ok {A} (o : outcome A) : match o return Type with Ok _ => A | _ => unit end :=
  match o with Ok a => a | _ => tt end.

Definition no_stats : NodeStats := mkNodeStats 0 0 0 0 0 0 ∅ ∅ 0 0 0 0 0.
Definition here : IpAddr := BansWitnesses.localhost.
Definition peer_ip : IpAddr := BansWitnesses.other_ip.
Definition peer_address : SocketAddr := mkSocketAddr peer_ip 8888.
Definition new_node : outcome P2PNode :=
  node_new 7 (default_config []) Node here (fun _ => None) (0, 0, 0, 0) (Some ∅) no_stats
    regenesis_default queues_default.
Definition node : P2PNode := get_ok new_node.

Definition idle_socket : NewSocket := mkNewSocket (Toy.delivering []) true tt.

Definition a_call : ConsensusLib := {|
  u32_deserial _ := Ok 0;
  ExecuteBlockCallback := unit;
  consensus_call _ := (Success, None);
  get_catch_up_status := [];
|}.

Definition an_input : PollInput :=
  mkPollInput true 1000 1000 0 [] [] (fun _ => Some idle_socket) (fun _ => None) 1.

Lemma node_invariant_witness :
  let ops := [DoConnect peer_address; DoPoll a_call true an_input (mkLoop 0 0 0 0 false);
              DoBan peer_ip; DoShutDown] in
  connections_received (node_stats (exec_ops ops node)) = 1 /\ node_ok (exec_ops ops node).
Proof.
  cbn zeta. set (ops := [_; _; _; _]).
  assert (E : connections_received (node_stats (exec_ops ops node)) = 1) by (vm_compute; reflexivity).
  split; [exact E|].
  refine (proj1 (node_invariant 7 (default_config []) Node here (fun _ => None) (0, 0, 0, 0) (Some ∅)
    no_stats regenesis_default queues_default node ops eq_refl _)).
  rewrite E. vm_compute. reflexivity.
Defined.

Lemma accept_spec_witness :
  (accept 5 idle_socket peer_address node).1 = inl 1 /\ admissible node peer_address.
Proof.
  assert (E : (accept 5 idle_socket peer_address node).1 = inl 1) by (vm_compute; reflexivity).
  split; [exact E|].
  destruct (accept 5 idle_socket peer_address node) as [r n'] eqn:Ea. cbn [fst] in E. subst r.
  exact (proj1 (proj2 (accept_spec 5 idle_socket peer_address node (inl 1) n' Ea))).
Defined.

Lemma connect_spec_witness :
  (connect 5 5 (Some idle_socket) Node peer_address true node).1 = Ok tt /\
  may_connect node Node peer_address true.
Proof.
  assert (E : (connect 5 5 (Some idle_socket) Node peer_address true node).1 = Ok tt)
    by (vm_compute; reflexivity).
  split; [exact E|].
  destruct (connect 5 5 (Some idle_socket) Node peer_address true node) as [r n'] eqn:Ea.
  cbn [fst] in E. subst r.
  exact (proj1 (proj2 (connect_spec 5 5 (Some idle_socket) Node peer_address true node (Ok tt) n' Ea))).
Defined.

(** A new node satisfies the invariant. *)
Lemma node_is_ok : node_ok node.
Proof.
  destruct (node_new_inv 7 (default_config []) Node here (fun _ => None) (0, 0, 0, 0) (Some ∅) no_stats
    regenesis_default queues_default node eq_refl) as [Hi _].
  apply Hi. vm_compute. reflexivity.
Qed.


Lemma changes_drained_witness :
  let n := register_conn_change (NewConn peer_address Node true) node in
  length (changes_of n) = 1%nat /\
  exists n', process_all_changes 5 5 0 (fun _ => Some idle_socket) n = (Ok tt, n') /\
             changes_of n' = [] /\ node_ok n'.
Proof.
  split; [vm_compute; reflexivity|].
  apply (changes_drained 5 5 0 (fun _ => Some idle_socket)).
  - apply register_conn_change_ok; [intros t; discriminate|apply node_is_ok].
  - vm_compute. reflexivity.
Defined.

(** ** A node with two peers *)

Definition peer_conn (t : Token) (last_octet : byte) : Connection :=
  mkConnection (mkRemotePeer (Some (8 + t)) (mkSocketAddr (V4 [# Byte.x0a; Byte.x00; Byte.x00; last_octet]) 8888)
      t 8888 Node) (Toy.established (Toy.delivering [])) {[1000]} (stats_new 0) queues_new
    WIRE_PROTOCOL_CURRENT_VERSION.
Definition two_peers : gmap Token Connection :=
  {[1 := peer_conn 1 Byte.x02; 2 := peer_conn 2 Byte.x03]}.
Definition with_peers (n : P2PNode) : P2PNode :=
  upd_next_token (fun _ => 3) (upd_connections (fun _ => two_peers) n).
Definition busy_node : P2PNode := with_peers node.

Lemma with_peers_ok n :
  changes_of n = [] -> candidates_of n = ∅ -> node_ok (with_peers n).
Proof.
  intros Ec Ed.
  assert (Hp : forall t c, two_peers !! t = Some c ->
    token c = t /\ 0 < t < 3 /\ is_Some (self_id (remote_peer c))).
  { unfold two_peers. intros t c [[<- <-]|[_ [<- <-]%lookup_singleton_Some]]%lookup_insert_Some; split_and!; done. }
  split.
  - done.
  - intros t c. change (candidates_of (with_peers n)) with (candidates_of n). by rewrite Ed, lookup_empty.
  - intros t c (E & Hb & _)%Hp. done.
  - intros t. change (candidates_of (with_peers n)) with (candidates_of n). rewrite Ed, lookup_empty.
    by intros [? ?].
  - intros t c (_ & _ & Hs)%Hp. done.
  - intros t c. change (changes_of (with_peers n)) with (changes_of n). rewrite Ec. intros Hin.
    by apply not_elem_of_nil in Hin.
  - intros t. change (changes_of (with_peers n)) with (changes_of n). rewrite Ec. intros Hin.
    by apply not_elem_of_nil in Hin.
Qed.
Lemma busy_node_ok : node_ok busy_node.
Proof. apply with_peers_ok; reflexivity. Qed.

Lemma housekeeping_survivors_witness :
  exists b n', connection_housekeeping 1000 1000 0 (fun _ => None) (fun _ => None) busy_node = (Ok b, n') /\
    size (connections_of n') = 2%nat.
Proof.
  destruct (housekeeping_survivors 1000 1000 0 (fun _ => None) (fun _ => None) busy_node)
    as (b & n' & E & _ & _ & Hs & _); [apply busy_node_ok|vm_compute; reflexivity|].
  exists b, n'. split; [exact E|]. rewrite Hs. vm_compute. reflexivity.
Defined.

Lemma health_check_spec_witness :
  exists b, check_v1 (mkHealth 300 (Some 2)) (mkView true 1000 false Helpers.NotInCommittee) 5000
              (lit "concordium.v2.Queries") busy_node = Some (inl b) /\
    (b = true <-> healthy (mkHealth 300 (Some 2)) (mkView true 1000 false Helpers.NotInCommittee) 5000 busy_node).
Proof.
  apply (health_check_spec (mkHealth 300 (Some 2)) (mkView true 1000 false Helpers.NotInCommittee) 5000 busy_node).
  - apply busy_node_ok.
  - lia.
  - simpl. lia.
  - simpl. lia.
  - by right.
Defined.
Example two_peers_are_enough :
  check_v1 (mkHealth 300 (Some 2)) (mkView true 1000 false Helpers.NotInCommittee) 5000
    (lit "concordium.v2.Queries") busy_node = Some (inl true) /\
  check_v1 (mkHealth 300 (Some 3)) (mkView true 1000 false Helpers.NotInCommittee) 5000
    (lit "concordium.v2.Queries") busy_node = Some (inl false).
Proof. by vm_compute. Qed.

(** ** The protocol *)

Definition this_version : Version := get_ok (version_parse CARGO_PKG_VERSION).

Lemma handshake_between_nodes_witness :
  exists bytes c' n', produce_handshake_request 10 node = Ok bytes /\
    process_message 11 0 [] bytes (peer_conn 1 Byte.x02, busy_node) = (Ok tt, (c', n')) /\
    self_id (remote_peer c') = Some 7.
Proof.
  destruct (handshake_between_nodes 10 11 0 [] node busy_node (peer_conn 1 Byte.x02) this_version)
    as (bytes & r & c' & n' & E1 & E2 & [(_ & -> & Hid & _)|[Hn _]]).
  - vm_compute. reflexivity.
  - vm_compute. reflexivity.
  - exists bytes, c', n'. split_and!; assumption.
  - destruct Hn. split; [vm_compute; lia|]. left. exists []. reflexivity.
Defined.

Definition a_handshake : Handshake :=
  mkHandshake 9 8888 {[1000]} this_version WIRE_PROTOCOL_VERSIONS [] [].

Lemma repeated_handshakes_inflate_witness :
  let '(r, (c', n')) := handshakes 10 0 [] [a_handshake; a_handshake] (peer_conn 1 Byte.x02, node) in
  connected_peers (node_stats (drop_connection c' n')) = 1.
Proof.
  pose proof (repeated_handshakes_inflate 10 0 [] [a_handshake; a_handshake] (peer_conn 1 Byte.x02) node) as HR.
  destruct (handshakes 10 0 [] [a_handshake; a_handshake] (peer_conn 1 Byte.x02, node)) as [r [c' n']].
  destruct HR as (_ & _ & HR); [discriminate| |exact HR].
  repeat constructor; exists WIRE_PROTOCOL_CURRENT_VERSION; vm_compute; reflexivity.
Defined.

Definition a_block : list byte := replicate 9 Byte.x00.


Definition with_relay (p : f64) (c : NodeConfig) : NodeConfig :=
  match c with
  | mkNodeConfig a1 a2 a3 a4 a5 a6 a7 _ a9 a10 a11 a12 a13 a14 a15 a16 a17 a18 a19 a20 a21 a22 a23
      a24 a25 a26 a27 a28 a29 a30 a31 a32 =>
      mkNodeConfig a1 a2 a3 a4 a5 a6 a7 p a9 a10 a11 a12 a13 a14 a15 a16 a17 a18 a19 a20 a21 a22 a23
        a24 a25 a26 a27 a28 a29 a30 a31 a32
  end.
Definition half_node : P2PNode :=
  with_peers (mkNode (self_peer node) (with_relay (f64_div (f64_of_Z 1) (f64_of_Z 2)) (config node))
    (given_addresses node) (handler node) (node_totals node) (node_stats node) (kvs node) (peers node)
    (bad_events node) (regenesis node) (callback_queue node)).

(** The first peer gets back the block it sent. *)
Lemma relay_percentage_skips_sample_witness :
  exists sent n', send_broadcast_message 10 0 [1] 1000 a_block half_node = (Ok sent, n') /\
    connections_of n' !! 1 =
      Some (async_send (relayed 10 [1] 1000 a_block) Normal (peer_conn 1 Byte.x02)).
Proof.
  destruct (relay_percentage_skips_sample 10 0 [1] 1000 a_block half_node) as (sent & n' & E & Hl).
  - vm_compute. reflexivity.
  - apply with_peers_ok; reflexivity.
  - exists sent, n'. split; [exact E|]. apply Hl.
    + change (connections_of half_node) with two_peers. apply lookup_insert_eq.
    + split; [discriminate|]. vm_compute. reflexivity.
    + left.
Defined.

Lemma short_packet_panics_witness :
  (handle_pkt_out [1] 1 [Byte.x00] true busy_node).1 = Ok tt /\
  (handle_consensus_inbound_msg (H0 := a_call) 10 0
     (mkConsensusMessage (Inbound 1 Helpers.Direct) Block [Byte.x00] [] None) busy_node).1 = Panic.
Proof.
  split.
  - refine (proj1 (short_packet_panics (H1 := a_call) 10 0 [1] 1 [Byte.x00] true busy_node Byte.x00 []
      Block _ _ _ _)); [reflexivity|simpl; lia|vm_compute; reflexivity|discriminate].
  - refine (proj2 (proj2 (short_packet_panics (H1 := a_call) 10 0 [] 1 [Byte.x00] false busy_node Byte.x00 []
      Block _ _ _ _))); [reflexivity|simpl; lia|vm_compute; reflexivity|discriminate].
Defined.
