(* ===== verification/Import.v ===== *)
(** * Out-of-band catch-up

    The import of block files ([concordium-node/src/bin/cli.rs]): the download of
    an index of chunks, which chunks are skipped, and the import of the others. *)

From stdpp Require Import base tactics list gmap strings option numbers.
From Stdlib Require Import ZArith.
From S2P Require Import Prelude Text.

(** [BlockChunkData]. *)
Record BlockChunkData := mkChunk {
  filename : text;
  genesis_index : Z;
  first_block_height : Z;
  last_block_height : Z;
}.

(** The status of a response: whether it is a success, and whether it is one of
    those that the library for HTTP has a reason for. *)
Record Status := mkStatus { is_success : bool; has_canonical_reason : bool }.

(** [ensure!] of a successful status.  The message of the error has the reason of the
    status, which is unwrapped. *)
Definition ensure_success (status : Status) (what : string) : outcome unit :=
  if is_success status then Ok tt
  else if has_canonical_reason status then bail what
  else Panic.

(** What the network and the file system answer when a file is downloaded: whether
    the address is valid and a temporary file is created, the status of the response
    ([None] if there is none) and the items of its stream ([None] is an error), and
    which of the writes succeed. *)
Record Download := mkDownload {
  url_joined : bool;
  file_created : bool;
  response_status : option Status;
  bytes_stream : list (option (list byte));
  write_ok : nat -> bool;
  flush_ok : bool;
}.

(** One iteration of the loop: whether the import has been stopped, and what is
    answered if the file with the given name is downloaded. *)
Record Answers := mkAnswers {
  import_stopped : bool;
  fetch : text -> Download;
}.

(** The loop of [download_chunk]: it ends at the first item that is not a piece of
    the body.  [buffer] is what has been written in [i] writes. *)
Fixpoint write_stream (ok : nat -> bool) (i : nat) (buffer : list byte)
    (stream : list (option (list byte))) : outcome (list byte) :=
  match stream with
  | Some bytes :: stream' =>
      if ok i then write_stream ok (S i) (buffer ++ bytes) stream' else Err (IoError "write")
  | None :: _ | [] => Ok buffer
  end.

(** [download_chunk]: the contents of the file. *)
Definition download_chunk (a : Download) : outcome (list byte) :=
  _ ← ensure (file_created a) "Cannot create output file.";
  status ← context (response_status a) "request";
  _ ← ensure_success status "Unable to download the block chunk file";
  buffer ← write_stream (write_ok a) 0 [] (bytes_stream a);
  if flush_ok a then Ok buffer else Err (IoError "flush").

Section import.
(** The consensus: its state, and [ConsensusContainer::import_blocks] on a file
    with the given contents. *)
Context {Consensus : Type}.
Variable import_blocks : list byte -> M Consensus unit.
Variable last_finalized_block_height : Z.

(** The condition under which a chunk is skipped, while [mayskip] is set. *)
Definition skippable (current_genesis_index : Z) (chunk : BlockChunkData) : bool :=
  (genesis_index chunk <? current_genesis_index)
  || (last_block_height chunk <=? last_finalized_block_height).

(** The loop over the records of the index; [i] counts the iterations. *)
Fixpoint import_chunks (current_genesis_index : Z) (answers : nat -> Answers) (i : nat)
    (mayskip : bool) (records : list (outcome BlockChunkData)) : M Consensus unit := fun c =>
  match records with
  | [] => (Ok tt, c)
  | result :: records' =>
      (_ ← lift (ensure (negb (import_stopped (answers i))) "Import stopped by the user.");
       block_chunk_data ← lift result;
       if mayskip && skippable current_genesis_index block_chunk_data then
         import_chunks current_genesis_index answers (S i) mayskip records'
       else
         let answer := fetch (answers i) (filename block_chunk_data) in
         _ ← lift (ensure (url_joined answer) "url");
         contents ← lift (download_chunk answer);
         _ ← import_blocks contents;
         import_chunks current_genesis_index answers (S i) false records') c
  end.

(** The first line of the index names the chain. *)
Definition check_index {Hash : Type} (to_string : Hash -> text) (genesis_block_hashes : list Hash)
    (index_str : text) : outcome unit :=
  first_line ← context (head (lines index_str)) "The catchup index file was empty.";
  rest ← context (strip_prefix (lit "# genesis hash ") first_line)
           "The catchup index file does not begin with a line containing the genesis block hash.";
  let index_genesis_block_hash := trim rest in
  match genesis_block_hashes with
  | [] => Panic
  | hash :: _ =>
      ensure (bool_decide (index_genesis_block_hash = to_string hash))
        "The genesis block hash in the catchup index file does not match"
  end.

(** [import_missing_blocks].  [index] is the answer to the request of the index:
    its status, and its text; [parse_csv] gives the items
    of the iterator over its records. *)
Definition import_missing_blocks {Hash : Type} (to_string : Hash -> text)
    (parse_csv : text -> list (outcome BlockChunkData))
    (genesis_block_hashes : list Hash) (index : outcome (Status * outcome text))
    (answers : nat -> Answers) : M Consensus unit :=
  let current_genesis_index := u64_wrap (Z.of_nat (length genesis_block_hashes) - 1) in
  index_response ← lift index;
  _ ← lift (ensure_success index_response.1 "Unable to download the catchup index file");
  index_str ← lift index_response.2;
  _ ← lift (check_index to_string genesis_block_hashes index_str);
  import_chunks current_genesis_index answers 0 true (parse_csv index_str).

(** [maybe_do_out_of_band_catchup]: from a local file, or else by downloading; an
    error is logged. *)
Definition maybe_do_out_of_band_catchup {Hash : Type} (to_string : Hash -> text)
    (parse_csv : text -> list (outcome BlockChunkData)) (genesis_block_hashes : list Hash)
    (import_blocks_from : option (list byte))
    (download_blocks_from : option (outcome (Status * outcome text)))
    (answers : nat -> Answers) : M Consensus unit :=
  match import_blocks_from, download_blocks_from with
  | Some file, _ => log_error (import_blocks file)
  | None, Some index =>
      log_error (import_missing_blocks to_string parse_csv genesis_block_hashes index answers)
  | None, None => mret tt
  end.

(** ** What is imported *)

(** The pieces of a body up to its end or to an error. *)
Fixpoint pieces (stream : list (option (list byte))) : list (list byte) :=
  match stream with Some bytes :: stream' => bytes :: pieces stream' | _ => [] end.

Lemma write_stream_pieces ok stream : forall i buffer contents,
  write_stream ok i buffer stream = Ok contents -> contents = buffer ++ concat (pieces stream).
Proof.
  induction stream as [|[bytes|] stream IH]; intros i buffer contents; simpl;
    [intros [= <-]; by rewrite app_nil_r| |intros [= <-]; by rewrite app_nil_r].
  destruct (ok i); [|done]. intros ->%IH. by rewrite <- app_assoc.
Qed.

Lemma download_chunk_pieces a contents :
  download_chunk a = Ok contents -> contents = concat (pieces (bytes_stream a)).
Proof.
  unfold download_chunk, ensure, context, ensure_success, mbind, outcome_bind, bail.
  destruct (file_created a); [|done]. destruct (response_status a) as [status|]; [|done].
  destruct (is_success status); [|by destruct (has_canonical_reason status)].
  destruct (write_stream _ _ _ _) as [buffer| |] eqn:E; [|done..].
  destruct (flush_ok a); [|done]. intros [= <-]. by apply write_stream_pieces in E.
Qed.

(** [files] are downloaded for [chunks] in the iterations from the [i]th on, each
    from the name of its chunk. *)
Fixpoint downloads (answers : nat -> Answers) (i : nat) (chunks : list BlockChunkData)
    (files : list (list byte)) : Prop :=
  match chunks, files with
  | [], [] => True
  | chunk :: chunks', contents :: files' =>
      download_chunk (fetch (answers i) (filename chunk)) = Ok contents /\
      downloads answers (S i) chunks' files'
  | _, _ => False
  end.

(** No iteration is disturbed: the import is not stopped, and each file that is
    asked for is downloaded. *)
Definition undisturbed (answers : nat -> Answers) (i : nat) (chunks : list BlockChunkData) : Prop :=
  forall k chunk, chunks !! k = Some chunk ->
    let answer := fetch (answers (i + k)%nat) (filename chunk) in
    import_stopped (answers (i + k)%nat) = false /\ url_joined answer = true /\
    is_ok (download_chunk answer) = true.

Lemma undisturbed_tail answers i chunk chunks :
  undisturbed answers i (chunk :: chunks) -> undisturbed answers (S i) chunks.
Proof. intros H k c Hk. rewrite Nat.add_succ_l, <-Nat.add_succ_r. by apply (H (S k) c). Qed.

(** Once a chunk is imported, all others are: an initial part of them, whatever
    happens. *)
Lemma import_all_prefix g answers chunks : forall i c, exists k files,
  downloads answers i (take k chunks) files /\
  (import_chunks g answers i false (Ok <$> chunks) c).2 = (for_each import_blocks files c).2.
Proof.
  induction chunks as [|chunk chunks IH]; intros i c; [by exists 0%nat, []|]. simpl.
  unfold mbind, M_bind, lift, ensure, bail. destruct (import_stopped (answers i)); [by exists 0%nat, []|].
  simpl. destruct (url_joined _); [|by exists 0%nat, []].
  destruct (download_chunk _) as [contents| |] eqn:Ed; [|by exists 0%nat, []..].
  destruct (import_blocks contents c) as [r c'] eqn:Ei. destruct r as [[]| |].
  - destruct (IH (S i) c') as (k & files & Hd & E). exists (S k), (contents :: files). simpl.
    by rewrite Ei.
  - exists 1%nat, [contents]. simpl. by rewrite Ei.
  - exists 1%nat, [contents]. simpl. by rewrite Ei.
Qed.

Lemma import_all g answers chunks : forall i c, undisturbed answers i chunks ->
  exists files, downloads answers i chunks files /\
    import_chunks g answers i false (Ok <$> chunks) c = for_each import_blocks files c.
Proof.
  induction chunks as [|chunk chunks IH]; intros i c Hu; [by exists []|].
  destruct (Hu 0%nat chunk eq_refl) as (H1 & H2 & H3). rewrite Nat.add_0_r in *. simpl.
  unfold mbind, M_bind, lift, ensure, bail. rewrite H1, H2. simpl.
  destruct (download_chunk _) as [contents| |] eqn:Ed; [|done..].
  destruct (import_blocks contents c) as [r c'] eqn:Ei.
  destruct (IH (S i) c' (undisturbed_tail _ _ _ _ Hu)) as (files & Hd & E).
  exists (contents :: files). split; [by split|]. simpl. rewrite Ei. by destruct r as [[]| |].
Qed.

(** The chunks before the first that may not be skipped. *)
Lemma skipped_chunks g chunks : exists skipped rest,
  chunks = skipped ++ rest /\ Forall (fun chunk => skippable g chunk = true) skipped /\
  forall chunk, head rest = Some chunk -> skippable g chunk = false.
Proof.
  induction chunks as [|chunk chunks (skipped & rest & -> & Hs & Hh)]; [by exists [], []|].
  destruct (skippable g chunk) eqn:Hk.
  - exists (chunk :: skipped), rest. split_and!; [done|by constructor|done].
  - exists [], (chunk :: skipped ++ rest). split_and!; [done|constructor|by intros ? [= <-]].
Qed.

Lemma skippable_false g chunk :
  skippable g chunk = false <->
  g <= genesis_index chunk /\ last_finalized_block_height < last_block_height chunk.
Proof. unfold skippable. rewrite orb_false_iff, Z.ltb_ge, Z.leb_gt. done. Qed.
Lemma skippable_true g chunk :
  skippable g chunk = true <->
  genesis_index chunk < g \/ last_block_height chunk <= last_finalized_block_height.
Proof. unfold skippable. rewrite orb_true_iff, Z.ltb_lt, Z.leb_le. done. Qed.

(** Skipping ends where the import is stopped or at the first chunk that is needed. *)
Lemma import_chunks_skip g answers skipped rest : forall i c,
  Forall (fun chunk => skippable g chunk = true) skipped ->
  (forall chunk, head rest = Some chunk -> skippable g chunk = false) ->
  let run := import_chunks g answers i true (Ok <$> skipped ++ rest) c in
  run = import_chunks g answers (i + length skipped) false (Ok <$> rest) c \/
  run.2 = c /\ exists k, (k < length skipped)%nat /\ import_stopped (answers (i + k)%nat) = true.
Proof.
  intros i c Hs Hh. revert i. induction Hs as [|chunk skipped Hk _ IH]; intros i; cbn zeta.
  - left. rewrite Nat.add_0_r. destruct rest as [|chunk rest]; [done|]. simpl.
    unfold mbind, M_bind, lift. by rewrite (Hh chunk eq_refl).
  - simpl. unfold mbind, M_bind, lift, ensure, bail. rewrite Hk.
    destruct (import_stopped (answers i)) eqn:Es; cbn [negb andb].
    { right. split; [done|]. exists 0%nat. rewrite Nat.add_0_r. split; [simpl; lia|done]. }
    destruct (IH (S i)) as [E|[E (k & Hl & Hk')]].
    + left. etrans; [exact E|]. by rewrite Nat.add_succ_r.
    + right. split; [done|]. exists (S k). rewrite Nat.add_succ_r. split; [simpl; lia|done].
Qed.

(** An index that is accepted leads to the loop. *)
Lemma import_missing_blocks_eq {Hash} (to_string : Hash -> text) parse_csv hashes index_str reason
    answers c :
  check_index to_string hashes index_str = Ok tt ->
  import_missing_blocks to_string parse_csv hashes (Ok (mkStatus true reason, Ok index_str)) answers c =
  import_chunks (u64_wrap (Z.of_nat (length hashes) - 1)) answers 0 true (parse_csv index_str) c.
Proof.
  intros Hi. unfold import_missing_blocks, mbind, M_bind, lift. simpl. by rewrite Hi.
Qed.


(** Chunks of a later genesis are skipped as well if the heights in them, which
    count from that genesis, do not exceed the last finalized height, which
    counts from the current one: the import ends, and reports success, without
    having imported anything. *)
Theorem later_genesis_skipped {Hash} (to_string : Hash -> text) parse_csv hashes index_str
    reason answers chunks c :
  check_index to_string hashes index_str = Ok tt -> parse_csv index_str = Ok <$> chunks ->
  Forall (fun chunk => Z.of_nat (length hashes) - 1 < genesis_index chunk /\
                       last_block_height chunk <= last_finalized_block_height) chunks ->
  (forall i, import_stopped (answers i) = false) ->
  import_missing_blocks to_string parse_csv hashes (Ok (mkStatus true reason, Ok index_str)) answers c
  = (Ok tt, c).
Proof.
  intros Hi Hp Hc Hs. rewrite import_missing_blocks_eq, Hp by done. clear Hp.
  generalize 0%nat. induction Hc as [|chunk chunks [_ Hh] Hc IH]; intros i; [done|].
  simpl. unfold mbind, M_bind, lift, ensure. rewrite Hs. simpl.
  unfold skippable at 1. rewrite (proj2 (Z.leb_le _ _) Hh), orb_true_r. apply IH.
Qed.
End import.

Module ImportWitnesses.
(** A consensus that keeps the files it has imported. *)
Definition keep (f : list byte) : M (list (list byte)) unit := modify (fun fs => fs ++ [f]).
Definition index_str : text := lit "# genesis hash 9d" ++ [LF].
Definition chunks : list BlockChunkData :=
  [mkChunk (lit "a") 0 0 10; mkChunk (lit "b") 0 11 20; mkChunk (lit "c") 1 0 5].
Definition served (i : nat) : Answers :=
  mkAnswers false (fun name => mkDownload true true (Some (mkStatus true true))
    [Some [if decide (name = lit "b") then Byte.x01 else Byte.x02]] (fun _ => true) true).


(** The last finalized block has height 10 above the genesis with index 0; the
    index has a chunk with the blocks 0 to 5 above the one with index 1. *)
Lemma later_genesis_skipped_witness :
  import_missing_blocks keep 10 id (fun _ => [Ok (mkChunk (lit "c") 1 0 5)]) [lit "9d"]
    (Ok (mkStatus true true, Ok index_str)) served [] = (Ok tt, []).
Proof.
  apply (later_genesis_skipped keep 10 id (fun _ => [Ok (mkChunk (lit "c") 1 0 5)]) [lit "9d"] index_str
    true served [mkChunk (lit "c") 1 0 5] []).
  - vm_compute. reflexivity.
  - reflexivity.
  - constructor; [simpl; lia|constructor].
  - reflexivity.
Defined.

(** A transport error ends the download as the end of the body does: the file is
    cut off. *)
Lemma transport_error_truncates :
  download_chunk (mkDownload true true (Some (mkStatus true true))
                    [Some [Byte.x01]; None; Some [Byte.x02]] (fun _ => true) true) = Ok [Byte.x01].
Proof. reflexivity. Qed.

(** A status without a known reason is a panic, and ends the process. *)
Lemma unknown_status_panics :
  maybe_do_out_of_band_catchup keep 10 id (fun _ => []) [lit "9d"] None
    (Some (Ok (mkStatus false false, Ok []))) served [] = (Panic, []).
Proof. reflexivity. Qed.
End ImportWitnesses.
