(* ===== verification/Main.v ===== *)
(** * Start-up and shutdown

    The function [main] of [concordium-node/src/bin/cli.rs], with the start and stop of
    the consensus layer in [plugins/consensus.rs].  The parts of the node that it starts
    are modelled in their own files; here it is the order of what is done with the
    Haskell runtime and the consensus library that matters, on every path.  What the
    operating system and the other tasks do is an input. *)

From stdpp Require Import base tactics list gmap strings option numbers.
From Stdlib Require Import ZArith Floats.SpecFloat.
From S2P Require Import Prelude Text Common Helpers LowLevel Wire Conn Buckets CatchUp Queues QueuesProps Config.
From S2P Require Import Container Bans Node Callbacks Stats Grpc GrpcServer Import.

(** ** The consensus layer *)

(** What opening and reading a file gives. *)
Inductive FileRead := CannotOpenFile | CannotReadFile | FileContents (data : list byte).

Section layer.
Context `{ConsensusRuntime} `{CredentialSource}.

Definition runtime_parameters_of (conf : BakerConfig) : ConsensusRuntimeParameters :=
  mkRuntimeParameters (maximum_block_size conf) (baker_block_construction_timeout conf)
    (transaction_insertions_before_purge conf) (baker_transaction_keep_alive conf)
    (baker_transactions_purging_delay conf) (account_cache_size conf) (baker_modules_cache_size conf).

(** [start_consensus_layer], without profiling. *)
Definition start_consensus_layer (program_name : text) (conf : BakerConfig)
    (start_config : StartConsensusConfig) (private_data : option (list byte)) (appdata_dir : option text)
    : M Runtime ConsensusContainer :=
  _ ← start_haskell program_name (rts_flags conf);
  lift (container_new (runtime_parameters_of conf) start_config private_data appdata_dir).

(** [stop_consensus_layer]. *)
Definition stop_consensus_layer `{Channels} (c : ConsensusContainer) (queues : ConsensusQueues)
    : M Runtime (ConsensusContainer * ConsensusQueues) :=
  let stopped := container_stop c queues in
  _ ← stop_haskell;
  mret stopped.

(** [get_baker_data]. *)
Definition get_baker_data (open : text -> FileRead) (dir : text) (conf : BakerConfig)
    : outcome (list byte * option (list byte)) :=
  let genesis_loc := path_join dir (genesis_data_file conf) in
  genesis_data ← match open genesis_loc with
                 | FileContents data => Ok data
                 | CannotReadFile => bail "Cannot not read genesis file"
                 | CannotOpenFile => bail "Cannot open the genesis file"
                 end;
  private_data ← read_baker_credentials conf;
  Ok (genesis_data, private_data).
End layer.

(** What is set up for notifications: the context that the library gets, and the
    handlers that the gRPC server gets. *)
Record Notifications := mkNotifications { has_context : bool; has_handlers : bool }.
Definition notification_setup (grpc2 : GRPC2Config) (prometheus : PrometheusConfig) : Notifications :=
  if grpc2_is_enabled grpc2 then mkNotifications true true
  else if prometheus_is_enabled prometheus then mkNotifications true false
  else mkNotifications false false.

Definition consensus_log_level (c : CommonConfig) : ConsensusLogLevel :=
  if no_consensus_logs c then LogError
  else if log_trace c then LogTrace
  else if log_debug c then LogDebug
  else LogInfo.

(** ** The process *)

(** What calls the library next to [main]: the exporter of metrics, through the
    collector that queries consensus; the task that stops the import of blocks at
    a signal; the task of the gRPC server that accepts connections, the tasks that it
    spawns for them, whose handlers also call the library, and the pool of threads
    that queries are run on, which goes on with a query if the request for it is
    cancelled; the poll thread of the node; and the threads of the consensus queues. *)
Inductive User :=
| MetricsServer | ImportStopper | GrpcTask | GrpcConnections | QueryPool | PollThread | QueueThreads.
#[export] Instance User_eq_dec : EqDecision User.
Proof. solve_decision. Defined.

(** What happens around the library, in order. *)
Inductive Event :=
| Rts (c : RtsCall)
| LibraryStarted
| Lifecycle (c : LifecycleCall)
| Begins (u : User)
| Ends (u : User).

(** [Context::context] on a result. *)
Definition with_context {A} (what : string) (o : outcome A) : outcome A :=
  match o with Err _ => bail what | o => o end.

Section main.
Context `{ConsensusRuntime} `{CredentialSource} `{Prometheus} `{Channels}.

Record Process := mkProcess {
  rt : Runtime;
  cons : option ConsensusContainer;
  events : list Event;
}.
Definition process_initial : Process := mkProcess runtime_initial None [].

(** What the operating system, the parts that are modelled elsewhere and the other
    tasks answer. *)
Record Environment := mkEnvironment {
  program_name : text;
  version : string;
  (* get_config_and_logging_setup and instantiate_node *)
  config_result : outcome (Config * GRPC2Config * PrometheusConfig);
  node_result : Config -> outcome unit;
  start_time : Z;
  (* the file system *)
  open_file : text -> FileRead;
  directory_exists : text -> bool;
  create_dir_all : text -> bool;
  (* what the gRPC server needs *)
  parse_endpoints : list byte -> option (gmap string bool);
  num_cpus : nat;
  build_pool : nat -> bool;
  tls_config : list byte * list byte -> bool;
  bind_address : SocketAddr -> bool;
  (* out-of-band catch-up *)
  genesis_block_hashes : list (list byte);
  hash_to_string : list byte -> text;
  parse_csv : text -> list (outcome BlockChunkData);
  local_file : text -> list byte;
  name_of_file : list byte -> option (list byte);
  catchup_index : text -> outcome (Status * outcome text);
  catchup_answers : nat -> Answers;
  (* at the time of the shutdown: whether the server for metrics has failed, with no
     connection left; whether the task of the gRPC server has failed before, else
     whether it listens for the signal to stop and how long it then takes to drain
     its connections; whether the tasks of its connections have ended if it does not
     drain them; and whether the pool has no query left *)
  metrics_server_failed : bool;
  import_stopper_ran : bool;
  grpc_finished : bool;
  grpc_listening : bool;
  grpc_ends_after : option Z;
  grpc_connections_ended : bool;
  query_pool_idle : bool;
  close_ok : bool;
  queue_thread_panicked : bool;
  callback_queues : ConsensusQueues;
}.

Variable env : Environment.

Definition emit (e : Event) (p : Process) : Process := mkProcess (rt p) (cons p) (events p ++ [e]).
Definition emit_if (b : bool) (e : Event) : M Process unit :=
  if b then modify (emit e) else mret tt.

(** An operation of the runtime, with the calls that it makes. *)
Definition on_runtime {A} (m : M Runtime A) : M Process A := fun p =>
  let '(r, rt') := m (rt p) in
  (r, mkProcess rt' (cons p)
        (events p ++ (Rts <$> drop (length (rts_calls (rt p))) (rts_calls rt')))).
(** An operation of the container, with the calls that it makes. *)
Definition on_container (m : M ConsensusContainer unit) : M Process unit := fun p =>
  match cons p with
  | None => (Ok tt, p)
  | Some c =>
      let '(r, c') := m c in
      (r, mkProcess (rt p) (Some c')
            (events p ++ (Lifecycle <$> drop (length (lifecycle c)) (lifecycle c'))))
  end.

Definition DATABASE_SUB_DIRECTORY_NAME : text := lit "database-v4".

(** From the reading of genesis data to the start of the consensus layer. *)
Definition start_layer (conf : Config) (grpc2 : GRPC2Config) (prometheus : PrometheusConfig)
    : M Process unit :=
  let data_dir_path := data_dir (common conf) in
  '(gen_data, priv_data) ←
    lift (with_context "Can't get genesis data or private data. Aborting"
            (get_baker_data (open_file env) data_dir_path (baker (cli conf))));
  let database_directory := path_join data_dir_path DATABASE_SUB_DIRECTORY_NAME in
  _ ← lift (if directory_exists env database_directory || create_dir_all env database_directory
            then Ok tt else Err (IoError "create_dir_all"));
  let start_config :=
    mkStartConfig gen_data (consensus_log_level (common conf))
      (has_context (notification_setup grpc2 prometheus)) (prometheus_is_enabled prometheus) in
  c ← on_runtime (start_consensus_layer (program_name env) (baker (cli conf)) start_config priv_data
                    (Some database_directory));
  modify (fun p => emit LibraryStarted (mkProcess (rt p) (Some c) (events p))).

(** The gRPC server is started if it has the handlers of notifications. *)
Definition start_grpc (grpc2 : GRPC2Config) (prometheus : PrometheusConfig) : M Process bool :=
  let read_file path := match open_file env path with FileContents data => Some data | _ => None end in
  rpc2 ← lift (if has_handlers (notification_setup grpc2 prometheus)
               then with_context "Unable to start GRPC2 server."
                      (grpc2_new read_file (parse_endpoints env) (num_cpus env) (build_pool env)
                         (tls_config env) (bind_address env) grpc2 (start_time env))
               else Ok None);
  _ ← emit_if (present rpc2) (Begins GrpcTask);
  _ ← emit_if (present rpc2) (Begins GrpcConnections);
  _ ← emit_if (present rpc2) (Begins QueryPool);
  mret (present rpc2).

Definition catch_up (conf : BakerConfig) : M ConsensusContainer unit := fun c =>
  maybe_do_out_of_band_catchup (fun contents => import_blocks (name_of_file env contents))
    (get_last_finalized_block_height c) (hash_to_string env) (parse_csv env)
    (genesis_block_hashes env) (local_file env <$> import_blocks_from conf)
    (catchup_index env <$> download_blocks_from conf) (catchup_answers env) c.

(** Whether the gRPC server has stopped after the attempt to shut it down. *)
Definition grpc_stopped : bool :=
  grpc_finished env
  || match grpc2_shutdown (grpc_listening env) (grpc_ends_after env) with
     | TaskRunning => false
     | _ => true
     end.

(** Whether it has drained its connections in this. *)
Definition grpc_drained : bool :=
  negb (grpc_finished env)
  && match grpc2_shutdown (grpc_listening env) (grpc_ends_after env) with
     | TaskFinished => true
     | _ => false
     end.

(** The task that stops the import, if it gets to run. *)
Definition run_import_stopper : M Process unit :=
  if import_stopper_ran env
  then _ ← on_container (modify stop_importing_blocks); modify (emit (Ends ImportStopper))
  else mret tt.

(** From the signal to shut down on.  The tasks for metrics and for the import are
    not waited for, and neither is the pool for queries.  A signal that comes earlier
    stops the import, and is received here. *)
Definition main_shutdown (listens rpc2 : bool) : M Process unit :=
  _ ← emit_if (listens && metrics_server_failed env) (Ends MetricsServer);
  _ ← run_import_stopper;
  _ ← emit_if (rpc2 && grpc_stopped) (Ends GrpcTask);
  _ ← emit_if (rpc2 && (grpc_drained || grpc_connections_ended env)) (Ends GrpcConnections);
  _ ← emit_if (rpc2 && query_pool_idle env) (Ends QueryPool);
  _ ← lift (ensure (close_ok env) "Can't shutdown node properly");
  _ ← modify (emit (Ends PollThread));
  _ ← lift (if queue_thread_panicked env then Panic else Ok tt);
  _ ← modify (emit (Ends QueueThreads));
  _ ← on_container (modify (fun c => (container_stop c (callback_queues env)).1));
  on_runtime stop_haskell.

(** [main] after the start of the library.  The connections at start-up never fail
    it. *)
Definition after_start (conf : Config) (grpc2 : GRPC2Config) (prometheus : PrometheusConfig)
    (registry : Registry) : M Process unit :=
  _ ← lift (register_consensus_collector registry);
  let listens := present (prometheus_listen_port prometheus) in
  _ ← emit_if listens (Begins MetricsServer);
  _ ← modify (emit (Begins ImportStopper));
  rpc2 ← start_grpc grpc2 prometheus;
  _ ← on_container (catch_up (baker (cli conf)));
  _ ← modify (emit (Begins QueueThreads));
  _ ← modify (emit (Begins PollThread));
  _ ← on_container (modify (fun c => (start_baker c).2));
  main_shutdown listens rpc2.

(** [main]. *)
Definition main : M Process unit :=
  '(conf, grpc2, prometheus) ← lift (config_result env);
  registry ← lift (instantiate_stats_export_engine (version env));
  _ ← lift (with_context "Failed to create the node." (node_result env conf));
  _ ← start_layer conf grpc2 prometheus;
  after_start conf grpc2 prometheus registry.

(** At the end of the process, whether [main] returned or not, the handler that
    has been registered runs. *)
Definition at_exit (p : Process) : Process :=
  if existsb (fun c => match c with AtExit => true | _ => false end) (rts_calls (rt p))
  then (on_runtime (modify stop_nopanic) p).2
  else p.

(** A run of the process: what [main] returns, and what has happened in the end. *)
Definition run_process : outcome unit * list Event :=
  let '(r, p) := main process_initial in (r, events (at_exit p)).

(** ** What the events tell *)

Definition rts_of (es : list Event) : list RtsCall :=
  omap (fun e => match e with Rts c => Some c | _ => None end) es.
Definition lifecycle_of (es : list Event) : list LifecycleCall :=
  omap (fun e => match e with Lifecycle c => Some c | _ => None end) es.
(** Those that have begun and not ended. *)
Definition users_of (es : list Event) : list User :=
  foldl (fun us e => match e with
                     | Begins u => us ++ [u]
                     | Ends u => filter (fun u' => u' <> u) us
                     | _ => us
                     end) [] es.

(** Importing blocks starts and stops nothing. *)
Definition same_baker (c c' : ConsensusContainer) : Prop :=
  lifecycle c' = lifecycle c /\ is_baking c' = is_baking c /\ consensus_type c' = consensus_type c.
#[local] Instance same_baker_preorder : PreOrder same_baker.
Proof. split; unfold same_baker; [done|]. intros c1 c2 c3 (-> & -> & ->). done. Qed.

Lemma import_blocks_same path c : same_baker c (import_blocks path c).2.
Proof. unfold import_blocks. destruct path; [|done]. by destruct (importBlocks _ _). Qed.
Lemma import_chunks_same height g answers records : forall i mayskip c,
  same_baker c (import_chunks (fun contents => import_blocks (name_of_file env contents)) height
                  g answers i mayskip records c).2.
Proof.
  induction records as [|result records IH]; intros i mayskip c; [done|].
  cbn [import_chunks]. unfold mbind, M_bind, lift.
  destruct (ensure _ _); try done. destruct result as [chunk| |]; try done.
  destruct (mayskip && _); [apply IH|]. destruct (ensure _ _); try done.
  destruct (download_chunk _) as [contents| |]; try done.
  pose proof (import_blocks_same (name_of_file env contents) c) as Hi.
  destruct (import_blocks _ c) as [[] c1]; cbn [snd] in *; try done.
  etrans; [exact Hi|apply IH].
Qed.
Lemma catch_up_same conf c : same_baker c (catch_up conf c).2.
Proof.
  unfold catch_up, maybe_do_out_of_band_catchup. destruct (import_blocks_from conf); simpl.
  { rewrite log_error_state. apply import_blocks_same. }
  destruct (download_blocks_from conf); [|done]. simpl. rewrite log_error_state.
  unfold import_missing_blocks, mbind, M_bind, lift.
  do 4 (case_match; try done; simplify_eq; cbn [snd]); try done.
  all: repeat (case_match; simplify_eq; try done). all: apply import_chunks_same.
Qed.

(** The state once the library has been started. *)
Definition started (args : list text) (c : ConsensusContainer) (es : list Event) : Process :=
  mkProcess (mkRuntime true false false [HsInit args; AtExit]) (Some c)
    ([Rts (HsInit args); Rts AtExit] ++ es).
Definition fresh (c : ConsensusContainer) : Prop := lifecycle c = [] /\ is_baking c = false.

Lemma start_layer_spec conf grpc2 prometheus r p :
  start_layer conf grpc2 prometheus process_initial = (r, p) ->
  match r with
  | Ok _ => exists args c, p = started args c [LibraryStarted] /\ fresh c
  | _ => p = process_initial \/ exists args, events p = [Rts (HsInit args); Rts AtExit] /\
           rt p = mkRuntime true false false [HsInit args; AtExit]
  end.
Proof.
  unfold start_layer, mbind, M_bind, lift.
  destruct (with_context _ _) as [[gen priv]| |]; [|intros; simplify_eq; by left..].
  destruct (directory_exists _ _ || _); [|intros; simplify_eq; by left].
  unfold on_runtime, start_consensus_layer, start_haskell, mbind, M_bind, lift. simpl.
  destruct (c_strings _) as [args| |]; simpl; [|intros; simplify_eq; by left..].
  unfold container_new. destruct (get_consensus_ptr _ _ _ _); simpl; intros [= <- <-];
    [|right; by eexists..].
  by eexists _, _.
Qed.

(** A started process goes on with events that are not calls of the runtime. *)
Lemma started_emit args c es e : emit e (started args c es) = started args c (es ++ [e]).
Proof. done. Qed.
Lemma emit_if_started args c es b e :
  emit_if b e (started args c es) = (Ok tt, started args c (es ++ if b then [e] else [])).
Proof. destruct b; simpl; [by rewrite <- started_emit|by rewrite app_nil_r]. Qed.
Lemma on_container_started args c es m :
  on_container m (started args c es) =
    ((m c).1, started args (m c).2 (es ++ (Lifecycle <$> drop (length (lifecycle c)) (lifecycle (m c).2)))).
Proof. unfold on_container, started. simpl. by destruct (m c). Qed.
Lemma on_container_same args c es m :
  same_baker c (m c).2 -> on_container m (started args c es) = ((m c).1, started args (m c).2 es).
Proof.
  intros Hs. rewrite on_container_started. destruct Hs as [E _].
  by rewrite E, list.drop_all, app_nil_r.
Qed.

(** What begins with the gRPC server. *)
Definition grpc_begins : list Event := [Begins GrpcTask; Begins GrpcConnections; Begins QueryPool].

(** If the server is enabled and no error is returned, it runs. *)
Lemma start_grpc_spec args c es grpc2 prometheus r p :
  start_grpc grpc2 prometheus (started args c es) = (r, p) ->
  match r with
  | Ok rpc2 => rpc2 = grpc2_is_enabled grpc2 /\
      p = started args c (es ++ if rpc2 then grpc_begins else [])
  | _ => p = started args c es
  end.
Proof.
  unfold start_grpc, notification_setup, mbind, M_bind, lift.
  destruct (grpc2_is_enabled grpc2) eqn:En; cbn [has_handlers].
  - unfold grpc2_is_enabled in En. destruct (grpc2_new _ _ _ _ _ _ _ _) as [[su|]| |] eqn:E;
      cbn [with_context present]; rewrite ?emit_if_started; intros [= <- <-]; try done.
    { by rewrite <- !app_assoc. }
    unfold grpc2_new in E. destruct (g2_listen_addr grpc2); [|done].
    exfalso. unfold mbind, outcome_bind in E. by repeat (case_match; simplify_eq).
  - destruct (prometheus_is_enabled _); cbn [has_handlers present];
      rewrite !emit_if_started; intros [= <- <-]; by rewrite !app_nil_r.
Qed.

(** What has ended when the node is closed. *)
Definition ended (listens rpc2 : bool) : list Event :=
  (if listens && metrics_server_failed env then [Ends MetricsServer] else [])
  ++ (if import_stopper_ran env then [Ends ImportStopper] else [])
  ++ (if rpc2 && grpc_stopped then [Ends GrpcTask] else [])
  ++ (if rpc2 && (grpc_drained || grpc_connections_ended env) then [Ends GrpcConnections] else [])
  ++ (if rpc2 && query_pool_idle env then [Ends QueryPool] else []).
Definition stops (c : ConsensusContainer) : list LifecycleCall :=
  if is_active c && is_baking c then [CallStopBaker] else [].

Lemma stop_calls c queues :
  lifecycle (container_stop c queues).1 = lifecycle c ++ stops c ++ [CallStopConsensus].
Proof.
  unfold container_stop, stop_baker, stops. destruct (is_active c), (is_baking c); simpl;
    by rewrite <- ?app_assoc.
Qed.

Lemma ended_users listens rpc2 : exists fs, ended listens rpc2 = Ends <$> fs.
Proof.
  unfold ended. exists ((if listens && metrics_server_failed env then [MetricsServer] else [])
    ++ (if import_stopper_ran env then [ImportStopper] else [])
    ++ (if rpc2 && grpc_stopped then [GrpcTask] else [])
    ++ (if rpc2 && (grpc_drained || grpc_connections_ended env) then [GrpcConnections] else [])
    ++ (if rpc2 && query_pool_idle env then [QueryPool] else [])).
  by repeat (case_match; cbn).
Qed.

Lemma run_import_stopper_started args c es : exists c',
  run_import_stopper (started args c es) =
    (Ok tt, started args c' (es ++ if import_stopper_ran env then [Ends ImportStopper] else [])) /\
  same_baker c c'.
Proof.
  unfold run_import_stopper. destruct (import_stopper_ran env).
  - exists (stop_importing_blocks c). split; [|done]. unfold mbind, M_bind.
    rewrite on_container_same by done. done.
  - exists c. by rewrite app_nil_r.
Qed.

Lemma main_shutdown_spec listens rpc2 args c es r p :
  main_shutdown listens rpc2 (started args c es) = (r, p) ->
  match r with
  | Ok _ => rts_calls (rt p) = [HsInit args; AtExit; HsExit] /\ stop_once (rt p) = true /\
      events p = [Rts (HsInit args); Rts AtExit] ++ es ++ ended listens rpc2
                   ++ [Ends PollThread; Ends QueueThreads]
                   ++ (Lifecycle <$> stops c ++ [CallStopConsensus]) ++ [Rts HsExit]
  | _ => exists c' fs, p = started args c' (es ++ (Ends <$> fs))
  end.
Proof.
  unfold main_shutdown, mbind, M_bind, lift. rewrite emit_if_started.
  match goal with |- context [run_import_stopper (started _ _ ?es)] =>
    destruct (run_import_stopper_started args c es) as (c1 & -> & Hc1) end.
  rewrite !emit_if_started. rewrite <- !app_assoc.
  fold (ended listens rpc2).
  destruct (ended_users listens rpc2) as [fs Hfs].
  destruct (close_ok env); cbn [ensure];
    [|intros [= <- <-]; exists c1, fs; by rewrite Hfs].
  unfold modify at 1. rewrite started_emit.
  destruct (queue_thread_panicked env).
  { intros [= <- <-]. exists c1, (fs ++ [PollThread]). by rewrite Hfs, fmap_app, <- app_assoc. }
  unfold modify at 1. rewrite started_emit, on_container_started. unfold modify. cbn [fst snd].
  rewrite stop_calls, drop_app_length.
  replace (stops c1) with (stops c) by (unfold stops, is_active; by destruct Hc1 as (_ & -> & ->)).
  intros [= <- <-]. split_and!; [done|done|]. simpl. by rewrite <- !app_assoc.
Qed.

(** ** The lifecycle *)

(** What may still be running when the library is stopped. *)
Definition left_running (grpc2 : GRPC2Config) (prometheus : PrometheusConfig) : list User :=
  (if present (prometheus_listen_port prometheus) && negb (metrics_server_failed env)
   then [MetricsServer] else [])
  ++ (if import_stopper_ran env then [] else [ImportStopper])
  ++ (if grpc2_is_enabled grpc2 && negb grpc_stopped then [GrpcTask] else [])
  ++ (if grpc2_is_enabled grpc2 && negb (grpc_drained || grpc_connections_ended env)
      then [GrpcConnections] else [])
  ++ (if grpc2_is_enabled grpc2 && negb (query_pool_idle env) then [QueryPool] else []).

(** The events of a run, by what [main] returns.  If it returns without an error, the
    runtime is initialized first; the baker, if there is one, is stopped before the
    library, the library once and right before the runtime, and [left_running] are the
    only users left then.  Otherwise either the runtime was never initialized and
    nothing happened, or it is stopped last; the library is not stopped. *)
Definition lifecycle_ok (r : outcome unit) (es : list Event) : Prop :=
  match r with
  | Ok _ => exists conf grpc2 prometheus args mid,
      config_result env = Ok (conf, grpc2, prometheus) /\
      es = [Rts (HsInit args); Rts AtExit] ++ mid ++ [Lifecycle CallStopConsensus; Rts HsExit] /\
      rts_of mid = [] /\
      (CallStopConsensus ∉ lifecycle_of mid) /\ baker_after false (lifecycle_of mid) = Some false /\
      users_of mid = left_running grpc2 prometheus
  | _ => es = [] \/ exists args mid,
      es = [Rts (HsInit args); Rts AtExit] ++ mid ++ [Rts HsExit] /\
      rts_of mid = [] /\ (lifecycle_of mid = [] \/ lifecycle_of mid = [CallStartBaker])
  end.

Lemma at_exit_started args c es :
  events (at_exit (started args c es)) = [Rts (HsInit args); Rts AtExit] ++ es ++ [Rts HsExit].
Proof. done. Qed.

(** What has begun when everything runs, with the call that starts the baker. *)
Definition begun (listens rpc2 : bool) (c : ConsensusContainer) : list Event :=
  [LibraryStarted] ++ (if listens then [Begins MetricsServer] else []) ++ [Begins ImportStopper]
  ++ (if rpc2 then grpc_begins else []) ++ [Begins QueueThreads; Begins PollThread]
  ++ (if is_active c then [Lifecycle CallStartBaker] else []).

Lemma start_baker_fresh c :
  fresh c ->
  lifecycle (start_baker c).2 = (if is_active c then [CallStartBaker] else []) /\
  stops (start_baker c).2 = (if is_active c then [CallStopBaker] else []).
Proof.
  intros [El Eb]. unfold start_baker, stops. destruct (is_active c) eqn:Ea; rewrite Eb; simpl.
  - rewrite El. by replace (is_active _) with true.
  - by rewrite El, Ea.
Qed.

Lemma after_start_spec conf grpc2 prometheus registry args c r p :
  let listens := present (prometheus_listen_port prometheus) in
  let rpc2 := grpc2_is_enabled grpc2 in
  fresh c ->
  after_start conf grpc2 prometheus registry (started args c [LibraryStarted]) = (r, p) ->
  (exists c' c2, main_shutdown listens rpc2 (started args c2 (begun listens rpc2 c')) = (r, p) /\
     stops c2 = (if is_active c' then [CallStopBaker] else [])) \/
  (r <> Ok tt /\ exists c' es, p = started args c' es /\ rts_of es = [] /\ lifecycle_of es = []).
Proof.
  intros listens rpc2 Hc. unfold after_start, mbind, M_bind, lift. fold listens.
  assert (Hend : forall r0 c' es, r0 <> Ok tt -> rts_of es = [] /\ lifecycle_of es = [] ->
    (r0, started args c' es) = (r, p) ->
    r <> Ok tt /\ exists c' es, p = started args c' es /\ rts_of es = [] /\ lifecycle_of es = []).
  { intros r0 c' es Hr Hes [= <- <-]. split; [done|]. by exists c', es. }
  destruct (register_consensus_collector _); [|intros E; right; by eapply Hend; [| |exact E]..].
  rewrite emit_if_started. unfold modify at 1. rewrite started_emit.
  destruct (start_grpc _ _ _) as [rg p1] eqn:Eg. apply start_grpc_spec in Eg.
  destruct rg; [|subst p1; intros E; right; by eapply Hend; [|destruct listens|exact E]..].
  destruct Eg as [-> ->]. fold rpc2. rewrite on_container_same by apply catch_up_same.
  pose proof (catch_up_same (baker (cli conf)) c) as Hs.
  destruct (catch_up _ c) as [rc c1]. cbn [fst snd] in *.
  destruct rc; [|intros E; right; by eapply Hend; [|destruct listens, rpc2|exact E]..].
  unfold modify at 1 2. rewrite !started_emit, on_container_started. unfold modify. cbn [fst snd].
  destruct Hc as [El Eb], Hs as (El1 & Eb1 & _). rewrite El1, El.
  destruct (start_baker_fresh c1) as [-> Est]; [by rewrite <- El1, <- Eb1 in *|].
  intros E. left. exists c1, (start_baker c1).2. split; [|done]. rewrite <- E. unfold begun.
  rewrite <- !app_assoc. by destruct (is_active c1).
Qed.

Lemma at_exit_stopped p : stop_once (rt p) = true -> events (at_exit p) = events p.
Proof.
  intros E. unfold at_exit. case_match; [|done]. unfold on_runtime, modify, stop_nopanic. rewrite E.
  simpl. by rewrite list.drop_all, app_nil_r.
Qed.

(** Users that end make no calls. *)
Lemma ends_silent fs : rts_of (Ends <$> fs) = [] /\ lifecycle_of (Ends <$> fs) = [].
Proof. by induction fs. Qed.
Lemma begun_calls listens rpc2 c :
  rts_of (begun listens rpc2 c) = [] /\
  lifecycle_of (begun listens rpc2 c) = if is_active c then [CallStartBaker] else [].
Proof. unfold begun. by destruct listens, rpc2, (is_active c). Qed.

Lemma main_shutdown_lifecycle conf grpc2 prometheus args c c' r p :
  let listens := present (prometheus_listen_port prometheus) in
  let rpc2 := grpc2_is_enabled grpc2 in
  config_result env = Ok (conf, grpc2, prometheus) ->
  stops c = (if is_active c' then [CallStopBaker] else []) ->
  main_shutdown listens rpc2 (started args c (begun listens rpc2 c')) = (r, p) ->
  lifecycle_ok r (events (at_exit p)).
Proof.
  intros listens rpc2 Econf Est E. apply main_shutdown_spec in E. destruct r as [[]| |].
  { destruct E as (Er & Eo & Ee). rewrite at_exit_stopped by done. exists conf, grpc2, prometheus, args.
    exists (begun listens rpc2 c' ++ ended listens rpc2 ++ [Ends PollThread; Ends QueueThreads]
            ++ (Lifecycle <$> stops c)).
    split; [done|]. split; [by rewrite Ee, fmap_app, <- !app_assoc|].
    rewrite Est. unfold begun, ended, left_running. fold listens rpc2.
    destruct (is_active c'), listens, (metrics_server_failed env), (import_stopper_ran env), rpc2,
      grpc_stopped, (grpc_drained || grpc_connections_ended env), (query_pool_idle env); (split_and!; [reflexivity|by apply (bool_decide_unpack _)|reflexivity|reflexivity]). }
  all: destruct E as (c1 & fs & ->); right; exists args, (begun listens rpc2 c' ++ (Ends <$> fs)).
  all: destruct (begun_calls listens rpc2 c') as [Hr Hl], (ends_silent fs) as [Hr' Hl'].
  all: split; [by rewrite at_exit_started, <- app_assoc|].
  all: unfold rts_of, lifecycle_of in *; rewrite !omap_app, Hr, Hr', Hl, Hl', app_nil_r.
  all: destruct (is_active c'); auto.
Qed.

(** C23: whatever the environment answers, and whether [main] returns, fails or panics,
    [main] and the handler that runs at exit stop the Haskell runtime exactly once if
    it was started, as the last that they do with it or the library.  A regular
    shutdown stops the baker, then the library, then the runtime, after the threads of
    the node and of the consensus queues have ended.  Of those that call the library
    besides, what is left running when it is stopped are exactly: the exporter of
    metrics, unless it failed; the task that stops imports, if it has not run; the
    task of the gRPC server, if it has not stopped in time; the tasks of its
    connections, if it has not drained them and they have not ended by themselves; and
    queries on the pool of threads of the server that are not done. *)
Theorem process_lifecycle : let '(r, es) := run_process in lifecycle_ok r es.
Proof.
  unfold run_process. destruct (main process_initial) as [r p] eqn:E. revert E.
  unfold main, mbind, M_bind, lift.
  destruct (config_result env) as [[[conf grpc2] prometheus]| |] eqn:Econf;
    [|intros [= <- <-]; by left..].
  destruct (instantiate_stats_export_engine _) as [registry| |]; [|intros [= <- <-]; by left..].
  destruct (with_context _ _); [|intros [= <- <-]; by left..].
  destruct (start_layer _ _ _ _) as [rs p1] eqn:Es. apply start_layer_spec in Es.
  destruct rs.
  2-3: intros [= <- <-]; destruct Es as [->|(args & Ee & Er)]; [by left|right; exists args, []];
    unfold at_exit, on_runtime; rewrite Er; simpl; rewrite Ee; auto.
  destruct Es as (args & c & -> & Hc). intros E.
  apply after_start_spec in E as [(c' & c2 & E & Est)|(Hr & c' & es & -> & Hrts & Hl)]; [| |done].
  - by eapply main_shutdown_lifecycle.
  - destruct r as [[]| |]; [done|right; exists args, es; auto..].
Qed.
End main.

(** ** Two runs *)

Module MainWitnesses.
#[local] Existing Instances counting_runtime ChannelWitnesses.list_channels
  RegistryWitnesses.names_registry.
#[local] Instance no_credentials : CredentialSource := {|
  read_file _ := Some [Byte.x01];
  parse_encrypted _ := None;
  read_password := None;
  decrypt_with _ _ := None;
|}.

(** A validator with the gRPC server and, if a port is given, an exporter of
    metrics; the gRPC server stops within its time, the import is stopped, and the
    exporter works. *)
Definition validator : BakerConfig :=
  let b := baker_defaults in
  mkBakerConfig (gc_logging b) (rts_flags b) (maximum_block_size b) (baker_block_construction_timeout b)
    (transaction_insertions_before_purge b) (baker_transaction_keep_alive b)
    (baker_transactions_purging_delay b) (Some (lit "blocks.mdb")) None (download_blocks_timeout b)
    (genesis_data_file b) (account_cache_size b) None (Some "credentials.json"%string) false false
    (baker_modules_cache_size b).
Definition validator_config : Config :=
  mkConfig (common_defaults (lit "/config") (lit "/data")) (connection_defaults [])
    (mkCliConfig false 100 validator 0 None) bootstrapper_defaults.
Definition grpc2_on : GRPC2Config :=
  let d := grpc2_defaults in
  mkGRPC2Config (Some (V4 [# Byte.x00; Byte.x00; Byte.x00; Byte.x00])) (Some 20000) None None false None
    (g2_invoke_max_energy d) (g2_dry_run_timeout d) (g2_dry_run_concurrency d)
    (g2_health_max_finalized_delay d) (g2_health_min_peers d) 2 None 2 (g2_max_concurrent_streams d) 2
    None (g2_request_timeout d) None (g2_keepalive_timeout d).
Definition metrics_at (port : option Z) : PrometheusConfig :=
  let d := prometheus_defaults in
  mkPrometheusConfig (prometheus_listen_addr d) port None (prometheus_job_name d) None None None
    (prometheus_push_interval d) [].

Definition answers (port : option Z) (close idle : bool) : Environment := {|
  program_name := lit "concordium-node";
  version := "6.3.0"%string;
  config_result := Ok (validator_config, grpc2_on, metrics_at port);
  node_result _ := Ok tt;
  start_time := 0;
  open_file path :=
    if decide (path = lit "/data/genesis.dat") then FileContents [Byte.x03] else CannotOpenFile;
  directory_exists _ := false;
  create_dir_all path := bool_decide (path = lit "/data/database-v4");
  parse_endpoints _ := None;
  num_cpus := 2;
  build_pool _ := true;
  tls_config _ := true;
  bind_address _ := true;
  genesis_block_hashes := [];
  hash_to_string _ := [];
  parse_csv _ := [];
  local_file _ := [];
  name_of_file _ := Some [];
  catchup_index _ := Err (IoError "request");
  catchup_answers _ := mkAnswers false (fun _ => mkDownload true true None [] (fun _ => true) true);
  metrics_server_failed := false;
  import_stopper_ran := true;
  grpc_finished := false;
  grpc_listening := true;
  grpc_ends_after := Some 100;
  grpc_connections_ended := false;
  query_pool_idle := idle;
  close_ok := close;
  queue_thread_panicked := false;
  callback_queues := queues_default;
|}.

(** Without an exporter of metrics, and with all queries done, nothing that calls the
    library is left when it is stopped. *)
Lemma clean_run : exists args,
  run_process (answers None true true) =
    (Ok tt, [Rts (HsInit args); Rts AtExit; LibraryStarted; Begins ImportStopper; Begins GrpcTask;
             Begins GrpcConnections; Begins QueryPool; Begins QueueThreads; Begins PollThread; Lifecycle CallStartBaker; Ends ImportStopper;
             Ends GrpcTask; Ends GrpcConnections; Ends QueryPool; Ends PollThread; Ends QueueThreads; Lifecycle CallStopBaker;
             Lifecycle CallStopConsensus; Rts HsExit]).
Proof. eexists. vm_compute. reflexivity. Qed.
(** With one, it still answers requests, and queries the library for them, when the
    library and the runtime are stopped. *)
Lemma metrics_outlive_library : exists args,
  run_process (answers (Some 9090) true true) =
    (Ok tt, [Rts (HsInit args); Rts AtExit; LibraryStarted; Begins MetricsServer; Begins ImportStopper;
             Begins GrpcTask; Begins GrpcConnections; Begins QueryPool; Begins QueueThreads; Begins PollThread; Lifecycle CallStartBaker;
             Ends ImportStopper; Ends GrpcTask; Ends GrpcConnections; Ends QueryPool; Ends PollThread; Ends QueueThreads;
             Lifecycle CallStopBaker; Lifecycle CallStopConsensus; Rts HsExit]).
Proof. eexists. vm_compute. reflexivity. Qed.
(** A query that takes longer than the server takes to stop, for a request that has
    been cancelled, runs when the library and the runtime are stopped. *)
Lemma query_outlives_library : exists args,
  run_process (answers None true false) =
    (Ok tt, [Rts (HsInit args); Rts AtExit; LibraryStarted; Begins ImportStopper; Begins GrpcTask;
             Begins GrpcConnections; Begins QueryPool; Begins QueueThreads; Begins PollThread;
             Lifecycle CallStartBaker; Ends ImportStopper; Ends GrpcTask; Ends GrpcConnections;
             Ends PollThread; Ends QueueThreads; Lifecycle CallStopBaker; Lifecycle CallStopConsensus;
             Rts HsExit]).
Proof. eexists. vm_compute. reflexivity. Qed.
(** If the node cannot be closed the runtime is stopped with a baker and all threads
    running. *)
Lemma failed_close : exists what args,
  run_process (answers None false true) =
    (Err what, [Rts (HsInit args); Rts AtExit; LibraryStarted; Begins ImportStopper; Begins GrpcTask;
             Begins GrpcConnections; Begins QueryPool; Begins QueueThreads; Begins PollThread; Lifecycle CallStartBaker; Ends ImportStopper;
             Ends GrpcTask; Ends GrpcConnections; Ends QueryPool; Rts HsExit]).
Proof. eexists _, _. vm_compute. reflexivity. Qed.
End MainWitnesses.
