(* ===== verification/Collector.v ===== *)
(** * The collector backend

    Models [src/collector-backend]: the server that nodes report to.  A report is
    validated, also against the average of what other nodes report, and kept
    until it is stale.  Decoding (rmp-serde) and JSON (serde-json) are
    arguments, as are the pieces in which a request body arrives. *)

From stdpp Require Import base tactics list sorting gmap strings option numbers.
From Stdlib Require Import ZArith Floats.SpecFloat.
From S2P Require Import Prelude Text Config.

Inductive IsInBakingCommittee :=
| ActiveInCommittee
| AddedButNotActiveInCommittee
| AddedButWrongKeys
| NotInCommittee.

(** [Serialize] and [Deserialize] for [IsInBakingCommittee], as strings. *)
Definition committee_serialize (c : IsInBakingCommittee) : text :=
  match c with
  | ActiveInCommittee => lit "ActiveInCommittee"
  | AddedButNotActiveInCommittee => lit "AddedButNotActiveInCommittee"
  | AddedButWrongKeys => lit "AddedButWrongKeys"
  | NotInCommittee => lit "NotInCommittee"
  end.
Definition committee_deserialize (s : text) : outcome IsInBakingCommittee :=
  if decide (s = lit "ActiveInCommittee") then Ok ActiveInCommittee
  else if decide (s = lit "AddedButNotActiveInCommittee") then Ok AddedButNotActiveInCommittee
  else if decide (s = lit "AddedButWrongKeys") then Ok AddedButWrongKeys
  else if decide (s = lit "NotInCommittee") then Ok NotInCommittee
  else bail "Failed deserializing string as IsInBakingCommittee".

(** ** Reports *)

Record NodeInfo := mkNodeInfo {
  nodeName : text;
  nodeId : text;
  peerType : text;
  uptime : Z;
  client : text;
  averagePing : option f64;
  peersCount : Z;
  peersList : list text;
  bestBlock : text;
  bestBlockHeight : Z;
  bestBlockBakerId : option Z;
  bestArrivedTime : option text;
  blockArrivePeriodEMA : option f64;
  blockArrivePeriodEMSD : option f64;
  blockArriveLatencyEMA : option f64;
  blockArriveLatencyEMSD : option f64;
  blockReceivePeriodEMA : option f64;
  blockReceivePeriodEMSD : option f64;
  blockReceiveLatencyEMA : option f64;
  blockReceiveLatencyEMSD : option f64;
  finalizedBlock : text;
  finalizedBlockHeight : Z;
  finalizedTime : option text;
  finalizationPeriodEMA : option f64;
  finalizationPeriodEMSD : option f64;
  packetsSent : Z;
  packetsReceived : Z;
  consensusRunning : bool;
  bakingCommitteeMember : IsInBakingCommittee;
  consensusBakerId : option Z;
  finalizationCommitteeMember : bool;
  ancestorsSinceBestBlock : option (list text);
  stagingNetUsername : option text;
  transactionsPerBlockEMA : option f64;
  transactionsPerBlockEMSD : option f64;
  bestBlockTransactionsSize : option Z;
  bestBlockTotalEncryptedAmount : option Z;
  bestBlockTotalAmount : option Z;
  bestBlockTransactionCount : option Z;
  bestBlockTransactionEnergyCost : option Z;
  bestBlockExecutionCost : option Z;
  bestBlockCentralBankAmount : option Z;
  blocksReceivedCount : option Z;
  blocksVerifiedCount : option Z;
  genesisBlock : text;
  finalizationCount : option Z;
  finalizedBlockParent : text;
  last_updated : Z;
  averageBytesPerSecondIn : Z;
  averageBytesPerSecondOut : Z;
}.

Definition set_last_updated (t : Z) (i : NodeInfo) : NodeInfo := {|
  nodeName := nodeName i;
  nodeId := nodeId i;
  peerType := peerType i;
  uptime := uptime i;
  client := client i;
  averagePing := averagePing i;
  peersCount := peersCount i;
  peersList := peersList i;
  bestBlock := bestBlock i;
  bestBlockHeight := bestBlockHeight i;
  bestBlockBakerId := bestBlockBakerId i;
  bestArrivedTime := bestArrivedTime i;
  blockArrivePeriodEMA := blockArrivePeriodEMA i;
  blockArrivePeriodEMSD := blockArrivePeriodEMSD i;
  blockArriveLatencyEMA := blockArriveLatencyEMA i;
  blockArriveLatencyEMSD := blockArriveLatencyEMSD i;
  blockReceivePeriodEMA := blockReceivePeriodEMA i;
  blockReceivePeriodEMSD := blockReceivePeriodEMSD i;
  blockReceiveLatencyEMA := blockReceiveLatencyEMA i;
  blockReceiveLatencyEMSD := blockReceiveLatencyEMSD i;
  finalizedBlock := finalizedBlock i;
  finalizedBlockHeight := finalizedBlockHeight i;
  finalizedTime := finalizedTime i;
  finalizationPeriodEMA := finalizationPeriodEMA i;
  finalizationPeriodEMSD := finalizationPeriodEMSD i;
  packetsSent := packetsSent i;
  packetsReceived := packetsReceived i;
  consensusRunning := consensusRunning i;
  bakingCommitteeMember := bakingCommitteeMember i;
  consensusBakerId := consensusBakerId i;
  finalizationCommitteeMember := finalizationCommitteeMember i;
  ancestorsSinceBestBlock := ancestorsSinceBestBlock i;
  stagingNetUsername := stagingNetUsername i;
  transactionsPerBlockEMA := transactionsPerBlockEMA i;
  transactionsPerBlockEMSD := transactionsPerBlockEMSD i;
  bestBlockTransactionsSize := bestBlockTransactionsSize i;
  bestBlockTotalEncryptedAmount := bestBlockTotalEncryptedAmount i;
  bestBlockTotalAmount := bestBlockTotalAmount i;
  bestBlockTransactionCount := bestBlockTransactionCount i;
  bestBlockTransactionEnergyCost := bestBlockTransactionEnergyCost i;
  bestBlockExecutionCost := bestBlockExecutionCost i;
  bestBlockCentralBankAmount := bestBlockCentralBankAmount i;
  blocksReceivedCount := blocksReceivedCount i;
  blocksVerifiedCount := blocksVerifiedCount i;
  genesisBlock := genesisBlock i;
  finalizationCount := finalizationCount i;
  finalizedBlockParent := finalizedBlockParent i;
  last_updated := t;
  averageBytesPerSecondIn := averageBytesPerSecondIn i;
  averageBytesPerSecondOut := averageBytesPerSecondOut i;
|}.

(** The details of [/nodesSummary]. *)
Record NodeInfoDashboard := mkDashboard {
  d_nodeName : text;
  d_nodeId : text;
  d_peerType : text;
  d_uptime : Z;
  d_client : text;
  d_averagePing : option f64;
  d_peersCount : Z;
  d_peersList : list text;
  d_bestBlock : text;
  d_bestBlockHeight : Z;
  d_bestBlockBakerId : option Z;
  d_bestArrivedTime : option text;
  d_blockArrivePeriodEMA : option f64;
  d_blockArrivePeriodEMSD : option f64;
  d_blockArriveLatencyEMA : option f64;
  d_blockArriveLatencyEMSD : option f64;
  d_blockReceivePeriodEMA : option f64;
  d_blockReceivePeriodEMSD : option f64;
  d_blockReceiveLatencyEMA : option f64;
  d_blockReceiveLatencyEMSD : option f64;
  d_finalizedBlock : text;
  d_finalizedBlockHeight : Z;
  d_finalizedTime : option text;
  d_finalizationPeriodEMA : option f64;
  d_finalizationPeriodEMSD : option f64;
  d_packetsSent : Z;
  d_packetsReceived : Z;
  d_consensusRunning : bool;
  d_bakingCommitteeMember : IsInBakingCommittee;
  d_consensusBakerId : option Z;
  d_finalizationCommitteeMember : bool;
  d_transactionsPerBlockEMA : option f64;
  d_transactionsPerBlockEMSD : option f64;
  d_bestBlockTransactionsSize : option Z;
  d_bestBlockTotalEncryptedAmount : option Z;
  d_bestBlockTotalAmount : option Z;
  d_bestBlockTransactionCount : option Z;
  d_bestBlockTransactionEnergyCost : option Z;
  d_bestBlockExecutionCost : option Z;
  d_bestBlockCentralBankAmount : option Z;
  d_blocksReceivedCount : option Z;
  d_blocksVerifiedCount : option Z;
  d_genesisBlock : text;
  d_finalizationCount : option Z;
  d_finalizedBlockParent : text;
  d_averageBytesPerSecondIn : f64;
  d_averageBytesPerSecondOut : f64;
}.

Definition NodeInfoDashboard_from (other : NodeInfo) : NodeInfoDashboard := {|
  d_nodeName := nodeName other;
  d_nodeId := nodeId other;
  d_peerType := peerType other;
  d_uptime := uptime other;
  d_client := client other;
  d_averagePing := averagePing other;
  d_peersCount := peersCount other;
  d_peersList := peersList other;
  d_bestBlock := bestBlock other;
  d_bestBlockHeight := bestBlockHeight other;
  d_bestBlockBakerId := bestBlockBakerId other;
  d_bestArrivedTime := bestArrivedTime other;
  d_blockArrivePeriodEMA := blockArrivePeriodEMA other;
  d_blockArrivePeriodEMSD := blockArrivePeriodEMSD other;
  d_blockArriveLatencyEMA := blockArriveLatencyEMA other;
  d_blockArriveLatencyEMSD := blockArriveLatencyEMSD other;
  d_blockReceivePeriodEMA := blockReceivePeriodEMA other;
  d_blockReceivePeriodEMSD := blockReceivePeriodEMSD other;
  d_blockReceiveLatencyEMA := blockReceiveLatencyEMA other;
  d_blockReceiveLatencyEMSD := blockReceiveLatencyEMSD other;
  d_finalizedBlock := finalizedBlock other;
  d_finalizedBlockHeight := finalizedBlockHeight other;
  d_finalizedTime := finalizedTime other;
  d_finalizationPeriodEMA := finalizationPeriodEMA other;
  d_finalizationPeriodEMSD := finalizationPeriodEMSD other;
  d_packetsSent := packetsSent other;
  d_packetsReceived := packetsReceived other;
  d_consensusRunning := consensusRunning other;
  d_bakingCommitteeMember := bakingCommitteeMember other;
  d_consensusBakerId := consensusBakerId other;
  d_finalizationCommitteeMember := finalizationCommitteeMember other;
  d_transactionsPerBlockEMA := transactionsPerBlockEMA other;
  d_transactionsPerBlockEMSD := transactionsPerBlockEMSD other;
  d_bestBlockTransactionsSize := bestBlockTransactionsSize other;
  d_bestBlockTotalEncryptedAmount := bestBlockTotalEncryptedAmount other;
  d_bestBlockTotalAmount := bestBlockTotalAmount other;
  d_bestBlockTransactionCount := bestBlockTransactionCount other;
  d_bestBlockTransactionEnergyCost := bestBlockTransactionEnergyCost other;
  d_bestBlockExecutionCost := bestBlockExecutionCost other;
  d_bestBlockCentralBankAmount := bestBlockCentralBankAmount other;
  d_blocksReceivedCount := blocksReceivedCount other;
  d_blocksVerifiedCount := blocksVerifiedCount other;
  d_genesisBlock := genesisBlock other;
  d_finalizationCount := finalizationCount other;
  d_finalizedBlockParent := finalizedBlockParent other;
  d_averageBytesPerSecondIn := f64_of_Z (averageBytesPerSecondIn other);
  d_averageBytesPerSecondOut := f64_of_Z (averageBytesPerSecondOut other);
|}.

(** The details of [/nodesBlocksInfo]. *)
Record NodeInfoChainViz := mkChainViz {
  v_nodeName : text;
  v_nodeId : text;
  v_bestBlock : text;
  v_bestBlockHeight : Z;
  v_finalizedBlock : text;
  v_finalizedBlockHeight : Z;
  v_finalizedBlockParent : text;
  v_ancestorsSinceBestBlock : option (list text);
}.

Definition NodeInfoChainViz_from (other : NodeInfo) : NodeInfoChainViz := {|
  v_nodeName := nodeName other;
  v_nodeId := nodeId other;
  v_bestBlock := bestBlock other;
  v_bestBlockHeight := bestBlockHeight other;
  v_finalizedBlock := finalizedBlock other;
  v_finalizedBlockHeight := finalizedBlockHeight other;
  v_finalizedBlockParent := finalizedBlockParent other;
  v_ancestorsSinceBestBlock := ancestorsSinceBestBlock other;
|}.

(** ** Configuration and state *)

Record ValidationConfig := mkValidation {
  valid_content_length : Z;
  valid_node_name_lenght : nat;
  valid_node_average_ping : f64;
  valid_node_peers_count : Z;
  validate_against_average_at : Z;
  percentage_used_for_averages : Z;
  valid_additional_best_block_height : Z;
  valid_additional_finalized_block_height : Z;
}.

Definition validation_defaults : ValidationConfig := {|
  valid_content_length := 100000;
  valid_node_name_lenght := 100;
  valid_node_average_ping := f64_of_Z 150000;
  valid_node_peers_count := 50;
  validate_against_average_at := 20;
  percentage_used_for_averages := 60;
  valid_additional_best_block_height := 1000;
  valid_additional_finalized_block_height := 1000;
|}.

Record CollectorStateData := mkCollector {
  nodes : gmap text NodeInfo;
  banned_versions : list text;
  banned_node_names : list text;
}.

Definition set_nodes (m : gmap text NodeInfo) (s : CollectorStateData) : CollectorStateData :=
  mkCollector m (banned_versions s) (banned_node_names s).

(** ** Averages *)

#[export] Instance Z_le_total : Total Z.le.
Proof. intros x y. lia. Qed.

(** [average_without_outer_values].  A number to include that exceeds the length
    makes the range invalid; zero makes the division panic. *)
Definition average_without_outer_values (values : list Z) (number_to_include : Z) : outcome Z :=
  let sorted := merge_sort Z.le values in
  let len := Z.of_nat (length values) in
  if len <? number_to_include then Panic
  else
    let omitting := len - number_to_include in
    let start := omitting / 2 in
    let included := take (Z.to_nat number_to_include) (drop (Z.to_nat start) sorted) in
    if number_to_include =? 0 then Panic
    else Ok (u64_wrap (foldr Z.add 0 included) / number_to_include).

Section collector.
Context `{HashOrder}.
(** [rmp_serde::decode::from_read]. *)
Variable decode_report : list byte -> option NodeInfo.

(** ** Requests *)

(** The loop that reads the body: [None] is an error of the transport. *)
Fixpoint read_body (content_length : Z) (content : list byte) (pieces : list (option (list byte)))
    : outcome (list byte) :=
  match pieces with
  | [] =>
      _ ← ensure (Z.of_nat (length content) =? content_length) "Invalid body";
      Ok content
  | None :: _ => bail "transport"
  | Some buffer :: pieces' =>
      _ ← ensure (Z.of_nat (length content) + Z.of_nat (length buffer) <=? content_length)
            "Invalid body";
      read_body content_length (content ++ buffer) pieces'
  end.

(** The checks of a report by itself. *)
Definition check_report (conf : ValidationConfig) (s : CollectorStateData) (i : NodeInfo)
    : outcome unit :=
  _ ← ensure (negb (bool_decide (nodeName i = []))) "nodeName cannot be empty";
  _ ← ensure (bool_decide (length (lines (nodeName i)) = 1%nat))
        "nodeName is not allowed to contain line breaks";
  _ ← ensure (negb (bool_decide (nodeId i = []))) "nodeId cannot be empty";
  _ ← ensure (bool_decide (text_len (nodeName i) <= valid_node_name_lenght conf)%nat)
        "nodeName is to long too be considered valid";
  _ ← match averagePing i with
      | Some avg_ping => ensure (SFleb avg_ping (valid_node_average_ping conf))
                           "Average ping is too high to be considered valid"
      | None => Ok tt
      end;
  _ ← ensure (peersCount i <=? valid_node_peers_count conf)
        "peersCount is too high to be considered valid";
  _ ← ensure (negb (bool_decide (client i ∈ banned_versions s))) "node version is banned";
  ensure (negb (bool_decide (trim (nodeName i) ∈ banned_node_names s))) "node name is banned".

(** The checks of a report against those of the other nodes. *)
Definition check_against_average (conf : ValidationConfig) (s : CollectorStateData) (i : NodeInfo)
    : outcome unit :=
  let len := Z.of_nat (size (nodes s)) in
  if validate_against_average_at conf <=? len then
    let number_of_nodes_to_include :=
      u64_wrap (len * percentage_used_for_averages conf) / 100 in
    avg_best ← average_without_outer_values (bestBlockHeight <$> values (nodes s))
                 number_of_nodes_to_include;
    _ ← ensure (bestBlockHeight i
                <=? u64_wrap (avg_best + valid_additional_best_block_height conf))
          "bestBlockHeight is too high above average to be considered valid";
    avg_finalized ← average_without_outer_values (finalizedBlockHeight <$> values (nodes s))
                      number_of_nodes_to_include;
    ensure (finalizedBlockHeight i
            <=? u64_wrap (avg_finalized + valid_additional_finalized_block_height conf))
      "finalizedBlockHeight is too high above average to be considered valid"
  else Ok tt.

(** [nodes_post_handler] up to the last check: the report, if it is accepted.  The lock
    is held for reading in the check against the average, and is released after it. *)
Definition nodes_post_checks (conf : ValidationConfig) (content_length : option Z)
    (pieces : list (option (list byte))) (s : CollectorStateData) : outcome NodeInfo :=
  content_length ← context content_length "Header 'Content-Length' is required";
  _ ← ensure (content_length <=? valid_content_length conf)
        "Content-Length is larger than the limit set by the collector backend";
  body_content ← read_body content_length [] pieces;
  nodes_info ← context (decode_report body_content) "Can't parse client data";
  _ ← check_report conf s nodes_info;
  _ ← check_against_average conf s nodes_info;
  Ok nodes_info.

(** The rest of it: the report is stored with the time. *)
Definition nodes_post_store (now : Z) (nodes_info : NodeInfo) (s : CollectorStateData)
    : CollectorStateData :=
  set_nodes (<[nodeId nodes_info := set_last_updated now nodes_info]> (nodes s)) s.

(** [nodes_post_handler] if nothing comes in between; an error gives the status 400. *)
Definition nodes_post_handler (now : Z) (conf : ValidationConfig) (content_length : option Z)
    (pieces : list (option (list byte))) : M CollectorStateData unit := fun s =>
  match nodes_post_checks conf content_length pieces s with
  | Ok nodes_info => (Ok tt, nodes_post_store now nodes_info s)
  | Err e => (Err e, s)
  | Panic => (Panic, s)
  end.

(** The cleanup thread. *)
Definition cleanup (current_stamp allowed_stale_time : Z) (s : CollectorStateData)
    : CollectorStateData :=
  set_nodes (filter (fun e => current_stamp < u64_wrap (last_updated e.2 + allowed_stale_time))
               (nodes s)) s.

(** ** Requests that are served in parallel *)

(** The state with the reports that handlers have checked and not stored yet. *)
Record Backend := mkBackend {
  data : CollectorStateData;
  checked : gmap nat NodeInfo;
}.

(** What happens, in any order: the handler with the given number checks what it has
    received, or stores the report that it has checked, and the cleanup thread runs. *)
Inductive Activity :=
| Checks (handler : nat) (content_length : option Z) (pieces : list (option (list byte)))
| Stores (handler : nat) (now : Z)
| Cleanup (now allowed_stale_time : Z).

Definition act (conf : ValidationConfig) (b : Backend) (a : Activity) : Backend :=
  match a with
  | Checks handler content_length pieces =>
      match nodes_post_checks conf content_length pieces (data b) with
      | Ok nodes_info => mkBackend (data b) (<[handler := nodes_info]> (checked b))
      | _ => mkBackend (data b) (delete handler (checked b))
      end
  | Stores handler now =>
      match checked b !! handler with
      | Some nodes_info =>
          mkBackend (nodes_post_store now nodes_info (data b)) (delete handler (checked b))
      | None => b
      end
  | Cleanup now allowed => mkBackend (cleanup now allowed (data b)) (checked b)
  end.

(** [nodes_summary] and [nodes_block_info]. *)
Definition json_list {A} (to_json : A -> list byte) (items : list A) : list byte :=
  [Byte.x5b] ++ concat (imap (fun i x => (if decide (i = 0%nat) then [] else [Byte.x2c]) ++ to_json x) items)
  ++ [Byte.x5d].
Definition nodes_summary (to_json : NodeInfoDashboard -> list byte) (s : CollectorStateData)
    : list byte := json_list (to_json ∘ NodeInfoDashboard_from) (values (nodes s)).
Definition nodes_block_info (to_json : NodeInfoChainViz -> list byte) (s : CollectorStateData)
    : list byte := json_list (to_json ∘ NodeInfoChainViz_from) (values (nodes s)).

End collector.
