(* ===== verification/CollectorProps.v ===== *)
(** * Correctness of the collector backend

    The averages resist outliers, every report that is kept was validated, and a
    body is read exactly as long as announced. *)

From stdpp Require Import base tactics list sorting gmap strings option numbers.
From Stdlib Require Import ZArith Floats.SpecFloat.
From S2P Require Import Prelude Text Config Collector.

(** ** Averages *)

Lemma sum_bounds lo hi l :
  Forall (fun v => lo <= v <= hi) l ->
  Z.of_nat (length l) * lo <= foldr Z.add 0 l <= Z.of_nat (length l) * hi.
Proof. induction 1 as [|x l Hx _ IH]; simpl; lia. Qed.

Lemma sum_permutation l k : l ≡ₚ k -> foldr Z.add 0 l = foldr Z.add 0 k.
Proof. induction 1; simpl; lia. Qed.

Lemma sum_app l k : foldr Z.add 0 (l ++ k) = foldr Z.add 0 l + foldr Z.add 0 k.
Proof. induction l; simpl; lia. Qed.

Lemma sum_nonneg l : Forall (fun v => 0 <= v) l -> 0 <= foldr Z.add 0 l.
Proof. induction 1; simpl; lia. Qed.

Lemma filter_length_app {A} (P : A -> Prop) `{!forall x, Decision (P x)} (l k : list A) x :
  Forall P l -> x ∈ k -> P x -> (length l < length (filter P (l ++ k)))%nat.
Proof.
  intros Hl Hx HP. rewrite list.filter_app, length_app.
  assert (E : filter P l = l).
  { induction Hl as [|y l Hy _ IH]; [done|]. by rewrite filter_cons_True, IH. }
  rewrite E.
  assert (Hin : x ∈ filter P k) by (by apply list_elem_of_filter).
  destruct (filter P k); [by apply not_elem_of_nil in Hin|]. simpl. lia.
Qed.

(** The values outside of a range. *)
Definition outside (lo hi : Z) (l : list Z) : list Z := filter (fun v => ~ (lo <= v <= hi)) l.

(** The values of a sorted list between two parts of the given lengths are in
    the range, if not too many values are outside of it. *)
Lemma middle_in_range (lo hi : Z) l1 l2 l3 :
  StronglySorted Z.le (l1 ++ l2 ++ l3) -> (length l1 <= length l3)%nat ->
  (length (outside lo hi (l1 ++ l2 ++ l3)) <= length l1)%nat ->
  Forall (fun v => lo <= v <= hi) l2.
Proof.
  intros Hs Hl Hf. apply list.Forall_forall. intros x Hx.
  destruct (decide (lo <= x <= hi)) as [|Hn]; [done|].
  destruct (decide (x < lo)) as [Hlo|Hhi].
  - assert (Hlt : (length l1 < length (outside lo hi (l1 ++ l2 ++ l3)))%nat); [|lia].
    apply (filter_length_app _ _ _ x); [|set_solver|done].
    apply list.Forall_forall. intros y Hy.
    assert (y <= x); [|lia]. eapply (StronglySorted_app_1_elem_of Z.le); [exact Hs|done|set_solver].
  - assert (Hlt : (length l3 < length (outside lo hi (l3 ++ l1 ++ l2)))%nat).
    { apply (filter_length_app _ _ _ x); [|set_solver|done].
      apply list.Forall_forall. intros y Hy. rewrite app_assoc in Hs.
      assert (x <= y); [|lia]. eapply (StronglySorted_app_1_elem_of Z.le); [exact Hs|set_solver|done]. }
    assert (Hp : l3 ++ l1 ++ l2 ≡ₚ l1 ++ l2 ++ l3) by (by rewrite (Permutation_app_comm l3), app_assoc).
    unfold outside in *. rewrite Hp in Hlt. lia.
Qed.

(** C33: the average of heights cannot be moved by outliers: if no more values lie
    outside of a range than are left out at either end, the average is in the
    range.  It is computed, without a panic, whenever a part of the values is to
    be included and their sum fits 64 bits. *)
Theorem average_resilient values k lo hi :
  0 < k <= Z.of_nat (length values) ->
  Forall (fun v => 0 <= v) values -> foldr Z.add 0 values < 2 ^ 64 ->
  Z.of_nat (length (outside lo hi values)) <= (Z.of_nat (length values) - k) / 2 ->
  exists a, average_without_outer_values values k = Ok a /\ lo <= a <= hi.
Proof.
  intros Hk Hpos Hsum Hout. unfold average_without_outer_values.
  set (sorted := merge_sort Z.le values). set (len := Z.of_nat (length values)) in *.
  assert (Hp : sorted ≡ₚ values) by apply merge_sort_Permutation.
  rewrite (proj2 (Z.ltb_ge _ _)) by lia. rewrite (proj2 (Z.eqb_neq _ _)) by lia. cbn zeta.
  set (start := (len - k) / 2) in *. set (included := take (Z.to_nat k) (drop (Z.to_nat start) sorted)).
  assert (Hstart : 0 <= start /\ 2 * start <= len - k).
  { subst start. pose proof (Z.mul_div_le (len - k) 2). pose proof (Z.div_pos (len - k) 2). lia. }
  assert (Hlen : length sorted = length values) by (by rewrite Hp).
  assert (Hsplit : sorted = take (Z.to_nat start) sorted ++ included
                            ++ drop (Z.to_nat k) (drop (Z.to_nat start) sorted)).
  { subst included. by rewrite take_drop, take_drop. }
  assert (Hin : Forall (fun v => lo <= v <= hi) included).
  { eapply middle_in_range.
    - rewrite <-Hsplit. apply StronglySorted_merge_sort; apply _.
    - rewrite length_take, !length_drop. lia.
    - rewrite <-Hsplit. unfold outside in *. rewrite length_take, Hlen, Hp. lia. }
  assert (Hli : length included = Z.to_nat k).
  { subst included. rewrite length_take, length_drop. lia. }
  pose proof (sum_bounds lo hi included Hin) as Hb. rewrite Hli, Z2Nat.id in Hb by lia.
  rewrite <-Hp in Hpos. rewrite Hsplit, !Forall_app in Hpos. destruct Hpos as (P1 & P2 & P3).
  rewrite <-(sum_permutation _ _ Hp), Hsplit, !sum_app in Hsum.
  apply sum_nonneg in P1, P2, P3. unfold wrap. rewrite Z.mod_small by lia.
  eexists. split; [done|]. split; [apply Z.div_le_lower_bound|apply Z.div_le_upper_bound]; lia.
Qed.

(** ** Requests *)

Section requests.
Context `{HashOrder}.
Variable decode_report : list byte -> option NodeInfo.
Variable conf : ValidationConfig.

(** A body is read if it is exactly as long as announced. *)
Lemma read_body_spec n pieces : forall content body,
  read_body n content pieces = Ok body <->
  exists bufs, pieces = Some <$> bufs /\ body = content ++ concat bufs /\ Z.of_nat (length body) = n.
Proof.
  induction pieces as [|[buf|] pieces IH]; intros content body; simpl.
  - destruct (Z.eqb_spec (Z.of_nat (length content)) n) as [E|E]; simpl.
    + split; [intros [= <-]; exists []; by rewrite app_nil_r|].
      intros ([|b bufs] & Hp & -> & Hn); [|done]. by rewrite app_nil_r.
    + split; [done|]. intros ([|b bufs] & Hp & -> & Hn); [|done]. by rewrite app_nil_r in Hn.
  - destruct (_ <=? n) eqn:Hl; simpl.
    + rewrite IH. split.
      * intros (bufs & -> & -> & Hn). exists (buf :: bufs). by rewrite <-app_assoc in *.
      * intros ([|b bufs] & Hp & -> & Hn); [done|]. injection Hp as -> ->.
        exists bufs. by rewrite <-app_assoc.
    + split; [done|]. intros ([|b bufs] & Hp & -> & Hn); [done|]. injection Hp as -> ->.
      apply Z.leb_gt in Hl. simpl in Hn. rewrite !length_app in Hn. lia.
  - split; [done|]. by intros ([|b bufs] & Hp & _).
Qed.

(** A report that passes the checks by itself. *)
Record report_valid (s : CollectorStateData) (i : NodeInfo) : Prop := {
  rv_name : nodeName i <> [];
  rv_line : length (lines (nodeName i)) = 1%nat;
  rv_id : nodeId i <> [];
  rv_name_len : (text_len (nodeName i) <= valid_node_name_lenght conf)%nat;
  rv_ping p : averagePing i = Some p -> SFleb p (valid_node_average_ping conf) = true;
  rv_peers : peersCount i <= valid_node_peers_count conf;
  rv_version : client i ∉ banned_versions s;
  rv_banned : trim (nodeName i) ∉ banned_node_names s;
}.

Lemma check_report_spec s i : check_report conf s i = Ok tt <-> report_valid s i.
Proof.
  unfold check_report. rewrite !outcome_bind_Ok. split.
  - intros ([] & H1%ensure_Ok & H'). repeat setoid_rewrite outcome_bind_Ok in H'.
    destruct H' as ([] & H2%ensure_Ok & [] & H3%ensure_Ok & [] & H4%ensure_Ok & [] & H5 & [] & H6%ensure_Ok &
      [] & H7%ensure_Ok & H8%ensure_Ok).
    rewrite ?negb_true_iff, ?bool_decide_eq_true, ?bool_decide_eq_false, ?Z.leb_le in *.
    split; try done. intros p E. rewrite E in H5. by apply ensure_Ok in H5.
  - intros [H1 H2 H3 H4 H5 H6 H7 H8].
    exists tt. rewrite ensure_Ok. split; [by apply negb_true_iff, bool_decide_eq_false|].
    rewrite (bool_decide_eq_true_2 _ H2), (bool_decide_eq_false_2 _ H3), (bool_decide_eq_true_2 _ H4),
      (bool_decide_eq_false_2 _ H7), (bool_decide_eq_false_2 _ H8). simpl.
    rewrite (proj2 (Z.leb_le _ _) H6). destruct (averagePing i) as [p|]; [|done].
    by rewrite (H5 p eq_refl).
Qed.

(** The heights of a report are within the limits above the averages of the reports
    that are kept, if these are enough. *)
Definition within_averages (s : CollectorStateData) (i : NodeInfo) : Prop :=
  let len := Z.of_nat (size (nodes s)) in
  let included := u64_wrap (len * percentage_used_for_averages conf) / 100 in
  validate_against_average_at conf <= len ->
  exists best finalized,
    average_without_outer_values (bestBlockHeight <$> values (nodes s)) included = Ok best /\
    average_without_outer_values (finalizedBlockHeight <$> values (nodes s)) included = Ok finalized /\
    bestBlockHeight i <= u64_wrap (best + valid_additional_best_block_height conf) /\
    finalizedBlockHeight i <= u64_wrap (finalized + valid_additional_finalized_block_height conf).

Lemma check_against_average_spec s i :
  check_against_average conf s i = Ok tt <-> within_averages s i.
Proof.
  unfold check_against_average, within_averages. cbn zeta.
  destruct (_ <=? Z.of_nat _) eqn:Hl; [apply Z.leb_le in Hl|apply Z.leb_gt in Hl; split; [lia|done]].
  rewrite outcome_bind_Ok. setoid_rewrite outcome_bind_Ok. setoid_rewrite outcome_bind_Ok.
  setoid_rewrite ensure_Ok. setoid_rewrite Z.leb_le. split.
  - intros (best & Hb & [] & H1 & fin & Hf & H2) _. by exists best, fin.
  - intros Hw. destruct (Hw Hl) as (best & fin & Hb & Hf & H1 & H2).
    exists best. split; [done|]. exists tt. split; [done|]. by exists fin.
Qed.

(** A request is accepted with the report [i] in the state [s]. *)
Record accepted (s : CollectorStateData) (content_length : option Z)
    (pieces : list (option (list byte))) (i : NodeInfo) : Prop := {
  ac_body : exists bufs, pieces = Some <$> bufs /\
    content_length = Some (Z.of_nat (length (concat bufs))) /\
    Z.of_nat (length (concat bufs)) <= valid_content_length conf /\
    decode_report (concat bufs) = Some i;
  ac_valid : report_valid s i;
  ac_averages : within_averages s i;
}.

Lemma nodes_post_checks_spec content_length pieces s i :
  nodes_post_checks decode_report conf content_length pieces s = Ok i <->
  accepted s content_length pieces i.
Proof.
  unfold nodes_post_checks. split.
  - intros E. destruct content_length as [n|]; [|done]. cbn [context mbind outcome_bind] in E.
    apply outcome_bind_Ok in E as ([] & Hn%ensure_Ok%Z.leb_le & E).
    apply outcome_bind_Ok in E as (body & Hb & E).
    apply read_body_spec in Hb as (bufs & -> & -> & <-). simpl in *.
    destruct (decode_report (concat bufs)) as [i'|] eqn:Ed; [|done]. simpl in E.
    apply outcome_bind_Ok in E as ([] & Hc%check_report_spec & E).
    apply outcome_bind_Ok in E as ([] & Ha%check_against_average_spec & [= <-]).
    split; [by exists bufs|done..].
  - intros [(bufs & -> & -> & Hn & Ed) Hc%check_report_spec Ha%check_against_average_spec].
    cbn [context mbind outcome_bind]. rewrite (proj2 (Z.leb_le _ _) Hn). cbn [ensure].
    rewrite (proj2 (read_body_spec _ _ [] (concat bufs))) by (by exists bufs).
    cbn [mbind outcome_bind]. rewrite Ed. cbn [context mbind outcome_bind]. by rewrite Hc, Ha.
Qed.

Definition backend_initial (versions names : list text) : Backend :=
  mkBackend (mkCollector ∅ versions names) ∅.
Notation run := (foldl (act decode_report conf)).

(** In these activities a request with the report [i] is accepted, in the state in
    which it is checked. *)
Definition accepted_in (b : Backend) (acts : list Activity) (i : NodeInfo) : Prop :=
  exists before handler content_length pieces after,
    acts = before ++ Checks handler content_length pieces :: after /\
    accepted (data (run b before)) content_length pieces i.

Lemma accepted_in_snoc b acts a i : accepted_in b acts i -> accepted_in b (acts ++ [a]) i.
Proof.
  intros (p & h & n & ps & q & -> & Ha). exists p, h, n, ps, (q ++ [a]). by rewrite <- app_assoc.
Qed.

Record backend_ok (b0 : Backend) (acts : list Activity) (b : Backend) : Prop := {
  bo_versions : banned_versions (data b) = banned_versions (data b0);
  bo_names : banned_node_names (data b) = banned_node_names (data b0);
  bo_checked h i : checked b !! h = Some i -> accepted_in b0 acts i;
  bo_nodes id j : nodes (data b) !! id = Some j ->
    exists t i, j = set_last_updated t i /\ nodeId i = id /\ accepted_in b0 acts i;
}.

Lemma run_ok versions names acts :
  let b0 := backend_initial versions names in backend_ok b0 acts (run b0 acts).
Proof.
  intros b0. induction acts as [|a acts [Hv Hn Hc Hs]] using rev_ind; [split; done|].
  rewrite foldl_snoc. set (b := run b0 acts) in *.
  assert (Hs' : forall id j, nodes (data b) !! id = Some j ->
    exists t i, j = set_last_updated t i /\ nodeId i = id /\ accepted_in b0 (acts ++ [a]) i).
  { intros id j (t & i & -> & E & Ha)%Hs. eauto 6 using accepted_in_snoc. }
  assert (Hc' : forall h i, checked b !! h = Some i -> accepted_in b0 (acts ++ [a]) i)
    by eauto using accepted_in_snoc.
  destruct a as [h n ps|h now|now allowed]; simpl.
  - destruct (nodes_post_checks _ _ _ _ _) as [i| |] eqn:E; split; try done; cbn [checked];
      [|by intros ? ? [_ ?]%lookup_delete_Some; eauto..].
    intros h' i' [[<- <-]|[_ ?]]%lookup_insert_Some; [|by eauto].
    exists acts, h, n, ps, []. split; [done|]. by apply nodes_post_checks_spec.
  - destruct (checked b !! h) as [i|] eqn:E; [|by split].
    split; try done; cbn [checked data nodes_post_store nodes set_nodes].
    + intros ? ? [_ ?]%lookup_delete_Some. eauto.
    + intros id j [[<- <-]|[_ ?]]%lookup_insert_Some; eauto 6.
  - split; try done. cbn [data cleanup nodes set_nodes].
    intros id j [? _]%map_lookup_filter_Some. eauto.
Qed.

Lemma run_banned versions names acts s :
  s = data (run (backend_initial versions names) acts) ->
  banned_versions s = versions /\ banned_node_names s = names.
Proof. intros ->. by destruct (run_ok versions names acts). Qed.

(** C32: requests are served in parallel, and checking a report and storing it are
    separate steps, between which other reports may be stored and removed.  In any
    order of such steps and of cleanups, each report that the backend keeps is under
    the id that it carries, and was checked before: it was sent in a body exactly as
    long as announced, which is within the limit; it is from a node whose name and
    version are not banned, with a name on one line; its name, ping and number of
    peers are within their limits; and, if there were enough reports when it was
    checked, its heights were within the limits above the averages of those.
    Conversely a report with all this that is stored next is kept.  A cleanup keeps
    exactly the reports that are not stale. *)
Theorem collector_invariant acts versions names :
  let b := run (backend_initial versions names) acts in
  banned_versions (data b) = versions /\ banned_node_names (data b) = names /\
  (forall id j, nodes (data b) !! id = Some j ->
     exists before handler content_length pieces after t i,
       acts = before ++ Checks handler content_length pieces :: after /\
       accepted (data (run (backend_initial versions names) before)) content_length pieces i /\
       j = set_last_updated t i /\ nodeId i = id /\ client i ∉ versions /\ trim (nodeName i) ∉ names) /\
  (forall handler content_length pieces t i, accepted (data b) content_length pieces i ->
     nodes (data (run b [Checks handler content_length pieces; Stores handler t])) =
       <[nodeId i := set_last_updated t i]> (nodes (data b))) /\
  (forall now allowed id j, nodes (data (run b [Cleanup now allowed])) !! id = Some j <->
     nodes (data b) !! id = Some j /\ now < u64_wrap (last_updated j + allowed)).
Proof.
  intros b. destruct (run_ok versions names acts) as [Hv Hn _ Hs]. fold b in Hv, Hn, Hs.
  split_and!; [done|done| | |].
  - intros id j (t & i & -> & E & before & h & n & ps & after & -> & Ha)%Hs.
    exists before, h, n, ps, after, t, i. split_and!; try done.
    + destruct (run_banned versions names before _ eq_refl) as [<- _]. apply (rv_version _ _ (ac_valid _ _ _ _ Ha)).
    + destruct (run_banned versions names before _ eq_refl) as [_ <-]. apply (rv_banned _ _ (ac_valid _ _ _ _ Ha)).
  - intros h n ps t i Ha%nodes_post_checks_spec. simpl. rewrite Ha. cbn [checked].
    by rewrite lookup_insert_eq.
  - intros now allowed id j. cbn [foldl act data cleanup nodes set_nodes].
    rewrite map_lookup_filter_Some. done.
Qed.
End requests.

(** The name of a node may end with a line break. *)
Lemma trailing_line_break_accepted : length (lines (lit "node" ++ [LF])) = 1%nat.
Proof. reflexivity. Qed.

Lemma committee_roundtrip c : committee_deserialize (committee_serialize c) = Ok c.
Proof. by destruct c. Qed.

Module CollectorWitnesses.
#[local] Existing Instance canonical_order.

(** A report that is accepted by a backend with the default configuration. *)
Definition report : NodeInfo :=
  mkNodeInfo (lit "node") (lit "0a") (lit "Node") 5 (lit "6.0.0") (Some (f64_of_Z 20)) 3 [] (lit "9d") 100
    None None None None None None None None None None (lit "9d") 90 None None None 0 0 true
    ActiveInCommittee None false None None None None None None None None None None None None None
    (lit "9d") None (lit "9d") 0 0 0.
Example report_accepted :
  let run := foldl (act (fun _ => Some report) validation_defaults) (backend_initial [] [lit "other"]) in
  nodes (data (run [Checks 0 (Some 1) [Some [Byte.x01]]; Stores 0 7; Checks 1 (Some 2) [Some [Byte.x01]];
                    Cleanup 9 1; Cleanup 7 1])) !! lit "0a" = None /\
  last_updated <$> nodes (data (run [Checks 0 (Some 1) [Some [Byte.x01]]; Checks 1 (Some 1) [Some [Byte.x01]];
                                     Stores 1 7; Stores 0 8; Cleanup 8 1])) !! lit "0a" = Some 8.
Proof. by vm_compute. Qed.

(** Two of six nodes report absurd heights. *)
Lemma average_resilient_witness :
  exists a, average_without_outer_values [99; 1000000; 101; 0; 100; 100] 2 = Ok a /\ 99 <= a <= 101.
Proof.
  apply (average_resilient [99; 1000000; 101; 0; 100; 100] 2 99 101).
  - simpl. lia.
  - repeat constructor; lia.
  - simpl. lia.
  - vm_compute. discriminate.
Defined.
End CollectorWitnesses.
