(* ===== verification/Agent.v ===== *)
(** * The collector

    The program that asks nodes for their state and reports it to the collector
    backend ([collector/src/bin/collector.rs]), and what the backend and the node
    make of it. *)

From stdpp Require Import base tactics list gmap strings option numbers.
From Stdlib Require Import ZArith Floats.SpecFloat.
From S2P Require Import Prelude Text Common Config GrpcTypes Collector.

(** ** Names *)

(** [str::split_whitespace]; [acc] is the word being read, reversed. *)
Fixpoint split_whitespace_from (acc s : text) : list text :=
  match s with
  | [] => match acc with [] => [] | _ => [reverse acc] end
  | c :: s' =>
      if is_whitespace c
      then match acc with [] => [] | _ => [reverse acc] end ++ split_whitespace_from [] s'
      else split_whitespace_from (c :: acc) s'
  end.
Definition split_whitespace : text -> list text := split_whitespace_from [].

(** [[String]::join]. *)
Fixpoint join_with (sep : text) (l : list text) : text :=
  match l with
  | [] => []
  | [x] => x
  | x :: l' => x ++ sep ++ join_with sep l'
  end.

(** [FromStr] and [Display] for [NodeName]. *)
Definition NodeName_from_str (input : text) : list text := split_whitespace input.
Definition NodeName_to_string (name : list text) : text := join_with [32] name.

(** ** Answers of a node

    The messages as they are received; a field that is a message may be missing. *)

Inductive GBakerStatus :=
| GPassiveCommitteeInfo (info : Z)
| GActiveBakerCommitteeInfo
| GActiveFinalizerCommitteeInfo.
Record GBakerConsensusInfo := mkGBaker {
  gb_baker_id : option Z;
  gb_status : option GBakerStatus;
}.
Inductive GConsensusStatus := GNotRunning | GPassive | GActive (info : GBakerConsensusInfo).
Inductive GDetails := GBootstrapper | GNode (consensus_status : option GConsensusStatus).
Record GNetworkInfo := mkGNetwork {
  gn_node_id : option text;
  gn_peer_total_sent : Z;
  gn_peer_total_received : Z;
  gn_avg_bps_in : Z;
  gn_avg_bps_out : Z;
}.
Record GNodeInfo := mkGNodeInfo {
  g_peer_version : text;
  g_peer_uptime : option Z;
  g_network_info : option GNetworkInfo;
  g_details : option GDetails;
}.
(** A peer: its id, and the latency in its network statistics. *)
Record GPeer := mkGPeer { gp_peer_id : option text; gp_latency : option Z }.
Record GConsensusInfo := mkGConsensus {
  gc_best_block : option (list byte);
  gc_genesis_block : option (list byte);
  gc_last_finalized_block : option (list byte);
  gc_best_block_height : option Z;
  gc_last_finalized_block_height : option Z;
  gc_blocks_received_count : Z;
  gc_block_receive_latency_ema : f64;
  gc_block_receive_latency_emsd : f64;
  gc_block_receive_period_ema : option f64;
  gc_block_receive_period_emsd : option f64;
  gc_blocks_verified_count : Z;
  gc_block_arrive_latency_ema : f64;
  gc_block_arrive_latency_emsd : f64;
  gc_block_arrive_period_ema : option f64;
  gc_block_arrive_period_emsd : option f64;
  gc_transactions_per_block_ema : f64;
  gc_transactions_per_block_emsd : f64;
  gc_finalization_count : Z;
  gc_last_finalized_time : option Z;
  gc_finalization_period_ema : option f64;
  gc_finalization_period_emsd : option f64;
}.
Record GBlockInfo := mkGBlock {
  gbl_hash : option (list byte);
  gbl_parent_block : option (list byte);
  gbl_arrive_time : option Z;
  gbl_baker : option Z;
  gbl_transaction_count : Z;
  gbl_transactions_energy_cost : option Z;
  gbl_transactions_size : Z;
}.
Record GTokenomics := mkGTokenomics {
  gt_total_amount : option Z;
  gt_total_encrypted_amount : option Z;
  gt_foundation : option Z;
}.
(** [TokenomicsInfo]; the first version has no [foundation_transaction_rewards]. *)
Inductive GTokenomicsInfo := TokenomicsV0 (t : GTokenomics) | TokenomicsV1 (t : GTokenomics).

(** The node, as a gRPC client sees it. *)
Record GrpcClient := mkClient {
  client_get_node_info : outcome GNodeInfo;
  client_get_peers_info : outcome (list GPeer);
  client_get_consensus_info : outcome GConsensusInfo;
  client_get_block_info : BlockHashInput -> outcome GBlockInfo;
  client_get_tokenomics_info : BlockHashInput -> outcome (option GTokenomicsInfo);
  client_get_ancestors : BlockHashInput -> Z -> outcome (list (list byte));
}.

(** ** Helpers *)

(** [Require::req]. *)
Definition req {A} (o : option A) : outcome A := context o "Missing field in response from Node".

(** [get_block_hash_input]. *)
Definition get_block_hash_input (hash_opt : option (list byte)) : outcome BlockHashInput :=
  hash ← context hash_opt "Invalid hash received from Node"; Ok (Given hash).

(** [checked_div]. *)
Definition is_nan (x : f64) : bool := match x with S754_nan => true | _ => false end.
Definition checked_div (a b : f64) : option f64 :=
  let div := f64_div a b in if negb (is_nan div) then Some div else None.

(** [get_node_baker_info]. *)
Definition get_node_baker_info (node_info : GNodeInfo)
    : outcome (bool * option Z * IsInBakingCommittee * bool) :=
  details ← req (g_details node_info);
  match details with
  | GBootstrapper => Ok (false, None, NotInCommittee, false)
  | GNode status =>
      status ← req status;
      match status with
      | GNotRunning => Ok (false, None, NotInCommittee, false)
      | GPassive => Ok (true, None, NotInCommittee, false)
      | GActive info =>
          baker_id ← req (gb_baker_id info);
          baker_status ← req (gb_status info);
          committee_status ← match baker_status with
                             | GPassiveCommitteeInfo 0 => Ok NotInCommittee
                             | GPassiveCommitteeInfo 1 => Ok AddedButNotActiveInCommittee
                             | GPassiveCommitteeInfo 2 => Ok AddedButWrongKeys
                             | GPassiveCommitteeInfo _ =>
                                 bail "Invalid PassiveCommitteeInfo received from Node"
                             | _ => Ok ActiveInCommittee
                             end;
          let finalization_committee :=
            match baker_status with GActiveFinalizerCommitteeInfo => true | _ => false end in
          Ok (true, Some baker_id, committee_status, finalization_committee)
      end
  end.

Section collect.
(** [hex::encode], and [to_rfc3339_opts] of a time in milliseconds, if there is
    such a time. *)
Variable hex_encode : list byte -> text.
Variable rfc3339 : Z -> option text.

(** [hash_to_hex]. *)
Definition hash_to_hex (x : option (list byte)) : outcome text := hex_encode <$> req x.

(** [from_unix]. *)
Definition from_unix (timestamp : Z) : outcome text :=
  if timestamp <? 2 ^ 63 then context (rfc3339 timestamp) "Invalid timestamp received from Node"
  else bail "out of range integral type conversion attempted".

(** The average latency of the peers whose latency is known. *)
Definition average_ping (latencies : list Z) : option f64 :=
  let valid_latencies := filter (fun x => x <> 0) latencies in
  let latency_sum := f64_of_Z (u64_wrap (foldr Z.add 0 valid_latencies)) in
  checked_div latency_sum (f64_of_Z (Z.of_nat (length valid_latencies))).

(** The part of [collect_data] that asks for the ancestors of the best block that
    are not finalized. *)
Definition ancestors_since_best_block (client : GrpcClient) (consensus : GConsensusInfo)
    : outcome (option (list text)) :=
  best_block_height ← req (gc_best_block_height consensus);
  last_finalized_block_height ← req (gc_last_finalized_block_height consensus);
  if last_finalized_block_height <? best_block_height
  then (fun ancestors : list (list byte) => Some (hex_encode <$> ancestors)) <$>
         client_get_ancestors client Best (best_block_height - last_finalized_block_height)
  else Ok None.

(** [collect_data], once there is a connection. *)
Definition collect_data (node_name : list text) (client : GrpcClient) : outcome NodeInfo :=
  node_info ← client_get_node_info client;
  peers ← client_get_peers_info client;
  consensus ← client_get_consensus_info client;
  best_block ← client_get_block_info client Best;
  finalized_block ← client_get_block_info client LastFinal;
  tokenomics_input ← get_block_hash_input (gbl_hash best_block);
  tokenomics_info ← client_get_tokenomics_info client tokenomics_input;
  latencies ← mapM (fun p => req (gp_latency p)) peers;
  details ← req (g_details node_info);
  let peer_type := match details with GBootstrapper => lit "Bootstrapper" | GNode _ => lit "Node" end in
  peer_list ← mapM (fun p => req (gp_peer_id p)) peers;
  '(consensus_is_running, baker_id, committee_info, final_committee_info) ← get_node_baker_info node_info;
  tokenomics ← req tokenomics_info;
  let '(total_amount, total_encrypted_amount, foundation_amount) :=
    match tokenomics with
    | TokenomicsV0 t => (gt_total_amount t, gt_total_encrypted_amount t, None)
    | TokenomicsV1 t => (gt_total_amount t, gt_total_encrypted_amount t, gt_foundation t)
    end in
  ancestors ← ancestors_since_best_block client consensus;
  network_info ← req (g_network_info node_info);
  node_id ← req (gn_node_id network_info);
  peer_uptime ← req (g_peer_uptime node_info);
  best_block_hex ← hash_to_hex (gc_best_block consensus);
  best_block_height ← req (gc_best_block_height consensus);
  best_arrived_time ← req (gbl_arrive_time best_block) ≫= from_unix;
  finalized_hex ← hash_to_hex (gc_last_finalized_block consensus);
  finalized_height ← req (gc_last_finalized_block_height consensus);
  finalized_time ← match gc_last_finalized_time consensus with
                   | Some t => Some <$> from_unix t
                   | None => Ok None
                   end;
  encrypted_amount ← req total_encrypted_amount;
  amount ← req total_amount;
  energy_cost ← req (gbl_transactions_energy_cost best_block);
  genesis_hex ← hash_to_hex (gc_genesis_block consensus);
  parent_hex ← hash_to_hex (gbl_parent_block finalized_block);
  Ok {|
    nodeName := NodeName_to_string node_name;
    nodeId := node_id;
    peerType := peer_type;
    uptime := peer_uptime;
    Collector.client := g_peer_version node_info;
    averagePing := average_ping latencies;
    peersCount := Z.of_nat (length peers);
    peersList := peer_list;
    bestBlock := best_block_hex;
    bestBlockHeight := best_block_height;
    bestBlockBakerId := gbl_baker best_block;
    bestArrivedTime := Some best_arrived_time;
    blockArrivePeriodEMA := gc_block_arrive_period_ema consensus;
    blockArrivePeriodEMSD := gc_block_arrive_period_emsd consensus;
    blockArriveLatencyEMA := Some (gc_block_arrive_latency_ema consensus);
    blockArriveLatencyEMSD := Some (gc_block_arrive_latency_emsd consensus);
    blockReceivePeriodEMA := gc_block_receive_period_ema consensus;
    blockReceivePeriodEMSD := gc_block_receive_period_emsd consensus;
    blockReceiveLatencyEMA := Some (gc_block_receive_latency_ema consensus);
    blockReceiveLatencyEMSD := Some (gc_block_receive_latency_emsd consensus);
    finalizedBlock := finalized_hex;
    finalizedBlockHeight := finalized_height;
    finalizedTime := finalized_time;
    finalizationPeriodEMA := gc_finalization_period_ema consensus;
    finalizationPeriodEMSD := gc_finalization_period_emsd consensus;
    packetsSent := gn_peer_total_sent network_info;
    packetsReceived := gn_peer_total_received network_info;
    consensusRunning := consensus_is_running;
    bakingCommitteeMember := committee_info;
    consensusBakerId := baker_id;
    finalizationCommitteeMember := final_committee_info;
    ancestorsSinceBestBlock := ancestors;
    stagingNetUsername := None;
    last_updated := 0;
    transactionsPerBlockEMA := Some (gc_transactions_per_block_ema consensus);
    transactionsPerBlockEMSD := Some (gc_transactions_per_block_emsd consensus);
    bestBlockTransactionsSize := Some (gbl_transactions_size best_block);
    bestBlockTotalEncryptedAmount := Some encrypted_amount;
    bestBlockTotalAmount := Some amount;
    bestBlockTransactionCount := Some (gbl_transaction_count best_block);
    bestBlockTransactionEnergyCost := Some energy_cost;
    bestBlockExecutionCost := None;
    bestBlockCentralBankAmount := foundation_amount;
    blocksReceivedCount := Some (gc_blocks_received_count consensus);
    blocksVerifiedCount := Some (gc_blocks_verified_count consensus);
    finalizationCount := Some (gc_finalization_count consensus);
    genesisBlock := genesis_hex;
    averageBytesPerSecondIn := gn_avg_bps_in network_info;
    averageBytesPerSecondOut := gn_avg_bps_out network_info;
    finalizedBlockParent := parent_hex;
  |}.

(** ** The loop of [main] *)

(** [exit(1)] unless there is a name for each host. *)
Definition names_match (node_names : list (list text)) (grpc_hosts : list text) : bool :=
  bool_decide (length node_names = length grpc_hosts).

(** The reports that are posted in one round; [connect] gives the client of a host,
    [encode] is that of [rmp_serde], and a client for HTTP may not be available.
    An error concerns one node only. *)
Definition collect_round (connect : text -> outcome GrpcClient) (encode : NodeInfo -> option (list byte))
    (http_client : bool) (node_names : list (list text)) (grpc_hosts : list text) : list (list byte) :=
  omap (fun '(node_name, grpc_host) =>
          match (c ← connect grpc_host; collect_data node_name c) with
          | Ok node_info => if http_client then encode node_info else None
          | _ => None
          end) (zip node_names grpc_hosts).
End collect.
