(* ===== verification/AgentProps.v ===== *)
(** * The collector: theorems

    What the collector reports of a node is what the node says, and it passes the
    backend's checks of form. *)

From Stdlib Require Import ZArith Floats.SpecFloat.
From stdpp Require Import base tactics list gmap strings option numbers.
From S2P Require Import Prelude Text Common IpText Helpers LowLevel Wire Conn Buckets CatchUp Queues.
From S2P Require Import QueuesProps Config Container GrpcTypes GrpcTransactions Bans Node Callbacks Queries.
From S2P Require Import Connectivity Consensus Handlers Maintenance Grpc Collector Agent.

(** ** Names *)

Definition word (w : text) : Prop := w <> [] /\ Forall (fun c => is_whitespace c = false) w.

Lemma reverse_nil_inv {A} (l : list A) : reverse l = [] -> l = [].
Proof. intros E%(f_equal length). rewrite length_reverse in E. by destruct l. Qed.

Lemma split_from_words acc s :
  Forall (fun c => is_whitespace c = false) acc -> Forall word (split_whitespace_from acc s).
Proof.
  revert acc. induction s as [|c s IH]; intros acc Hacc; cbn [split_whitespace_from].
  - destruct acc as [|a acc]; constructor; [|done]. split.
    + by intros ?%reverse_nil_inv.
    + by apply Forall_reverse.
  - destruct (is_whitespace c) eqn:Ec; [|apply IH; by constructor].
    apply Forall_app. split; [|by apply IH]. destruct acc as [|a acc]; constructor; [|done]. split.
    + by intros ?%reverse_nil_inv.
    + by apply Forall_reverse.
Qed.
Lemma split_words s : Forall word (split_whitespace s).
Proof. by apply split_from_words. Qed.

Lemma split_from_word acc w rest :
  Forall (fun c => is_whitespace c = false) w ->
  split_whitespace_from acc (w ++ rest) = split_whitespace_from (reverse w ++ acc) rest.
Proof.
  intros Hw. revert acc. induction Hw as [|c w Hc _ IH]; intros acc; [done|].
  cbn [app split_whitespace_from]. rewrite Hc, IH, reverse_cons. by rewrite <- app_assoc.
Qed.
Lemma split_join ws : Forall word ws -> split_whitespace (join_with [32] ws) = ws.
Proof.
  induction 1 as [|w ws [Hne Hw] Hws IH]; [done|]. unfold split_whitespace.
  assert (Hr : match reverse w ++ [] with [] => [] | _ => [reverse (reverse w ++ [])] end = [w]).
  { rewrite app_nil_r, reverse_involutive. destruct (reverse w) eqn:E; [|done].
    by apply reverse_nil_inv in E. }
  destruct ws as [|w' ws].
  - cbn [join_with]. rewrite <- (app_nil_r w) at 1. rewrite split_from_word by done.
    cbn [split_whitespace_from]. exact Hr.
  - change (join_with [32] (w :: w' :: ws)) with (w ++ 32 :: join_with [32] (w' :: ws)).
    rewrite split_from_word by done. cbn [split_whitespace_from]. change (is_whitespace 32) with true.
    cbn match. fold (split_whitespace (join_with [32] (w' :: ws))). by rewrite IH, Hr.
Qed.

Lemma split_from_nonblank acc s :
  split_whitespace_from acc s = [] <-> acc = [] /\ Forall (fun c => is_whitespace c = true) s.
Proof.
  revert acc. induction s as [|c s IH]; intros acc; cbn [split_whitespace_from].
  - destruct acc; naive_solver.
  - destruct (is_whitespace c) eqn:Ec.
    + split.
      * intros [Ha Hs]%app_eq_nil. apply IH in Hs as [_ Hs]. split; [by destruct acc|by constructor].
      * intros [-> Hs]. inversion Hs. by apply IH.
    + split.
      * by intros [? _]%IH.
      * intros [_ Hs]. inversion Hs. congruence.
Qed.

Lemma join_no_breaks ws : Forall word ws -> LF ∉ join_with [32] ws.
Proof.
  assert (Hw : forall w, word w -> LF ∉ w).
  { intros w [_ Hw] Hin. rewrite list.Forall_forall in Hw. by specialize (Hw _ Hin). }
  induction 1 as [|w ws Hwd Hws IH]; [apply not_elem_of_nil|]. destruct ws as [|w' ws]; [by apply Hw|].
  change (join_with [32] (w :: w' :: ws)) with (w ++ [32] ++ join_with [32] (w' :: ws)).
  rewrite !not_elem_of_app. split_and!; [by apply Hw|by intros [=]%list_elem_of_singleton|done].
Qed.

(** One line. *)
Lemma lines_from_one acc s :
  LF ∉ s -> acc ++ s <> [] -> length (lines_from acc s) = 1%nat.
Proof.
  revert acc. induction s as [|c s IH]; intros acc Hs Hne; cbn [lines_from].
  - by destruct acc.
  - rewrite decide_False by (intros ->; set_solver). apply IH; [set_solver|done].
Qed.

(** Neither the first nor the last character is white space. *)
Definition tight (s : text) : Prop :=
  (forall c, head s = Some c -> is_whitespace c = false) /\
  (forall c, list.last s = Some c -> is_whitespace c = false).
Lemma trim_start_tight s : (forall c, head s = Some c -> is_whitespace c = false) -> trim_start s = s.
Proof. destruct s as [|c s]; [done|]. intros Hc. cbn [trim_start]. by rewrite (Hc c eq_refl). Qed.
Lemma trim_tight s : tight s -> trim s = s.
Proof.
  intros [Hh Hl]. unfold trim. rewrite (trim_start_tight s) by done.
  rewrite (trim_start_tight (reverse s)); [apply reverse_involutive|].
  intros c Hc. apply Hl. by rewrite <- head_reverse.
Qed.

Lemma word_chars w c : word w -> c ∈ w -> is_whitespace c = false.
Proof. intros [_ Hw]. rewrite list.Forall_forall in Hw. apply Hw. Qed.
Lemma join_tight ws : Forall word ws -> ws <> [] -> join_with [32] ws <> [] /\ tight (join_with [32] ws).
Proof.
  induction 1 as [|w ws Hw Hws IH]; [done|]. intros _. destruct ws as [|w' ws].
  - split; [apply Hw|]. cbn [join_with]. split; intros c Hc.
    + apply (word_chars w); [done|]. destruct w; simplify_eq/=. by left.
    + apply (word_chars w); [done|]. apply last_Some_elem_of in Hc. done.
  - change (join_with [32] (w :: w' :: ws)) with (w ++ [32] ++ join_with [32] (w' :: ws)).
    destruct IH as [Hne [_ Hl]]; [done|]. split; [by destruct w|]. split; intros c Hc.
    + destruct Hw as [Hn Hw]. destruct w; [done|]. simplify_eq/=. by inversion Hw.
    + apply Hl. rewrite app_assoc, last_app in Hc.
      destruct (list.last (join_with [32] (w' :: ws))) eqn:E; [done|]. by apply last_None in E.
Qed.

(** ** Reports *)

(** The node of a report has a name that is not blank, and an id. *)
Lemma check_report_form node_name r conf st :
  node_name <> [] -> Forall word node_name -> nodeName r = NodeName_to_string node_name ->
  nodeId r <> [] ->
  check_report conf st r =
    (_ ← ensure (bool_decide (text_len (nodeName r) <= valid_node_name_lenght conf)%nat)
           "nodeName is to long too be considered valid";
     _ ← match averagePing r with
         | Some avg_ping => ensure (SFleb avg_ping (valid_node_average_ping conf))
                              "Average ping is too high to be considered valid"
         | None => Ok tt
         end;
     _ ← ensure (peersCount r <=? valid_node_peers_count conf)
           "peersCount is too high to be considered valid";
     _ ← ensure (negb (bool_decide (client r ∈ banned_versions st))) "node version is banned";
     ensure (negb (bool_decide (nodeName r ∈ banned_node_names st))) "node name is banned").
Proof.
  intros Hne Hws En Hid. destruct (join_tight node_name Hws Hne) as [Hn Ht].
  unfold check_report. rewrite trim_tight by by rewrite En.
  rewrite (bool_decide_eq_false_2 (nodeName r = [])) by by rewrite En.
  rewrite (bool_decide_eq_true_2 (length _ = _)).
  2:{ rewrite En. apply (lines_from_one []); [by apply join_no_breaks|done]. }
  by rewrite (bool_decide_eq_false_2 (nodeId r = [])).
Qed.

(** ** From the node to the report *)

(** What a client receives of what the server sends: a string is its characters,
    and [code] numbers the values of [PassiveCommitteeInfo] in the schema. *)
Definition chars (l : list Ascii.ascii) : text := Z.of_nat ∘ Ascii.nat_of_ascii <$> l.
Definition sent_status (code : BakingCommitteeResponse -> Z) (s : BakerStatus) : GBakerStatus :=
  match s with
  | PassiveCommitteeInfo why => GPassiveCommitteeInfo (code why)
  | ActiveBakerCommitteeInfo => GActiveBakerCommitteeInfo
  | ActiveFinalizerCommitteeInfo => GActiveFinalizerCommitteeInfo
  end.
Definition sent_details (code : BakingCommitteeResponse -> Z) (d : NodeDetails) : GDetails :=
  match d with
  | DetailsBootstrapper => GBootstrapper
  | DetailsNode StatusNotRunning => GNode (Some GNotRunning)
  | DetailsNode StatusPassive => GNode (Some GPassive)
  | DetailsNode (StatusActive bid status) =>
      GNode (Some (GActive (mkGBaker (Some bid) (Some (sent_status code status)))))
  end.
Definition sent_node_info (version : text) (code : BakingCommitteeResponse -> Z) (i : Grpc.NodeInfo)
    : GNodeInfo :=
  mkGNodeInfo version (Some (ni_peer_uptime i))
    (Some (mkGNetwork (Some (chars (ni_node_id i))) (ni_peer_total_sent i) (ni_peer_total_received i)
             (ni_avg_bps_in i) (ni_avg_bps_out i)))
    (Some (sent_details code (ni_details i))).
Definition sent_peers (peers : list PeerInfo) : list GPeer :=
  (fun p => mkGPeer (Some (chars (pi_peer_id p))) (Some (pi_latency p))) <$> peers.

(** The numbers that the collector expects. *)
Record schema (code : BakingCommitteeResponse -> Z) : Prop := {
  schema_not : code Helpers.NotInCommittee = 0;
  schema_added : code Helpers.AddedButNotActiveInCommittee = 1;
  schema_wrong : code Helpers.AddedButWrongKeys = 2;
}.

Definition member (r : BakingCommitteeResponse) : IsInBakingCommittee :=
  match r with
  | Helpers.ActiveInCommittee => ActiveInCommittee
  | Helpers.NotInCommittee => NotInCommittee
  | Helpers.AddedButNotActiveInCommittee => AddedButNotActiveInCommittee
  | Helpers.AddedButWrongKeys => AddedButWrongKeys
  end.

Section reports.
Context `{External} `{ConsensusRuntime}.

(** What consensus says of the role of the node. *)
Definition role (n : P2PNode) (c : ConsensusContainer) (running : bool) (baker_id : option Z)
    (committee : IsInBakingCommittee) (finalizer : bool) : Prop :=
  match node_type n, is_consensus_running c, consensus_type c with
  | Node, Ok true, Active =>
      running = true /\ exists status has bid power,
        in_baking_committee c = Ok (status, has, bid, power) /\ baker_id = Some bid /\
        committee = member status /\
        (finalizer = true <->
           status = Helpers.ActiveInCommittee /\ in_finalization_committee c = Ok true)
  | Node, Ok true, Passive =>
      running = true /\ baker_id = None /\ committee = NotInCommittee /\ finalizer = false
  | _, _, _ => running = false /\ baker_id = None /\ committee = NotInCommittee /\ finalizer = false
  end.

Lemma baker_info_role code n c version info :
  schema code -> node_details n c = Ok (ni_details info) ->
  exists running baker_id committee finalizer,
    get_node_baker_info (sent_node_info version code info) = Ok (running, baker_id, committee, finalizer) /\
    role n c running baker_id committee finalizer.
Proof.
  intros [S0 S1 S2]. unfold get_node_baker_info, sent_node_info, role. cbn [g_details req context].
  generalize (ni_details info). intros d Hd. unfold node_details, consensus_status in Hd.
  destruct (node_type n); [|simplify_eq/=; by do 4 eexists; split; [reflexivity|]].
  destruct (is_consensus_running c) as [[]| |]; simplify_eq/=; [|by do 4 eexists; split; [reflexivity|]].
  destruct (consensus_type c); simplify_eq/=; [|by do 4 eexists; split; [reflexivity|]].
  destruct (in_baking_committee c) as [[[[status has] bid] power]| |]; simplify_eq/=.
  destruct status; simplify_eq/=; rewrite ?S0, ?S1, ?S2;
    try (do 4 eexists; split; [done|]; split; [done|]; do 4 eexists; split_and!; [done..|naive_solver]).
  destruct (in_finalization_committee c) as [[]| |]; simplify_eq/=;
    (do 4 eexists; split; [done|]; split; [done|]; do 4 eexists; split_and!; [done..|naive_solver]).
Qed.

Lemma bind_Ok {A B} (o : outcome A) (k : A -> outcome B) b :
  (o ≫= k) = Ok b -> exists a, o = Ok a /\ k a = Ok b.
Proof. destruct o; simpl; [eauto|done..]. Qed.
Lemma mapM_peer_ids peers :
  mapM (fun p => req (gp_peer_id p)) (sent_peers peers) = Ok (chars ∘ pi_peer_id <$> peers).
Proof.
  induction peers as [|p peers IH]; [done|]. unfold sent_peers in *. rewrite !fmap_cons. cbn [mapM].
  by rewrite IH.
Qed.

(** The fields of a report that come from the node itself. *)
Lemma collect_data_fields hex rfc node_name client info peers r :
  client_get_node_info client = Ok info -> client_get_peers_info client = Ok (sent_peers peers) ->
  collect_data hex rfc node_name client = Ok r ->
  nodeName r = NodeName_to_string node_name /\
  (n ← req (g_network_info info); req (gn_node_id n)) = Ok (nodeId r) /\
  peersCount r = Z.of_nat (length peers) /\ peersList r = (chars ∘ pi_peer_id <$> peers) /\
  get_node_baker_info info =
    Ok (consensusRunning r, consensusBakerId r, bakingCommitteeMember r, finalizationCommitteeMember r).
Proof.
  intros Ei Ep. unfold collect_data. rewrite Ei, Ep. cbn [mbind outcome_bind].
  intros (consensus & _ & E)%bind_Ok. apply bind_Ok in E as (best & _ & E).
  apply bind_Ok in E as (fin & _ & E). apply bind_Ok in E as (input & _ & E).
  apply bind_Ok in E as (tok & _ & E). apply bind_Ok in E as (lat & _ & E).
  apply bind_Ok in E as (details & _ & E). apply bind_Ok in E as (ids & Eids & E).
  rewrite mapM_peer_ids in Eids. injection Eids as <-.
  apply bind_Ok in E as ([[[running bid] committee] finalizer] & Eb & E). rewrite Eb. cbn beta in E.
  apply bind_Ok in E as (tokenomics & _ & E).
  destruct (match tokenomics with TokenomicsV0 t => _ | TokenomicsV1 t => _ end)
    as [[total encrypted] foundation].
  apply bind_Ok in E as (anc & _ & E). apply bind_Ok in E as (net & En & E).
  apply bind_Ok in E as (nid & Enid & E). rewrite En. cbn [mbind outcome_bind]. rewrite Enid.
  do 12 (apply bind_Ok in E as (? & _ & E)). injection E as <-.
  cbn [nodeName nodeId peersCount peersList consensusRunning consensusBakerId bakingCommitteeMember
       finalizationCommitteeMember].
  unfold sent_peers. by rewrite length_fmap.
Qed.

Context `{ChainTypes} `{ConcordiumBase} `{Metadata}.

Lemma get_node_info_fields rpc now s ni s' :
  get_node_info rpc now s = (Ok ni, s') ->
  ni_node_id ni = fmt_016x (node_id (p2p s)) /\ node_details (p2p s) (container s) = Ok (ni_details ni).
Proof.
  unfold get_node_info, enabled. destruct (service_config rpc _); [|done].
  unfold mbind, M_bind, get, lift, mret, M_ret. destruct (now <? 0); [done|].
  destruct (node_details (p2p s) (container s)) as [d| |]; [|done..].
  intros E. injection E as <- <-. done.
Qed.

Lemma get_peers_info_length rpc s ps s' :
  get_peers_info rpc s = (Ok ps, s') ->
  exists stats, get_peer_stats None (p2p s) = Ok stats /\ length ps = length stats.
Proof.
  unfold get_peers_info, enabled. destruct (service_config rpc _); [|done].
  unfold mbind, M_bind, get, lift, mret, M_ret. destruct (get_peer_stats None (p2p s)) as [stats| |];
    [|done..]. intros [= <- _]. exists stats. by rewrite length_fmap.
Qed.

Lemma fmt_016x_not_nil z : fmt_016x z <> [].
Proof.
  intros E%(f_equal length). unfold fmt_016x in E. rewrite length_hex_digits in E. simpl in E. lia.
Qed.

(** Whether a report is within the limits of the backend. *)
Definition within_limits (conf : ValidationConfig) (st : CollectorStateData) (r : Collector.NodeInfo) : Prop :=
  (text_len (nodeName r) <= valid_node_name_lenght conf)%nat /\
  (forall avg_ping, averagePing r = Some avg_ping -> SFleb avg_ping (valid_node_average_ping conf) = true) /\
  peersCount r <= valid_node_peers_count conf /\
  (client r ∉ banned_versions st) /\ (nodeName r ∉ banned_node_names st).

Lemma ensure_ok_bind {A} b what (k : unit -> outcome A) :
  is_ok (ensure b what ≫= k) = true <-> b = true /\ is_ok (k tt) = true.
Proof. by destruct b; naive_solver. Qed.
Lemma check_report_within node_name r conf st :
  node_name <> [] -> Forall word node_name -> nodeName r = NodeName_to_string node_name ->
  nodeId r <> [] -> (is_ok (check_report conf st r) = true <-> within_limits conf st r).
Proof.
  intros Hne Hws En Hid. rewrite (check_report_form node_name) by done. unfold within_limits.
  rewrite ensure_ok_bind, bool_decide_eq_true. apply and_iff_compat_l.
  assert (Hlast : is_ok (ensure (negb (bool_decide (nodeName r ∈ banned_node_names st)))
                           "node name is banned") = true <-> nodeName r ∉ banned_node_names st).
  { by case_bool_decide. }
  destruct (averagePing r) as [p|]; [rewrite ensure_ok_bind|cbn [mbind outcome_bind]];
    rewrite !ensure_ok_bind, Hlast, negb_true_iff, bool_decide_eq_false, Z.leb_le; naive_solver.
Qed.

(** C31: from the node to the backend.  What the collector reports of a node is
    what the node says of itself: its id, the number of its peers, and whether it
    runs, bakes and finalizes as its consensus has it.  A name that is not blank
    keeps its words, and such a report is rejected by the backend's checks of a
    single report only if it exceeds their limits or is banned. *)
Theorem report_of_node hex rfc version code rpc now s ni ps s1 s2 client input r conf st :
  schema code -> get_node_info rpc now s = (Ok ni, s1) -> get_peers_info rpc s = (Ok ps, s2) ->
  client_get_node_info client = Ok (sent_node_info version code ni) ->
  client_get_peers_info client = Ok (sent_peers ps) ->
  NodeName_from_str input <> [] ->
  collect_data hex rfc (NodeName_from_str input) client = Ok r ->
  nodeId r = chars (fmt_016x (node_id (p2p s))) /\
  (exists stats, get_peer_stats None (p2p s) = Ok stats /\
     peersCount r = Z.of_nat (length stats)) /\
  role (p2p s) (container s) (consensusRunning r) (consensusBakerId r) (bakingCommitteeMember r)
    (finalizationCommitteeMember r) /\
  NodeName_from_str (nodeName r) = NodeName_from_str input /\
  (is_ok (check_report conf st r) = true <-> within_limits conf st r).
Proof.
  intros Hs Hni Hps Ei Ep Hne Hr. apply get_peers_info_length in Hps as (stats & Hstats & Hlen). apply get_node_info_fields in Hni as [Eid Ed].
  destruct (collect_data_fields _ _ _ _ _ _ _ Ei Ep Hr) as (En & Hid & Hc & _ & Hb).
  cbn in Hid. injection Hid as Hid. rewrite Eid in Hid.
  destruct (baker_info_role code _ _ version ni Hs Ed) as (? & ? & ? & ? & Hb' & Hrole).
  rewrite Hb in Hb'. injection Hb' as <- <- <- <-.
  rewrite Hlen in Hc. split_and!; [done|by exists stats|done| |].
  - rewrite En. apply split_join, split_words.
  - apply (check_report_within (NodeName_from_str input)); [done|apply split_words|done|].
    rewrite <- Hid. intros ?%fmap_nil_inv. by eapply fmt_016x_not_nil.
Qed.
End reports.
