(* ===== verification/GrpcWitnesses.v ===== *)
(** * Instances of the gRPC theorems

    Concrete instances of what the gRPC server and the collector use, and runs at
    which their theorems apply. *)

From stdpp Require Import base tactics list gmap strings option numbers relations vector.
From Stdlib Require Import ZArith Floats.SpecFloat.
From S2P Require Import Prelude Text Common IpText Helpers LowLevel Wire Conn Buckets CatchUp Queues.
From S2P Require Import QueuesProps Config Container GrpcTypes GrpcTransactions Bans BansProps Node.
From S2P Require Import Callbacks Queries QueriesProps Connectivity Consensus CallbacksProps Handlers.
From S2P Require Import Maintenance Grpc GrpcServer NodeInv NodeSteps NodeProps GrpcProps GrpcEffects.
From S2P Require Import NodeWitnesses Collector Agent AgentProps.

#[local] Existing Instances sample sample_channels sample_formats sample_store counting_runtime.
#[local] Existing Instance BansWitnesses.mem_rkv_laws.

(** ** Libraries *)

#[local] Instance sample_chain : ChainTypes := {|
  GlobalContext := unit;
  genesis_string _ := [];
  bulletproof_generators _ := [];
  on_chain_commitment_key _ := [];
  PersistentState := unit;
  state_lookup _ _ := None;
  state_items _ := [];
|}.

#[local] Instance sample_concordium_base : ConcordiumBase := {|
  EncodedPayload := list byte;
  encoded_payload_try_from l := Some l;
  encode _ := [];
  payload_bytes l := l;
  contract_name_valid _ := true;
  owned_receive_name_valid _ := true;
  parameter_valid _ := true;
  memo_valid _ := true;
  registered_data_valid _ := true;
  version_0 := [Byte.x00];
  serial_account_transaction _ _ l := Byte.x00 :: l;
  serial_transaction_time t := be_bytes 8 t;
  serial_update_header _ := [];
  serial_update_signatures _ := [];
  compute_transaction_sign_hash _ l := l;
|}.

#[local] Instance sample_metadata : Metadata := {|
  hex_encode l := byte_to_Z <$> l;
  metadata_value t := Some t;
|}.

Lemma octets_vec_safe n l : BansWitnesses.octets_vec n l <> Panic.
Proof.
  revert l. induction n as [|n IH]; intros [|b l]; try done. cbn.
  specialize (IH l). by destruct (BansWitnesses.octets_vec n l) as [[]| |].
Qed.
Lemma parse_octets_safe l : BansWitnesses.parse_octets l <> Panic.
Proof.
  destruct l as [|tag rest]; [done|]. unfold BansWitnesses.parse_octets.
  pose proof (octets_vec_safe 4 rest). pose proof (octets_vec_safe 16 rest).
  by destruct (decide _), (BansWitnesses.octets_vec 4 rest) as [[]| |],
    (BansWitnesses.octets_vec 16 rest) as [[]| |].
Qed.
#[local] Instance sample_read_safe : RkvReadSafe.
Proof.
  split; [done|done| |exact parse_octets_safe].
  intros s r l entry El Hin. simpl in El. injection El as <-.
  apply list_elem_of_fmap in Hin as (k & -> & _). done.
Qed.

(** A library that accepts everything, and counts the calls that it is not to get:
    those with more energy than 10. *)
Definition sample_ffi (c : ffi_call) (r : Runner) : Answer * Runner :=
  ({| ret_code := 0; out_hash := [Byte.x2a]; out_data := []; out_crypto := None; out_v1 := None;
      out_handle := 1%positive |},
   match metered c with Some e => if 10 <? e then S r else r | None => r end).

Definition untouched (r : Runner) : Prop := r = 0%nat.
Lemma sample_ffi_kept c r : allowed 10 c -> untouched r -> untouched (sample_ffi c r).2.
Proof.
  intros [_ He] ->. unfold untouched, sample_ffi. cbn [snd]. destruct (metered c) as [e|]; [|done].
  by rewrite (proj2 (Z.ltb_ge 10 e) (He e eq_refl)).
Qed.
Lemma sample_protocol : speaks_protocol sample_ffi.
Proof. split; [done|by right|by left|done]. Qed.

Definition sample_rpc : RpcConfig := mkRpcConfig new_all_enabled 10 10 1000 0.
Definition no_shutdown_rpc : RpcConfig :=
  mkRpcConfig (fun e => match e with Endpoint.shutdown => false | _ => true end) 10 10 1000 0.
Definition sample_server : Server :=
  mkServer example_container (mkStreams ∅ ∅) node [] [] (Some 1%nat) ∅.

(** ** Requests *)

Lemma disabled_endpoint_inert_witness :
  service_config no_shutdown_rpc Endpoint.shutdown = false /\
  exists what, serve sample_ffi no_shutdown_rpc ReqShutdown sample_server =
    Some (fail_with Code.Unimplemented what, sample_server).
Proof.
  split; [reflexivity|].
  apply (disabled_endpoint_inert sample_ffi no_shutdown_rpc ReqShutdown sample_server). reflexivity.
Defined.

(** A dry run is started, an address is banned, and the session is polled. *)
Definition after_requests : Server :=
  let s1 := from_option snd sample_server (serve sample_ffi sample_rpc (ReqDryRun 1) sample_server) in
  let s2 := from_option snd s1
              (serve sample_ffi sample_rpc (ReqBanPeer (Some (ip_to_string peer_ip))) s1) in
  (dry_run_poll_next sample_ffi 1 true InputPending s2).2.

Lemma rpc_safe_witness :
  server_ok untouched after_requests /\
  dr_done <$> dry_runs after_requests !! 1%positive = Some true.
Proof.
  split; [|vm_compute; reflexivity].
  refine (proj1 (rpc_safe sample_ffi sample_rpc untouched sample_ffi_kept
                   sample_protocol sample_server after_requests _ _)).
  - split; [apply node_is_ok|reflexivity].
  - eapply rtc_l; [eapply (rs_serve _ _ _ (ReqDryRun 1)); [done|reflexivity]|].
    eapply rtc_l; [eapply (rs_serve _ _ _ (ReqBanPeer (Some (ip_to_string peer_ip)))); [done|reflexivity]|].
    apply rtc_once, (rs_poll _ _ _ 1 true InputPending).
Defined.

(** The only permit is taken, and is back after the session is dropped. *)
Lemma dry_run_sessions_witness :
  let s1 := from_option snd sample_server (serve sample_ffi sample_rpc (ReqDryRun 1) sample_server) in
  let s2 := (dry_run_stream_drop sample_ffi 1 s1).2 in
  (size (dry_runs s1) = 1%nat /\
   (dry_run sample_ffi sample_rpc 2 s1).1 =
     fail_with Code.ResourceExhausted "Too many concurrent `DryRun` requests") /\
  is_ok (dry_run sample_ffi sample_rpc 2 s2).1 = true.
Proof.
  intros s1 s2.
  assert (Hs1 : session_step sample_ffi sample_rpc sample_server s1).
  { eapply (ss_serve _ _ (ReqDryRun 1)); [by intros id [= <-]|reflexivity]. }
  split.
  - split; [reflexivity|].
    exact (proj2 (dry_run_sessions sample_ffi sample_rpc 1 sample_server s1 2 eq_refl eq_refl eq_refl
                    (rtc_once _ _ Hs1))).
  - refine (proj1 (proj2 (dry_run_sessions sample_ffi sample_rpc 1 sample_server s2 2 eq_refl eq_refl
                            eq_refl _))).
    eapply rtc_l; [exact Hs1|]. apply rtc_once, ss_drop.
Defined.

(** ** Blocks *)

Definition sample_notices : list Notice :=
  [mkNotice 5 0 [Byte.x01] 1 0; mkNotice 6 1 [Byte.x01] 1 0; mkNotice 7 0 [Byte.x02] 2 1].
Definition sample_context : NotificationContext :=
  mkContext (Some (mkNotifications [] true)) (Some (mkNotifications [] true)) 0 0 0 0 0 0.

(** Of three clients one is too slow for the second block, and one has gone. *)
Definition sample_answers (busy : TrySend) (id : positive) : TrySend :=
  match id with 1%positive => Sent | 2%positive => busy | _ => Disconnected end.

Lemma announced_blocks_relayed_witness :
  let blocks := [(sample_answers Sent, [Byte.x01]); (sample_answers Full, [Byte.x02])] in
  let clients := [Grpc.mkClient 1 []; Grpc.mkClient 2 []; Grpc.mkClient 3 []] in
  relay_task blocks clients = omap (client_after blocks) clients /\
  relay_task blocks clients =
    [Grpc.mkClient 1 [[Byte.x01]; [Byte.x02]]; Grpc.mkClient 2 [[Byte.x01]]].
Proof.
  intros blocks clients. split; [|vm_compute; reflexivity].
  exact (proj1 (proj2 (proj2 (announced_blocks_relayed sample_notices sample_context blocks
           [(sample_answers Sent, [Byte.x01])] clients [] eq_refl eq_refl eq_refl eq_refl)))).
Defined.

(** ** Transactions *)

Definition sample_item : SendBlockItemRequest := CredentialDeployment (Some 1000) (Some [Byte.x07]).

Lemma transaction_submitted_witness :
  exists bytes s',
    send_block_item sample_ffi sample_rpc (Some sample_item) sample_server = (Ok [Byte.x2a], s') /\
    get_v0_format (Some sample_item) = Ok bytes /\
    outgoing (p2p s') = outgoing node ++ [Relay (transaction_message bytes)].
Proof.
  destruct (send_block_item sample_ffi sample_rpc (Some sample_item) sample_server) as [r s'] eqn:E.
  assert (Er : r = Ok [Byte.x2a]).
  { change r with ((r, s').1). rewrite <- E. vm_compute. reflexivity. }
  subst r.
  destruct (@transaction_submitted _ _ _ _ _ sample_ffi sample_rpc a_call (Some sample_item)
              sample_server (Ok [Byte.x2a]) s' E) as (bytes & Hb & _ & Hout & _).
  exists bytes, s'. split_and!; [reflexivity|exact Hb|exact Hout].
Defined.

(** ** Bans *)

Lemma bans_through_rpc_witness :
  exists s', ban_peer sample_rpc (Some (ip_to_string peer_ip)) sample_server = (Ok tt, s') /\
    holds s' (spec_op (OpBan peer_ip) (mkAbstract ∅ ∅)).
Proof.
  assert (Er : (ban_peer sample_rpc (Some (ip_to_string peer_ip)) sample_server).1 = Ok tt)
    by (vm_compute; reflexivity).
  destruct (ban_peer sample_rpc (Some (ip_to_string peer_ip)) sample_server) as [r s'] eqn:E.
  cbn [fst] in Er. subst r. exists s'. split; [exact eq_refl|].
  assert (Hh : holds sample_server (mkAbstract ∅ ∅))
    by (exists ∅; split; [reflexivity|apply BansWitnesses.represents_empty]).
  exact (proj1 (proj1 (bans_through_rpc sample_rpc sample_server (mkAbstract ∅ ∅) Hh) peer_ip s' E)).
Defined.

(** ** Messages of consensus *)

Definition reading_lib : ConsensusLib := {|
  u32_deserial l := Ok (be_value l);
  ExecuteBlockCallback := unit;
  consensus_call _ := (Success, None);
  get_catch_up_status := [];
|}.

Lemma node_has_room : has_room (high_priority (inbound (callback_queue node))).
Proof. apply Nat.ltb_lt. vm_compute. reflexivity. Qed.
Lemma queues_have_room : has_room (high_priority (outbound queues_default)).
Proof. apply Nat.ltb_lt. vm_compute. reflexivity. Qed.
Lemma sample_callback : is_Some (sending_callback (Some 3) 0 2 [Byte.x09] None queues_default).
Proof. apply (bool_decide_unpack _). vm_compute. done. Qed.

Lemma callback_reaches_consensus_witness :
  exists m n' m',
    direction m = Outbound (Some 3) /\
    handle_pkt_out [] 5 (msg_payload m) false node = (Ok tt, n') /\
    @consensus_request _ reading_lib 5 m' n' = Ok (ReceiveBlock 2 [Byte.x09]).
Proof.
  destruct sample_callback as [q' E].
  destruct (@callback_reaches_consensus _ _ reading_lib (Some 3) CbBlock 2 [Byte.x09] None
              queues_default q' [] 5 false node) as (m & n' & m' & _ & Hd & _ & Hh & _ & Hr).
  - intros v Hv. simpl. f_equal. by apply be_value_u32.
  - by unfold in_u.
  - exact node_has_room.
  - exact E.
  - exact queues_have_room.
  - exists m, n', m'. split_and!; [exact Hd|exact Hh|exact Hr].
Defined.

(** ** A report *)

Definition sample_hash : option (list byte) := Some [Byte.x2a].
Definition zero_f64 : f64 := f64_of_Z 0.
Definition sample_consensus : GConsensusInfo :=
  mkGConsensus sample_hash sample_hash sample_hash (Some 7) (Some 6) 7 zero_f64 zero_f64 None None 7
    zero_f64 zero_f64 None None zero_f64 zero_f64 6 None None None.
Definition sample_block : GBlockInfo := mkGBlock sample_hash sample_hash (Some 1000) (Some 1) 0 (Some 0) 0.
Definition sample_tokenomics : GTokenomicsInfo := TokenomicsV1 (mkGTokenomics (Some 10) (Some 0) (Some 1)).
Definition sample_code (status : BakingCommitteeResponse) : Z :=
  match status with
  | Helpers.NotInCommittee => 0
  | Helpers.AddedButNotActiveInCommittee => 1
  | _ => 2
  end.

(** The answers of the sample server to the collector. *)
Definition sample_ni : Grpc.NodeInfo := get_ok (get_node_info sample_rpc 5 sample_server).1.
Definition sample_ps : list PeerInfo := get_ok (get_peers_info sample_rpc sample_server).1.
Definition sample_client : GrpcClient :=
  mkClient (Ok (sent_node_info (lit "6.0.0") sample_code sample_ni)) (Ok (sent_peers sample_ps))
    (Ok sample_consensus) (fun _ => Ok sample_block) (fun _ => Ok (Some sample_tokenomics))
    (fun _ _ => Ok [[Byte.x2a]]).
Definition sample_name : text := lit " my  node ".
Definition sample_report : Collector.NodeInfo :=
  get_ok (collect_data (fun l => byte_to_Z <$> l) (fun _ => Some []) (NodeName_from_str sample_name)
            sample_client).

Lemma first_of {A B} (p : outcome A * B) a : p.1 = Ok a -> exists b, p = (Ok a, b).
Proof. destruct p as [o b]. simpl. intros ->. by exists b. Qed.
Lemma sample_node_info : exists s1, get_node_info sample_rpc 5 sample_server = (Ok sample_ni, s1).
Proof. apply first_of. vm_compute. reflexivity. Qed.
Lemma sample_peers_info : exists s2, get_peers_info sample_rpc sample_server = (Ok sample_ps, s2).
Proof. apply first_of. vm_compute. reflexivity. Qed.
Lemma sample_collected :
  collect_data (fun l => byte_to_Z <$> l) (fun _ => Some []) (NodeName_from_str sample_name)
    sample_client = Ok sample_report.
Proof. vm_compute. reflexivity. Qed.

Lemma report_of_node_witness :
  nodeName sample_report = lit "my node" /\ nodeId sample_report = lit "0000000000000007" /\
  is_ok (check_report validation_defaults (mkCollector ∅ [] []) sample_report) = true.
Proof.
  split; [vm_compute; reflexivity|].
  destruct sample_node_info as [s1 E1]. destruct sample_peers_info as [s2 E2].
  destruct (report_of_node (fun l => byte_to_Z <$> l) (fun _ => Some []) (lit "6.0.0") sample_code
    sample_rpc 5 sample_server sample_ni sample_ps s1 s2 sample_client
    sample_name sample_report validation_defaults (mkCollector ∅ [] [])) as (Hid & _ & _ & _ & Hc).
  - by split.
  - exact E1.
  - exact E2.
  - reflexivity.
  - reflexivity.
  - discriminate.
  - exact sample_collected.
  - split; [rewrite Hid; vm_compute; reflexivity|]. apply Hc. split_and!.
    + vm_compute. lia.
    + intros p Hp. assert (averagePing sample_report = None) as Hn by (vm_compute; reflexivity).
      rewrite Hn in Hp. discriminate.
    + vm_compute. discriminate.
    + apply not_elem_of_nil.
    + apply not_elem_of_nil.
Defined.
