(* ===== verification/WinPath.v ===== *)
(** * Paths on Windows

    [std::path] for the Windows target, as far as the node runner service uses it:
    joining, parents, extensions and equality.  Paths are sequences of Unicode
    scalar values.  Verbatim paths (beginning with two backslashes, a question
    mark and a backslash), in which separators and dots have no meaning, are not
    modelled. *)

From stdpp Require Import base tactics list gmap strings option numbers.
From Stdlib Require Import ZArith.
From S2P Require Import Prelude Text.

Definition BACKSLASH : Z := 92.
Definition FULL_STOP : Z := 46.
Definition is_sep (c : Z) : bool := (c =? BACKSLASH) || (c =? SLASH).

Definition is_ascii_letter (c : Z) : bool := ((65 <=? c) && (c <=? 90)) || ((97 <=? c) && (c <=? 122)).
Definition to_ascii_uppercase (c : Z) : Z := if (97 <=? c) && (c <=? 122) then c - 32 else c.

(** ** Prefixes *)

Inductive Prefix := DeviceNS (device : text) | UNC (server share : text) | Disk (letter : Z).
#[export] Instance Prefix_eq_dec : EqDecision Prefix.
Proof. solve_decision. Defined.

(** [parse_next_component]. *)
Fixpoint next_component (s : text) : text * text :=
  match s with
  | [] => ([], [])
  | c :: s' => if is_sep c then ([], s') else let '(comp, rest) := next_component s' in (c :: comp, rest)
  end.

(** [parse_prefix]. *)
Definition parse_prefix (s : text) : option Prefix :=
  match s with
  | a :: b :: s' =>
      if is_sep a && is_sep b then
        match s' with
        | c :: d :: s'' =>
            if (c =? FULL_STOP) && is_sep d then Some (DeviceNS (next_component s'').1)
            else let '(server, rest) := next_component s' in
                 let share := (next_component rest).1 in
                 if bool_decide (server = []) || bool_decide (share = []) then None
                 else Some (UNC server share)
        | _ => None
        end
      else if is_ascii_letter a && (b =? 58) then Some (Disk (to_ascii_uppercase a))
      else None
  | _ => None
  end.
Definition prefix_len (p : option Prefix) : nat :=
  match p with
  | None => 0
  | Some (DeviceNS x) => 4 + length x
  | Some (UNC x y) => 2 + length x + 1 + length y
  | Some (Disk _) => 2
  end.
Definition has_implicit_root (p : option Prefix) : bool :=
  match p with Some (DeviceNS _) | Some (UNC _ _) => true | _ => false end.

Definition starts_with_sep (s : text) : bool := match s with c :: _ => is_sep c | [] => false end.
Definition ends_with_sep (s : text) : bool :=
  match list.last s with Some c => is_sep c | None => false end.
(** What follows the prefix. *)
Definition body (s : text) : text := drop (prefix_len (parse_prefix s)) s.
Definition has_root (s : text) : bool :=
  has_implicit_root (parse_prefix s) || starts_with_sep (body s).

(** ** Joining *)

(** [PathBuf::push]. *)
Definition path_push (base path : text) : text :=
  match parse_prefix path with
  | Some _ => path
  | None =>
      if has_root path then take (prefix_len (parse_prefix base)) base ++ path
      else
        let only_drive :=
          match parse_prefix base with Some (Disk _) => bool_decide (body base = []) | _ => false end in
        let need_sep := negb (bool_decide (base = [])) && negb (ends_with_sep base) && negb only_drive in
        base ++ (if need_sep then [BACKSLASH] else []) ++ path
  end.

(** ** Components *)

(** The separators that begin the body. *)
Fixpoint strip_seps (s : text) : text :=
  match s with c :: s' => if is_sep c then strip_seps s' else s | [] => [] end.
(** Separators and current directories at the end, of a reversed body. *)
Fixpoint trim_back (r : text) : text :=
  match r with
  | c :: r' =>
      if is_sep c then trim_back r'
      else if (c =? FULL_STOP) && starts_with_sep r' then trim_back r'
      else r
  | [] => []
  end.
(** The path as what precedes its components, and the components as text. *)
Definition split_root (s : text) : text * text :=
  let rest := strip_seps (body s) in
  (take (length s - length rest) s, reverse (trim_back (reverse rest))).
(** The last component of a reversed body and what precedes it. *)
Fixpoint last_component (r : text) : text * text :=
  match r with
  | [] => ([], [])
  | c :: r' => if is_sep c then ([], r) else let '(comp, before) := last_component r' in (c :: comp, before)
  end.

(** [Path::parent]. *)
Definition path_parent (s : text) : option text :=
  let '(root, rest) := split_root s in
  match rest with
  | [] => None
  | _ => Some (root ++ reverse (trim_back (last_component (reverse rest)).2))
  end.

(** [Path::file_name], with what precedes it. *)
Definition split_file (s : text) : option (text * text) :=
  let '(root, rest) := split_root s in
  let '(name, before) := last_component (reverse rest) in
  if bool_decide (name = []) || bool_decide (name = [FULL_STOP])
     || bool_decide (name = [FULL_STOP; FULL_STOP]) then None
  else Some (root ++ reverse before, reverse name).

(** [rsplit_file_at_dot]: the last dot that is not the first character. *)
Fixpoint split_dot (r : text) : option (text * text) :=
  match r with
  | [] => None
  | c :: r' =>
      if c =? FULL_STOP then match r' with [] => None | _ => Some ([], r') end
      else match split_dot r' with Some (ext, stem) => Some (c :: ext, stem) | None => None end
  end.
Definition file_stem_extension (name : text) : text * option text :=
  match split_dot (reverse name) with
  | Some (ext, stem) => (reverse stem, Some (reverse ext))
  | None => (name, None)
  end.

(** [Path::extension] and [Path::with_extension]. *)
Definition path_extension (s : text) : option text :=
  match split_file s with Some (_, name) => (file_stem_extension name).2 | None => None end.
Definition path_with_extension (s ext : text) : text :=
  match split_file s with
  | None => s
  | Some (before, name) =>
      before ++ (file_stem_extension name).1 ++ match ext with [] => [] | _ => FULL_STOP :: ext end
  end.

(** [Path::components]; a current directory counts only at the beginning. *)
Fixpoint split_seps (acc s : text) : list text :=
  match s with
  | [] => [reverse acc]
  | c :: s' => if is_sep c then reverse acc :: split_seps [] s' else split_seps (c :: acc) s'
  end.
Definition components (s : text) : option Prefix * bool * list text :=
  let pieces := split_seps [] (body s) in
  let leading := negb (has_root s) && bool_decide (head pieces = Some [FULL_STOP]) in
  (parse_prefix s, has_root s,
   (if leading then [[FULL_STOP]] else [])
   ++ filter (fun p => p <> [] /\ p <> [FULL_STOP]) pieces).
(** Equality of paths. *)
Definition path_eqb (p q : text) : bool := bool_decide (components p = components q).

(** ** Facts *)

Definition relative (path : text) : Prop := parse_prefix path = None /\ has_root path = false.

(** A path that names a drive or a share replaces the one it is joined to. *)
Lemma path_push_prefix base path p : parse_prefix path = Some p -> path_push base path = path.
Proof. unfold path_push. by intros ->. Qed.
(** A relative path is put below a directory. *)
Lemma path_push_relative base path :
  relative path -> base <> [] -> ends_with_sep base = false -> body base <> [] ->
  path_push base path = base ++ BACKSLASH :: path.
Proof.
  intros [Hp Hr] Hb Hs Hbody. unfold path_push. rewrite Hp, Hr, Hs.
  rewrite (bool_decide_eq_false_2 (base = [])) by done.
  rewrite (bool_decide_eq_false_2 (body base = [])) by done.
  by destruct (parse_prefix base) as [[]|].
Qed.
