(* ===== verification/WinConfig.v ===== *)
(** * Configuration of the node runner service

    The configuration file of the Windows service that runs nodes
    ([service/windows/src/config.rs]), with the configuration of a node and of its
    logging ([service/windows/src/node.rs]).  The parser of TOML and the names of
    log levels are those of other crates and are fields of classes; the registry
    and the file system are inputs. *)

From stdpp Require Import base tactics list gmap strings option numbers.
From Stdlib Require Import ZArith Floats.SpecFloat.
From S2P Require Import Prelude Text Common IpText Helpers WinPath.

(** ** TOML *)

(** [toml::Value]; a table is the list of its entries in the order of the keys. *)
Inductive Value :=
| VString (s : text)
| VInteger (z : Z)
| VFloat (f : spec_float)
| VBoolean (b : bool)
| VDatetime (d : text)
| VArray (vs : list Value)
| VTable (t : list (text * Value)).
Abbreviation Table := (list (text * Value)).

Class Toml := {
  toml_from_str : text -> option Value;
  toml_to_string : Value -> option text;
}.

Definition as_str (v : Value) : option text := match v with VString s => Some s | _ => None end.
Definition as_integer (v : Value) : option Z := match v with VInteger z => Some z | _ => None end.
Definition as_bool (v : Value) : option bool := match v with VBoolean b => Some b | _ => None end.
Definition as_array (v : Value) : option (list Value) := match v with VArray vs => Some vs | _ => None end.
Definition as_table (v : Value) : option Table := match v with VTable t => Some t | _ => None end.

Fixpoint table_get (k : text) (t : Table) : option Value :=
  match t with
  | [] => None
  | (k', v) :: t' => if decide (k = k') then Some v else table_get k t'
  end.
(** [Value::get] with a string, which only tables have entries for. *)
Definition value_get (k : text) (v : Value) : option Value := as_table v ≫= table_get k.

(** [toml_get_as!]: the value at a path, as a type. *)
Fixpoint value_at (v : Value) (path : list string) : option Value :=
  match path with
  | [] => Some v
  | x :: path' => value_get (lit x) v ≫= fun v' => value_at v' path'
  end.
Definition toml_get_as {A} (as_type : Value -> option A) (v : Value) (path : list string) : option A :=
  value_at v path ≫= as_type.

(** ** Levels *)

Inductive Level := LvError | LvWarn | LvInfo | LvDebug | LvTrace.
#[export] Instance Level_eq_dec : EqDecision Level.
Proof. solve_decision. Defined.
Class LevelNames := {
  level_from_str : text -> option Level;
  level_to_string : Level -> text;
}.

(** ** The configuration of a node *)

Record LogFileConfig := mkLogFileConfig {
  lf_path : text;
  lf_roll_size : option text;
  lf_roll_count : option Z;
  lf_roll_pattern : option text;
}.
Inductive LoggerConfig := LoggerNone | LoggerConfigFile (path : text) | LoggerFile (c : LogFileConfig).

Abbreviation Env := (gmap text text).
Record NodeConfig := mkNodeConfig {
  nc_name : text;
  nc_bootstrap_nodes : text;
  nc_config_dir : text;
  nc_data_dir : text;
  nc_baker_credentials : option text;
  nc_grpc2_address : option IpAddr;
  nc_grpc2_port : option Z;
  nc_listen_address : option IpAddr;
  nc_listen_port : option Z;
  nc_log_config : LoggerConfig;
  nc_log_level : option Level;
  nc_node_bin : option text;
  nc_node_env : Env;
  nc_node_args : list text;
  nc_collector_enabled : option bool;
  nc_collector_url : option text;
  nc_collector_node_name : option text;
  nc_collector_interval : option Z;
  nc_collector_log_file : option text;
  nc_collector_bin : option text;
  nc_collector_env : Env;
  nc_collector_args : list text;
}.

(** ** Reading the file *)

(** [Option::or_else]. *)
Definition or_else {A} (a b : option A) : option A := match a with Some _ => a | None => b end.

(** [get_env]: the entries are added to those that are there. *)
Fixpoint add_env (t : Table) (env : Env) : outcome Env :=
  match t with
  | [] => Ok env
  | (k, v) :: t' =>
      value ← context (as_str v) "Environment variables must be strings";
      add_env t' (<[k := value]> env)
  end.
Definition get_env (env_table_opt : option Table) (env : Env) : outcome Env :=
  match env_table_opt with Some t => add_env t env | None => Ok env end.

(** [get_args]. *)
Fixpoint string_args (vs : list Value) : outcome (list text) :=
  match vs with
  | [] => Ok []
  | v :: vs' =>
      arg ← context (as_str v) "contains a non-string argument";
      args ← string_args vs';
      Ok (arg :: args)
  end.
Definition get_args (args_array_opt : option (list Value)) : outcome (option (list text)) :=
  match args_array_opt with
  | Some vs => args ← string_args vs; Ok (Some args)
  | None => Ok None
  end.

(** [u16::try_from] and [u64::try_from] on the integers of TOML. *)
Definition u16_try_from (z : Z) : option Z := if (0 <=? z) && (z <? 2 ^ 16) then Some z else None.
Definition u64_try_from (z : Z) : option Z := if 0 <=? z then Some z else None.

(** An optional entry that must be valid if it is there. *)
Definition optional {A B} (parse : A -> option B) (what : string) (o : option A) : outcome (option B) :=
  match o with
  | None => Ok None
  | Some a => b ← context (parse a) what; Ok (Some b)
  end.

Section load.
Context `{Toml} `{LevelNames}.
Variable conf_root : text.

(** [make_relative_path]. *)
Definition make_relative_path (pb : text) : text := path_push conf_root pb.

(** Both names of the entry for credentials are allowed if they agree. *)
Definition merge_credentials (baker validator : option text) : outcome (option text) :=
  match baker, validator with
  | Some bcred, Some vcred =>
      _ ← ensure (path_eqb bcred vcred)
            "Both `baker_credentials` and `validator_credentials` are specified, and different.";
      Ok (Some bcred)
  | _, _ => Ok (or_else baker validator)
  end.

Definition read_log_config (node : Value) : LoggerConfig :=
  match toml_get_as as_str node ["log"; "config"] with
  | Some config => LoggerConfigFile (make_relative_path config)
  | None =>
      match toml_get_as as_str node ["log"; "path"] with
      | Some log_path =>
          LoggerFile (mkLogFileConfig (make_relative_path log_path)
            (toml_get_as as_str node ["log"; "roll"; "size"])
            (toml_get_as as_integer node ["log"; "roll"; "count"] ≫= u16_try_from)
            (make_relative_path <$> toml_get_as as_str node ["log"; "roll"; "pattern"]))
      | None => LoggerNone
      end
  end.

(** What the section [common] has been read to. *)
Record Common := mkCommon {
  cm_table : Value;
  cm_node_env : Env;
  cm_node_args : option (list text);
  cm_collector_env : Env;
  cm_collector_args : option (list text);
}.

Definition read_common (conf_val : Value) : outcome Common :=
  let common := VTable (default [] (toml_get_as as_table conf_val ["common"])) in
  common_node_env ← get_env (toml_get_as as_table common ["node"; "env"]) ∅;
  common_node_args ← get_args (toml_get_as as_array common ["node"; "args"]);
  common_collector_env ← get_env (toml_get_as as_table common ["collector"; "env"]) ∅;
  common_collector_args ← get_args (toml_get_as as_array common ["collector"; "args"]);
  Ok (mkCommon common common_node_env common_node_args common_collector_env common_collector_args).

(** An entry of the node, or else of [common]. *)
Definition get_shared {A} (as_type : Value -> option A) (cm : Common) (node : Value)
    (path : list string) : option A :=
  or_else (toml_get_as as_type node path) (toml_get_as as_type (cm_table cm) path).

Definition node_enabled (node : Value) : bool := default true (toml_get_as as_bool node ["enabled"]).

(** One iteration of the loop over the nodes that are enabled. *)
Definition read_node (cm : Common) (nname : text) (node : Value) : outcome NodeConfig :=
  let name := default nname (toml_get_as as_str node ["name"]) in
  bootstrap_nodes ← context (get_shared as_str cm node ["bootstrap_nodes"])
                      "Missing string entry bootstrap_nodes";
  config_dir ← context (toml_get_as as_str node ["config_dir"]) "Missing string entry config_dir";
  data_dir ← context (toml_get_as as_str node ["data_dir"]) "Missing string entry data_dir";
  baker_credentials ← merge_credentials
    (make_relative_path <$> toml_get_as as_str node ["baker_credentials"])
    (make_relative_path <$> toml_get_as as_str node ["validator_credentials"]);
  let log_level := get_shared as_str cm node ["log"; "level"] ≫= level_from_str in
  grpc2_address ← optional ip_from_str "invalid IP address syntax"
                    (toml_get_as as_str node ["grpc2"; "ip"]);
  grpc2_port ← optional u16_try_from "out of range integral type conversion attempted"
                 (toml_get_as as_integer node ["grpc2"; "port"]);
  listen_address ← optional ip_from_str "invalid IP address syntax"
                     (toml_get_as as_str node ["listen"; "ip"]);
  listen_port ← optional u16_try_from "out of range integral type conversion attempted"
                  (toml_get_as as_integer node ["listen"; "port"]);
  collector_interval ← optional u64_try_from "out of range integral type conversion attempted"
                         (get_shared as_integer cm node ["collector"; "interval"]);
  node_env ← get_env (toml_get_as as_table node ["node"; "env"]) (cm_node_env cm);
  node_args ← get_args (toml_get_as as_array node ["node"; "args"]);
  collector_env ← get_env (toml_get_as as_table node ["collector"; "env"]) (cm_collector_env cm);
  collector_args ← get_args (toml_get_as as_array node ["collector"; "args"]);
  Ok {| nc_name := name;
        nc_bootstrap_nodes := bootstrap_nodes;
        nc_config_dir := make_relative_path config_dir;
        nc_data_dir := make_relative_path data_dir;
        nc_baker_credentials := baker_credentials;
        nc_grpc2_address := grpc2_address;
        nc_grpc2_port := grpc2_port;
        nc_listen_address := listen_address;
        nc_listen_port := listen_port;
        nc_log_config := read_log_config node;
        nc_log_level := log_level;
        nc_node_bin := make_relative_path <$> get_shared as_str cm node ["node"; "exe"];
        nc_node_env := node_env;
        nc_node_args := default [] (or_else node_args (cm_node_args cm));
        nc_collector_enabled := get_shared as_bool cm node ["collector"; "enabled"];
        nc_collector_url := get_shared as_str cm node ["collector"; "url"];
        nc_collector_node_name := get_shared as_str cm node ["collector"; "node_name"];
        nc_collector_interval := collector_interval;
        nc_collector_log_file := make_relative_path <$> toml_get_as as_str node ["collector"; "log_file"];
        nc_collector_bin := make_relative_path <$> get_shared as_str cm node ["collector"; "exe"];
        nc_collector_env := collector_env;
        nc_collector_args := default [] (or_else collector_args (cm_collector_args cm)) |}.

Fixpoint read_nodes (cm : Common) (node_table : Table) : outcome (list NodeConfig) :=
  match node_table with
  | [] => Ok []
  | (nname, node) :: node_table' =>
      if node_enabled node then
        nc ← read_node cm nname node;
        ncs ← read_nodes cm node_table';
        Ok (nc :: ncs)
      else read_nodes cm node_table'
  end.

(** [load_config_file]. *)
Definition load_config_file (conf_str : text) : outcome (list NodeConfig) :=
  conf_val ← context (toml_from_str conf_str) "toml";
  cm ← read_common conf_val;
  match toml_get_as as_table conf_val ["node"] with
  | Some node_table => read_nodes cm node_table
  | None => Ok []
  end.
End load.

(** [get_config_file_path] and [load_config]: the value of the registry, if its key
    and the value are there, and the file. *)
Definition get_config_file_path (registry : option (option text)) : outcome text :=
  node_runner_key ← context registry "Could not resolve registry key";
  context node_runner_key "Could not get registry value".
Definition load_config `{Toml} `{LevelNames} (registry : option (option text))
    (read_to_string : text -> option text) : outcome (list NodeConfig) :=
  conf_path ← get_config_file_path registry;
  conf_str ← context (read_to_string conf_path) "Could not read configuration file";
  conf_root ← context (path_parent conf_path) "Could not get parent path of configuration file";
  match load_config_file conf_root conf_str with
  | Err _ => bail "Failed to parse configuration file"
  | r => r
  end.
