(* ===== verification/WinNode.v ===== *)
(** * Nodes run by the service

    A node and its collector as child processes of the node runner service
    ([service/windows/src/node.rs], [service/windows/src/subprocess.rs]): what they
    are started with, how they are watched and stopped, and the end of their error
    output.  The operating system is a table of processes; which of its calls fail
    is an input. *)

From stdpp Require Import base tactics list gmap strings option numbers vector.
From Stdlib Require Import ZArith.
From S2P Require Import Prelude Text Common IpText Wire WinPath WinConfig.

(** ** Processes *)

(** The names of variables.  [Command] compares them on Windows as the system does,
    character by character after a conversion to upper case; variables are given
    in the order in which a hash table is iterated over. *)
Class EnvNames := {
  upper : Z -> Z;
  iter_env : Env -> list (text * text);
}.
Class EnvNamesLaws `{EnvNames} : Prop := {
  upper_ascii c : 0 <= c < 128 -> upper c = if (97 <=? c) && (c <=? 122) then c - 32 else c;
  iter_env_entries vars : iter_env vars ≡ₚ map_to_list vars;
}.
Definition env_key `{EnvNames} (name : text) : text := upper <$> name.

Inductive Stdio := StdioNull | StdioFile (path : text).
(** The variables of a command are found by their [env_key]. *)
Record Command := mkCommand {
  program : text;
  cmd_envs : Env;
  cmd_args : list text;
  new_process_group : bool;
  cmd_stderr : Stdio;
}.
Definition command_new (program : text) : Command := mkCommand program ∅ [] false StdioNull.
(** [Command::env] and [Command::envs]: a variable that is set again is replaced. *)
Definition put_env `{EnvNames} (k v : text) (c : Command) : Command :=
  mkCommand (program c) (<[env_key k := v]> (cmd_envs c)) (cmd_args c) (new_process_group c) (cmd_stderr c).
Definition set_env `{EnvNames} (k : string) (v : text) (c : Command) : Command := put_env (lit k) v c.
Definition set_envs `{EnvNames} (vars : Env) (c : Command) : Command :=
  foldl (fun c e => put_env e.1 e.2 c) c (iter_env vars).
Definition set_env_opt `{EnvNames} (k : string) (v : option text) (c : Command) : Command :=
  match v with Some v => set_env k v c | None => c end.
Definition add_args (args : list text) (c : Command) : Command :=
  mkCommand (program c) (cmd_envs c) (cmd_args c ++ args) (new_process_group c) (cmd_stderr c).
Definition set_stderr (e : Stdio) (c : Command) : Command :=
  mkCommand (program c) (cmd_envs c) (cmd_args c) (new_process_group c) e.
Definition set_process_group (c : Command) : Command :=
  mkCommand (program c) (cmd_envs c) (cmd_args c) true (cmd_stderr c).

(** The processes that have been spawned, by identifier: the status of those that
    have exited, and the commands. *)
Record System := mkSystem {
  processes : gmap nat (option Z);
  commands : gmap nat Command;
  next_pid : nat;
}.
Definition system_initial : System := mkSystem ∅ ∅ 0.

Definition running (pid : nat) (s : System) : Prop := processes s !! pid = Some None.
#[export] Instance running_dec pid s : Decision (running pid s).
Proof. unfold running. apply _. Defined.

(** Which calls on a process fail. *)
Record Faults := mkFaults { wait_fails : nat -> bool; kill_fails : nat -> bool; break_fails : nat -> bool }.
Definition no_faults : Faults := mkFaults (fun _ => false) (fun _ => false) (fun _ => false).

(** [Child::try_wait]. *)
Definition try_wait (f : Faults) (pid : nat) (s : System) : outcome (option Z) :=
  if wait_fails f pid then Err (IoError "try_wait") else Ok (default None (processes s !! pid)).
(** [Child::kill]; a process that is terminated exits with 1. *)
Definition terminate (pid : nat) (s : System) : System :=
  mkSystem (alter (fun st => match st with None => Some 1 | Some e => Some e end) pid (processes s))
    (commands s) (next_pid s).
Definition kill (f : Faults) (pid : nat) : M System unit := fun s =>
  if kill_fails f pid then (Err (IoError "kill"), s) else (Ok tt, terminate pid s).
(** [send_child_ctrl_break]; how the process reacts is up to it. *)
Definition send_child_ctrl_break (f : Faults) (pid : nat) : outcome unit :=
  if break_fails f pid then Err (IoError "GenerateConsoleCtrlEvent") else Ok tt.

(** What the operating system answers when processes are started: the path of the
    service, temporary files with the path they get, whether files can be created,
    and whether a command can be spawned. *)
Record StartEnv := mkStartEnv {
  current_exe : option text;
  log_config_temp : option text;
  stderr_temp : option text;
  can_create : text -> bool;
  can_spawn : Command -> bool;
}.

Definition spawn (e : StartEnv) (c : Command) : M System nat := fun s =>
  if can_spawn e c
  then (Ok (next_pid s),
        mkSystem (<[next_pid s := None]> (processes s)) (<[next_pid s := c]> (commands s)) (S (next_pid s)))
  else (Err (IoError "spawn"), s).

(** The binary that is named, or one next to that of the service. *)
Definition binary (e : StartEnv) (bin : option text) (file : string) : outcome text :=
  match bin with
  | Some path => Ok path
  | None =>
      path ← match current_exe e with Some p => Ok p | None => Err (IoError "current_exe") end;
      Ok (path_push (default path (path_parent path)) (lit file))
  end.

(** ** The collector *)

Definition LOCALHOST_V4 : IpAddr := V4 [# Byte.x7f; Byte.x00; Byte.x00; Byte.x01].
Definition LOCALHOST_V6 : IpAddr :=
  V6 [# Byte.x00; Byte.x00; Byte.x00; Byte.x00; Byte.x00; Byte.x00; Byte.x00; Byte.x00;
        Byte.x00; Byte.x00; Byte.x00; Byte.x00; Byte.x00; Byte.x00; Byte.x00; Byte.x01].
Definition is_ipv4 (a : IpAddr) : bool := match a with V4 _ => true | V6 _ => false end.
Definition is_unspecified (a : IpAddr) : bool :=
  forallb (fun b => byte_to_Z b =? 0) (match a with V4 o => vec_to_list o | V6 o => vec_to_list o end).

Definition u16_to_string (z : Z) : text := fmt_number 10 5 z.
Definition u64_to_string (z : Z) : text := fmt_number 10 20 z.
Definition DEFAULT_GRPC2_PORT : Z := 20000.

Definition run_collector (c : NodeConfig) : bool :=
  default true (nc_collector_enabled c) && bool_decide (is_Some (nc_collector_url c))
  && bool_decide (is_Some (nc_grpc2_address c)) && bool_decide (is_Some (nc_grpc2_port c)).

(** The address of the node, as seen by the collector. *)
Definition collector_rpc_ip (c : NodeConfig) : IpAddr :=
  let a := default LOCALHOST_V4 (nc_grpc2_address c) in
  if is_unspecified a then if is_ipv4 a then LOCALHOST_V4 else LOCALHOST_V6 else a.
Definition collector_grpc_host (c : NodeConfig) : text :=
  let a := collector_rpc_ip c in
  let port := u16_to_string (default DEFAULT_GRPC2_PORT (nc_grpc2_port c)) in
  if is_ipv4 a then lit "http://" ++ ip_to_string a ++ lit ":" ++ port
  else lit "http://[" ++ ip_to_string a ++ lit "]:" ++ port.

Definition collector_command `{EnvNames} (c : NodeConfig) (url bin : text) : Command :=
  add_args (nc_collector_args c)
    (set_env_opt "CONCORDIUM_NODE_COLLECTOR_COLLECT_INTERVAL" (u64_to_string <$> nc_collector_interval c)
      (set_env "CONCORDIUM_NODE_COLLECTOR_NODE_NAME" (default (nc_name c) (nc_collector_node_name c))
        (set_env "CONCORDIUM_NODE_COLLECTOR_GRPC_HOST" (collector_grpc_host c)
          (set_env "CONCORDIUM_NODE_COLLECTOR_URL" url
            (set_envs (nc_collector_env c) (command_new bin)))))).

(** [NodeConfig::start_collector]; the URL is unwrapped. *)
Definition start_collector `{EnvNames} (e : StartEnv) (c : NodeConfig) : M System (option nat) :=
  if bool_decide (nc_collector_enabled c = Some true) && negb (run_collector c) then
    lift (bail (match nc_collector_url c with
                | None => "The collector was enabled, but collector.url was not specified."
                | Some _ =>
                    if bool_decide (nc_grpc2_address c = None) || bool_decide (nc_grpc2_port c = None)
                    then "The collector was enabled, but grpc interface of the node is not enabled."
                    else "The collector was enabled, but was not configured correctly."
                end))
  else if run_collector c then
    bin ← lift (binary e (nc_collector_bin c) "node-collector.exe");
    url ← lift (match nc_collector_url c with Some url => Ok url | None => Panic end);
    stderr ← lift (match nc_collector_log_file c with
                   | Some lf => if can_create e lf then Ok (StdioFile lf) else Err (IoError "create")
                   | None => Ok StdioNull
                   end);
    pid ← spawn e (set_stderr stderr (collector_command c url bin));
    mret (Some pid)
  else mret None.

(** ** Logging of a node *)

(** [Map::insert]: tables are ordered by their keys. *)
Fixpoint text_ltb (a b : text) : bool :=
  match a, b with
  | _, [] => false
  | [], _ :: _ => true
  | x :: a', y :: b' => (x <? y) || ((x =? y) && text_ltb a' b')
  end.
Fixpoint table_insert (k : text) (v : Value) (t : Table) : Table :=
  match t with
  | [] => [(k, v)]
  | (k', v') :: t' =>
      if decide (k = k') then (k, v) :: t'
      else if text_ltb k k' then (k, v) :: t
      else (k', v') :: table_insert k v t'
  end.
(** [Map::from_iter]. *)
Definition table_of (entries : list (string * Value)) : Value :=
  VTable (foldl (fun t '(k, v) => table_insert (lit k) v t) [] entries).

(** The pattern for rolled logs: [.{}] before the extension. *)
Definition default_pattern (path : text) : text :=
  path_with_extension path
    (match path_extension path with
     | Some old_extension => lit "{}." ++ old_extension
     | None => lit "{}"
     end).
Definition roller (c : LogFileConfig) : Value :=
  let roll_count := default 0 (lf_roll_count c) in
  if roll_count =? 0 then table_of [("kind", VString (lit "delete"))]
  else table_of [("kind", VString (lit "fixed_window")); ("count", VInteger roll_count);
                 ("pattern", VString (default (default_pattern (lf_path c)) (lf_roll_pattern c)))].
Definition file_appender (c : LogFileConfig) : Value :=
  match lf_roll_size c with
  | Some roll_size =>
      table_of
        [("path", VString (lf_path c)); ("kind", VString (lit "rolling_file"));
         ("policy",
          table_of [("kind", VString (lit "compound"));
                    ("trigger", table_of [("kind", VString (lit "size")); ("limit", VString roll_size)]);
                    ("roller", roller c)])]
  | None => table_of [("path", VString (lf_path c)); ("kind", VString (lit "file"))]
  end.
Definition log_toml `{LevelNames} (c : LogFileConfig) (level : option Level) : Value :=
  table_of
    [("root", table_of [("level", VString (level_to_string (default LvWarn level)));
                        ("appenders", VArray [VString (lit "file")])]);
     ("appenders", table_of [("file", file_appender c)])].

(** [make_log_config_file]: the file that is made, with its contents, and the
    command that is given its path. *)
Definition make_log_config_file `{Toml} `{LevelNames} `{EnvNames} (e : StartEnv) (logger : LoggerConfig)
    (level : option Level) (cmd : Command) : outcome (option (text * text) * Command) :=
  match logger with
  | LoggerConfigFile path => Ok (None, set_env "CONCORDIUM_NODE_LOG_CONFIG" path cmd)
  | _ =>
      lc_path ← match log_config_temp e with Some p => Ok p | None => Err (IoError "tempfile") end;
      contents ← match logger with
                 | LoggerFile c => context (toml_to_string (log_toml c level)) "toml"
                 | _ => Ok (lit "[root]" ++ [LF] ++ lit "level = 'error'" ++ [LF] ++ lit "appenders = []")
                 end;
      Ok (Some (lc_path, contents), set_env "CONCORDIUM_NODE_LOG_CONFIG" lc_path cmd)
  end.

(** ** Nodes *)

Record Node := mkNode {
  node_process : nat;
  node_config : NodeConfig;
  stderr_path : text;
  collector_process : option nat;
  log_config_file : option (text * text);
}.
Definition set_collector (o : option nat) (n : Node) : Node :=
  mkNode (node_process n) (node_config n) (stderr_path n) o (log_config_file n).

Definition level_variable `{EnvNames} (l : option Level) (cmd : Command) : Command :=
  match l with
  | Some LvError => set_env "CONCORDIUM_NODE_NO_CONSENSUS_LOG" (lit "true") cmd
  | Some LvInfo => set_env "CONCORDIUM_NODE_LOG_LEVEL_INFO" (lit "true") cmd
  | Some LvDebug => set_env "CONCORDIUM_NODE_LOG_LEVEL_DEBUG" (lit "true") cmd
  | Some LvTrace => set_env "CONCORDIUM_NODE_LOG_LEVEL_TRACE" (lit "true") cmd
  | _ => cmd
  end.

(** The command of a node, but for the configuration of its logging. *)
Definition node_command `{EnvNames} (c : NodeConfig) (bin : text) : Command :=
  level_variable (nc_log_level c)
    (set_env_opt "CONCORDIUM_NODE_LISTEN_PORT" (u16_to_string <$> nc_listen_port c)
      (set_env_opt "CONCORDIUM_NODE_LISTEN_ADDRESS" (ip_to_string <$> nc_listen_address c)
        (set_env_opt "CONCORDIUM_NODE_GRPC2_LISTEN_PORT" (u16_to_string <$> nc_grpc2_port c)
          (set_env_opt "CONCORDIUM_NODE_GRPC2_LISTEN_ADDRESS" (ip_to_string <$> nc_grpc2_address c)
            (set_env_opt "CONCORDIUM_NODE_VALIDATOR_CREDENTIALS_FILE" (nc_baker_credentials c)
              (set_env "CONCORDIUM_NODE_CONNECTION_BOOTSTRAP_NODES" (nc_bootstrap_nodes c)
                (set_env "CONCORDIUM_NODE_DATA_DIR" (nc_data_dir c)
                  (set_env "CONCORDIUM_NODE_CONFIG_DIR" (nc_config_dir c)
                    (set_envs (nc_node_env c) (command_new bin)))))))))).

(** An error is logged, and there is no value. *)
Definition log_error_default {St A} (d : A) (m : M St A) : M St A := fun s =>
  match m s with
  | (Err _, s') => (Ok d, s')
  | r => r
  end.

(** [NodeConfig::start]. *)
Definition start `{Toml} `{LevelNames} `{EnvNames} (e : StartEnv) (c : NodeConfig) : M System Node :=
  bin_path ← lift (binary e (nc_node_bin c) "concordium-node.exe");
  '(file, cmd) ← lift (make_log_config_file e (nc_log_config c) (nc_log_level c) (node_command c bin_path));
  stderr ← lift (match stderr_temp e with Some p => Ok p | None => Err (IoError "tempfile") end);
  pid ← spawn e (set_stderr (StdioFile stderr) (set_process_group (add_args (nc_node_args c) cmd)));
  collector ← log_error_default None (start_collector e c);
  mret (mkNode pid c stderr collector file).

(** [Node::check_exit]. *)
Definition check_collector (f : Faults) (n : Node) (exited : bool) (collector : nat) : M System Node := fun s =>
  if exited then
    match try_wait f collector s with
    | Ok None => (Ok n, (log_error (kill f collector) s).2)
    | _ => (Ok n, s)
    end
  else
    match try_wait f collector s with
    | Ok None => (Ok n, s)
    | _ => (Ok (set_collector None n), s)
    end.
Definition check_exit (f : Faults) (n : Node) : M System (option Z * Node) := fun s =>
  match try_wait f (node_process n) s with
  | Ok exit_status =>
      (n' ← match collector_process n with
            | Some collector => check_collector f n (bool_decide (is_Some exit_status)) collector
            | None => mret n
            end;
       mret (exit_status, n')) s
  | Err e => (Err e, s)
  | Panic => (Panic, s)
  end.

(** [Node::shutdown] and [Node::force_shutdown]: both processes are to be killed,
    whether or not that fails for the first. *)
Definition node_shutdown (f : Faults) (n : Node) : outcome unit := send_child_ctrl_break f (node_process n).
Definition force_shutdown (f : Faults) (n : Node) : M System unit := fun s =>
  let '(r1, s1) := kill f (node_process n) s in
  match collector_process n with
  | Some cp => let '(r2, s2) := kill f cp s1 in ((_ ← r1; r2), s2)
  | None => (r1, s1)
  end.

(** ** Error output *)

Definition ERROR_MAX_LENGTH : nat := 1000.

(** [str::split_once] at a line feed: what follows it. *)
Fixpoint after_line_feed (l : list byte) : option (list byte) :=
  match l with
  | [] => None
  | b :: l' => if byte_to_Z b =? LF then Some l' else after_line_feed l'
  end.

(** [Node::get_error_output], on the contents of the file, if it can be opened. *)
Definition get_error_output (file : option (list byte)) : outcome (list byte) :=
  match file with
  | None => Err (IoError "open")
  | Some contents =>
      if decide (length contents = 0)%nat then Ok []
      else if decide (length contents <= ERROR_MAX_LENGTH)%nat then from_utf8 contents
      else
        buf ← from_utf8 (drop (length contents - ERROR_MAX_LENGTH) contents);
        match after_line_feed buf with Some rest => Ok rest | None => Ok buf end
  end.
