(* ===== verification/WinService.v ===== *)
(** * The node runner service

    The Windows service that runs nodes ([service/windows/src/main.rs],
    [service/windows/src/manager.rs]): its handler of control events, the states
    it reports, the loop that watches the nodes and the shutdown.  What happens
    while the service is parked is an input: the time that passes, the processes
    that exit, and whether a stop is requested. *)

From stdpp Require Import base tactics list gmap strings option numbers.
From Stdlib Require Import ZArith.
From S2P Require Import Prelude Text WinPath WinConfig WinNode.

(** ** States and controls *)

Inductive ServiceState := StartPending | Running | StopPending | Stopped.
#[export] Instance ServiceState_eq_dec : EqDecision ServiceState.
Proof. solve_decision. Defined.
Inductive ServiceControl := ControlStop | ControlPreshutdown | ControlInterrogate | OtherControl.
Inductive HandlerResult := NoError | NotImplemented.

(** [ServiceStatus], without the fields that are always the same; durations are in
    milliseconds. *)
Record ServiceStatus := mkStatus {
  current_state : ServiceState;
  accepts_stop : bool;
  checkpoint : Z;
  wait_hint : Z;
}.
Definition simple_status_with_controls (state : ServiceState) (accepts : bool) : ServiceStatus :=
  mkStatus state accepts 0 0.
Definition simple_status (state : ServiceState) : ServiceStatus := simple_status_with_controls state false.
Definition pending_status (state : ServiceState) (checkpoint wait_hint : Z) : ServiceStatus :=
  mkStatus state false checkpoint wait_hint.

(** ** The service *)

(** [flag] is [is_shutdown]; [now] is the clock. *)
Record Service := mkService {
  sys : System;
  flag : bool;
  now : Z;
  statuses : list ServiceStatus;
}.
Definition service_initial (now : Z) : Service := mkService system_initial false now [].

(** The event handler: a stop or a shutdown of the system sets the flag. *)
Definition event_handler (c : ServiceControl) (s : Service) : HandlerResult * Service :=
  match c with
  | ControlStop | ControlPreshutdown => (NoError, mkService (sys s) true (now s) (statuses s))
  | ControlInterrogate => (NoError, s)
  | OtherControl => (NotImplemented, s)
  end.

(** What happens while the service is parked, or between two of its actions. *)
Record Tick := mkTick {
  elapsed : Z;
  exits : list (nat * Z);
  controls : list ServiceControl;
}.
Definition process_exits (e : nat * Z) (y : System) : System :=
  mkSystem (alter (fun st => match st with None => Some e.2 | Some x => Some x end) e.1 (processes y))
    (commands y) (next_pid y).
Definition pass (t : Tick) (s : Service) : Service :=
  let s1 := foldl (fun s c => (event_handler c s).2) s (controls t) in
  mkService (foldl (fun y e => process_exits e y) (sys s1) (exits t)) (flag s1) (now s1 + elapsed t) (statuses s1).

(** The environment of the service: whether a console is there or can be made and the
    handler can be registered, which reports of a status succeed, the registry and
    the file system, and which calls on processes fail. *)
Record ServiceEnv := mkServiceEnv {
  console_ok : bool;
  register_ok : bool;
  status_ok : nat -> bool;
  registry : option (option text);
  read_to_string : text -> option text;
  start_env : NodeConfig -> StartEnv;
  faults : nat -> Faults;
}.

Section service.
Context `{Toml} `{LevelNames} `{EnvNames}.
Variable env : ServiceEnv.

Definition on_system {A} (m : M System A) : M Service A := fun s =>
  let '(r, y) := m (sys s) in (r, mkService y (flag s) (now s) (statuses s)).

(** [status_handle.set_service_status]. *)
Definition set_service_status (st : ServiceStatus) : M Service unit := fun s =>
  if status_ok env (length (statuses s))
  then (Ok tt, mkService (sys s) (flag s) (now s) (statuses s ++ [st]))
  else (Err (IoError "set_service_status"), s).

(** The start of the nodes; errors are logged. *)
Fixpoint start_nodes (ncs : list NodeConfig) : M System (list Node) := fun y =>
  match ncs with
  | [] => (Ok [], y)
  | nc :: ncs' =>
      match start (start_env env nc) nc y with
      | (Ok node, y') => (nodes ← start_nodes ncs'; mret (node :: nodes)) y'
      | (Err _, y') => start_nodes ncs' y'
      | (Panic, y') => (Panic, y')
      end
  end.

(** [nodes.retain_mut(..)]: nodes that have exited, or whose state cannot be
    determined, are dropped. *)
Fixpoint retain (f : Faults) (nodes : list Node) : M System (list Node) := fun y =>
  match nodes with
  | [] => (Ok [], y)
  | node :: nodes' =>
      match check_exit f node y with
      | (Ok (None, node'), y') => (rest ← retain f nodes'; mret (node' :: rest)) y'
      | (Panic, y') => (Panic, y')
      | (_, y') => retain f nodes' y'
      end
  end.

(** The loop until a shutdown is requested or all nodes have stopped.  [i] counts
    the checks; the service still runs if the inputs are used up. *)
Fixpoint watch (i : nat) (ticks : list Tick) (nodes : list Node)
    : M Service (option (nat * list Tick * list Node)) := fun s =>
  if flag s then (Ok (Some (i, ticks, nodes)), s)
  else
    match on_system (retain (faults env i) nodes) s with
    | (Ok [], s') => (Ok (Some (S i, ticks, [])), s')
    | (Ok nodes', s') =>
        match ticks with
        | [] => (Ok None, s')
        | t :: ticks' => watch (S i) ticks' nodes' (pass t s')
        end
    | (Err e, s') => (Err e, s')
    | (Panic, s') => (Panic, s')
    end.

Definition expected_shutdown_duration : Z := 61000.

(** The signals; an error ends the service. *)
Fixpoint signal_nodes (f : Faults) (nodes : list Node) : outcome unit :=
  match nodes with
  | [] => Ok tt
  | node :: nodes' =>
      match node_shutdown f node with
      | Ok _ => signal_nodes f nodes'
      | Err _ => bail "Failed shutting down node"
      | Panic => Panic
      end
  end.

(** The loop that waits for the nodes to shut down, from the time [t] of its last
    check of the clock. *)
Fixpoint await_exit (shutdown_begin : Z) (i : nat) (chk : Z) (ticks : list Tick) (nodes : list Node)
    : M Service (option (nat * list Node)) := fun s =>
  let t := now s in
  if t <? shutdown_begin + expected_shutdown_duration then
    let chk' := u32_wrap (chk + 1) in
    let status := pending_status StopPending chk' (expected_shutdown_duration - (t - shutdown_begin)) in
    match (_ ← set_service_status status; on_system (retain (faults env i) nodes)) s with
    | (Ok [], s') => (Ok (Some (S i, [])), s')
    | (Ok nodes', s') =>
        match ticks with
        | [] => (Ok None, s')
        | tick :: ticks' => await_exit shutdown_begin (S i) chk' ticks' nodes' (pass tick s')
        end
    | (Err e, s') => (Err e, s')
    | (Panic, s') => (Panic, s')
    end
  else (Ok (Some (i, nodes)), s).

(** Nodes that are left are killed; errors are logged. *)
Fixpoint kill_nodes (f : Faults) (nodes : list Node) : M System unit := fun y =>
  match nodes with
  | [] => (Ok tt, y)
  | node :: nodes' => (_ ← log_error (force_shutdown f node); kill_nodes f nodes') y
  end.

(** The shutdown; the time that it takes to signal the nodes is an input. *)
Definition stop_nodes (i : nat) (signalling : Tick) (ticks : list Tick) (nodes : list Node)
    : M Service (option unit) :=
  _ ← set_service_status (pending_status StopPending 0 expected_shutdown_duration);
  s0 ← get;
  _ ← lift (signal_nodes (faults env i) nodes);
  _ ← modify (pass signalling);
  r ← await_exit (now s0) (S i) 0 ticks nodes;
  match r with
  | None => mret None
  | Some (j, remaining) =>
      _ ← on_system (kill_nodes (faults env j) remaining);
      _ ← set_service_status (simple_status Stopped);
      mret (Some tt)
  end.

(** [run_service]: [None] if it is still running when the inputs are used up. *)
Definition run_service (loading signalling : Tick) (ticks : list Tick) : M Service (option unit) :=
  _ ← lift (if console_ok env then Ok tt else Err (IoError "AllocConsole"));
  _ ← lift (if register_ok env then Ok tt else Err (IoError "register"));
  _ ← set_service_status (pending_status StartPending 0 1000);
  config ← lift (load_config (registry env) (read_to_string env));
  nodes ← on_system (start_nodes config);
  _ ← modify (pass loading);
  _ ← set_service_status (simple_status_with_controls Running true);
  r ← watch 0 ticks nodes;
  match r with
  | None => mret None
  | Some (i, ticks', nodes') => stop_nodes i signalling ticks' nodes'
  end.

(** [runner_service_main]: an error is a panic. *)
Definition runner_service_main (loading signalling : Tick) (ticks : list Tick) : M Service (option unit) :=
  fun s => match run_service loading signalling ticks s with (Err _, s') => (Panic, s') | r => r end.
End service.

(** ** The command line *)

(** What is asked of the manager of services, with the rights that are asked for. *)
Inductive Access := CreateAccess | EnumerateAccess.
Inductive ServiceAccess := DeleteAccess | StartAccess | StopAccess.
Inductive ManagerCall :=
| OpenManager (a : Access)
| CreateService (display_name : string) (executable : text)
| SetDescription (description : string)
| OpenService (a : ServiceAccess)
| DeleteService | StartService | StopService
| RegisterEventLog | DeregisterEventLog
| OpenEditor (path : text).

Section manager.
(** Which calls succeed. *)
Variable ok : ManagerCall -> bool.

Definition call_manager (c : ManagerCall) : M (list ManagerCall) unit := fun l =>
  if ok c then (Ok tt, l ++ [c]) else (Err (IoError "service"), l).

(** [manager::install], [manager::remove], [manager::start] and [manager::stop]. *)
Definition install (current_exe : option text) : M (list ManagerCall) unit :=
  exe_path ← lift (match current_exe with Some p => Ok p | None => Err (IoError "current_exe") end);
  _ ← call_manager (OpenManager CreateAccess);
  _ ← call_manager (CreateService "Concordium Node Runner Service" exe_path);
  call_manager (SetDescription "Runs one or more Concordium blockchain nodes.").
Definition on_service (a : ServiceAccess) (c : ManagerCall) : M (list ManagerCall) unit :=
  _ ← call_manager (OpenManager EnumerateAccess);
  _ ← call_manager (OpenService a);
  call_manager c.
Definition remove : M (list ManagerCall) unit := on_service DeleteAccess DeleteService.
Definition start_service : M (list ManagerCall) unit := on_service StartAccess StartService.
Definition stop_service : M (list ManagerCall) unit := on_service StopAccess StopService.

(** [str::to_lowercase], on the letters that occur in commands. *)
Definition to_lowercase (s : text) : text :=
  (fun c => if (65 <=? c) && (c <=? 90) then c + 32 else c) <$> s.

(** [nonservice_main]: what is done for the argument. *)
Definition nonservice_main (current_exe : option text) (registry : option (option text))
    (arg : option text) : M (list ManagerCall) unit :=
  let arg := to_lowercase (default [] arg) in
  if decide (arg = lit "install") then
    _ ← install current_exe; modify (fun l => l ++ [RegisterEventLog])
  else if decide (arg = lit "remove") then
    _ ← remove; modify (fun l => l ++ [DeregisterEventLog])
  else if decide (arg = lit "start") then start_service
  else if decide (arg = lit "stop") then stop_service
  else if decide (arg = lit "configure") then
    config_path ← lift (get_config_file_path registry); call_manager (OpenEditor config_path)
  else mret tt.

(** [main]: the command line, if the program was not started as a service. *)
Inductive Dispatch := RanAsService | NotAService | DispatchError.
Definition service_main (dispatched : Dispatch) (current_exe : option text) (registry : option (option text))
    (arg : option text) : M (list ManagerCall) unit :=
  match dispatched with
  | RanAsService => mret tt
  | NotAService => nonservice_main current_exe registry arg
  | DispatchError => lift (bail "service_dispatcher::start")
  end.
End manager.
