(* ===== verification/WinProps.v ===== *)
(** * Theorems on the node runner service

    The service stops: it ends within the time that it announces, and leaves no
    process behind, unless a node cannot be signalled or its state cannot be
    determined. *)

From stdpp Require Import base tactics list gmap strings option numbers vector.
From Stdlib Require Import ZArith.
From S2P Require Import Prelude Text Common IpText Wire WinPath WinConfig WinNode WinService.

(** ** Processes *)

(** No process runs that did not run before. *)
Definition fewer (y' y : System) : Prop := forall pid, running pid y' -> running pid y.
#[export] Instance fewer_preorder : PreOrder fewer.
Proof. split; [by intros y pid|]. intros y1 y2 y3 H1 H2 pid Hp. auto. Qed.

Definition owned (n : Node) (pid : nat) : Prop := pid = node_process n \/ collector_process n = Some pid.
(** All processes that run belong to nodes. *)
Definition tracked (y : System) (nodes : list Node) : Prop :=
  forall pid, running pid y -> exists n, n ∈ nodes /\ owned n pid.

(** Neither the state of a process nor its end fails. *)
Definition quiet (f : Faults) : Prop := forall pid, wait_fails f pid = false /\ kill_fails f pid = false.

Lemma alter_running (g : option Z -> option Z) pid0 y pid :
  (forall st, is_Some (g st)) ->
  alter g pid0 (processes y) !! pid = Some None -> pid <> pid0 /\ running pid y.
Proof.
  intros Hg. destruct (decide (pid = pid0)) as [->|Hn].
  - rewrite lookup_alter_eq. destruct (processes y !! pid0) as [st|]; [|done]. simpl.
    destruct (Hg st) as [z ->]. done.
  - rewrite lookup_alter_ne by done. done.
Qed.
Lemma terminate_fewer pid y : fewer (terminate pid y) y /\ ~ running pid (terminate pid y).
Proof.
  assert (Hg : forall st : option Z, is_Some (match st with None => Some 1 | Some e => Some e end))
    by (intros []; by eexists).
  split; [intros p Hp|intros Hp]; apply (alter_running _ _ _ _ Hg) in Hp; naive_solver.
Qed.
Lemma process_exits_fewer e y : fewer (process_exits e y) y.
Proof.
  intros p Hp. apply alter_running in Hp as [_ ?]; [done|]. intros []; by eexists.
Qed.

Lemma kill_quiet f pid y :
  quiet f -> exists y', kill f pid y = (Ok tt, y') /\ fewer y' y /\ ~ running pid y'.
Proof.
  intros Hq. unfold kill. rewrite (proj2 (Hq pid)). eexists. split; [done|]. apply terminate_fewer.
Qed.
Lemma try_wait_quiet f pid y :
  quiet f -> exists st, try_wait f pid y = Ok st /\ (is_Some st -> ~ running pid y).
Proof.
  intros Hq. unfold try_wait. rewrite (proj1 (Hq pid)). eexists. split; [done|].
  unfold running. destruct (processes y !! pid) as [[]|]; simpl; [done|by intros [] |by intros []].
Qed.

Lemma check_exit_quiet f n y :
  quiet f ->
  exists st n' y', check_exit f n y = (Ok (st, n'), y') /\ fewer y' y /\
    (forall pid, running pid y' -> owned n pid -> st = None /\ owned n' pid).
Proof.
  intros Hq. unfold check_exit. destruct (try_wait_quiet f (node_process n) y Hq) as (st & -> & Hst).
  destruct (collector_process n) as [cp|] eqn:Ec; cycle 1.
  { exists st, n, y. split_and!; [done..|]. intros pid Hr [->|E]; [|congruence].
    destruct st; [|split; [done|by left]]. destruct Hst; by eauto. }
  unfold check_collector, mbind, M_bind, mret, M_ret.
  destruct (try_wait_quiet f cp y Hq) as (cst & -> & Hcst).
  destruct st as [e|]; cbn [bool_decide]; rewrite ?bool_decide_eq_true_2, ?bool_decide_eq_false_2
    by (by eexists || by intros []).
  - destruct cst as [ce|].
    + exists (Some e), n, y. split_and!; [done..|]. intros pid Hr [->|E].
      * destruct Hst; by eauto.
      * assert (cp = pid) as -> by congruence. destruct Hcst; by eauto.
    + destruct (kill_quiet f cp y Hq) as (y' & Ek & Hf & Hn). unfold log_error. rewrite Ek.
      exists (Some e), n, y'. split_and!; [done..|]. intros pid Hr [->|E].
      * destruct Hst; [by eauto|]. by apply Hf.
      * by assert (cp = pid) as -> by congruence.
  - destruct cst as [ce|].
    + exists None, (set_collector None n), y. split_and!; [done..|]. intros pid Hr [->|E].
      * split; [done|by left].
      * assert (cp = pid) as -> by congruence. destruct Hcst; by eauto.
    + exists None, n, y. split_and!; [done..|]. by intros pid Hr Ho.
Qed.

Lemma retain_quiet f nodes : quiet f -> forall y,
  exists nodes' y', retain f nodes y = (Ok nodes', y') /\ fewer y' y /\
    (forall pid, running pid y' -> (exists n, n ∈ nodes /\ owned n pid) ->
       exists n, n ∈ nodes' /\ owned n pid).
Proof.
  intros Hq. induction nodes as [|n nodes IH]; intros y.
  { exists [], y. split_and!; [done..|]. intros pid _ (n & ?%elem_of_nil & _). done. }
  cbn [retain]. destruct (check_exit_quiet f n y Hq) as (st & n' & y1 & -> & Hf1 & Ho).
  destruct (IH y1) as (nodes' & y2 & E & Hf2 & Hs). destruct st as [e|].
  - exists nodes', y2. split_and!; [done|by etrans|]. intros pid Hr (m & [->|Hm]%elem_of_cons & Hom).
    + by destruct (Ho pid (Hf2 _ Hr) Hom).
    + by apply (Hs pid Hr); exists m.
  - unfold mbind, M_bind, mret, M_ret. rewrite E. exists (n' :: nodes'), y2.
    split_and!; [done|by etrans|]. intros pid Hr (m & [->|Hm]%elem_of_cons & Hom).
    + exists n'. split; [by left|]. by apply (Ho pid (Hf2 _ Hr)).
    + destruct (Hs pid Hr) as (m' & ? & ?); [by exists m|]. exists m'. split; [by right|done].
Qed.
Lemma retain_tracked f nodes y nodes' y' :
  quiet f -> tracked y nodes -> retain f nodes y = (Ok nodes', y') -> fewer y' y /\ tracked y' nodes'.
Proof.
  intros Hq Ht E. destruct (retain_quiet f nodes Hq y) as (ns & y1 & E1 & Hf & Hs).
  rewrite E in E1. simplify_eq. split; [done|]. intros pid Hr. apply (Hs pid Hr), Ht, Hf, Hr.
Qed.

Lemma kill_nodes_quiet f nodes : quiet f -> forall y,
  exists y', kill_nodes f nodes y = (Ok tt, y') /\ fewer y' y /\
    (forall pid n, running pid y' -> n ∈ nodes -> ~ owned n pid).
Proof.
  intros Hq. induction nodes as [|n nodes IH]; intros y.
  { exists y. split_and!; [done..|]. by intros pid n _ ?%elem_of_nil. }
  cbn [kill_nodes]. unfold mbind, M_bind, log_error, force_shutdown.
  destruct (kill_quiet f (node_process n) y Hq) as (y1 & -> & Hf1 & Hn1).
  assert (exists y2, (match collector_process n with
      | Some cp => let '(r2, s2) := kill f cp y1 in ((_ ← Ok tt; r2), s2)
      | None => (Ok tt, y1) end) = (Ok tt, y2) /\ fewer y2 y1 /\
      forall pid, running pid y2 -> collector_process n <> Some pid) as (y2 & -> & Hf2 & Hn2).
  { destruct (collector_process n) as [cp|]; [|by exists y1].
    destruct (kill_quiet f cp y1 Hq) as (y2 & -> & ? & ?). exists y2. split_and!; [done..|].
    intros pid Hr [= ->]. done. }
  destruct (IH y2) as (y3 & -> & Hf3 & Hn3). exists y3. split; [done|]. split; [by do 2 (etrans; [done|])|].
  intros pid m Hr [->|Hm]%elem_of_cons; [|by apply Hn3]. intros [->|E].
  - apply Hn1, Hf2, Hf3, Hr.
  - by apply (Hn2 pid); [apply Hf3|].
Qed.

(** ** Starting *)

Section start.
Context `{Toml} `{LevelNames} `{EnvNames}.

Lemma spawn_spec e cmd y r y' :
  spawn e cmd y = (r, y') ->
  match r with
  | Ok pid => forall p, running p y' -> p = pid \/ running p y
  | Err _ => y' = y
  | Panic => False
  end.
Proof.
  unfold spawn. destruct (can_spawn e cmd); intros [= <- <-]; [|done].
  intros p Hp. unfold running in *. simpl in Hp. apply lookup_insert_Some in Hp. naive_solver.
Qed.

(** Running the collector never unwraps a missing URL. *)
Lemma start_collector_spec e c y r y' :
  start_collector e c y = (r, y') ->
  match r with
  | Ok o => forall p, running p y' -> o = Some p \/ running p y
  | Err _ => y' = y
  | Panic => False
  end.
Proof.
  unfold start_collector. destruct (bool_decide _ && _).
  { unfold lift, bail. intros [= <- <-]. done. }
  destruct (run_collector c) eqn:Er; [|intros [= <- <-]; by right].
  unfold run_collector in Er. apply andb_true_iff in Er as [[[_ Hu]%andb_true_iff _]%andb_true_iff _].
  apply bool_decide_eq_true_1 in Hu as [url ->].
  unfold mbind, M_bind, lift, mret, M_ret.
  destruct (binary _ _ _) as [bin|er|] eqn:Eb; [|intros [= <- <-]; done|].
  2: { unfold binary in Eb. destruct (nc_collector_bin c), (current_exe e); done. }
  destruct (nc_collector_log_file c) as [lf|]; [destruct (can_create e lf)|].
  2: { intros [= <- <-]. done. }
  all: destruct (spawn _ _ _) as [rs y1] eqn:Es; apply spawn_spec in Es; destruct rs;
    intros [= <- <-]; naive_solver.
Qed.

Lemma start_spec e c y r y' :
  start e c y = (r, y') ->
  match r with
  | Ok n => node_config n = c /\ forall p, running p y' -> owned n p \/ running p y
  | Err _ => y' = y
  | Panic => False
  end.
Proof.
  unfold start, mbind, M_bind, lift, mret, M_ret.
  destruct (binary _ _ _) as [bin|er|] eqn:Eb; [|intros [= <- <-]; done|].
  2: { unfold binary in Eb. destruct (nc_node_bin c), (current_exe e); done. }
  destruct (make_log_config_file _ _ _ _) as [[file cmd]|er|] eqn:El; [|intros [= <- <-]; done|].
  2: { unfold make_log_config_file, mbind, outcome_bind, context, bail in El.
       by repeat (case_match; simplify_eq). }
  destruct (stderr_temp e) as [stderr|]; [|intros [= <- <-]; done].
  destruct (spawn _ _ _) as [rs y1] eqn:Es. apply spawn_spec in Es.
  destruct rs as [pid| |]; [|intros [= <- <-]; done..].
  unfold log_error_default. destruct (start_collector e c y1) as [rc y2] eqn:Ec.
  apply start_collector_spec in Ec. unfold owned.
  destruct rc; [| |done]; intros [= <- <-]; (split; [done|]); simpl; naive_solver.
Qed.

Lemma start_nodes_spec env ncs : forall y r y',
  start_nodes env ncs y = (r, y') ->
  exists nodes, r = Ok nodes /\ (node_config <$> nodes) `sublist_of` ncs /\
    forall p, running p y' -> (exists n, n ∈ nodes /\ owned n p) \/ running p y.
Proof.
  induction ncs as [|nc ncs IH]; intros y r y'.
  { intros [= <- <-]. exists []. split_and!; [done|constructor|by right]. }
  cbn [start_nodes]. destruct (start _ _ _) as [rs y1] eqn:Es. apply start_spec in Es.
  destruct rs as [n| |]; [| |done]; unfold mbind, M_bind, mret, M_ret.
  - destruct Es as [Ec Es]. destruct (start_nodes env ncs y1) as [r2 y2] eqn:En.
    apply IH in En as (nodes & -> & Hsub & Hr). intros [= <- <-]. exists (n :: nodes).
    split_and!; [done|rewrite fmap_cons, Ec; by constructor|]. intros p Hp.
    destruct (Hr p Hp) as [(m & ? & ?)|Hp1].
    + left. exists m. split; [by right|done].
    + destruct (Es p Hp1); [left; exists n; split; [by left|done]|by right].
  - subst y1. intros En. apply IH in En as (nodes & -> & Hsub & Hr). exists nodes.
    split_and!; [done|by constructor|done].
Qed.
Lemma start_nodes_tracked env ncs r y' :
  start_nodes env ncs system_initial = (r, y') ->
  exists nodes, r = Ok nodes /\ (node_config <$> nodes) `sublist_of` ncs /\ tracked y' nodes.
Proof.
  intros (nodes & -> & Hsub & Hr)%start_nodes_spec. exists nodes. split_and!; [done..|].
  intros p Hp. destruct (Hr p Hp) as [?|Hi]; [done|]. unfold running in Hi. simpl in Hi.
  by rewrite lookup_empty in Hi.
Qed.
End start.

(** ** The passing of time *)

Definition requests (c : ServiceControl) : bool :=
  match c with ControlStop | ControlPreshutdown => true | _ => false end.
Definition requests_stop (t : Tick) : bool := existsb requests (controls t).

Lemma foldl_exits l y : fewer (foldl (fun y e => process_exits e y) y l) y.
Proof.
  revert y. induction l as [|e l IH]; intros y; [done|]. simpl. etrans; [apply IH|].
  apply process_exits_fewer.
Qed.
Lemma foldl_controls l : forall s,
  foldl (fun s c => (event_handler c s).2) s l
  = mkService (sys s) (flag s || existsb requests l) (now s) (statuses s).
Proof.
  induction l as [|c l IH]; intros s; simpl; [by destruct s as [? []]|].
  rewrite IH. destruct c; simpl; rewrite ?orb_true_r; by destruct s as [? []].
Qed.
Lemma pass_spec t s :
  fewer (sys (pass t s)) (sys s) /\ flag (pass t s) = flag s || requests_stop t /\
  now (pass t s) = now s + elapsed t /\ statuses (pass t s) = statuses s.
Proof. unfold pass. rewrite foldl_controls. simpl. split_and!; [apply foldl_exits|done..]. Qed.

Definition total (ticks : list Tick) : Z := foldr (fun t z => elapsed t + z) 0 ticks.
Definition forward (ticks : list Tick) : Prop := Forall (fun t => 0 <= elapsed t) ticks.
Lemma total_nonneg ticks : forward ticks -> 0 <= total ticks.
Proof. induction 1; simpl; lia. Qed.
Lemma total_app l k : total (l ++ k) = total l + total k.
Proof. induction l; simpl; lia. Qed.

(** A stop is requested, and the time that the service allows for it passes then. *)
Definition will_stop (s : Service) (ticks : list Tick) : Prop :=
  (flag s = true /\ expected_shutdown_duration <= total ticks) \/
  exists before t after, ticks = before ++ t :: after /\ requests_stop t = true /\
    expected_shutdown_duration <= total after.

Lemma will_stop_total s ticks :
  forward ticks -> will_stop s ticks -> expected_shutdown_duration <= total ticks.
Proof.
  intros Hf [[_ Hw]|(bf & t & af & -> & _ & Hw)]; [done|]. rewrite total_app. simpl.
  apply Forall_app in Hf as [Hb Hf]. apply list.Forall_cons_1 in Hf as [Ht _].
  pose proof (total_nonneg bf Hb). lia.
Qed.
Lemma will_stop_step t ticks s s' :
  flag s = false -> will_stop s (t :: ticks) -> flag s' = flag s || requests_stop t -> will_stop s' ticks.
Proof.
  intros Ef [[E _]|(bf & t' & af & E & Hr & Hw)] Es; [congruence|]. destruct bf as [|t0 bf]; simplify_eq/=.
  - left. by rewrite Es, Hr, orb_true_r.
  - right. by eexists _, _, _.
Qed.
Lemma will_stop_flag s s' ticks : flag s' = flag s -> will_stop s ticks -> will_stop s' ticks.
Proof. unfold will_stop. by intros ->. Qed.
Lemma wrap_succ n : u32_wrap (u32_wrap (Z.of_nat n) + 1) = u32_wrap (Z.of_nat (S n)).
Proof. unfold wrap. rewrite Zplus_mod_idemp_l. f_equal. lia. Qed.

Lemma tracked_fewer y' y nodes : fewer y' y -> tracked y nodes -> tracked y' nodes.
Proof. intros Hf Ht pid Hr. apply Ht, Hf, Hr. Qed.

(** ** The service stops *)

Section service.
Context `{Toml} `{LevelNames} `{EnvNames}.
Variable env : ServiceEnv.
Hypothesis Hquiet : forall i, quiet (faults env i).
Hypothesis Hstatus : forall k, status_ok env k = true.

Lemma on_system_retain i nodes s :
  tracked (sys s) nodes ->
  exists nodes' s', on_system (retain (faults env i) nodes) s = (Ok nodes', s') /\
    tracked (sys s') nodes' /\ flag s' = flag s /\ now s' = now s /\ statuses s' = statuses s.
Proof.
  intros Ht. unfold on_system. destruct (retain_quiet _ nodes (Hquiet i) (sys s)) as (nodes' & y' & E & _).
  destruct (retain_tracked _ _ _ _ _ (Hquiet i) Ht E). rewrite E. by eexists _, _.
Qed.

Lemma watch_stops ticks : forall i nodes s,
  forward ticks -> will_stop s ticks -> tracked (sys s) nodes ->
  exists i' ticks' nodes' s', watch env i ticks nodes s = (Ok (Some (i', ticks', nodes')), s') /\
    forward ticks' /\ expected_shutdown_duration <= total ticks' /\ tracked (sys s') nodes' /\
    statuses s' = statuses s.
Proof.
  induction ticks as [|t ticks IH]; intros i nodes s Hf Hw Ht; cbn [watch];
    pose proof (will_stop_total _ _ Hf Hw) as Htot.
  - exfalso. unfold expected_shutdown_duration in Htot. simpl in Htot. lia.
  - destruct (flag s) eqn:Ef; [by eexists _, _, _, _|].
    destruct (on_system_retain i nodes s Ht) as (nodes' & s1 & -> & Ht1 & Ef1 & En1 & Est1).
    destruct nodes' as [|n nodes']; [by eexists _, _, _, _|].
    destruct (pass_spec t s1) as (Hp & Efp & Enp & Estp). apply list.Forall_cons_1 in Hf as [Hft Hf].
    destruct (IH (S i) (n :: nodes') (pass t s1)) as (i' & ticks' & ns & s' & -> & Hw1 & Hw2 & Hw3 & Hw4).
    + done.
    + apply (will_stop_step t ticks s); [done|done|]. by rewrite Efp, Ef1.
    + by eapply tracked_fewer.
    + eexists _, _, _, _. split_and!; try done. congruence.
Qed.

Fixpoint stop_reports (n : nat) (hints : list Z) : list ServiceStatus :=
  match hints with
  | [] => []
  | h :: hints' => pending_status StopPending (u32_wrap (Z.of_nat n)) h :: stop_reports (S n) hints'
  end.

Lemma await_exit_stops begin ticks : forall i n nodes s,
  forward ticks -> begin <= now s -> begin + expected_shutdown_duration <= now s + total ticks ->
  tracked (sys s) nodes ->
  exists i' nodes' s' hints,
    await_exit env begin i (u32_wrap (Z.of_nat n)) ticks nodes s = (Ok (Some (i', nodes')), s') /\
    tracked (sys s') nodes' /\ statuses s' = statuses s ++ stop_reports (S n) hints /\
    Forall (fun h => 0 < h <= expected_shutdown_duration) hints.
Proof.
  induction ticks as [|t ticks IH]; intros i n nodes s Hf Hb Htot Ht; cbn [await_exit];
    (destruct (Z.ltb_spec (now s) (begin + expected_shutdown_duration)); cycle 1;
     [eexists _, _, _, []; cbn [stop_reports]; rewrite app_nil_r; by split_and!|]).
  { simpl in Htot. lia. }
  unfold set_service_status, mbind, M_bind. rewrite Hstatus.
  set (hint := expected_shutdown_duration - (now s - begin)).
  assert (Hh : 0 < hint <= expected_shutdown_duration) by (subst hint; lia).
  rewrite wrap_succ.
  match goal with |- context [on_system _ ?s1] =>
    destruct (on_system_retain i nodes s1 Ht) as (nodes' & s2 & -> & Ht2 & Ef2 & En2 & Est2) end.
  destruct nodes' as [|m nodes'].
  { eexists _, _, _, [hint]. split_and!; [done|done|by rewrite Est2|by constructor]. }
  destruct (pass_spec t s2) as (Hp & Efp & Enp & Estp). apply list.Forall_cons_1 in Hf as [Hft Hf].
  destruct (IH (S i) (S n) (m :: nodes') (pass t s2)) as (i' & ns & s' & hints & -> & Ht' & Est' & Hh').
  - done.
  - rewrite Enp, En2. simpl. lia.
  - rewrite Enp, En2. simpl in *. lia.
  - by eapply tracked_fewer.
  - eexists _, _, _, (hint :: hints). split_and!; [done|done| |by constructor].
    rewrite Est', Estp, Est2. simpl. by rewrite <- app_assoc.
Qed.

Lemma signal_nodes_ok f nodes : (forall pid, break_fails f pid = false) -> signal_nodes f nodes = Ok tt.
Proof.
  intros Hb. induction nodes as [|n nodes IH]; [done|]. simpl. unfold node_shutdown, send_child_ctrl_break.
  by rewrite Hb.
Qed.

Lemma stop_nodes_stops i signalling ticks nodes s :
  (forall k pid, break_fails (faults env k) pid = false) ->
  0 <= elapsed signalling -> forward ticks -> expected_shutdown_duration <= total ticks ->
  tracked (sys s) nodes ->
  exists s' hints,
    stop_nodes env i signalling ticks nodes s = (Ok (Some tt), s') /\
    (forall pid, ~ running pid (sys s')) /\
    statuses s' = statuses s ++ stop_reports 0 (expected_shutdown_duration :: hints)
                    ++ [simple_status Stopped] /\
    Forall (fun h => 0 < h <= expected_shutdown_duration) hints.
Proof.
  intros Hb Hs Hf Htot Ht.
  unfold stop_nodes, set_service_status, mbind, M_bind, get, lift, modify, mret, M_ret.
  rewrite Hstatus. cbn [now sys]. rewrite signal_nodes_ok by done.
  set (s1 := mkService _ _ _ _). destruct (pass_spec signalling s1) as (Hp & _ & Enp & Estp).
  change (await_exit env (now s) (S i) 0) with (await_exit env (now s) (S i) (u32_wrap (Z.of_nat 0))).
  destruct (await_exit_stops (now s) ticks (S i) 0 nodes (pass signalling s1))
    as (j & nodes' & s2 & hints & -> & Ht2 & Est2 & Hh).
  - done.
  - rewrite Enp. simpl. lia.
  - rewrite Enp. simpl. lia.
  - by eapply tracked_fewer.
  - unfold on_system. destruct (kill_nodes_quiet _ nodes' (Hquiet j) (sys s2)) as (y' & -> & Hfy & Hk).
    rewrite Hstatus. eexists _, hints. split_and!; [done| | |done].
    + intros pid Hr. destruct (Ht2 pid (Hfy _ Hr)) as (n & Hn & Ho). by apply (Hk pid n Hr Hn).
    + simpl. rewrite Est2, Estp. simpl. by rewrite <- !app_assoc.
Qed.
End service.

(** ** Reports that fail *)

(** The environment in which every report of a status succeeds. *)
Definition reporting (env : ServiceEnv) : ServiceEnv :=
  mkServiceEnv (console_ok env) (register_ok env) (fun _ => true) (registry env) (read_to_string env)
    (start_env env) (faults env).

Section reports.
Context `{Toml} `{LevelNames} `{EnvNames}.
Variable env : ServiceEnv.

(** [m] does the same as [m'], which reports more and more, or it fails at a report
    that does not succeed, after a part of the reports of [m']. *)
Definition truncates {A} (m m' : M Service A) : Prop := forall s,
  statuses s `prefix_of` statuses (m' s).2 /\
  (m s = m' s \/
   exists s1 st, m s = (Err (IoError "set_service_status"), s1) /\
     status_ok env (length (statuses s1)) = false /\ statuses s1 ++ [st] `prefix_of` statuses (m' s).2).

(** An action that does not report. *)
Lemma truncates_silent {A} (m : M Service A) : (forall s, statuses (m s).2 = statuses s) -> truncates m m.
Proof. intros Hm s. rewrite Hm. by split; [|left]. Qed.

Lemma truncates_bind {A B} (m m' : M Service A) (k k' : A -> M Service B) :
  truncates m m' -> (forall a, truncates (k a) (k' a)) -> truncates (x ← m; k x) (x ← m'; k' x).
Proof.
  intros Hm Hk s. unfold mbind, M_bind. destruct (Hm s) as [Hp Hc].
  assert (Hk' : statuses (m' s).2 `prefix_of`
    statuses (match m' s with (Ok a, s') => k' a s' | (Err e, s') => (Err e, s') | (Panic, s') => (Panic, s') end).2).
  { destruct (m' s) as [[a|e|] s']; [|done..]. apply (Hk a s'). }
  split; [by etrans|]. destruct Hc as [->|(s1 & st & -> & Hf & Hs)].
  - destruct (m' s) as [[a|e|] s']; [|by left..]. apply (Hk a s').
  - right. exists s1, st. split_and!; [done..|]. by etrans.
Qed.

Lemma truncates_report st : truncates (set_service_status env st) (set_service_status (reporting env) st).
Proof.
  intros s. unfold set_service_status. cbn [status_ok reporting snd statuses]. split; [by apply prefix_app_r|].
  destruct (status_ok env _) eqn:E; [by left|]. right. by exists s, st.
Qed.

Lemma on_system_silent {A} (m : M System A) s : statuses (on_system m s).2 = statuses s.
Proof. unfold on_system. by destruct (m (sys s)). Qed.

Lemma watch_silent ticks : forall i nodes s, statuses (watch env i ticks nodes s).2 = statuses s.
Proof.
  induction ticks as [|t ticks IH]; intros i nodes s; cbn [watch]; (destruct (flag s); [done|]).
  all: pose proof (on_system_silent (retain (faults env i) nodes) s) as E.
  all: destruct (on_system _ s) as [[[|n ns]|e|] s']; try exact E.
  rewrite IH. by destruct (pass_spec t s') as (_ & _ & _ & ->).
Qed.

Lemma watch_reporting ticks : forall i nodes s,
  watch env i ticks nodes s = watch (reporting env) i ticks nodes s.
Proof.
  induction ticks as [|t ticks IH]; intros i nodes s; cbn [watch]; [done|].
  destruct (flag s); [done|]. cbn [faults reporting].
  destruct (on_system _ s) as [[[|n ns]|e|] s']; [done|apply IH|done..].
Qed.

(** The body of the loop, as a report and what follows it. *)
Lemma await_exit_eq e begin i chk ticks nodes s :
  await_exit e begin i chk ticks nodes s =
  if now s <? begin + expected_shutdown_duration then
    (_ ← set_service_status e (pending_status StopPending (u32_wrap (chk + 1))
           (expected_shutdown_duration - (now s - begin)));
     left ← on_system (retain (faults e i) nodes);
     match left, ticks with
     | [], _ => mret (Some (S i, []))
     | _, [] => mret None
     | _, t :: ticks' => fun s' => await_exit e begin (S i) (u32_wrap (chk + 1)) ticks' left (pass t s')
     end) s
  else (Ok (Some (i, nodes)), s).
Proof.
  destruct ticks; cbn [await_exit]; destruct (now s <? _); try done.
  all: unfold mbind, M_bind, mret, M_ret; destruct (set_service_status e _ s) as [[?|?|] s1]; try done.
  all: by destruct (on_system _ s1) as [[[|??]|?|] s2].
Qed.

Lemma truncates_await begin ticks : forall i chk nodes,
  truncates (await_exit env begin i chk ticks nodes) (await_exit (reporting env) begin i chk ticks nodes).
Proof.
  induction ticks as [|t ticks IH]; intros i chk nodes s; rewrite !await_exit_eq;
    (destruct (now s <? begin + expected_shutdown_duration); [|by split; [|left]]);
    refine (truncates_bind _ _ _ _ (truncates_report _) _ s); intros _;
    (apply truncates_bind; [apply truncates_silent, on_system_silent|]);
    intros [|n ns]; try (by apply truncates_silent).
  intros s'. destruct (pass_spec t s') as (_ & _ & _ & <-). apply IH.
Qed.

Lemma truncates_stop i signalling ticks nodes :
  truncates (stop_nodes env i signalling ticks nodes) (stop_nodes (reporting env) i signalling ticks nodes).
Proof.
  unfold stop_nodes. apply truncates_bind; [apply truncates_report|]. intros _.
  apply truncates_bind; [by apply truncates_silent|]. intros s0.
  apply truncates_bind; [by apply truncates_silent|]. intros _.
  apply truncates_bind; [apply truncates_silent; intros s; apply (pass_spec signalling s)|]. intros _.
  apply truncates_bind; [apply truncates_await|]. intros [[j remaining]|]; [|by apply truncates_silent].
  apply truncates_bind; [apply truncates_silent, on_system_silent|]. intros _.
  apply truncates_bind; [apply truncates_report|]. intros _. by apply truncates_silent.
Qed.

Lemma truncates_run loading signalling ticks :
  truncates (run_service env loading signalling ticks) (run_service (reporting env) loading signalling ticks).
Proof.
  unfold run_service. apply truncates_bind; [by apply truncates_silent|]. intros _.
  apply truncates_bind; [by apply truncates_silent|]. intros _.
  apply truncates_bind; [apply truncates_report|]. intros _.
  apply truncates_bind; [by apply truncates_silent|]. intros config.
  apply truncates_bind; [apply truncates_silent, on_system_silent|]. intros nodes.
  apply truncates_bind; [apply truncates_silent; intros s; apply (pass_spec loading s)|]. intros _.
  apply truncates_bind; [apply truncates_report|]. intros _.
  apply truncates_bind; [|intros [[[i ticks'] nodes']|]; [apply truncates_stop|by apply truncates_silent]].
  intros s. rewrite <- watch_reporting, watch_silent. by split; [|left].
Qed.
End reports.

(** The service if every report succeeds. *)
Lemma reporting_service_stops `{Toml} `{LevelNames} `{EnvNames} env loading signalling ticks now0 ncs :
  console_ok env = true -> register_ok env = true ->
  load_config (registry env) (read_to_string env) = Ok ncs ->
  (forall i pid, wait_fails (faults env i) pid = false /\ kill_fails (faults env i) pid = false /\
     break_fails (faults env i) pid = false) ->
  0 <= elapsed signalling -> forward ticks ->
  will_stop (pass loading (service_initial now0)) ticks ->
  exists s' hints,
    run_service (reporting env) loading signalling ticks (service_initial now0) = (Ok (Some tt), s') /\
    (forall pid, ~ running pid (sys s')) /\
    statuses s' = [pending_status StartPending 0 1000; simple_status_with_controls Running true]
                    ++ stop_reports 0 (expected_shutdown_duration :: hints) ++ [simple_status Stopped] /\
    Forall (fun h => 0 < h <= expected_shutdown_duration) hints.
Proof.
  intros Hc Hreg Hl Hfaults Hs Hf Hw. set (e := reporting env).
  assert (Hst : forall k, status_ok e k = true) by done.
  assert (Hq : forall i, quiet (faults e i)) by (intros i pid; by destruct (Hfaults i pid) as (? & ? & _)).
  unfold run_service, mbind, M_bind, lift, modify, set_service_status, on_system, mret, M_ret.
  cbn [console_ok register_ok registry read_to_string e reporting]. rewrite Hc, Hreg, !Hst, Hl. cbn [sys service_initial].
  destruct (start_nodes e ncs system_initial) as [r y] eqn:En.
  apply start_nodes_tracked in En as (nodes & -> & _ & Ht). rewrite Hst.
  cbn [flag now statuses app]. set (s0 := mkService y _ _ _).
  destruct (pass_spec loading s0) as (Hp & Efp & Enp & Estp). set (s1 := mkService _ _ _ _).
  destruct (watch_stops e Hq ticks 0 nodes s1) as (i & ticks' & nodes' & s2 & -> & Hf2 & Htot & Ht2 & Est).
  - done.
  - eapply will_stop_flag, Hw. change (flag s1) with (flag (pass loading s0)). by rewrite Efp, (proj1 (proj2 (pass_spec loading _))).
  - by eapply tracked_fewer.
  - destruct (stop_nodes_stops e Hq Hst i signalling ticks' nodes' s2) as (s' & hints & E & Hn & Est' & Hh);
      [by intros k pid; apply Hfaults|done..|].
    exists s', hints. split_and!; [done..| |done]. rewrite Est', Est.
    change (statuses s1) with (statuses (pass loading s0) ++ [simple_status_with_controls Running true]).
    by rewrite Estp.
Qed.

(** C37: if a console and the handler of events are available, the configuration can
    be read, no call on a process fails, and a stop is requested at some time, after
    which at least 61 seconds pass, then the service ends, however the nodes react.  Its reports are that it starts, that
    it runs (when alone it accepts a stop), that it is stopping, with increasing
    checkpoints and a wait of at most 61 seconds, and that it has stopped.  If all of
    these reports succeed, no process of a node or a collector runs any more.
    Otherwise the service fails at a report that does not succeed, after having made
    the reports before it. *)
Theorem service_stops `{Toml} `{LevelNames} `{EnvNames} env loading signalling ticks now0 ncs :
  console_ok env = true -> register_ok env = true ->
  load_config (registry env) (read_to_string env) = Ok ncs ->
  (forall i pid, wait_fails (faults env i) pid = false /\ kill_fails (faults env i) pid = false /\
     break_fails (faults env i) pid = false) ->
  0 <= elapsed signalling -> forward ticks ->
  will_stop (pass loading (service_initial now0)) ticks ->
  exists hints s' r,
    let reports := [pending_status StartPending 0 1000; simple_status_with_controls Running true]
                     ++ stop_reports 0 (expected_shutdown_duration :: hints) ++ [simple_status Stopped] in
    run_service env loading signalling ticks (service_initial now0) = (r, s') /\
    Forall (fun h => 0 < h <= expected_shutdown_duration) hints /\
    ((r = Ok (Some tt) /\ statuses s' = reports /\ forall pid, ~ running pid (sys s')) \/
     exists k, (k < length reports)%nat /\ status_ok env k = false /\
       r = Err (IoError "set_service_status") /\ statuses s' = take k reports).
Proof.
  intros Hc Hreg Hl Hfaults Hs Hf Hw.
  destruct (reporting_service_stops env loading signalling ticks now0 ncs) as (s' & hints & E & Hn & Est & Hh);
    [done..|]. exists hints. cbn zeta. set (reports := _ ++ _ ++ _) in *.
  destruct (truncates_run env loading signalling ticks (service_initial now0)) as [_ Ht]. rewrite E in Ht.
  destruct Ht as [Er|(s1 & st & Er & Hfail & [rest Hp])].
  - exists s', (Ok (Some tt)). split_and!; [done..|by left].
  - exists s1, (Err (IoError "set_service_status")). split_and!; [done..|]. right.
    exists (length (statuses s1)). cbn [snd] in Hp. rewrite Est in Hp.
    rewrite Hp, <- app_assoc, take_app_length, !length_app. split_and!; [simpl; lia|done..].
Qed.

(** ** Faults *)

(** If one node cannot be signalled, the service fails while it is stopping: no
    process has been killed, and the last report is that it is stopping. *)
Lemma signal_failure_leaves_nodes `{Toml} `{LevelNames} `{EnvNames} env i signalling ticks nodes s n :
  n ∈ nodes -> break_fails (faults env i) (node_process n) = true -> status_ok env (length (statuses s)) = true ->
  exists s', stop_nodes env i signalling ticks nodes s = (bail "Failed shutting down node", s') /\
    sys s' = sys s /\ statuses s' = statuses s ++ [pending_status StopPending 0 expected_shutdown_duration].
Proof.
  intros Hn Hb Hst. unfold stop_nodes, set_service_status, mbind, M_bind, get, lift. rewrite Hst.
  assert (E : signal_nodes (faults env i) nodes = bail "Failed shutting down node").
  { clear -Hn Hb. induction nodes as [|m nodes IH]; [by apply elem_of_nil in Hn|].
    simpl. unfold node_shutdown, send_child_ctrl_break. apply elem_of_cons in Hn as [->|Hn]; [by rewrite Hb|].
    rewrite IH by done. by destruct (break_fails _ (node_process m)). }
  rewrite E. eexists. split; [reflexivity|done].
Qed.

(** If a report fails while the nodes stop, the service fails and leaves the nodes as they are. *)
Lemma report_failure_leaves_nodes `{Toml} `{LevelNames} `{EnvNames} env begin i chk ticks nodes s :
  now s < begin + expected_shutdown_duration -> status_ok env (length (statuses s)) = false ->
  await_exit env begin i chk ticks nodes s = (Err (IoError "set_service_status"), s).
Proof.
  intros Ht Hst. rewrite await_exit_eq, (proj2 (Z.ltb_lt _ _)) by done.
  unfold mbind, M_bind, set_service_status. by rewrite Hst.
Qed.

(** A node whose state cannot be determined is dropped, and still runs. *)
Lemma unknown_state_drops_node f n nodes y :
  wait_fails f (node_process n) = true ->
  retain f (n :: nodes) y = retain f nodes y.
Proof. intros Hw. cbn [retain]. unfold check_exit, try_wait. by rewrite Hw. Qed.
