(* ===== verification/WinNodeProps.v ===== *)
(** * What the service starts nodes with

    What reaches a node and its collector, when a collector is started, how rolled
    logs are named, and which part of the error output is reported. *)

From stdpp Require Import base tactics list gmap strings option numbers vector.
From Stdlib Require Import ZArith.
From S2P Require Import Prelude Text Common IpText Wire WinPath WinConfig WinNode.

(** ** Variables *)

(** [u16::from_str], as the options of the node are parsed. *)
Definition uint_from_str (bound : Z) (s : text) : option Z :=
  let digits := match s with 43 :: s' => s' | _ => s end in
  match take_digits 10 digits with
  | ([], _) => None
  | (ds, []) => if number_of 10 ds <? bound then Some (number_of 10 ds) else None
  | _ => None
  end.
Definition u16_from_str : text -> option Z := uint_from_str (2 ^ 16).

Lemma u16_round_trip p : 0 <= p < 2 ^ 16 -> u16_from_str (u16_to_string p) = Some p.
Proof.
  intros Hp. unfold u16_to_string, u16_from_str, uint_from_str.
  destruct (fmt_number_digits 10 4 p) as (ds & -> & Hds & Hn & Hl & _); [lia| |].
  { change (10 ^ Z.of_nat 5) with 100000. lia. }
  destruct ds as [|d ds]; [simpl in Hl; lia|].
  assert (digit_char d <> 43).
  { apply list.Forall_cons_1 in Hds as [Hd _]. unfold digit_char. case_match; lia. }
  assert (E : match digit_char <$> d :: ds with 43 :: s' => s' | _ => digit_char <$> d :: ds end
              = (digit_char <$> d :: ds) ++ []).
  { rewrite app_nil_r. cbn [fmap list_fmap]. repeat case_match; congruence. }
  rewrite E, take_digits_chars by done. rewrite Hn. by rewrite (proj2 (Z.ltb_lt _ _)) by lia.
Qed.

#[local] Instance lit_inj : Inj (=) (=) lit.
Proof.
  intros a b E. apply (f_equal (fmap (fun z => Ascii.ascii_of_nat (Z.to_nat z)))) in E. unfold lit in E.
  rewrite <- !list_fmap_compose in E.
  assert (Hid : forall l : list Ascii.ascii, (fun z => Ascii.ascii_of_nat (Z.to_nat z)) ∘ (Z.of_nat ∘ Ascii.nat_of_ascii) <$> l = l).
  { induction l as [|c l IH]; [done|]. cbn [fmap list_fmap]. f_equal; [|done]. unfold compose.
    by rewrite Nat2Z.id, Ascii.ascii_nat_embedding. }
  rewrite !Hid in E. by rewrite <- (String.string_of_list_ascii_of_string a), E,
    String.string_of_list_ascii_of_string.
Qed.
Lemma lit_ne a b : a <> b -> lit a <> lit b.
Proof. intros Hn E. apply Hn, (inj lit), E. Qed.

Section variables.
Context `{EnvNames} `{!EnvNamesLaws}.

(** A name without lower case letters is its own key. *)
Definition upper_case (k : string) : bool :=
  forallb (fun c => let z := Z.of_nat (Ascii.nat_of_ascii c) in (z <? 128) && negb ((97 <=? z) && (z <=? 122)))
    (String.list_ascii_of_string k).
Lemma env_key_lit k : upper_case k = true -> env_key (lit k) = lit k.
Proof.
  unfold upper_case, env_key, lit. induction (String.list_ascii_of_string k) as [|c l IH]; [done|].
  cbn [forallb fmap list_fmap]. intros [Hc Hl]%andb_true_iff. f_equal; [|by apply IH].
  apply andb_true_iff in Hc as [Hc Hn]. apply Z.ltb_lt in Hc. apply negb_true_iff in Hn.
  cbv beta in *. unfold compose in *. by rewrite upper_ascii, Hn by lia.
Qed.

(** What setting a variable does to each variable. *)
Lemma lookup_set_env_opt k v c x :
  upper_case k = true ->
  cmd_envs (set_env_opt k v c) !! x =
    if decide (x = lit k) then or_else v (cmd_envs c !! x) else cmd_envs c !! x.
Proof.
  intros Hk. destruct v as [v|]; cbn [set_env_opt set_env put_env cmd_envs]; [|by destruct (decide _)].
  rewrite env_key_lit by done.
  destruct (decide (x = lit k)) as [->|Hn]; [by rewrite lookup_insert_eq|by rewrite lookup_insert_ne].
Qed.
Lemma lookup_set_env k v c x :
  upper_case k = true ->
  cmd_envs (set_env k v c) !! x = if decide (x = lit k) then Some v else cmd_envs c !! x.
Proof. apply (lookup_set_env_opt k (Some v)). Qed.

(** [v] is what the configured variables [vars] say of the variable [k]. *)
Definition from_env (vars : Env) (k : text) (v : option text) : Prop :=
  match v with
  | Some v => exists k', env_key k' = env_key k /\ vars !! k' = Some v
  | None => forall k', env_key k' = env_key k -> vars !! k' = None
  end.
Definition env_of (vars : Env) : Env := cmd_envs (set_envs vars (command_new [])).
Lemma cmd_envs_set_envs vars bin : cmd_envs (set_envs vars (command_new bin)) = env_of vars.
Proof.
  unfold env_of, set_envs. induction (iter_env vars) as [|e l IH] using rev_ind; [done|].
  rewrite !foldl_snoc. cbn [put_env cmd_envs]. by rewrite IH.
Qed.
Lemma env_of_spec vars k : from_env vars k (env_of vars !! env_key k).
Proof.
  assert (Hl : match env_of vars !! env_key k with
    | Some v => exists k', env_key k' = env_key k /\ (k', v) ∈ iter_env vars
    | None => forall e, e ∈ iter_env vars -> env_key e.1 <> env_key k
    end).
  { unfold env_of, set_envs. induction (iter_env vars) as [|[k' v] l IH] using rev_ind.
    { cbn [foldl command_new cmd_envs]. rewrite lookup_empty. intros e He. by apply elem_of_nil in He. }
    rewrite foldl_snoc. cbn [put_env cmd_envs fst snd].
    destruct (decide (env_key k' = env_key k)) as [E|E].
    - rewrite E, lookup_insert_eq. exists k'. split; [done|]. apply elem_of_app. right. by apply list_elem_of_singleton.
    - rewrite lookup_insert_ne by done. destruct (_ !! env_key k) as [w|].
      + destruct IH as (k1 & ? & ?). exists k1. split; [done|]. apply elem_of_app. by left.
      + intros e [He| ->%list_elem_of_singleton]%elem_of_app; [by apply IH|done]. }
  assert (Hi : forall k' v, (k', v) ∈ iter_env vars <-> vars !! k' = Some v)
    by (intros; by rewrite iter_env_entries, elem_of_map_to_list).
  unfold from_env. destruct (env_of vars !! env_key k) as [v|].
  - destruct Hl as (k' & ? & ?%Hi). by exists k'.
  - intros k' Hk. destruct (vars !! k') as [v|] eqn:E; [|done]. apply Hi in E. by destruct (Hl _ E).
Qed.

#[local] Opaque lit.

(** A variable is set by the first of the settings for it. *)
Fixpoint first_set (x : text) (settings : list (string * option text)) (d : option text) : option text :=
  match settings with
  | [] => d
  | (k, v) :: settings' =>
      if decide (x = lit k) then or_else v (first_set x settings' d) else first_set x settings' d
  end.
Fixpoint first_named (x : string) (settings : list (string * option text)) (d : option text) : option text :=
  match settings with
  | [] => d
  | (k, v) :: settings' =>
      if String.eqb x k then or_else v (first_named x settings' d) else first_named x settings' d
  end.
Lemma first_set_lit x settings d : first_set (lit x) settings d = first_named x settings d.
Proof.
  induction settings as [|[k v] settings IH]; [done|]. simpl. rewrite IH.
  destruct (String.eqb_spec x k) as [->|Hn]; [by rewrite decide_True|]. by rewrite decide_False by by apply lit_ne.
Qed.
Lemma first_set_app x l1 l2 d : first_set x (l1 ++ l2) d = first_set x l1 (first_set x l2 d).
Proof. induction l1 as [|[k v] l1 IH]; [done|]. simpl. by rewrite IH. Qed.
Lemma first_set_other x settings d : x ∉ lit <$> settings.*1 -> first_set x settings d = d.
Proof.
  induction settings as [|[k v] settings IH]; [done|]. cbn [fmap list_fmap fst first_set].
  intros [? ?]%not_elem_of_cons. rewrite decide_False by done. by apply IH.
Qed.

(** The variable that selects a level. *)
Definition level_names : list (Level * string) :=
  [(LvError, "CONCORDIUM_NODE_NO_CONSENSUS_LOG"); (LvInfo, "CONCORDIUM_NODE_LOG_LEVEL_INFO");
   (LvDebug, "CONCORDIUM_NODE_LOG_LEVEL_DEBUG"); (LvTrace, "CONCORDIUM_NODE_LOG_LEVEL_TRACE")]%string.
Definition level_setting (o : option Level) (l : Level) : option text :=
  if decide (o = Some l) then Some (lit "true") else None.
Definition level_settings (o : option Level) : list (string * option text) :=
  (fun e => (e.2, level_setting o e.1)) <$> level_names.
Lemma lookup_level o cmd x :
  cmd_envs (level_variable o cmd) !! x = first_set x (level_settings o) (cmd_envs cmd !! x).
Proof.
  cbn [level_settings level_names fmap list_fmap first_set fst snd].
  destruct o as [[]|]; cbn [level_variable]; rewrite ?lookup_set_env by done; cbn [level_setting];
    repeat destruct (decide _); done.
Qed.

(** What the service sets for a node with the log configuration at [path]. *)
Definition node_settings (c : NodeConfig) (path : text) : list (string * option text) :=
  ("CONCORDIUM_NODE_LOG_CONFIG", Some path) :: level_settings (nc_log_level c) ++
  [("CONCORDIUM_NODE_LISTEN_PORT", u16_to_string <$> nc_listen_port c);
   ("CONCORDIUM_NODE_LISTEN_ADDRESS", ip_to_string <$> nc_listen_address c);
   ("CONCORDIUM_NODE_GRPC2_LISTEN_PORT", u16_to_string <$> nc_grpc2_port c);
   ("CONCORDIUM_NODE_GRPC2_LISTEN_ADDRESS", ip_to_string <$> nc_grpc2_address c);
   ("CONCORDIUM_NODE_VALIDATOR_CREDENTIALS_FILE", nc_baker_credentials c);
   ("CONCORDIUM_NODE_CONNECTION_BOOTSTRAP_NODES", Some (nc_bootstrap_nodes c));
   ("CONCORDIUM_NODE_DATA_DIR", Some (nc_data_dir c));
   ("CONCORDIUM_NODE_CONFIG_DIR", Some (nc_config_dir c))].
(** The variables that the service may set for a node. *)
Definition node_variables : list string :=
  ["CONCORDIUM_NODE_LOG_CONFIG"; "CONCORDIUM_NODE_NO_CONSENSUS_LOG"; "CONCORDIUM_NODE_LOG_LEVEL_INFO";
   "CONCORDIUM_NODE_LOG_LEVEL_DEBUG"; "CONCORDIUM_NODE_LOG_LEVEL_TRACE"; "CONCORDIUM_NODE_LISTEN_PORT";
   "CONCORDIUM_NODE_LISTEN_ADDRESS"; "CONCORDIUM_NODE_GRPC2_LISTEN_PORT"; "CONCORDIUM_NODE_GRPC2_LISTEN_ADDRESS";
   "CONCORDIUM_NODE_VALIDATOR_CREDENTIALS_FILE"; "CONCORDIUM_NODE_CONNECTION_BOOTSTRAP_NODES";
   "CONCORDIUM_NODE_DATA_DIR"; "CONCORDIUM_NODE_CONFIG_DIR"].

Lemma node_command_settings c bin path x :
  cmd_envs (set_env "CONCORDIUM_NODE_LOG_CONFIG" path (node_command c bin)) !! x =
    first_set x (node_settings c path) (env_of (nc_node_env c) !! x).
Proof.
  rewrite lookup_set_env by done. unfold node_settings, node_command. cbn [first_set].
  rewrite first_set_app, lookup_level, !lookup_set_env_opt, !lookup_set_env, cmd_envs_set_envs by done. done.
Qed.

Lemma node_command_args c bin : cmd_args (node_command c bin) = [] /\ program (node_command c bin) = bin.
Proof.
  assert (Hs : forall vars cmd, cmd_args (set_envs vars cmd) = cmd_args cmd /\ program (set_envs vars cmd) = program cmd).
  { intros vars. unfold set_envs. induction (iter_env vars) as [|e l IH]; [done|]. intros cmd. apply (IH (put_env _ _ cmd)). }
  assert (Ho : forall k v cmd, cmd_args (set_env_opt k v cmd) = cmd_args cmd /\
    program (set_env_opt k v cmd) = program cmd) by (by intros k []).
  assert (Hl : forall o cmd, cmd_args (level_variable o cmd) = cmd_args cmd /\
    program (level_variable o cmd) = program cmd) by (by intros [[]|]).
  unfold node_command. split.
  - rewrite (proj1 (Hl _ _)), !(fun k v cmd => proj1 (Ho k v cmd)). cbn [set_env put_env cmd_args]. apply Hs.
  - rewrite (proj2 (Hl _ _)), !(fun k v cmd => proj2 (Ho k v cmd)). cbn [set_env put_env program]. apply Hs.
Qed.

(** The variable [k] has the value of an option, in a form that [read] takes back to
    it; without the option it is as the configured variables say. *)
Definition given {A : Type} (cmd : Command) (vars : Env) (k : string) (read : text -> option A) (o : option A) : Prop :=
  match o with
  | Some a => cmd_envs cmd !! env_key (lit k) ≫= read = Some a
  | None => from_env vars (lit k) (cmd_envs cmd !! env_key (lit k))
  end.
Lemma given_settings {A : Type} cmd vars settings k (read : text -> option A) (show : A -> text) o :
  (forall x, cmd_envs cmd !! x = first_set x settings (env_of vars !! x)) -> upper_case k = true ->
  (forall d, first_named k settings d = or_else (show <$> o) d) -> (forall a, o = Some a -> read (show a) = Some a) ->
  given cmd vars k read o.
Proof.
  intros Hc Hk Hs Hr. unfold given. pose proof (env_of_spec vars (lit k)) as He.
  rewrite env_key_lit in * by done. rewrite Hc, first_set_lit, Hs.
  destruct o as [a|]; [by apply Hr|done].
Qed.
End variables.

#[local] Opaque lit.

(** ** Nodes *)

Section nodes.
Context `{Toml} `{LevelNames} `{EnvNames} `{!EnvNamesLaws}.

Lemma spawn_Ok e cmd y pid y' :
  spawn e cmd y = (Ok pid, y') ->
  pid = next_pid y /\ commands y' = <[pid := cmd]> (commands y) /\ next_pid y' = S pid.
Proof. unfold spawn. case_match; intros; by simplify_eq/=. Qed.

(** Starting a collector adds at most one process, with the next identifier. *)
Lemma start_collector_commands e c y r y' pid :
  start_collector e c y = (r, y') -> (pid < next_pid y)%nat -> commands y' !! pid = commands y !! pid.
Proof.
  unfold start_collector, mbind, M_bind, lift, mret, M_ret, bail. intros E Hp.
  destruct (bool_decide _ && _); [by simplify_eq|]. destruct (run_collector c); [|by simplify_eq].
  destruct (binary _ _ _); [|by simplify_eq..]. destruct (nc_collector_url c); [|by simplify_eq].
  destruct (nc_collector_log_file c) as [lf|]; [destruct (can_create e lf)|]; [|by simplify_eq|];
    unfold spawn in E; (destruct (can_spawn _ _); simplify_eq/=; [|done]); by rewrite lookup_insert_ne by lia.
Qed.

(** What is done to the command for its log. *)
Lemma make_log_config_env e logger level cmd file cmd' :
  make_log_config_file e logger level cmd = Ok (file, cmd') ->
  exists path, cmd' = set_env "CONCORDIUM_NODE_LOG_CONFIG" path cmd /\
    match logger with
    | LoggerConfigFile p => path = p /\ file = None
    | LoggerNone => log_config_temp e = Some path /\
        file = Some (path, lit "[root]" ++ [LF] ++ lit "level = 'error'" ++ [LF] ++ lit "appenders = []")
    | LoggerFile c => exists contents, log_config_temp e = Some path /\ file = Some (path, contents) /\
        toml_to_string (log_toml c level) = Some contents
    end.
Proof.
  unfold make_log_config_file, mbind, outcome_bind, context, bail. intros E.
  destruct logger; repeat case_match; simplify_eq; eexists; (split; [reflexivity|]); eauto.
Qed.

(** What is spawned for a node. *)
Lemma start_spawns e c y n y' :
  start e c y = (Ok n, y') ->
  exists bin path, binary e (nc_node_bin c) "concordium-node.exe" = Ok bin /\
    commands y' !! node_process n = Some (set_stderr (StdioFile (stderr_path n)) (set_process_group
      (add_args (nc_node_args c) (set_env "CONCORDIUM_NODE_LOG_CONFIG" path (node_command c bin))))) /\
    match nc_log_config c with
    | LoggerConfigFile p => path = p /\ log_config_file n = None
    | LoggerNone => log_config_temp e = Some path /\ log_config_file n
        = Some (path, lit "[root]" ++ [LF] ++ lit "level = 'error'" ++ [LF] ++ lit "appenders = []")
    | LoggerFile f => exists contents, log_config_temp e = Some path /\
        log_config_file n = Some (path, contents) /\ toml_to_string (log_toml f (nc_log_level c)) = Some contents
    end.
Proof.
  unfold start, mbind, M_bind, lift, mret, M_ret. intros E.
  destruct (binary _ _ _) as [bin| |]; try done.
  destruct (make_log_config_file _ _ _ _) as [[file cmd]| |] eqn:El; try done.
  destruct (stderr_temp e) as [stderr|]; [|done].
  destruct (spawn _ _ _) as [[pid| |] y1] eqn:Es; try done. apply spawn_Ok in Es as (-> & Ecmd & Enext).
  unfold log_error_default in E. destruct (start_collector e c y1) as [rc y2] eqn:Ec.
  assert (Epid : commands y2 !! next_pid y = commands y1 !! next_pid y)
    by (eapply start_collector_commands; [done|lia]).
  assert (y' = y2 /\ node_process n = next_pid y /\ log_config_file n = file /\ stderr_path n = stderr)
    as (-> & -> & -> & ->) by (by destruct rc; simplify_eq/=).
  rewrite Ecmd, lookup_insert_eq in Epid. apply make_log_config_env in El as (path & -> & Hlog).
  by exists bin, path.
Qed.

(** C38: a node that is started gets the directories, bootstrap nodes, credentials,
    addresses and ports (of 16 bits) of its configuration, in a form that it reads back to the
    same values, the variable of its log level, and the path of its log
    configuration, which is the given file or one that was made for it: with the
    configured log file, or without any log.  A variable without a setting is as the
    configured variables say, and these cannot replace a setting; names of
    variables are compared without regard to case.  The binary is the configured
    one, or that next to the service; the arguments are the configured ones; the
    errors are written to the file of the node; and the node is in a process group
    of its own. *)
Theorem node_started e c y n y' :
  (forall p, nc_listen_port c = Some p -> in_u16 p) -> (forall p, nc_grpc2_port c = Some p -> in_u16 p) ->
  start e c y = (Ok n, y') ->
  exists cmd path, commands y' !! node_process n = Some cmd /\
    match nc_node_bin c with
    | Some bin => program cmd = bin
    | None => exists exe, current_exe e = Some exe /\
        program cmd = path_push (default exe (path_parent exe)) (lit "concordium-node.exe")
    end /\
    cmd_args cmd = nc_node_args c /\ new_process_group cmd = true /\ cmd_stderr cmd = StdioFile (stderr_path n) /\
    let vars := nc_node_env c in
    given cmd vars "CONCORDIUM_NODE_CONFIG_DIR" Some (Some (nc_config_dir c)) /\
    given cmd vars "CONCORDIUM_NODE_DATA_DIR" Some (Some (nc_data_dir c)) /\
    given cmd vars "CONCORDIUM_NODE_CONNECTION_BOOTSTRAP_NODES" Some (Some (nc_bootstrap_nodes c)) /\
    given cmd vars "CONCORDIUM_NODE_VALIDATOR_CREDENTIALS_FILE" Some (nc_baker_credentials c) /\
    given cmd vars "CONCORDIUM_NODE_GRPC2_LISTEN_ADDRESS" ip_from_str (nc_grpc2_address c) /\
    given cmd vars "CONCORDIUM_NODE_GRPC2_LISTEN_PORT" u16_from_str (nc_grpc2_port c) /\
    given cmd vars "CONCORDIUM_NODE_LISTEN_ADDRESS" ip_from_str (nc_listen_address c) /\
    given cmd vars "CONCORDIUM_NODE_LISTEN_PORT" u16_from_str (nc_listen_port c) /\
    Forall (fun '(l, k) => given cmd vars k Some
              (if decide (nc_log_level c = Some l) then Some (lit "true") else None)) level_names /\
    given cmd vars "CONCORDIUM_NODE_LOG_CONFIG" Some (Some path) /\
    match nc_log_config c with
    | LoggerConfigFile p => path = p /\ log_config_file n = None
    | LoggerNone => log_config_temp e = Some path /\ log_config_file n
        = Some (path, lit "[root]" ++ [LF] ++ lit "level = 'error'" ++ [LF] ++ lit "appenders = []")
    | LoggerFile f => exists contents, log_config_temp e = Some path /\
        log_config_file n = Some (path, contents) /\ toml_to_string (log_toml f (nc_log_level c)) = Some contents
    end /\
    (forall k, env_key k ∉ env_key ∘ lit <$> node_variables -> from_env vars k (cmd_envs cmd !! env_key k)).
Proof.
  intros Hlp Hgp (bin & path & Hb & Hcmd & Hlog)%start_spawns. cbn zeta.
  eexists _, path. split; [exact Hcmd|]. clear Hcmd.
  destruct (node_command_args c bin) as [Ea Ep].
  assert (Hs : forall k v cmd, cmd_args (set_env k v cmd) = cmd_args cmd /\ program (set_env k v cmd) = program cmd)
    by done.
  set (cmd := set_stderr _ _).
  assert (He : forall x, cmd_envs cmd !! x = first_set x (node_settings c path) (env_of (nc_node_env c) !! x))
    by (intros x; apply node_command_settings).
  assert (Hg : forall (A : Type) k (read : text -> option A) show o, upper_case k = true ->
    (forall d, first_named k (node_settings c path) d = or_else (show <$> o) d) ->
    (forall a, o = Some a -> read (show a) = Some a) -> given cmd (nc_node_env c) k read o)
    by (intros A k read show o; by apply given_settings).
  assert (Ht : forall k o, upper_case k = true -> (forall d, first_named k (node_settings c path) d = or_else o d) ->
    given cmd (nc_node_env c) k Some o)
    by (intros k o Hk Hd; apply (Hg _ _ _ id); [done|by intros d; rewrite option_fmap_id|done]).
  split_and!; try exact Hlog; try reflexivity.
  - change (program cmd) with (program (node_command c bin)). rewrite Ep. unfold binary in Hb.
    destruct (nc_node_bin c); [congruence|]. unfold mbind, outcome_bind in Hb.
    destruct (current_exe e) as [exe|]; [|done]. exists exe. by simplify_eq.
  - change (cmd_args cmd) with (cmd_args (node_command c bin) ++ nc_node_args c). by rewrite Ea.
  - by apply Ht.
  - by apply Ht.
  - by apply Ht.
  - by apply Ht.
  - apply (Hg _ _ _ ip_to_string); [done..|]. intros a _. apply ip_from_to_string.
  - apply (Hg _ _ _ u16_to_string); [done..|]. intros p Hp. by apply u16_round_trip, Hgp.
  - apply (Hg _ _ _ ip_to_string); [done..|]. intros a _. apply ip_from_to_string.
  - apply (Hg _ _ _ u16_to_string); [done..|]. intros p Hp. by apply u16_round_trip, Hlp.
  - repeat (apply list.Forall_cons; split); [by apply Ht..|by apply list.Forall_nil].
  - by apply Ht.
  - intros k Hk. rewrite He, first_set_other; [apply env_of_spec|].
    intros (k' & Ek & Hin)%list_elem_of_fmap. apply Hk, list_elem_of_fmap. exists k'.
    assert (Hn : Forall (fun k => upper_case k = true) node_variables) by (by repeat constructor).
    change ((node_settings c path).*1) with node_variables in Hin.
    split; [|done]. rewrite Forall_forall in Hn. unfold compose. by rewrite env_key_lit by (by apply Hn).
Qed.
End nodes.

(** ** Collectors *)

(** Everything that a collector needs is configured. *)
Definition collector_configured (c : NodeConfig) : Prop :=
  is_Some (nc_collector_url c) /\ is_Some (nc_grpc2_address c) /\ is_Some (nc_grpc2_port c).
Lemma run_collector_iff c :
  run_collector c = true <-> nc_collector_enabled c <> Some false /\ collector_configured c.
Proof.
  unfold run_collector, collector_configured. rewrite !andb_true_iff, !bool_decide_eq_true.
  destruct (nc_collector_enabled c) as [[]|]; simpl; naive_solver.
Qed.

Lemma collector_ip_specified c : is_unspecified (collector_rpc_ip c) = false.
Proof.
  unfold collector_rpc_ip. destruct (is_unspecified (default _ _)) eqn:E; [|done]. by destruct (is_ipv4 _).
Qed.

(** A collector that is to be run is spawned, or that is an error of the system. *)
Lemma start_collector_run `{EnvNames} e c y r y' url :
  run_collector c = true -> nc_collector_url c = Some url -> start_collector e c y = (r, y') ->
  (exists er, r = Err er /\ y' = y) \/
  exists pid bin se, r = Ok (Some pid) /\ commands y' !! pid = Some (set_stderr se (collector_command c url bin)).
Proof.
  intros Er Hu. unfold start_collector. rewrite Er, andb_false_r, Hu. unfold mbind, M_bind, lift, mret, M_ret.
  destruct (binary _ _ _) as [bin|er|] eqn:Eb; [|intros [= <- <-]; left; by eexists|].
  2: { unfold binary in Eb. destruct (nc_collector_bin c), (current_exe e); done. }
  destruct (nc_collector_log_file c) as [lf|]; [destruct (can_create e lf)|];
    [|intros [= <- <-]; left; by eexists|]; unfold spawn; destruct (can_spawn _ _); intros [= <- <-];
    try (left; by eexists); right; eexists _, _, _; (split; [reflexivity|]); apply lookup_insert_eq.
Qed.
Lemma collector_command_env `{EnvNames} `{!EnvNamesLaws} c url bin se :
  let env := cmd_envs (set_stderr se (collector_command c url bin)) in
  env !! env_key (lit "CONCORDIUM_NODE_COLLECTOR_URL") = Some url /\
  env !! env_key (lit "CONCORDIUM_NODE_COLLECTOR_GRPC_HOST") = Some (collector_grpc_host c) /\
  env !! env_key (lit "CONCORDIUM_NODE_COLLECTOR_NODE_NAME") = Some (default (nc_name c) (nc_collector_node_name c)).
Proof.
  assert (E : forall x, cmd_envs (set_stderr se (collector_command c url bin)) !! x = first_set x
    [("CONCORDIUM_NODE_COLLECTOR_COLLECT_INTERVAL", u64_to_string <$> nc_collector_interval c);
     ("CONCORDIUM_NODE_COLLECTOR_NODE_NAME", Some (default (nc_name c) (nc_collector_node_name c)));
     ("CONCORDIUM_NODE_COLLECTOR_GRPC_HOST", Some (collector_grpc_host c));
     ("CONCORDIUM_NODE_COLLECTOR_URL", Some url)] (env_of (nc_collector_env c) !! x)).
  { intros x. unfold collector_command. cbn [cmd_envs set_stderr add_args].
    by rewrite !lookup_set_env_opt, !lookup_set_env, cmd_envs_set_envs by done. }
  intros env. subst env. by rewrite !env_key_lit, !E, !first_set_lit by done.
Qed.

(** A collector is started exactly if it is not disabled and what it needs is
    configured; if it is enabled and something is missing that is an error.  It is
    told where its node listens, by an address that it can connect to. *)
Theorem collector_started `{EnvNames} `{!EnvNamesLaws} e c y r y' :
  start_collector e c y = (r, y') ->
  match r with
  | Ok (Some pid) => nc_collector_enabled c <> Some false /\ collector_configured c /\
      exists cmd, commands y' !! pid = Some cmd /\
        cmd_envs cmd !! env_key (lit "CONCORDIUM_NODE_COLLECTOR_URL") = nc_collector_url c /\
        cmd_envs cmd !! env_key (lit "CONCORDIUM_NODE_COLLECTOR_GRPC_HOST") = Some (collector_grpc_host c) /\
        cmd_envs cmd !! env_key (lit "CONCORDIUM_NODE_COLLECTOR_NODE_NAME")
          = Some (default (nc_name c) (nc_collector_node_name c))
  | Ok None => nc_collector_enabled c = Some false \/
      (nc_collector_enabled c = None /\ ~ collector_configured c)
  | Err _ => y' = y /\ (collector_configured c \/ nc_collector_enabled c = Some true)
  | Panic => False
  end.
Proof.
  intros E. pose proof (run_collector_iff c) as Hrc. destruct (run_collector c) eqn:Er.
  - destruct (proj1 Hrc eq_refl) as [Hen Hconf]. pose proof Hconf as ([url Hu] & _).
    destruct (start_collector_run _ _ _ _ _ url Er Hu E) as [(er & -> & ->)|(pid & bin & se & -> & Ecm)]; [auto|].
    split_and!; [done..|]. eexists. split; [done|]. rewrite Hu. apply collector_command_env.
  - assert (Hn : ~ (nc_collector_enabled c <> Some false /\ collector_configured c)) by naive_solver.
    revert E. unfold start_collector. rewrite Er, andb_true_r. unfold mret, M_ret, lift, bail.
    destruct (nc_collector_enabled c) as [[]|]; simpl; intros [= <- <-]; [by auto..|].
    right. split; [done|]. naive_solver.
Qed.

(** ** Error output *)

Definition continuation (b : byte) : Prop := 128 <= byte_to_Z b <= 191.

(** What may follow a lead byte are continuation bytes, which lead nothing. *)
Lemma utf8_continuation_range b e :
  utf8_continuation (byte_to_Z b) = Some e -> Forall (fun r => 128 <= r.1 /\ r.2 <= 191) e.
Proof.
  unfold utf8_continuation. intros E. repeat case_match; simplify_eq; repeat constructor; simpl; lia.
Qed.
Lemma continuation_leads_nothing b : continuation b -> utf8_continuation (byte_to_Z b) = None.
Proof. unfold continuation, utf8_continuation. intros Hb. repeat case_match; bool_hyps; try done; lia. Qed.
Lemma leads_no_continuation b e : utf8_continuation (byte_to_Z b) = Some e -> ~ continuation b.
Proof. intros E Hc. by rewrite continuation_leads_nothing in E. Qed.

(** A part at the end of a text is a text, unless it begins inside a character. *)
Lemma is_utf8_drop l : forall e k,
  Forall (fun r => 128 <= r.1 /\ r.2 <= 191) e -> is_utf8 e l = true -> (k < length l)%nat ->
  (exists b, l !! k = Some b /\ continuation b /\ is_utf8 [] (drop k l) = false) \/
  (exists b, l !! k = Some b /\ ~ continuation b /\ is_utf8 [] (drop k l) = true).
Proof.
  induction l as [|b l IH]; intros e k He Hu Hk; [simpl in Hk; lia|].
  destruct e as [|[lo hi] e]; cbn [is_utf8] in Hu.
  - destruct (utf8_continuation (byte_to_Z b)) as [e|] eqn:Eb; [|done]. destruct k as [|k].
    + right. exists b. split_and!; [done|by eapply leads_no_continuation|]. cbn [drop is_utf8]. by rewrite Eb.
    + apply (IH e k); [by eapply utf8_continuation_range|done|simpl in Hk; lia].
  - apply andb_true_iff in Hu as [Hb Hu]. apply list.Forall_cons_1 in He as [Hr He].
    destruct k as [|k].
    + left. exists b. bool_hyps. simpl in Hr. assert (continuation b) by (unfold continuation; lia).
      split_and!; [done|done|]. cbn [drop is_utf8]. by rewrite continuation_leads_nothing.
    + apply (IH e k); [done|done|simpl in Hk; lia].
Qed.

Lemma after_line_feed_Some l rest :
  after_line_feed l = Some rest -> exists pre b, l = (pre ++ [b]) ++ rest /\ byte_to_Z b = LF.
Proof.
  induction l as [|b l IH]; [done|]. simpl. destruct (byte_to_Z b =? LF) eqn:E.
  - intros [= ->]. exists [], b. bool_hyps. done.
  - intros (pre & b' & -> & Hb)%IH. by exists (b :: pre), b'.
Qed.

(** The error output of a node that is reported is the end of what it has
    written: all of it up to 1000 bytes, or else what follows the first line feed
    among the last 1000, if there is one.  It is an error only if the last 1000
    bytes begin inside a character. *)
Theorem error_output_spec contents :
  is_utf8 [] contents = true ->
  let cut := (length contents - ERROR_MAX_LENGTH)%nat in
  match get_error_output (Some contents) with
  | Ok out => exists pre, contents = pre ++ out /\ (length out <= ERROR_MAX_LENGTH)%nat /\
      ((length contents <= ERROR_MAX_LENGTH)%nat -> pre = []) /\
      (pre = [] \/ length pre = cut \/ exists b, list.last pre = Some b /\ byte_to_Z b = LF)
  | Err _ => (ERROR_MAX_LENGTH < length contents)%nat /\ exists b, contents !! cut = Some b /\ continuation b
  | Panic => False
  end.
Proof.
  intros Hu cut. unfold get_error_output.
  destruct (decide (length contents = 0%nat)) as [E0|E0].
  { exists []. destruct contents; [|done]. split_and!; auto. simpl. lia. }
  destruct (decide (length contents <= ERROR_MAX_LENGTH)%nat) as [Hle|Hgt].
  { unfold from_utf8. rewrite Hu. exists []. split_and!; auto. }
  fold cut. unfold from_utf8.
  assert (Hpos : (0 < ERROR_MAX_LENGTH)%nat) by (apply Nat.ltb_lt; reflexivity).
  destruct (is_utf8_drop contents [] cut) as [(b & Hb & Hc & ->)|(b & Hb & Hc & ->)]; [done|done|lia| |].
  { split; [lia|]. by exists b. }
  cbn. assert (Hd : length (drop cut contents) = ERROR_MAX_LENGTH) by (rewrite length_drop; lia).
  destruct (after_line_feed (drop cut contents)) as [rest|] eqn:Ea.
  - apply after_line_feed_Some in Ea as (pre & b' & Ea & Hb'). exists (take cut contents ++ pre ++ [b']).
    rewrite Ea, length_app in Hd. split_and!; [|lia|lia|].
    + by rewrite <- app_assoc, <- Ea, take_drop.
    + right. right. exists b'. by rewrite app_assoc, last_snoc.
  - exists (take cut contents). split_and!; [by rewrite take_drop|lia|lia|]. right. left.
    rewrite length_take. lia.
Qed.

(** Five hundred characters of two bytes and a letter: the cut is inside the first
    character, and nothing is reported. *)
Definition long_output : list byte := concat (replicate 500 [Byte.xc3; Byte.xa9]) ++ [Byte.x61].
Lemma cut_output_lost :
  is_utf8 [] long_output = true /\ get_error_output (Some long_output) = bail "invalid utf-8".
Proof. split; vm_compute; reflexivity. Qed.

Lemma error_output_spec_witness :
  is_utf8 [] [Byte.x6f; Byte.x6b; Byte.x0a] = true /\
  exists pre, [Byte.x6f; Byte.x6b; Byte.x0a] = pre ++ [Byte.x6f; Byte.x6b; Byte.x0a].
Proof.
  split; [reflexivity|].
  destruct (error_output_spec [Byte.x6f; Byte.x6b; Byte.x0a] eq_refl) as (pre & E & _). by exists pre.
Defined.

(** ** Logs *)

(** The pattern of rolled logs adds a number before the extension of the log, or at
    the end if it has none. *)
Lemma default_pattern_spec path before name :
  split_file path = Some (before, name) ->
  let '(stem, ext) := file_stem_extension name in
  default_pattern path =
    before ++ stem ++ lit ".{}" ++ match ext with Some x => lit "." ++ x | None => [] end.
Proof.
  intros E. unfold default_pattern, path_extension, path_with_extension. rewrite E.
  destruct (file_stem_extension name) as [stem [ext|]]; cbn [fst snd]; [|done].
  do 2 f_equal.
Qed.
