(* ===== verification/WinConfigProps.v ===== *)
(** * Theorems on the configuration of the service

    Which nodes a configuration file describes, and where each of their settings
    comes from. *)

From stdpp Require Import base tactics list gmap strings option numbers vector.
From Stdlib Require Import ZArith.
From S2P Require Import Prelude Text Common IpText WinPath WinConfig.

(** ** Environments *)

(** The keys of a table are different. *)
Definition keys_distinct (t : Table) : Prop := NoDup t.*1.

Lemma table_get_None k t : k ∉ t.*1 -> table_get k t = None.
Proof.
  induction t as [|[k' v] t IH]; [done|]. simpl. rewrite not_elem_of_cons. intros [Hn Hk].
  rewrite decide_False by done. auto.
Qed.

(** An entry replaces a variable, and the others are kept. *)
Lemma add_env_lookup t : forall env env' k,
  keys_distinct t -> add_env t env = Ok env' ->
  env' !! k = or_else (table_get k t ≫= as_str) (env !! k).
Proof.
  induction t as [|[k0 v] t IH]; intros env env' k Hd E; [by simplify_eq/=|].
  cbn [add_env] in E. unfold mbind, outcome_bind, context, bail in E.
  destruct (as_str v) as [value|] eqn:Ev; [|done]. apply NoDup_cons in Hd as [Hk Hd].
  rewrite (IH _ _ k Hd E). cbn [table_get]. destruct (decide (k = k0)) as [->|Hn].
  - rewrite table_get_None by done. simpl. by rewrite Ev, lookup_insert_eq.
  - by rewrite lookup_insert_ne.
Qed.
(** The variable of a table of variables, if there is one. *)
Definition env_entry (o : option Table) (k : text) : option text := (o ≫= table_get k) ≫= as_str.
Lemma get_env_lookup o env env' k :
  (forall t, o = Some t -> keys_distinct t) -> get_env o env = Ok env' ->
  env' !! k = or_else (env_entry o k) (env !! k).
Proof.
  intros Hd E. destruct o as [t|]; [|by simplify_eq/=]. simpl. by apply add_env_lookup; auto.
Qed.
Lemma add_env_strings t : forall env env', add_env t env = Ok env' -> Forall (fun e => is_Some (as_str e.2)) t.
Proof.
  induction t as [|[k v] t IH]; intros env env' E; [done|]. cbn [add_env] in E.
  unfold mbind, outcome_bind, context, bail in E. destruct (as_str v) eqn:Ev; [|done].
  constructor; [by eexists|by eapply IH].
Qed.

(** ** Nodes *)

Section nodes.
Context `{Toml} `{LevelNames}.
Variable conf_root : text.

(** In a well-formed table of settings no key of a table occurs twice. *)
Inductive value_ok : Value -> Prop :=
| ok_table t : keys_distinct t -> Forall (fun e => value_ok e.2) t -> value_ok (VTable t)
| ok_array vs : Forall value_ok vs -> value_ok (VArray vs)
| ok_string s : value_ok (VString s)
| ok_integer z : value_ok (VInteger z)
| ok_float f : value_ok (VFloat f)
| ok_boolean b : value_ok (VBoolean b)
| ok_datetime d : value_ok (VDatetime d).

Lemma table_get_elem k t v : table_get k t = Some v -> (k, v) ∈ t.
Proof.
  induction t as [|[k' v'] t IH]; [done|]. simpl. destruct (decide (k = k')) as [->|]; [|set_solver].
  intros [= ->]. set_solver.
Qed.
Lemma value_at_ok path : forall v w, value_ok v -> value_at v path = Some w -> value_ok w.
Proof.
  induction path as [|x path IH]; intros v w Hv E; [by simplify_eq/=|]. simpl in E.
  destruct (value_get (lit x) v) as [u|] eqn:Eu; [|done]. apply (IH u w); [|done].
  unfold value_get in Eu. destruct v; try done. simpl in Eu. apply table_get_elem in Eu.
  inversion Hv as [? _ Hall| | | | | |]. rewrite list.Forall_forall in Hall. by apply (Hall _ Eu).
Qed.
Lemma table_at_distinct v path t : value_ok v -> toml_get_as as_table v path = Some t -> keys_distinct t.
Proof.
  unfold toml_get_as. intros Hv E. destruct (value_at v path) as [w|] eqn:Ew; [|done]. simpl in E.
  apply value_at_ok in Ew; [|done]. destruct w; try done. simpl in E. simplify_eq. by inversion Ew.
Qed.

Lemma table_entry_ok v path t e :
  value_ok v -> toml_get_as as_table v path = Some t -> e ∈ t -> value_ok e.2.
Proof.
  unfold toml_get_as. intros Hv E He. destruct (value_at v path) as [w|] eqn:Ew; [|done]. simpl in E.
  apply value_at_ok in Ew; [|done]. destruct w; try done. simpl in E. simplify_eq.
  inversion Ew as [? _ Hall| | | | | |]. rewrite list.Forall_forall in Hall. by apply Hall.
Qed.

(** A setting of the node or else the common one. *)
Definition own_or_common {A} (as_type : Value -> option A) (common node : Value) (path : list string) : option A :=
  or_else (toml_get_as as_type node path) (toml_get_as as_type common path).

(** Where the settings of a node come from: those that a node shares are its own or
    else the common ones, its variables replace the common ones one by one, and its
    arguments all of them. *)
Record node_from (common : Value) (nname : text) (node : Value) (nc : NodeConfig) : Prop := {
  from_name : nc_name nc = default nname (toml_get_as as_str node ["name"]);
  from_bootstrap : Some (nc_bootstrap_nodes nc) = own_or_common as_str common node ["bootstrap_nodes"];
  from_dirs : exists c d, toml_get_as as_str node ["config_dir"] = Some c /\
    toml_get_as as_str node ["data_dir"] = Some d /\
    nc_config_dir nc = path_push conf_root c /\ nc_data_dir nc = path_push conf_root d;
  from_credentials :
    let baker := path_push conf_root <$> toml_get_as as_str node ["baker_credentials"] in
    let validator := path_push conf_root <$> toml_get_as as_str node ["validator_credentials"] in
    nc_baker_credentials nc = or_else baker validator /\
    (forall b v, baker = Some b -> validator = Some v -> path_eqb b v = true);
  from_addresses :
    optional ip_from_str "invalid IP address syntax" (toml_get_as as_str node ["grpc2"; "ip"])
      = Ok (nc_grpc2_address nc) /\
    optional ip_from_str "invalid IP address syntax" (toml_get_as as_str node ["listen"; "ip"])
      = Ok (nc_listen_address nc);
  from_ports : nc_grpc2_port nc = toml_get_as as_integer node ["grpc2"; "port"] /\
    nc_listen_port nc = toml_get_as as_integer node ["listen"; "port"] /\
    forall p, nc_listen_port nc = Some p \/ nc_grpc2_port nc = Some p -> 0 <= p < 2 ^ 16;
  from_log_config :
    match toml_get_as as_str node ["log"; "config"], toml_get_as as_str node ["log"; "path"] with
    | Some file, _ => nc_log_config nc = LoggerConfigFile (path_push conf_root file)
    | None, None => nc_log_config nc = LoggerNone
    | None, Some path => exists f, nc_log_config nc = LoggerFile f /\ lf_path f = path_push conf_root path /\
        lf_roll_size f = toml_get_as as_str node ["log"; "roll"; "size"] /\
        lf_roll_count f = toml_get_as as_integer node ["log"; "roll"; "count"] ≫= u16_try_from /\
        lf_roll_pattern f = path_push conf_root <$> toml_get_as as_str node ["log"; "roll"; "pattern"]
    end;
  from_log_level : nc_log_level nc = own_or_common as_str common node ["log"; "level"] ≫= level_from_str;
  from_exe : nc_node_bin nc = path_push conf_root <$> own_or_common as_str common node ["node"; "exe"];
  from_node_env k : nc_node_env nc !! k =
    or_else (env_entry (toml_get_as as_table node ["node"; "env"]) k)
      (env_entry (toml_get_as as_table common ["node"; "env"]) k);
  from_args : VString <$> nc_node_args nc = default [] (own_or_common as_array common node ["node"; "args"]);
  from_collector_enabled : nc_collector_enabled nc = own_or_common as_bool common node ["collector"; "enabled"];
  from_url : nc_collector_url nc = own_or_common as_str common node ["collector"; "url"];
  from_collector_name : nc_collector_node_name nc = own_or_common as_str common node ["collector"; "node_name"];
  from_collector_interval : nc_collector_interval nc = own_or_common as_integer common node ["collector"; "interval"] /\
    (forall i, nc_collector_interval nc = Some i -> 0 <= i);
  from_collector_log : nc_collector_log_file nc = path_push conf_root <$> toml_get_as as_str node ["collector"; "log_file"];
  from_collector_exe : nc_collector_bin nc = path_push conf_root <$> own_or_common as_str common node ["collector"; "exe"];
  from_collector_env k : nc_collector_env nc !! k =
    or_else (env_entry (toml_get_as as_table node ["collector"; "env"]) k)
      (env_entry (toml_get_as as_table common ["collector"; "env"]) k);
  from_collector_args :
    VString <$> nc_collector_args nc = default [] (own_or_common as_array common node ["collector"; "args"]);
}.

Lemma get_args_Some o args : get_args o = Ok args -> (fun l : list text => VString <$> l) <$> args = o.
Proof.
  destruct o as [vs|]; [|by intros [= <-]]. simpl. unfold mbind, outcome_bind.
  assert (Hs : forall l, string_args vs = Ok l -> VString <$> l = vs).
  { induction vs as [|v vs IH]; intros l E; [by simplify_eq/=|]. cbn [string_args] in E.
    unfold mbind, outcome_bind, context, bail in E. destruct v; try done. simpl in E.
    destruct (string_args vs) as [l'| |]; try done. simplify_eq/=. f_equal. by apply IH. }
  destruct (string_args vs); try done. intros [= <-]. simpl. f_equal. by apply Hs.
Qed.
Lemma optional_u16 what o r : optional u16_try_from what o = Ok r -> r = o /\ forall p, r = Some p -> 0 <= p < 2 ^ 16.
Proof.
  destruct o as [z|]; [|by intros [= <-]]. cbn. unfold mbind, outcome_bind, context, bail, u16_try_from.
  destruct (_ && _) eqn:Ez; [|done]. intros [= <-]. split; [done|]. intros p [= <-]. bool_hyps. lia.
Qed.
Lemma optional_u64 what o r : optional u64_try_from what o = Ok r -> r = o /\ forall p, r = Some p -> 0 <= p.
Proof.
  destruct o as [z|]; [|by intros [= <-]]. cbn. unfold mbind, outcome_bind, context, bail, u64_try_from.
  destruct (0 <=? z) eqn:Ez; [|done]. intros [= <-]. split; [done|]. intros p [= <-]. bool_hyps. lia.
Qed.
Lemma context_Ok {A} (o : option A) what a : context o what = Ok a -> o = Some a.
Proof. unfold context. destruct o; [by intros [= <-]|done]. Qed.
Lemma merge_credentials_Ok baker validator r :
  merge_credentials baker validator = Ok r ->
  r = or_else baker validator /\ forall b v, baker = Some b -> validator = Some v -> path_eqb b v = true.
Proof.
  unfold merge_credentials, mbind, outcome_bind, ensure. destruct baker as [b|], validator as [v|].
  - destruct (path_eqb b v) eqn:Ep; [|done]. intros [= <-]. split; [done|]. by intros ?? [= <-] [= <-].
  - by intros [= <-].
  - by intros [= <-].
  - by intros [= <-].
Qed.

Lemma args_from node_args common_args o oc :
  get_args o = Ok node_args -> get_args oc = Ok common_args ->
  VString <$> default [] (or_else node_args common_args) = default [] (or_else o oc).
Proof. intros <-%get_args_Some <-%get_args_Some. by destruct node_args, common_args. Qed.

(** The variables of a table over those of another. *)
Lemma env_merged o oc env_c env k :
  (forall t, o = Some t -> keys_distinct t) -> (forall t, oc = Some t -> keys_distinct t) ->
  get_env oc ∅ = Ok env_c -> get_env o env_c = Ok env ->
  env !! k = or_else (env_entry o k) (env_entry oc k).
Proof.
  intros Ho Hoc Ec E. rewrite (get_env_lookup _ _ _ k Ho E), (get_env_lookup _ _ _ k Hoc Ec), lookup_empty.
  f_equal. by destruct (env_entry oc k).
Qed.

Lemma read_node_from cm v nname node nc :
  value_ok v -> value_ok node -> read_common v = Ok cm -> read_node conf_root cm nname node = Ok nc ->
  node_from (cm_table cm) nname node nc.
Proof.
  intros Hv Hnode Ecm E.
  assert (Hcommon : value_ok (cm_table cm) /\
    get_env (toml_get_as as_table (cm_table cm) ["node"; "env"]) ∅ = Ok (cm_node_env cm) /\
    get_args (toml_get_as as_array (cm_table cm) ["node"; "args"]) = Ok (cm_node_args cm) /\
    get_env (toml_get_as as_table (cm_table cm) ["collector"; "env"]) ∅ = Ok (cm_collector_env cm) /\
    get_args (toml_get_as as_array (cm_table cm) ["collector"; "args"]) = Ok (cm_collector_args cm)).
  { unfold read_common, mbind, outcome_bind in Ecm. repeat (case_match; try done). simplify_eq/=.
    split_and!; [|done..]. destruct (toml_get_as as_table v ["common"]) as [t|] eqn:Et; simpl.
    - unfold toml_get_as in Et. destruct (value_at v ["common"]) as [w|] eqn:Ew; [|done].
      apply value_at_ok in Ew; [|done]. destruct w; simpl in Et; by simplify_eq.
    - constructor; [apply NoDup_nil_2|done]. }
  destruct Hcommon as (Hc & Hne & Hna & Hce & Hca).
  unfold read_node, mbind, outcome_bind in E.
  repeat match type of E with
  | match ?x with Ok _ => _ | _ => _ end = _ => let Hx := fresh "Hx" in destruct x eqn:Hx; [|done..]
  end. simplify_eq.
  repeat match goal with
  | Ho : optional u16_try_from _ _ = Ok _ |- _ => apply optional_u16 in Ho as [-> ?]
  | Ho : optional u64_try_from _ _ = Ok _ |- _ => apply optional_u64 in Ho as [-> ?]
  | Hm : merge_credentials _ _ = Ok _ |- _ => apply merge_credentials_Ok in Hm
  | Hx : _ = Ok _ |- _ => apply context_Ok in Hx
  end.
  split; try done.
  - by eexists _, _.
  - split_and!; [done..|]. intros p []; auto.
  - cbn [nc_log_config]. unfold read_log_config. repeat case_match; try done. by eexists.
  - intros k. eapply env_merged; [| |exact Hne|eassumption]; intros t; by apply table_at_distinct.
  - by apply args_from.
  - intros k. eapply env_merged; [| |exact Hce|eassumption]; intros t; by apply table_at_distinct.
  - by apply args_from.
Qed.

Lemma read_nodes_iff cm t ncs :
  read_nodes conf_root cm t = Ok ncs <->
  Forall2 (fun e nc => read_node conf_root cm e.1 e.2 = Ok nc) (filter (fun e => node_enabled e.2 = true) t) ncs.
Proof.
  revert ncs. induction t as [|[k v] t IH]; intros ncs.
  { split; [intros [= <-]; constructor|]. by inversion 1. }
  cbn [read_nodes]. rewrite filter_cons. simpl. destruct (node_enabled v) eqn:En; cycle 1.
  { rewrite decide_False by done. apply IH. }
  rewrite decide_True by done. unfold mbind, outcome_bind. split.
  - intros E. destruct (read_node conf_root cm k v) eqn:Er; try done.
    destruct (read_nodes conf_root cm t) as [l| |] eqn:El; try done. simplify_eq. constructor; [done|by apply IH].
  - inversion 1 as [|? nc ? l Hn Hl]; subst. simpl in Hn. rewrite Hn, (proj2 (IH l) Hl). done.
Qed.

End nodes.
