(* ===== verification/WinWitnesses.v ===== *)
(** * Examples of the node runner service

    A configuration file with a common section and three nodes, one of them
    disabled: what it is read to, what its nodes are started with, and a run of the
    service until it has stopped.  What files are accepted or ignored though they
    should not be. *)

From stdpp Require Import base tactics list gmap strings option numbers vector.
From Stdlib Require Import ZArith.
From S2P Require Import Prelude Text Common IpText Wire WinPath WinConfig WinNode WinService WinProps WinNodeProps WinConfigProps.

(** ** The file *)

Definition entry (k : string) (v : Value) : text * Value := (lit k, v).
Definition str (k v : string) : text * Value := entry k (VString (lit v)).
Definition example_common : Table :=
  [str "bootstrap_nodes" "bootstrap.example:8888";
   entry "collector" (VTable [str "url" "https://dashboard.example/post"]);
   entry "node" (VTable [entry "args" (VArray [VString (lit "--quiet")]);
                         entry "env" (VTable [str "A" "1"; str "B" "2"])])].
Definition example_first : Table :=
  [str "config_dir" "first"; str "data_dir" "D:\first";
   entry "grpc2" (VTable [str "ip" "0.0.0.0"; entry "port" (VInteger 20000)]);
   entry "listen" (VTable [entry "port" (VInteger 8888)]);
   str "name" "First";
   entry "node" (VTable [entry "env" (VTable [str "B" "3"])])].
Definition example_second : Table := [str "config_dir" "second"; str "data_dir" "second"].
Definition example_disabled : Table := [entry "enabled" (VBoolean false)].
Definition example_nodes : Table :=
  [entry "a" (VTable example_first); entry "b" (VTable example_disabled); entry "c" (VTable example_second)].
Definition example_file : Value :=
  VTable [entry "common" (VTable example_common); entry "node" (VTable example_nodes)].

#[local] Instance example_toml : Toml := {|
  toml_from_str s := if decide (s = lit "file") then Some example_file else None;
  toml_to_string v := Some (lit "log");
|}.
#[local] Instance example_levels : LevelNames := {|
  level_from_str s := if decide (s = lit "info") then Some LvInfo else None;
  level_to_string l := lit (match l with LvError => "ERROR" | LvWarn => "WARN" | LvInfo => "INFO"
                                       | LvDebug => "DEBUG" | LvTrace => "TRACE" end);
|}.

#[local] Instance example_names : EnvNames := {|
  upper c := if (97 <=? c) && (c <=? 122) then c - 32 else c;
  iter_env := map_to_list;
|}.
#[local] Instance example_names_laws : EnvNamesLaws.
Proof. by split. Qed.

Lemma example_file_ok : value_ok example_file.
Proof.
  repeat first
    [ apply ok_table | apply ok_array | apply ok_string | apply ok_integer | apply ok_boolean
    | apply list.Forall_nil; exact I | apply list.Forall_cons; split
    | unfold keys_distinct; apply (bool_decide_unpack _); vm_compute; exact I ].
Qed.

Definition example_root : text := lit "C:\nodes".
Definition example_configs : list NodeConfig :=
  match load_config_file example_root (lit "file") with Ok ncs => ncs | _ => [] end.

(** Both nodes that are enabled are read: the first with its own name, variables
    merged and the directory on another drive kept. *)
Lemma example_configs_read :
  nc_name <$> example_configs = [lit "First"; lit "c"] /\
  nc_config_dir <$> example_configs = [lit "C:\nodes\first"; lit "C:\nodes\second"] /\
  nc_data_dir <$> example_configs = [lit "D:\first"; lit "C:\nodes\second"] /\
  (fun nc => (nc_node_env nc !! lit "A", nc_node_env nc !! lit "B")) <$> example_configs
    = [(Some (lit "1"), Some (lit "3")); (Some (lit "1"), Some (lit "2"))].
Proof. vm_compute. split_and!; reflexivity. Qed.


(** ** A node *)

Definition example_start : StartEnv :=
  mkStartEnv (Some (lit "C:\bin\service.exe")) (Some (lit "T:\log")) (Some (lit "T:\err"))
    (fun _ => true) (fun _ => true).
Definition example_config : NodeConfig :=
  {| nc_name := lit "First"; nc_bootstrap_nodes := lit "bootstrap.example:8888";
     nc_config_dir := lit "C:\nodes\first"; nc_data_dir := lit "D:\first";
     nc_baker_credentials := None; nc_grpc2_address := Some LOCALHOST_V4; nc_grpc2_port := Some 20000;
     nc_listen_address := None; nc_listen_port := Some 8888; nc_log_config := LoggerNone;
     nc_log_level := None; nc_node_bin := None; nc_node_env := ∅; nc_node_args := [lit "--quiet"];
     nc_collector_enabled := None; nc_collector_url := Some (lit "https://dashboard.example/post");
     nc_collector_node_name := None; nc_collector_interval := None; nc_collector_log_file := None;
     nc_collector_bin := None; nc_collector_env := ∅; nc_collector_args := [] |}.

(** The node and its collector are started. *)
Lemma example_starts :
  exists n y', start example_start example_config system_initial = (Ok n, y') /\
    node_process n = 0%nat /\ collector_process n = Some 1%nat /\
    program <$> commands y' !! 1%nat = Some (lit "C:\bin\node-collector.exe").
Proof. eexists _, _. split; [reflexivity|]. split_and!; vm_compute; reflexivity. Qed.

Lemma node_started_witness :
  exists n y', start example_start example_config system_initial = (Ok n, y') /\
  exists cmd, commands y' !! node_process n = Some cmd /\
    cmd_args cmd = [lit "--quiet"] /\
    cmd_envs cmd !! env_key (lit "CONCORDIUM_NODE_LISTEN_PORT") ≫= u16_from_str = Some 8888.
Proof.
  destruct example_starts as (n & y' & E & _). exists n, y'. split; [exact E|].
  destruct (node_started example_start example_config system_initial n y')
    as (cmd & path & Hc & _ & Ha & _ & _ & _ & _ & _ & _ & _ & _ & _ & Hp & _).
  - intros p [= <-]. vm_compute. intuition congruence.
  - intros p [= <-]. vm_compute. intuition congruence.
  - exact E.
  - exists cmd. split; [exact Hc|]. split; [exact Ha|]. exact Hp.
Defined.

(** A variable that is configured under a name that differs in case only is replaced. *)
Lemma setting_replaces_variable :
  cmd_envs (set_env "CONCORDIUM_NODE_DATA_DIR" (lit "D:\first")
    (set_envs {[lit "concordium_node_data_dir" := lit "E:\other"]} (command_new (lit "node.exe"))))
  = {[lit "CONCORDIUM_NODE_DATA_DIR" := lit "D:\first"]}.
Proof. vm_compute. reflexivity. Qed.

(** ** A run of the service *)

Definition example_env : ServiceEnv :=
  mkServiceEnv true true (fun _ => true) (Some (Some (lit "C:\nodes\nodes.toml")))
    (fun _ => Some (lit "file")) (fun _ => example_start) (fun _ => no_faults).
Definition parked (ms : Z) (exits : list (nat * Z)) (controls : list ServiceControl) : Tick :=
  mkTick ms exits controls.
(** The collector exits, a stop is requested, one node stops and the other hangs. *)
Definition example_ticks : list Tick :=
  [parked 5000 [(1%nat, 1)] []; parked 300 [] [ControlInterrogate; ControlStop];
   parked 5000 [(0%nat, 0)] []; parked 30000 [] []; parked 30000 [] []].

Lemma service_stops_witness :
  will_stop (pass (parked 10 [] []) (service_initial 0)) example_ticks /\
  forall pid, ~ running pid (sys
    (run_service example_env (parked 10 [] []) (parked 5 [] []) example_ticks (service_initial 0)).2).
Proof.
  assert (Hw : will_stop (pass (parked 10 [] []) (service_initial 0)) example_ticks).
  { right. eexists [_], _, _. split; [reflexivity|]. split; [reflexivity|]. vm_compute. discriminate. }
  split; [exact Hw|].
  assert (El : load_config (registry example_env) (read_to_string example_env) = Ok example_configs)
    by (vm_compute; reflexivity).
  assert (Hf : forward example_ticks) by (repeat (constructor; [vm_compute; discriminate|]); constructor).
  destruct (service_stops example_env (parked 10 [] []) (parked 5 [] []) example_ticks 0 example_configs
    eq_refl eq_refl El (fun _ _ => conj eq_refl (conj eq_refl eq_refl))
    ltac:(vm_compute; discriminate) Hf Hw) as (hints & s' & r & E & _ & [(_ & _ & Hn)|(k & _ & Hk & _)]).
  - rewrite E. exact Hn.
  - discriminate Hk.
Defined.

(** The statuses of that run. *)
Lemma example_run_statuses :
  (fun s => (current_state s, checkpoint s, wait_hint s)) <$>
    statuses (run_service example_env (parked 10 [] []) (parked 5 [] []) example_ticks (service_initial 0)).2
  = [(StartPending, 0, 1000); (Running, 0, 0); (StopPending, 0, 61000); (StopPending, 1, 60995);
     (StopPending, 2, 55995); (StopPending, 3, 25995); (Stopped, 0, 0)].
Proof. vm_compute. reflexivity. Qed.

(** ** What files are accepted *)

Definition empty_common : Common := mkCommon (VTable []) ∅ None ∅ None.
Definition minimal (more : Table) : Value :=
  VTable ([str "bootstrap_nodes" "b"; str "config_dir" "c"; str "data_dir" "d"] ++ more).

(** The entries for addresses that the documentation names have no effect. *)
Lemma documented_address_ignored :
  let read more := read_node example_root empty_common (lit "n") (minimal more) in
  read [entry "listen" (VTable [str "address" "10.0.0.1"]);
        entry "rpc" (VTable [str "address" "10.0.0.1"; entry "port" (VInteger 20000)])]
  = read [].
Proof. vm_compute. reflexivity. Qed.

(** An address without a port is accepted, though a node with these options does not
    start. *)
Lemma address_without_port :
  match read_node example_root empty_common (lit "n") (minimal [entry "grpc2" (VTable [str "ip" "127.0.0.1"])]) with
  | Ok nc => bool_decide (is_Some (nc_grpc2_address nc)) && bool_decide (nc_grpc2_port nc = None)
  | _ => false
  end = true.
Proof. vm_compute. reflexivity. Qed.

(** A number of logs to keep that is out of range is taken to be zero: logs are
    deleted when they are full. *)
Lemma large_count_deletes :
  match read_log_config example_root (VTable [entry "log" (VTable [str "path" "log";
          entry "roll" (VTable [entry "count" (VInteger 65536)])])]) with
  | LoggerFile c => roller c = table_of [("kind", VString (lit "delete"))]
  | _ => False
  end.
Proof. vm_compute. reflexivity. Qed.
