(* ===== verification/Installer.v ===== *)
(** * Custom actions of the installer

    The functions that the installer for Windows calls
    ([service/windows/installer/custom-actions/src/lib.rs]): a directory is deleted,
    and the service is configured and started.  The property with the data of an
    action, the manager of services and the file system are inputs. *)

From stdpp Require Import base tactics list gmap strings option numbers.
From Stdlib Require Import ZArith.
From S2P Require Import Prelude Text.

Definition ERROR_SUCCESS : Z := 0.
Definition ERROR_MORE_DATA : Z := 234.
Definition ERROR_FUNCTION_NOT_CALLED : Z := 1626.
Definition SERVICE_AUTO_START : Z := 2.
Definition SERVICE_DEMAND_START : Z := 3.

(** [MsiGetPropertyW]: given the buffer and its size, the result, the buffer and
    the size after the call.  Strings are sequences of 16-bit units. *)
Class Msi := { MsiGetPropertyW : text -> list Z -> Z -> Z * list Z * Z }.

(** [get_data]. *)
Definition PROPERTY : text := lit "CustomActionData" ++ [0].
Definition get_data `{Msi} : list Z + Z :=
  let '(res, value_vec, len) := MsiGetPropertyW PROPERTY [0] 0 in
  if res =? ERROR_MORE_DATA then
    let len := u32_wrap (len + 1) in
    let '(res, value_vec, _) := MsiGetPropertyW PROPERTY (replicate (Z.to_nat len) 0) len in
    if res =? ERROR_SUCCESS then inl value_vec else inr res
  else if res =? ERROR_SUCCESS then inl value_vec
  else inr res.

(** ** Actions *)

(** The handles that are open, and what has been done. *)
Inductive Effect :=
| RemoveDirAll (dir : list Z)
| ChangeServiceConfig (service : list Z) (start_type : Z)
| StartService (service : list Z).
Record Installer := mkInstaller { open_handles : gset nat; next_handle : nat; effects : list Effect }.

(** Which calls succeed; a service is opened by its name, up to the terminator. *)
Record InstallEnv := mkInstallEnv {
  removes : list Z -> bool;
  opens_manager : bool;
  opens_service : list Z -> bool;
  performs : Effect -> bool;
}.

Section actions.
Context `{Msi}.
Variable env : InstallEnv.

Definition open_handle (ok : bool) : M Installer (option nat) := fun s =>
  if ok
  then (Ok (Some (next_handle s)),
        mkInstaller ({[next_handle s]} ∪ open_handles s) (S (next_handle s)) (effects s))
  else (Ok None, s).
Definition CloseServiceHandle (h : nat) : M Installer unit :=
  modify (fun s => mkInstaller (open_handles s ∖ {[h]}) (next_handle s) (effects s)).
(** A call that is made: whether it succeeds. *)
Definition perform (e : Effect) : M Installer bool := fun s =>
  (Ok (performs env e),
   if performs env e then mkInstaller (open_handles s) (next_handle s) (effects s ++ [e]) else s).

(** The name that a pointer to 16-bit units points to. *)
Fixpoint until_nul (s : list Z) : list Z :=
  match s with
  | [] => []
  | c :: s' => if c =? 0 then [] else c :: until_nul s'
  end.

(** [DeleteDataFolder]; the last unit is cut off. *)
Definition DeleteDataFolder : M Installer Z :=
  match get_data with
  | inr _ => mret ERROR_FUNCTION_NOT_CALLED
  | inl data_dir_wide =>
      match data_dir_wide with
      | [] => lift Panic
      | _ =>
          let p := take (length data_dir_wide - 1) data_dir_wide in
          if removes env p then
            _ ← modify (fun s => mkInstaller (open_handles s) (next_handle s) (effects s ++ [RemoveDirAll p]));
            mret ERROR_SUCCESS
          else mret ERROR_FUNCTION_NOT_CALLED
      end
  end.

(** [set_service_start]. *)
Definition set_service_start (start_type : Z) : M Installer bool :=
  match get_data with
  | inr _ => mret false
  | inl service_name =>
      sc_manager ← open_handle (opens_manager env);
      match sc_manager with
      | None => mret false
      | Some sc_manager =>
          service_handle ← open_handle (opens_service env (until_nul service_name));
          match service_handle with
          | None => _ ← CloseServiceHandle sc_manager; mret false
          | Some service_handle =>
              res ← perform (ChangeServiceConfig (until_nul service_name) start_type);
              _ ← CloseServiceHandle service_handle;
              _ ← CloseServiceHandle sc_manager;
              mret res
          end
      end
  end.

(** [start_service]. *)
Definition start_service : M Installer bool :=
  match get_data with
  | inr _ => mret false
  | inl service_name =>
      sc_manager ← open_handle (opens_manager env);
      match sc_manager with
      | None => mret false
      | Some sc_manager =>
          service_handle ← open_handle (opens_service env (until_nul service_name));
          match service_handle with
          | None => _ ← CloseServiceHandle sc_manager; mret false
          | Some service_handle =>
              res ← perform (StartService (until_nul service_name));
              _ ← CloseServiceHandle service_handle;
              _ ← CloseServiceHandle sc_manager;
              mret res
          end
      end
  end.

(** [SetServiceStartAuto], [SetServiceStartDemand] and [StartService]. *)
Definition as_result (m : M Installer bool) : M Installer Z :=
  ok ← m; mret (if ok : bool then ERROR_SUCCESS else ERROR_FUNCTION_NOT_CALLED).
Definition SetServiceStartAuto : M Installer Z := as_result (set_service_start SERVICE_AUTO_START).
Definition SetServiceStartDemand : M Installer Z := as_result (set_service_start SERVICE_DEMAND_START).
Definition StartServiceAction : M Installer Z := as_result start_service.
End actions.

(** ** Correctness *)

(** The property has a value: a buffer with room for it and a terminator is filled,
    and otherwise the size of the value is given. *)
Definition property_is `{Msi} (value : list Z) : Prop :=
  forall buf len, len <= Z.of_nat (length buf) ->
    let '(res, buf', len') := MsiGetPropertyW PROPERTY buf len in
    len' = Z.of_nat (length value) /\
    if Z.of_nat (length value) <? len
    then res = ERROR_SUCCESS /\ buf' = value ++ 0 :: drop (S (length value)) buf
    else res = ERROR_MORE_DATA.

Section correct.
Context `{Msi}.
Variable value : list Z.
Hypothesis Hproperty : property_is value.
Hypothesis Hvalue : Forall (fun c => 0 < c) value.
Hypothesis Hlength : Z.of_nat (length value) + 1 < 2 ^ 32.

(** The data of an action is the whole value, with its terminator. *)
Lemma get_data_value : get_data = inl (value ++ [0]).
Proof using Hproperty Hlength.
  unfold get_data. pose proof (Hproperty [0] 0 ltac:(simpl; lia)) as H1.
  destruct (MsiGetPropertyW PROPERTY [0] 0) as [[res buf] len]. destruct H1 as [-> H1].
  rewrite (proj2 (Z.ltb_ge _ _)) in H1 by lia. subst res. rewrite Z.eqb_refl. unfold wrap.
  rewrite Z.mod_small by lia. set (n := Z.of_nat (length value) + 1).
  assert (En : Z.to_nat n = S (length value)) by lia.
  pose proof (Hproperty (replicate (Z.to_nat n) 0) n ltac:(rewrite length_replicate; lia)) as H2.
  destruct (MsiGetPropertyW PROPERTY (replicate (Z.to_nat n) 0) n) as [[res2 buf2] len2].
  destruct H2 as [_ H2]. rewrite (proj2 (Z.ltb_lt _ _)) in H2 by lia. destruct H2 as [-> ->].
  rewrite Z.eqb_refl, En, drop_ge by (rewrite length_replicate; lia). done.
Qed.
Lemma until_nul_value : until_nul (value ++ [0]) = value.
Proof using Hvalue.
  clear -Hvalue. revert Hvalue. induction 1 as [|c l Hc _ IH]; [done|]. simpl.
  rewrite (proj2 (Z.eqb_neq c 0)) by lia. by rewrite IH.
Qed.
Lemma close_both (o : gset nat) h h' :
  h ∉ o -> h' ∉ o -> (({[h']} ∪ ({[h]} ∪ o)) ∖ {[h']}) ∖ {[h]} = o.
Proof. set_solver. Qed.

(** Whatever fails, all handles are closed again; the outcome is success exactly if
    the action was performed, on the service or the directory that was named. *)
Theorem installer_actions env s start_type :
  (forall h, (next_handle s <= h)%nat -> h ∉ open_handles s) ->
  let possible e := opens_manager env && opens_service env value && performs env e in
  let done e := if possible e then [e] else [] in
  (let e := ChangeServiceConfig value start_type in
   exists s', set_service_start env start_type s = (Ok (possible e), s') /\
     open_handles s' = open_handles s /\ effects s' = effects s ++ done e) /\
  (let e := StartService value in
   exists s', start_service env s = (Ok (possible e), s') /\
     open_handles s' = open_handles s /\ effects s' = effects s ++ done e) /\
  (exists s', DeleteDataFolder env s =
       (Ok (if removes env value then ERROR_SUCCESS else ERROR_FUNCTION_NOT_CALLED), s') /\
     open_handles s' = open_handles s /\
     effects s' = effects s ++ if removes env value then [RemoveDirAll value] else []).
Proof using Hproperty Hvalue Hlength.
  intros Hfresh possible did.
  assert (Hclose : (({[S (next_handle s)]} ∪ ({[next_handle s]} ∪ open_handles s))
                      ∖ {[S (next_handle s)]}) ∖ {[next_handle s]} = open_handles s)
    by (apply close_both; apply Hfresh; lia).
  assert (Hclose1 : ({[next_handle s]} ∪ open_handles s) ∖ {[next_handle s]} = open_handles s)
    by (pose proof (Hfresh (next_handle s) ltac:(lia)); set_solver).
  subst did possible. unfold set_service_start, start_service, DeleteDataFolder.
  rewrite get_data_value, until_nul_value.
  unfold open_handle, perform, CloseServiceHandle, modify, mbind, M_bind, mret, M_ret.
  split_and!; cbn zeta.
  3: { destruct (value ++ [0]) eqn:Ev; [by destruct value|]. rewrite <- Ev.
       rewrite length_app, Nat.add_sub, take_app_length.
       destruct (removes env value); (eexists; split; [reflexivity|]); cbn; rewrite ?app_nil_r; done. }
  all: destruct (opens_manager env); [destruct (opens_service env value); [destruct (performs env _)|]|];
    (eexists; split; [reflexivity|]); cbn [andb effects open_handles next_handle]; rewrite ?app_nil_r; by auto.
Qed.
End correct.

(** An installation where the property is the name of a directory. *)
#[local] Instance example_msi : Msi := {|
  MsiGetPropertyW _ buf len :=
    let value := lit "C:\Data" in
    if Z.of_nat (length value) <? len
    then (ERROR_SUCCESS, value ++ 0 :: drop (S (length value)) buf, Z.of_nat (length value))
    else (ERROR_MORE_DATA, buf, Z.of_nat (length value));
|}.
Lemma installer_actions_witness :
  property_is (lit "C:\Data") /\
  exists s', DeleteDataFolder (mkInstallEnv (fun _ => true) true (fun _ => true) (fun _ => true))
      (mkInstaller ∅ 0 []) = (Ok ERROR_SUCCESS, s') /\
    open_handles s' = ∅ /\ effects s' = [RemoveDirAll (lit "C:\Data")].
Proof.
  assert (Hp : property_is (lit "C:\Data")).
  { intros buf len Hl. cbn [MsiGetPropertyW example_msi]. by destruct (Z.of_nat (length (lit "C:\Data")) <? len). }
  split; [exact Hp|].
  exact (proj2 (proj2 (installer_actions (lit "C:\Data") Hp ltac:(repeat constructor) ltac:(reflexivity)
    (mkInstallEnv (fun _ => true) true (fun _ => true) (fun _ => true)) (mkInstaller ∅ 0 []) 2
    ltac:(intros; apply not_elem_of_empty)))).
Defined.
