(* ===== verification/Build.v ===== *)
(** * The build script and the description of the interface

    What [concordium-node/build.rs] tells the compiler to link, and the service
    [concordium.v2.Queries] that it describes: its methods, their routes, their
    messages and which of them are streams.  The codec for answers that consensus
    has encoded ([concordium-node/src/grpc2.rs], [RawCodec]).  The file system, the
    tools that are run and the generators of code are inputs. *)

From stdpp Require Import base tactics list gmap strings option numbers.
From Stdlib Require Import ZArith.
From S2P Require Import Prelude Text Callbacks Grpc WinPath.

(** ** The service *)

(** [tonic_build::manual::Method] and [tonic_build::manual::Service].  The names of
    messages are those in [crate::grpc2::types]. *)
Inductive OutputType := VecU8 | ArcU8 | Types (name : string).
Inductive CodecPath := RawCodec | ProstCodec.
Record Method := mkMethod {
  m_name : string;
  m_route_name : string;
  m_input_type : string;
  m_output_type : OutputType;
  m_codec_path : CodecPath;
  m_client_streaming : bool;
  m_server_streaming : bool;
}.
#[export] Instance OutputType_eq_dec : EqDecision OutputType.
Proof. solve_decision. Defined.
#[export] Instance CodecPath_eq_dec : EqDecision CodecPath.
Proof. solve_decision. Defined.
#[export] Instance Method_eq_dec : EqDecision Method.
Proof. solve_decision. Defined.
Record ServiceDescription := mkDescription {
  sd_name : string;
  sd_package : string;
  sd_methods : list Method;
}.

Definition method (name route_name input_type : string) (output_type : OutputType)
    (codec_path : CodecPath) : Method :=
  mkMethod name route_name input_type output_type codec_path false false.
Definition server_streaming (m : Method) : Method :=
  mkMethod (m_name m) (m_route_name m) (m_input_type m) (m_output_type m) (m_codec_path m)
    (m_client_streaming m) true.
Definition client_streaming (m : Method) : Method :=
  mkMethod (m_name m) (m_route_name m) (m_input_type m) (m_output_type m) (m_codec_path m)
    true (m_server_streaming m).

(** The methods, in the order of the script. *)
Definition query_methods_1 : list Method :=
  [server_streaming (method "get_finalized_blocks" "GetFinalizedBlocks" "Empty" ArcU8 RawCodec);
   server_streaming (method "get_blocks" "GetBlocks" "Empty" ArcU8 RawCodec);
   method "get_account_info" "GetAccountInfo" "AccountInfoRequest" VecU8 RawCodec;
   server_streaming (method "get_account_list" "GetAccountList" "BlockHashInput" VecU8 RawCodec);
   server_streaming (method "get_module_list" "GetModuleList" "BlockHashInput" VecU8 RawCodec);
   method "get_module_source" "GetModuleSource" "ModuleSourceRequest" VecU8 RawCodec;
   server_streaming (method "get_instance_list" "GetInstanceList" "BlockHashInput" VecU8 RawCodec);
   method "get_instance_info" "GetInstanceInfo" "InstanceInfoRequest" VecU8 RawCodec;
   server_streaming (method "get_instance_state" "GetInstanceState"
      "InstanceInfoRequest" (Types "InstanceStateKvPair") ProstCodec);
   method "instance_state_lookup" "InstanceStateLookup"
      "InstanceStateLookupRequest" (Types "InstanceStateValueAtKey") ProstCodec;
   method "get_next_account_sequence_number" "GetNextAccountSequenceNumber" "AccountAddress" VecU8 RawCodec;
   method "get_consensus_info" "GetConsensusInfo" "Empty" VecU8 RawCodec;
   server_streaming (method "get_ancestors" "GetAncestors" "AncestorsRequest" VecU8 RawCodec);
   method "get_block_item_status" "GetBlockItemStatus" "TransactionHash" VecU8 RawCodec;
   method "get_cryptographic_parameters" "GetCryptographicParameters"
      "BlockHashInput" (Types "CryptographicParameters") ProstCodec].

Definition query_methods_2 : list Method :=
  [method "get_block_info" "GetBlockInfo" "BlockHashInput" VecU8 RawCodec;
   server_streaming (method "get_baker_list" "GetBakerList" "BlockHashInput" VecU8 RawCodec);
   method "get_pool_info" "GetPoolInfo" "PoolInfoRequest" VecU8 RawCodec;
   method "get_passive_delegation_info" "GetPassiveDelegationInfo" "BlockHashInput" VecU8 RawCodec;
   method "get_blocks_at_height" "GetBlocksAtHeight" "BlocksAtHeightRequest" VecU8 RawCodec;
   method "get_tokenomics_info" "GetTokenomicsInfo" "BlockHashInput" VecU8 RawCodec;
   method "invoke_instance" "InvokeInstance" "InvokeInstanceRequest" VecU8 RawCodec;
   server_streaming (method "get_pool_delegators" "GetPoolDelegators"
      "GetPoolDelegatorsRequest" VecU8 RawCodec);
   server_streaming (method "get_pool_delegators_reward_period" "GetPoolDelegatorsRewardPeriod"
      "GetPoolDelegatorsRequest" VecU8 RawCodec);
   server_streaming (method "get_passive_delegators" "GetPassiveDelegators" "BlockHashInput" VecU8 RawCodec);
   server_streaming (method "get_passive_delegators_reward_period" "GetPassiveDelegatorsRewardPeriod"
      "BlockHashInput" VecU8 RawCodec);
   method "get_branches" "GetBranches" "Empty" VecU8 RawCodec;
   method "get_election_info" "GetElectionInfo" "BlockHashInput" VecU8 RawCodec;
   server_streaming (method "get_identity_providers" "GetIdentityProviders" "BlockHashInput" VecU8 RawCodec);
   server_streaming (method "get_anonymity_revokers" "GetAnonymityRevokers" "BlockHashInput" VecU8 RawCodec)].

Definition query_methods_3 : list Method :=
  [server_streaming (method "get_account_non_finalized_transactions" "GetAccountNonFinalizedTransactions"
      "AccountAddress" VecU8 RawCodec);
   server_streaming (method "get_block_transaction_events" "GetBlockTransactionEvents"
      "BlockHashInput" VecU8 RawCodec);
   server_streaming (method "get_block_special_events" "GetBlockSpecialEvents" "BlockHashInput" VecU8 RawCodec);
   server_streaming (method "get_block_pending_updates" "GetBlockPendingUpdates"
      "BlockHashInput" VecU8 RawCodec);
   method "get_next_update_sequence_numbers" "GetNextUpdateSequenceNumbers" "BlockHashInput" VecU8 RawCodec;
   method "get_baker_earliest_win_time" "GetBakerEarliestWinTime" "BakerId" VecU8 RawCodec;
   method "get_block_chain_parameters" "GetBlockChainParameters" "BlockHashInput" VecU8 RawCodec;
   method "get_block_finalization_summary" "GetBlockFinalizationSummary" "BlockHashInput" VecU8 RawCodec;
   method "shutdown" "Shutdown" "Empty" (Types "Empty") ProstCodec;
   method "send_block_item" "SendBlockItem" "SendBlockItemRequest" (Types "TransactionHash") ProstCodec;
   method "get_peers_info" "GetPeersInfo" "Empty" (Types "PeersInfo") ProstCodec;
   method "peer_connect" "PeerConnect" "IpSocketAddress" (Types "Empty") ProstCodec;
   method "peer_disconnect" "PeerDisconnect" "IpSocketAddress" (Types "Empty") ProstCodec;
   method "get_banned_peers" "GetBannedPeers" "Empty" (Types "BannedPeers") ProstCodec;
   method "ban_peer" "BanPeer" "PeerToBan" (Types "Empty") ProstCodec;
   method "unban_peer" "UnbanPeer" "BannedPeer" (Types "Empty") ProstCodec].

Definition query_methods_4 : list Method :=
  [method "dump_start" "DumpStart" "DumpRequest" (Types "Empty") ProstCodec;
   method "dump_stop" "DumpStop" "Empty" (Types "Empty") ProstCodec;
   method "get_node_info" "GetNodeInfo" "Empty" (Types "NodeInfo") ProstCodec;
   method "get_account_transaction_sign_hash" "GetAccountTransactionSignHash"
      "PreAccountTransaction" (Types "AccountTransactionSignHash") ProstCodec;
   server_streaming (method "get_block_items" "GetBlockItems" "BlockHashInput" VecU8 RawCodec);
   server_streaming (method "get_bakers_reward_period" "GetBakersRewardPeriod" "BlockHashInput" VecU8 RawCodec);
   method "get_block_certificates" "GetBlockCertificates" "BlockHashInput" VecU8 RawCodec;
   method "get_first_block_epoch" "GetFirstBlockEpoch" "EpochRequest" (Types "BlockHash") ProstCodec;
   server_streaming (method "get_winning_bakers_epoch" "GetWinningBakersEpoch" "EpochRequest" VecU8 RawCodec);
   server_streaming (client_streaming (method "dry_run" "DryRun" "DryRunRequest" VecU8 RawCodec))].

Definition query_service : ServiceDescription :=
  mkDescription "Queries" "concordium.v2"
    (query_methods_1 ++ query_methods_2 ++ query_methods_3 ++ query_methods_4).

(** ** The codec *)

(** [RawEncoder::encode] and [RawDecoder::decode]; [message_decode] is that of
    [prost]. *)
Definition raw_encode (item dst : list byte) : outcome (list byte) := Ok (dst ++ item).
Definition raw_decode {D} (message_decode : list byte -> option D) (src : list byte) : outcome (option D) :=
  match message_decode src with
  | Some d => Ok (Some d)
  | None => fail_with Code.Internal "decode"
  end.

(** ** The script *)

Inductive Os := Linux | Macos | Windows.
#[export] Instance Os_eq_dec : EqDecision Os.
Proof. solve_decision. Defined.

(** What the script tells the compiler, and the code it has generated. *)
Inductive LibKind := Dylib | Static.
Inductive Directive :=
| RerunIfChanged (path : text)
| LinkSearch (native : bool) (path : text)
| LinkLib (kind : LibKind) (name : text)
| RustcEnv (variable : string) (value : text)
| CompileProtos (file : text)
| CompileService (service : ServiceDescription)
| CompileHealth (file descriptor : text).

(** An entry of a directory: its name, and whether that is valid Unicode. *)
Record Entry := mkEntry { file_name : text; unicode : bool }.

(** The target, features and environment of the build: variables, the output of
    [stack], directories that can be read with entries that can be, all files below
    a directory, and which generators succeed. *)
Record BuildEnv := mkBuildEnv {
  os : Os;
  aarch64 : bool;
  feature_static : bool;
  feature_profiling : bool;
  cargo_dir : text;
  var : string -> option text;
  stack : list string -> option text;
  read_dir : text -> option (list (option Entry));
  walk_dir : text -> list Entry;
  generates : text -> bool;
}.

Section script.
Variable b : BuildEnv.

Definition println (d : Directive) : M (list Directive) unit := modify (fun l => l ++ [d]).
Definition unwrap {A} (o : option A) : M (list Directive) A :=
  lift (match o with Some a => Ok a | None => Panic end).
Definition io {A} (o : option A) : M (list Directive) A :=
  lift (match o with Some a => Ok a | None => Err (IoError "read_dir") end).

Definition GHC_VARIANT : text :=
  match os b with
  | Macos => lit (if aarch64 b then "aarch64-osx-ghc-9.6.4" else "x86_64-osx-ghc-9.6.4")
  | _ => lit "x86_64-linux-ghc-9.6.4"
  end.
Definition DYLIB_EXTENSION : text := lit (match os b with Macos => "dylib" | _ => "so" end).

Definition command_output (args : list string) : M (list Directive) text :=
  out ← unwrap (stack b args); mret (reverse (trim_start (reverse out))).

Definition is_dylib (name : text) : bool := bool_decide ((file_stem_extension name).2 = Some DYLIB_EXTENSION).

(** [link_ghc_libs]: entries that cannot be read are skipped. *)
Definition link_rts (rts_variant : text) (e : Entry) : M (list Directive) unit :=
  let file_stem := (file_stem_extension (file_name e)).1 in
  if starts_with rts_variant file_stem && is_dylib (file_name e) then
    lib_name ← unwrap (strip_prefix (lit "lib") file_stem);
    println (LinkLib Dylib lib_name)
  else mret tt.
Definition link_ghc_libs : M (list Directive) text :=
  let rts_variant := default (lit "libHSrts-1.0.2_thr-") (var b "HASKELL_RTS_VARIANT") in
  ghc_lib_dir ← match var b "HASKELL_GHC_LIBDIR" with
                | Some d => mret d
                | None => command_output ["--stack-yaml"; "../concordium-consensus/stack.yaml"; "ghc"; "--";
                                          "--print-libdir"]
                end;
  let rts_dir := path_join ghc_lib_dir GHC_VARIANT in
  _ ← println (LinkSearch true rts_dir);
  items ← io (read_dir b rts_dir);
  _ ← for_each (link_rts rts_variant) (omap id items);
  mret rts_dir.

(** [link_static_libs]. *)
Fixpoint contains (needle s : text) : bool :=
  starts_with needle s || match s with [] => false | _ :: s' => contains needle s' end.
Definition ends_with (suffix s : text) : bool := starts_with (reverse suffix) (reverse s).
Definition links_static (lib_file : text) : bool :=
  starts_with (lit "lib") lib_file && ends_with (lit ".a") lib_file
  && (negb (starts_with (lit "libHSrts") lib_file) || contains (lit "_thr") lib_file).
(** [&lib_file[3..lib_file.len() - 2]]; what is cut off is ASCII. *)
Definition cut_name (lib_file : text) : outcome text :=
  if decide (length lib_file < 5)%nat then Panic
  else Ok (take (length lib_file - 5) (drop 3 lib_file)).
Definition link_static (e : Entry) : M (list Directive) unit :=
  if unicode e then
    if links_static (file_name e) then
      name ← lift (cut_name (file_name e)); println (LinkLib Static name)
    else mret tt
  else lift Panic.
Definition static_path : text :=
  cargo_dir b ++ lit (if feature_profiling b then "/deps/static-libs/linux/profiling"
                      else "/deps/static-libs/linux/vanilla").
Definition link_static_libs : M (list Directive) unit :=
  _ ← for_each (fun subdir =>
        let dir := static_path ++ lit "/" ++ lit subdir in
        _ ← println (LinkSearch true dir);
        for_each link_static (walk_dir b dir)) ["concordium"; "dependencies"; "ghc"]%string;
  _ ← println (LinkSearch true (cargo_dir b ++ lit "/deps/static-libs/linux/rust"));
  _ ← println (LinkLib Static (lit "Rcrypto"));
  _ ← println (LinkLib Static (lit "concordium_smart_contract_engine"));
  println (LinkLib Dylib (lit "gmp")).

(** The libraries of the consensus layer, for dynamic linking. *)
Definition link_dylib (item : option Entry) : M (list Directive) unit :=
  e ← io item;
  if is_dylib (file_name e) then
    _ ← lift (if unicode e then Ok tt else Panic);
    name ← unwrap (strip_prefix (lit "lib") (file_stem_extension (file_name e)).1);
    println (LinkLib Dylib name)
  else mret tt.
Definition link_haskell_root (root : text) : M (list Directive) unit :=
  _ ← io (read_dir b root);
  _ ← println (LinkSearch true root);
  for_each (fun l => println (LinkLib Dylib (lit l)))
    ["concordium-consensus"; "HSconcordium-consensus-0.1.0.0"; "HSconcordium-base-0.1.0.0"; "HSlmdb-0.2.5"]%string.
Definition link_discovered : M (list Directive) unit :=
  stack_install_root ← command_output ["--stack-yaml"; "../concordium-consensus/stack.yaml"; "path";
                                       "--local-install-root"];
  let stack_install_lib := path_join stack_install_root (lit "lib") in
  _ ← println (LinkSearch false stack_install_lib);
  _ ← println (LinkLib Dylib (lit "concordium-consensus"));
  let local_package := path_join stack_install_lib GHC_VARIANT in
  dir ← io (read_dir b local_package);
  _ ← println (LinkSearch false local_package);
  _ ← for_each link_dylib dir;
  _ ← match var b "EXTRA_LIBS_PATH" with
      | Some extra_libs_path => println (LinkSearch true extra_libs_path)
      | None => mret tt
      end;
  ghc_lib_dir ← link_ghc_libs;
  println (RustcEnv (if decide (os b = Linux) then "LD_LIBRARY_PATH" else "DYLD_LIBRARY_PATH")
             (ghc_lib_dir ++ lit ":" ++ stack_install_lib)).
Definition link_windows : M (list Directive) unit :=
  stack_install_root ← command_output ["--stack-yaml"; "../stack.yaml"; "path"; "--local-install-root"];
  _ ← println (LinkSearch true (path_push stack_install_root (lit "lib")));
  println (LinkLib Dylib (lit "concordium-consensus")).

(** [build_grpc2]: a generator for the types that fails is an error, one for the
    services a panic. *)
Definition build_health (proto_root file descriptor : text) : M (list Directive) unit :=
  out_dir ← unwrap (var b "OUT_DIR");
  let file := proto_root ++ file in
  _ ← lift (if generates b file then Ok tt else Panic);
  println (CompileHealth file (path_join out_dir descriptor)).
Definition build_grpc2 (proto_root : text) : M (list Directive) unit :=
  let types := proto_root ++ lit "/v2/concordium/types.proto" in
  _ ← println (RerunIfChanged types);
  _ ← lift (if generates b types then Ok tt else Err (IoError "compile_protos"));
  _ ← println (CompileProtos types);
  _ ← println (CompileService query_service);
  _ ← build_health proto_root (lit "/v2/concordium/health.proto") (lit "health_descriptor.bin");
  build_health proto_root (lit "/grpc/health/v1/health.proto") (lit "grpc_health_v1_descriptor.bin").

(** [main]. *)
Definition build_main : M (list Directive) unit :=
  _ ← println (RerunIfChanged (cargo_dir b ++ lit "/src/network/serialization/schema.fbs"));
  _ ← lift (if generates b (lit "src/network/serialization/schema.fbs") then Ok tt else Panic);
  _ ← (if feature_static b then mret tt
       else if decide (os b = Windows) then link_windows
       else match var b "CONCORDIUM_HASKELL_ROOT" with
            | Some root => link_haskell_root root
            | None => link_discovered
            end);
  _ ← (if feature_static b then link_static_libs else mret tt);
  build_grpc2 (cargo_dir b ++ lit "/../concordium-base/concordium-grpc-api").
End script.
