(* ===== verification/BuildProps.v ===== *)
(** * Theorems on the build script

    The service that the script describes is the one that the node implements, and
    the libraries that are linked statically. *)

From stdpp Require Import base tactics list gmap strings option numbers.
From Stdlib Require Import ZArith.
From S2P Require Import Prelude Text Common IpText Helpers LowLevel Wire Conn Buckets CatchUp Queues.
From S2P Require Import Config Container GrpcTypes GrpcTransactions Bans Node Callbacks Queries Connectivity.
From S2P Require Import Consensus Handlers Maintenance Grpc WinPath Build.

(** ** The interface *)

(** The path of a method, and the method that a server made from a description
    calls for a path. *)
Definition method_path (d : ServiceDescription) (m : Method) : string :=
  "/" ++ sd_package d ++ "." ++ sd_name d ++ "/" ++ m_route_name m.
Definition dispatch (d : ServiceDescription) (path : string) : option Method :=
  List.find (fun m => String.eqb (method_path d m) path) (sd_methods d).
Definition method_named (name : string) (ms : list Method) : option Method :=
  List.find (fun m => String.eqb (m_name m) name) ms.

Lemma query_methods_distinct : NoDup (m_name <$> sd_methods query_service).
Proof. apply (bool_decide_unpack _). vm_compute. exact I. Qed.
Lemma query_paths_distinct : NoDup (method_path query_service <$> sd_methods query_service).
Proof. apply (bool_decide_unpack _). vm_compute. exact I. Qed.

Lemma dispatch_method d m :
  NoDup (method_path d <$> sd_methods d) -> m ∈ sd_methods d -> dispatch d (method_path d m) = Some m.
Proof.
  unfold dispatch. generalize (sd_methods d). induction l as [|m' l IH]; intros Hn Hm; [by apply elem_of_nil in Hm|].
  cbn [List.find]. rewrite fmap_cons in Hn. apply list.NoDup_cons in Hn as [Hm' Hn]. apply elem_of_cons in Hm as [->|Hm]; [by rewrite String.eqb_refl|].
  destruct (String.eqb_spec (method_path d m') (method_path d m)) as [E|_]; [|by apply IH].
  destruct Hm'. rewrite E. by apply list_elem_of_fmap_2.
Qed.
Lemma method_named_elem name ms m : method_named name ms = Some m -> m ∈ ms /\ m_name m = name.
Proof.
  unfold method_named. intros [Hm Hn]%List.find_some. split; [by apply list_elem_of_In|].
  by apply String.eqb_eq.
Qed.
Lemma method_unique ms m m' : NoDup (m_name <$> ms) -> m ∈ ms -> m' ∈ ms -> m_name m = m_name m' -> m = m'.
Proof.
  intros Hn Hm Hm' E. apply list_elem_of_lookup in Hm as [i Hi]. apply list_elem_of_lookup in Hm' as [j Hj].
  assert (i = j) as ->; [|congruence].
  apply (NoDup_lookup _ _ _ (m_name m) Hn); rewrite list_lookup_fmap; [by rewrite Hi|by rewrite Hj, E].
Qed.

Definition all_endpoints : list Endpoint.t :=
  [Endpoint.get_finalized_blocks; Endpoint.get_blocks; Endpoint.get_account_list;
   Endpoint.get_account_info; Endpoint.get_module_list; Endpoint.get_module_source;
   Endpoint.get_instance_list; Endpoint.get_instance_info; Endpoint.get_instance_state;
   Endpoint.instance_state_lookup; Endpoint.get_next_account_sequence_number; Endpoint.get_consensus_info;
   Endpoint.get_ancestors; Endpoint.get_block_item_status; Endpoint.invoke_instance;
   Endpoint.get_cryptographic_parameters; Endpoint.get_block_info; Endpoint.get_baker_list;
   Endpoint.get_pool_info; Endpoint.get_passive_delegation_info; Endpoint.get_blocks_at_height;
   Endpoint.get_tokenomics_info; Endpoint.get_pool_delegators; Endpoint.get_pool_delegators_reward_period;
   Endpoint.get_passive_delegators; Endpoint.get_passive_delegators_reward_period; Endpoint.get_branches;
   Endpoint.get_election_info; Endpoint.get_identity_providers; Endpoint.get_anonymity_revokers;
   Endpoint.get_account_non_finalized_transactions; Endpoint.get_block_transaction_events;
   Endpoint.get_block_special_events; Endpoint.get_block_pending_updates;
   Endpoint.get_next_update_sequence_numbers; Endpoint.get_block_chain_parameters;
   Endpoint.get_block_finalization_summary; Endpoint.shutdown; Endpoint.peer_connect;
   Endpoint.peer_disconnect; Endpoint.get_banned_peers; Endpoint.ban_peer; Endpoint.unban_peer;
   Endpoint.dump_start; Endpoint.dump_stop; Endpoint.get_peers_info; Endpoint.get_node_info;
   Endpoint.send_block_item; Endpoint.get_account_transaction_sign_hash; Endpoint.get_block_items;
   Endpoint.get_bakers_reward_period; Endpoint.get_block_certificates;
   Endpoint.get_baker_earliest_win_time; Endpoint.get_first_block_epoch; Endpoint.get_winning_bakers_epoch;
   Endpoint.dry_run].

(** An answer that is a stream. *)
Definition streamed (a : Reply) : bool :=
  match a with AStream _ | AState _ | AId _ | ADryRun _ => true | _ => false end.

Section interface.
Context `{External} `{ConsensusRuntime} `{ChainTypes} `{ConcordiumBase} `{Metadata}.
Variable ffi : ffi_call -> Runner -> Answer * Runner.
Variable rpc : RpcConfig.

Lemma reply_streamed {A} (f : A -> Reply) m s a s' (k : bool) :
  (forall x, streamed (f x) = k) -> reply f m s = Some (Ok a, s') -> streamed a = k.
Proof.
  unfold reply, mbind, M_bind, mret, M_ret. intros Hf E. destruct (m s) as [[]]; simplify_eq. apply Hf.
Qed.
Lemma serve_streamed r s a s' :
  serve ffi rpc r s = Some (Ok a, s') ->
  Some (streamed a) =
    m_server_streaming <$> method_named (Endpoint.name (endpoint_of r)) (sd_methods query_service).
Proof.
  intros E. destruct r; cbn [serve] in E;
    try (eapply reply_streamed in E; [rewrite E; vm_compute; reflexivity|by intros]).
  cbn [fst snd] in E. destruct (shutdown rpc s) as [[[]]|]; simplify_eq/=; vm_compute; reflexivity.
Qed.
Lemma endpoint_described e :
  exists m, method_named (Endpoint.name e) (sd_methods query_service) = Some m /\
    (m_client_streaming m = true <-> e = Endpoint.dry_run).
Proof. destruct e; (eexists; split; [vm_compute; reflexivity|vm_compute; split; done]). Qed.
Lemma methods_implemented m :
  m ∈ sd_methods query_service -> exists e, m_name m = Endpoint.name e.
Proof.
  intros Hm. assert (Ha : forallb (fun m => existsb (fun e => String.eqb (m_name m) (Endpoint.name e)) all_endpoints)
    (sd_methods query_service) = true) by (vm_compute; reflexivity).
  rewrite List.forallb_forall in Ha. apply list_elem_of_In, Ha, List.existsb_exists in Hm as (e & _ & E).
  exists e. by apply String.eqb_eq.
Qed.

(** The interface that the build script describes is the one that the node
    implements: each request is for the endpoint of exactly one method, which is
    the one called for its path; the answer is a stream exactly if the method is
    described as one, and only a dry run takes a stream of requests.  Conversely,
    each method that is described is an endpoint. *)
Theorem interface_served r s :
  exists m, m ∈ sd_methods query_service /\ m_name m = Endpoint.name (endpoint_of r) /\
    dispatch query_service (method_path query_service m) = Some m /\
    (forall m', m' ∈ sd_methods query_service -> m_name m' = m_name m -> m' = m) /\
    (forall a s', serve ffi rpc r s = Some (Ok a, s') -> streamed a = m_server_streaming m) /\
    (m_client_streaming m = true <-> exists id, r = ReqDryRun id) /\
    (forall m', m' ∈ sd_methods query_service -> exists e, m_name m' = Endpoint.name e).
Proof.
  destruct (endpoint_described (endpoint_of r)) as (m & Em & Hc). exists m.
  destruct (method_named_elem _ _ _ Em) as [Hm En].
  split_and!; [done|done| | | | |exact methods_implemented].
  - apply dispatch_method; [apply query_paths_distinct|done].
  - intros m' Hm' E. by apply (method_unique _ _ _ query_methods_distinct).
  - intros a s' E%serve_streamed. rewrite Em in E. simpl in E. congruence.
  - rewrite Hc. split; [|by intros [id ->]]. destruct r; try done. by eexists.
Qed.
End interface.

(** ** Static libraries *)

Lemma starts_with_true p s : starts_with p s = true <-> exists t, s = p ++ t.
Proof.
  unfold starts_with. destruct (strip_prefix p s) as [t|] eqn:E.
  - apply strip_prefix_Some in E as ->. split; [by eexists|done].
  - split; [done|]. intros [t ->]. by rewrite (proj2 (strip_prefix_Some _ _ t)) in E.
Qed.

(** What is left of the name of a library is never cut out of range. *)
Lemma static_name lib_file :
  starts_with (lit "lib") lib_file = true -> ends_with (lit ".a") lib_file = true ->
  exists name, cut_name lib_file = Ok name /\ lib_file = lit "lib" ++ name ++ lit ".a".
Proof.
  intros [t ->]%starts_with_true [u Hu]%starts_with_true. change (reverse (lit ".a")) with [97; 46] in Hu.
  apply (f_equal reverse) in Hu. rewrite reverse_involutive, reverse_app in Hu.
  change (reverse [97; 46]) with [46; 97] in Hu. change (lit "lib") with [108; 105; 98] in *.
  remember (reverse u) as v eqn:Ev. clear Ev u. destruct v as [|v0 [|v1 [|v2 v]]]; simplify_eq/=.
  exists v. change (lit ".a") with [46; 97]. split; [|done]. unfold cut_name.
  assert (Hl : length (108 :: 105 :: 98 :: v ++ [46; 97]) = (length v + 5)%nat)
    by (cbn [length]; rewrite length_app; simpl; lia).
  rewrite decide_False by (rewrite Hl; lia). f_equal. rewrite Hl. cbn [drop].
  replace (length v + 5 - 5)%nat with (length v) by lia. apply take_app_length.
Qed.

(** The libraries of a directory that are linked. *)
Definition static_names (files : list Entry) (name : text) : Prop :=
  exists e, e ∈ files /\ file_name e = lit "lib" ++ name ++ lit ".a" /\
    (starts_with (lit "libHSrts") (file_name e) = true -> contains (lit "_thr") (file_name e) = true).

Lemma link_static_spec files : forall l,
  Forall (fun e => unicode e = true) files ->
  exists names, for_each link_static files l = (Ok tt, l ++ (LinkLib Static <$> names)) /\
    forall n, n ∈ names <-> static_names files n.
Proof.
  induction files as [|e files IH]; intros l Hu.
  { exists []. rewrite app_nil_r. split; [done|]. intros n. split; [by intros ?%elem_of_nil|].
    by intros (e & ?%elem_of_nil & _). }
  apply list.Forall_cons_1 in Hu as [He Hu]. cbn [for_each]. unfold link_static at 1. rewrite He.
  destruct (links_static (file_name e)) eqn:El.
  - unfold links_static in El. apply andb_true_iff in El as [[Hs Hd]%andb_true_iff Hr].
    destruct (static_name _ Hs Hd) as (name & Ec & Ef). unfold mbind, M_bind, lift, println, modify. rewrite Ec.
    destruct (IH (l ++ [LinkLib Static name]) Hu) as (names & E & Hn). rewrite E.
    exists (name :: names). rewrite <- app_assoc. split; [done|]. intros n. rewrite elem_of_cons, Hn. split.
    + intros [->|(e' & ? & ?)]; [|exists e'; split; [by right|done]]. exists e. split; [by left|]. split; [done|].
      intros Hh. rewrite Hh in Hr. done.
    + intros (e' & [->|He']%elem_of_cons & Ef' & Hr'); [left|right; by exists e'].
      rewrite Ef in Ef'. simplify_list_eq. done.
  - unfold mret, M_ret. destruct (IH l Hu) as (names & E & Hn). rewrite E. exists names. split; [done|]. intros n. rewrite Hn. split.
    + intros (e' & ? & ?). exists e'. split; [by right|done].
    + intros (e' & [->|He']%elem_of_cons & Ef' & Hr'); [|by exists e']. exfalso.
      apply not_true_iff_false in El. apply El. unfold links_static. rewrite !andb_true_iff. split_and!.
      * apply starts_with_true. by eexists.
      * unfold ends_with. apply starts_with_true. rewrite Ef', !reverse_app. by eexists.
      * destruct (starts_with (lit "libHSrts") (file_name e)); [by rewrite Hr'|done].
Qed.

#[local] Opaque lit.
(** Of the libraries that are there exactly those are linked whose names are of the
    right form, without the single-threaded runtime. *)
Lemma static_libs_linked b l :
  (forall d, Forall (fun e => unicode e = true) (walk_dir b d)) ->
  exists out, link_static_libs b l = (Ok tt, l ++ out) /\
    forall n, LinkLib Static n ∈ out <->
      n = lit "Rcrypto" \/ n = lit "concordium_smart_contract_engine" \/
      exists sub, sub ∈ ["concordium"; "dependencies"; "ghc"]%string /\
        static_names (walk_dir b (static_path b ++ lit "/" ++ lit sub)) n.
Proof.
  intros Hu.
  assert (Hsub : forall subs l, exists out,
    for_each (fun subdir =>
      let dir := static_path b ++ lit "/" ++ lit subdir in
      _ ← println (LinkSearch true dir);
      for_each link_static (walk_dir b dir)) subs l = (Ok tt, l ++ out) /\
    forall n, LinkLib Static n ∈ out <->
      exists sub, sub ∈ subs /\ static_names (walk_dir b (static_path b ++ lit "/" ++ lit sub)) n).
  { clear l. induction subs as [|sub subs IH]; intros l.
    { exists []. rewrite app_nil_r. split; [done|]. intros n. split; [by intros ?%elem_of_nil|].
      by intros (? & ?%elem_of_nil & _). }
    cbn [for_each]. unfold println, modify, mbind, M_bind.
    destruct (link_static_spec (walk_dir b (static_path b ++ lit "/" ++ lit sub))
      (l ++ [LinkSearch true (static_path b ++ lit "/" ++ lit sub)]) (Hu _)) as (names & -> & Hn).
    edestruct IH as (out & E & Ho). unfold println, modify, mbind, M_bind in E. rewrite E.
    eexists. rewrite <- !app_assoc. split; [done|]. intros n. rewrite !elem_of_app, Ho, list_elem_of_singleton.
    rewrite (list_elem_of_fmap _ _ (LinkLib Static n)). setoid_rewrite Hn. split.
    - intros [?|[(? & [= ->] & ?)|(sub' & ? & ?)]]; [done|exists sub; by split; [left|]|].
      exists sub'. by split; [right|].
    - intros (sub' & [->|?]%elem_of_cons & ?); [right; left; by eexists|right; right; by eexists]. }
  unfold link_static_libs, mbind, M_bind, println, modify in *.
  destruct (Hsub ["concordium"; "dependencies"; "ghc"]%string l) as (out & E & Ho). rewrite E.
  eexists. rewrite <- !app_assoc. split; [done|]. intros n. rewrite elem_of_app, Ho.
  cbn [app]. rewrite !elem_of_cons, elem_of_nil. split.
  - intros [Hs|[?|[[= ->]|[[= ->]|[?|[]]]]]]; [by right; right|done|by left|by right; left|done].
  - intros [->|[->|Hs]]; [by do 2 right; left|by do 3 right; left|by left].
Qed.
