(* ===== verification/Logging.v ===== *)
(** * Logging

    The logger for the system log of macOS
    ([macos_logger_wrapper/src/lib.rs]), and how the node sets up its logger
    ([concordium-node/src/utils.rs]).  Threads log at the same time: a call is
    in several steps, as it takes and releases the lock of the table of loggers,
    and other threads may do theirs in between.  The facade [log] is as documented:
    a record reaches the logger if there is one and the level is at most the
    maximum, which is [Off] in the beginning. *)

From stdpp Require Import base tactics list gmap strings option numbers.
From Stdlib Require Import ZArith.
From S2P Require Import Prelude Text Config WinConfig.

(** ** Levels *)

(** [log::LevelFilter]: none, or a level with all that are less verbose. *)
Abbreviation LevelFilter := (option Level).
Definition level_ord (l : Level) : nat :=
  match l with LvError => 1 | LvWarn => 2 | LvInfo => 3 | LvDebug => 4 | LvTrace => 5 end.
Definition filter_ord (f : LevelFilter) : nat := match f with None => 0 | Some l => level_ord l end.
Definition level_le (l : Level) (f : LevelFilter) : bool := bool_decide (level_ord l <= filter_ord f)%nat.

(** The levels of macOS, with their values. *)
Inductive MacLevel := MacDefault | MacInfo | MacDebug | MacError | MacFault.
Definition mac_value (l : MacLevel) : Z :=
  match l with MacDefault => 0 | MacInfo => 1 | MacDebug => 2 | MacError => 16 | MacFault => 17 end.
Definition mac_level (other : Level) : MacLevel :=
  match other with
  | LvTrace => MacDebug
  | LvDebug => MacDebug
  | LvInfo => MacInfo
  | LvWarn => MacError
  | LvError => MacFault
  end.

(** ** The system log *)

(** [CString::new]: an error if there is a NUL inside. *)
Definition cstring_new (s : text) : option text := if existsb (Z.eqb 0) s then None else Some s.
Definition to_cstr (message : text) : outcome text :=
  match cstring_new (c ← message; if c =? 0 then lit "(null)" else [c]) with
  | Some s => Ok s
  | None => Panic
  end.

(** The loggers that are live, with their subsystem and category, and the entries
    that have been written: the category of the logger, the level and the message. *)
Record Syslog := mkSyslog {
  live : gmap nat (text * text);
  next_log : nat;
  entries : list (text * Z * text);
}.

(** [MacOsLog::new], its [Drop] and [MacOsLog::log_with_level].  The system always
    gives a valid logger. *)
Definition log_new (subsystem category : text) : M Syslog nat := fun y =>
  match to_cstr subsystem, to_cstr category with
  | Ok sub, Ok cat => (Ok (next_log y), mkSyslog (<[next_log y := (sub, cat)]> (live y)) (S (next_log y)) (entries y))
  | _, _ => (Panic, y)
  end.
Definition log_drop (h : nat) (y : Syslog) : Syslog := mkSyslog (delete h (live y)) (next_log y) (entries y).
Definition log_with_level (h : nat) (level : MacLevel) (msg : text) : M Syslog unit := fun y =>
  match to_cstr msg, live y !! h with
  | Ok m, Some (_, category) => (Ok tt, mkSyslog (live y) (next_log y) (entries y ++ [(category, mac_value level, m)]))
  | _, _ => (Panic, y)
  end.

(** ** The logger *)

Record MacOsLogger := mkMacOsLogger {
  loggers : gmap text (option LevelFilter * nat);
  subsystem : text;
}.

Record LogRecord := mkLogRecord { target : text; level : Level; args : text }.

(** How far a call of [log] is: before the filter of the category is read; before
    the look-up of the category; without an entry found, and the lock released;
    with a new logger, which has not written yet; and before that is inserted. *)
Inductive Call :=
| Entered (r : LogRecord)
| Checked (r : LogRecord)
| Missing (r : LogRecord)
| Made (r : LogRecord) (h : nat)
| Written (r : LogRecord) (h : nat).

(** The facade: the maximum level, the logger that is installed, and the calls of
    the threads that are logging. *)
Record Facade := mkFacade {
  max_level : LevelFilter;
  installed : option MacOsLogger;
  syslog : Syslog;
  calls : gmap nat Call;
}.
Definition facade_initial : Facade := mkFacade None None (mkSyslog ∅ 0 []) ∅.

Definition logger_new (subsystem : text) : MacOsLogger := mkMacOsLogger ∅ subsystem.
Definition level_filter (level : LevelFilter) (f : Facade) : Facade :=
  mkFacade level (installed f) (syslog f) (calls f).
(** [MacOsLogger::category_level_filter]: a logger is made in any case, and dropped
    if there is an entry. *)
Definition category_level_filter (category : text) (level : LevelFilter) (l : MacOsLogger)
    : M Syslog MacOsLogger :=
  fun y =>
  match log_new (subsystem l) category y with
  | (Ok h, y') =>
      match loggers l !! category with
      | Some (_, h0) =>
          (Ok (mkMacOsLogger (<[category := (Some level, h0)]> (loggers l)) (subsystem l)), log_drop h y')
      | None => (Ok (mkMacOsLogger (<[category := (Some level, h)]> (loggers l)) (subsystem l)), y')
      end
  | (Err e, y') => (Err e, y')
  | (Panic, y') => (Panic, y')
  end.
(** [MacOsLogger::init]: there is at most one logger. *)
Definition init (l : MacOsLogger) (f : Facade) : option Facade :=
  match installed f with
  | Some _ => None
  | None => Some (mkFacade (max_level f) (Some l) (syslog f) (calls f))
  end.

(** [MacOsLogger::enabled]. *)
Definition enabled (max : LevelFilter) (l : MacOsLogger) (target : text) (level : Level) : bool :=
  level_le level (default max (loggers l !! target ≫= fst)).

(** The steps of [MacOsLogger::log].  Reading the filter of the category; ... *)
Definition log_check (max : LevelFilter) (l : MacOsLogger) (r : LogRecord) : option Call :=
  if enabled max l (target r) (level r) then Some (Checked r) else None.
(** ... looking up its logger, which writes the message under the lock for reading,
    so that it cannot be replaced before; ... *)
Definition log_lookup (l : MacOsLogger) (r : LogRecord) : M Syslog (option Call) :=
  match loggers l !! target r with
  | Some (_, h) => _ ← log_with_level h (mac_level (level r)) (args r); mret None
  | None => mret (Some (Missing r))
  end.
(** ... making one, without the lock; writing with it; ... *)
Definition log_make (l : MacOsLogger) (r : LogRecord) : M Syslog (option Call) :=
  h ← log_new (subsystem l) (target r); mret (Some (Made r h)).
Definition log_write (r : LogRecord) (h : nat) : M Syslog (option Call) :=
  _ ← log_with_level h (mac_level (level r)) (args r); mret (Some (Written r h)).
(** ... and inserting it; a logger that was there is dropped. *)
Definition log_insert (category : text) (h : nat) (l : MacOsLogger) (y : Syslog) : MacOsLogger * Syslog :=
  (mkMacOsLogger (<[category := (None, h)]> (loggers l)) (subsystem l),
   match loggers l !! category with Some (_, h0) => log_drop h0 y | None => y end).

(** The next step of a call. *)
Definition log_next (max : LevelFilter) (l : MacOsLogger) (c : Call) (y : Syslog)
    : outcome (option Call * MacOsLogger) * Syslog :=
  match c with
  | Entered r => (Ok (log_check max l r, l), y)
  | Checked r => (c' ← log_lookup l r; mret (c', l)) y
  | Missing r => (c' ← log_make l r; mret (c', l)) y
  | Made r h => (c' ← log_write r h; mret (c', l)) y
  | Written r h => let '(l', y') := log_insert (target r) h l y in (Ok (None, l'), y')
  end.

(** A thread that is not logging calls a macro of the facade; and a thread that is
    logging does its next step. *)
Definition log_macro (t : nat) (r : LogRecord) (f : Facade) : Facade :=
  if bool_decide (is_Some (installed f)) && level_le (level r) (max_level f)
  then mkFacade (max_level f) (installed f) (syslog f) (<[t := Entered r]> (calls f))
  else f.
Definition log_advance (t : nat) : M Facade unit := fun f =>
  match calls f !! t, installed f with
  | Some c, Some l =>
      let '(o, y) := log_next (max_level f) l c (syslog f) in
      match o with
      | Ok (c', l') => (Ok tt, mkFacade (max_level f) (Some l') y (partial_alter (fun _ => c') t (calls f)))
      | Err e => (Err e, mkFacade (max_level f) (Some l) y (calls f))
      | Panic => (Panic, mkFacade (max_level f) (Some l) y (calls f))
      end
  | _, _ => (Ok tt, f)
  end.

(** Threads in any order: the records that they log, and what they lead to. *)
Inductive logs : list (nat * LogRecord) -> Facade -> Facade -> Prop :=
| logs_nil f : logs [] f f
| logs_call rs t r f f1 : logs rs f f1 -> calls f1 !! t = None -> logs (rs ++ [(t, r)]) f (log_macro t r f1)
| logs_step rs t f f1 f2 : logs rs f f1 -> log_advance t f1 = (Ok tt, f2) -> logs rs f f2.

(** ** Setting up *)

(** The libraries whose messages are not of interest. *)
Definition quiet_targets : list string := ["tokio_reactor"; "hyper"; "reqwest"; "gotham"; "h2"].

(** [setup_macos_logger]. *)
Definition verbosity (trace debug : bool) : Level := if trace then LvTrace else if debug then LvDebug else LvInfo.
Fixpoint add_filters (targets : list string) (l : MacOsLogger) : M Syslog MacOsLogger :=
  match targets with
  | [] => mret l
  | t :: targets' => l' ← category_level_filter (lit t) (Some LvError) l; add_filters targets' l'
  end.
Definition setup_macos_logger (trace debug : bool) (subsystem : text) : M Facade unit := fun f =>
  let f1 := level_filter (Some (verbosity trace debug)) f in
  match add_filters quiet_targets (logger_new subsystem) (syslog f1) with
  | (Ok l, y) =>
      match init l (mkFacade (max_level f1) (installed f1) y (calls f1)) with
      | Some f2 => (Ok tt, f2)
      | None => (Panic, f1)
      end
  | (Err e, y) => (Err e, f1)
  | (Panic, y) => (Panic, f1)
  end.

(** [setup_logger]: what the builder is told; the specification is the variable
    [LOG_LEVEL], if it is set. *)
Record LoggerSetup := mkLoggerSetup {
  ls_spec : text;
  ls_timestamps : bool;
  ls_filters : list (string * LevelFilter);
}.
Definition setup_logger (log_level : option text) (trace debug no_log_timestamp : bool) : LoggerSetup :=
  mkLoggerSetup
    (default (lit (if trace then "trace" else if debug then "debug" else "info")) log_level)
    (negb no_log_timestamp)
    ((fun t => (t, Some LvError)) <$> quiet_targets).

(** [get_config_and_logging_setup]: what is logged before and after a logger is set
    up, and which one; [init_file] is that of [log4rs], which is unwrapped. *)
Inductive ChosenLogger := MacLog (subsystem : text) (l : Level) | EnvLog (s : LoggerSetup) | FileLog (path : text).
Inductive SetupStep := LogsConfig | SetsUp (l : ChosenLogger) | LogsStart (log_level : string).
Definition choose_logger (macos : bool) (use_mac_log : option text) (log_level : option text) (c : CommonConfig)
    : ChosenLogger :=
  let env_log := EnvLog (setup_logger log_level (log_trace c) (log_debug c) (no_log_timestamp c)) in
  if macos then
    match use_mac_log with
    | Some subsystem => MacLog subsystem (verbosity (log_trace c) (log_debug c))
    | None => env_log
    end
  else match log_config c with Some path => FileLog path | None => env_log end.
Definition get_config_and_logging_setup (macos : bool) (use_mac_log log_level : option text)
    (init_file : text -> bool) (config : outcome CommonConfig) (preferences : CommonConfig -> outcome unit)
    : M (list SetupStep) CommonConfig :=
  conf ← lift config;
  _ ← lift (preferences conf);
  _ ← (if print_config conf then modify (fun l => l ++ [LogsConfig]) else mret tt);
  let chosen := choose_logger macos use_mac_log log_level conf in
  _ ← lift (match chosen with FileLog path => if init_file path then Ok tt else Panic | _ => Ok tt end);
  _ ← modify (fun l => l ++ [SetsUp chosen]);
  _ ← modify (fun l => l ++ [LogsStart (if log_trace conf then "trace" else if log_debug conf then "debug"
                                       else "info")]);
  mret conf.
