(* ===== verification/LoggingProps.v ===== *)
(** * Theorems on logging

    Every message that is to be shown is written once to the system log, under its
    category, however threads interleave; and no logger is lost. *)

From stdpp Require Import base tactics list gmap strings option numbers.
From Stdlib Require Import ZArith.
From S2P Require Import Prelude Text Config WinConfig Logging.

(** ** Strings *)

Definition cstr (s : text) : text := c ← s; if c =? 0 then lit "(null)" else [c].
(** A string without NULs is always made. *)
Lemma to_cstr_ok s : to_cstr s = Ok (cstr s).
Proof.
  unfold to_cstr, cstring_new. change (c ← s; if c =? 0 then lit "(null)" else [c]) with (cstr s).
  assert (E : existsb (Z.eqb 0) (cstr s) = false); [|by rewrite E].
  apply not_true_iff_false. rewrite List.existsb_exists. intros (c & Hc & E). apply Z.eqb_eq in E. subst c.
  apply list_elem_of_In, list_elem_of_bind in Hc as (c & Hc & _). destruct (Z.eqb_spec c 0) as [_|Hn].
  - revert Hc. apply (bool_decide_unpack (0 ∉ lit "(null)")). vm_compute. exact I.
  - apply list_elem_of_singleton in Hc. congruence.
Qed.

(** ** Loggers *)

(** The filter of a category. *)
Definition filters (l : MacOsLogger) (c : text) : option LevelFilter := loggers l !! c ≫= fst.

(** Each logger that is live belongs to one category, or is still to be inserted by
    a thread: [pend] tells which logger a thread has made, and for which category. *)
Record inv (l : MacOsLogger) (pend : nat -> option (text * nat)) (y : Syslog) : Prop := {
  inv_map c fl h : loggers l !! c = Some (fl, h) -> live y !! h = Some (cstr (subsystem l), cstr c);
  inv_pend t c h : pend t = Some (c, h) -> live y !! h = Some (cstr (subsystem l), cstr c);
  inv_inj c c' fl fl' h : loggers l !! c = Some (fl, h) -> loggers l !! c' = Some (fl', h) -> c = c';
  inv_disj c fl h t c' : loggers l !! c = Some (fl, h) -> pend t <> Some (c', h);
  inv_pend_inj t t' c c' h : pend t = Some (c, h) -> pend t' = Some (c', h) -> t = t';
  inv_live h : is_Some (live y !! h) ->
    (exists c fl, loggers l !! c = Some (fl, h)) \/ exists t c, pend t = Some (c, h);
  inv_next h : is_Some (live y !! h) -> (h < next_log y)%nat;
}.

Definition with_log (sub c : text) (y : Syslog) : Syslog :=
  mkSyslog (<[next_log y := (cstr sub, cstr c)]> (live y)) (S (next_log y)) (entries y).
Lemma log_new_ok sub c y : log_new sub c y = (Ok (next_log y), with_log sub c y).
Proof. unfold log_new. by rewrite !to_cstr_ok. Qed.

Lemma inv_fresh l pend y : inv l pend y -> live y !! next_log y = None.
Proof.
  intros Hi. destruct (live y !! next_log y) eqn:E; [|done]. exfalso.
  pose proof (inv_next _ _ _ Hi (next_log y) ltac:(rewrite E; by eexists)). lia.
Qed.
(** A thread has made a new logger. *)
Definition set_pend (t : nat) (o : option (text * nat)) (pend : nat -> option (text * nat)) : nat -> option (text * nat) :=
  fun t' => if decide (t' = t) then o else pend t'.
Lemma inv_ext l pend pend' y : (forall t, pend' t = pend t) -> inv l pend y -> inv l pend' y.
Proof.
  intros E []. split; try done; intros *; rewrite ?E; try done; eauto.
  intros [?|(t & c & ?)]%inv_live0; [by left|]. right. exists t, c. by rewrite E.
Qed.
Lemma inv_new l pend y t c :
  inv l pend y -> pend t = None -> inv l (set_pend t (Some (c, next_log y)) pend) (with_log (subsystem l) c y).
Proof.
  intros Hi Hno. pose proof (inv_fresh _ _ _ Hi) as Hf.
  assert (Hne : forall h v, live y !! h = Some v -> next_log y <> h) by (intros h v E <-; congruence).
  unfold set_pend. split; simpl.
  - intros c' fl h E. pose proof (inv_map _ _ _ Hi _ _ _ E) as El. by rewrite lookup_insert_ne by eauto.
  - intros t' c' h. destruct (decide (t' = t)) as [->|]; [intros [= <- <-]; by rewrite lookup_insert_eq|].
    intros E. pose proof (inv_pend _ _ _ Hi _ _ _ E) as El. by rewrite lookup_insert_ne by eauto.
  - apply (inv_inj _ _ _ Hi).
  - intros c' fl h t' c2 E. pose proof (inv_map _ _ _ Hi _ _ _ E) as El.
    destruct (decide (t' = t)) as [->|]; [|by eapply (inv_disj _ _ _ Hi)]. intros [= -> <-]. by apply Hne in El.
  - intros t1 t2 c1 c2 h. destruct (decide (t1 = t)) as [->|], (decide (t2 = t)) as [->|]; [done| | |apply (inv_pend_inj _ _ _ Hi)].
    + intros [= <- <-] E. by apply (inv_pend _ _ _ Hi) in E as ?%Hne.
    + intros E [= <- <-]. by apply (inv_pend _ _ _ Hi) in E as ?%Hne.
  - intros h [<-|[_ Hl]]%lookup_insert_is_Some; [right; exists t, c; by rewrite decide_True|].
    destruct (inv_live _ _ _ Hi h Hl) as [?|(t' & c' & E)]; [by left|]. right. exists t', c'.
    rewrite decide_False; [done|]. congruence.
  - intros h [<-|[_ Hl]]%lookup_insert_is_Some; [lia|]. pose proof (inv_next _ _ _ Hi h Hl). lia.
Qed.

(** A logger that is inserted replaces that of its category, which is dropped. *)
Definition replaced (l : MacOsLogger) (c : text) (y : Syslog) : Syslog :=
  match loggers l !! c with Some (_, h0) => log_drop h0 y | None => y end.
Lemma replaced_lookup l c y h :
  live (replaced l c y) !! h = match loggers l !! c with Some (_, h0) => if decide (h = h0) then None else live y !! h | None => live y !! h end.
Proof.
  unfold replaced. destruct (loggers l !! c) as [[fl h0]|]; [|done]. simpl.
  destruct (decide (h = h0)) as [->|Hn]; [apply lookup_delete_eq|by rewrite lookup_delete_ne].
Qed.
Lemma replaced_next l c y : next_log (replaced l c y) = next_log y /\ entries (replaced l c y) = entries y.
Proof. unfold replaced. by destruct (loggers l !! c) as [[]|]. Qed.

Lemma inv_insert l pend t c h y fl :
  inv l pend y -> pend t = Some (c, h) ->
  inv (mkMacOsLogger (<[c := (fl, h)]> (loggers l)) (subsystem l)) (set_pend t None pend) (replaced l c y).
Proof.
  intros Hi Hc. unfold set_pend.
  assert (Hsub : forall t' x, (if decide (t' = t) then None else pend t') = Some x -> pend t' = Some x /\ t' <> t)
    by (intros t' x; by destruct (decide _)).
  split; cbn [loggers subsystem].
  - intros c' fl' h' [[<- [= <- <-]]|[Hn E]]%lookup_insert_Some; rewrite replaced_lookup.
    + pose proof (inv_pend _ _ _ Hi _ _ _ Hc) as El. destruct (loggers l !! c) as [[f0 h0]|] eqn:E0; [|done].
      rewrite decide_False; [done|]. intros ->. by apply (inv_disj _ _ _ Hi _ _ _ t c E0).
    + pose proof (inv_map _ _ _ Hi _ _ _ E) as El. destruct (loggers l !! c) as [[f0 h0]|] eqn:E0; [|done].
      rewrite decide_False; [done|]. intros ->. by apply Hn, (inv_inj _ _ _ Hi _ _ _ _ _ E0 E).
  - intros t' c' h' [Hp _]%Hsub. rewrite replaced_lookup. pose proof (inv_pend _ _ _ Hi _ _ _ Hp) as El.
    destruct (loggers l !! c) as [[f0 h0]|] eqn:E0; [|done].
    rewrite decide_False; [done|]. intros ->. by apply (inv_disj _ _ _ Hi _ _ _ t' c' E0).
  - intros c1 c2 f1 f2 h' [[<- [= <- <-]]|[Hn1 E1]]%lookup_insert_Some [[<- E2]|[Hn2 E2]]%lookup_insert_Some;
      [done| | |by eapply (inv_inj _ _ _ Hi)].
    + by destruct (inv_disj _ _ _ Hi _ _ _ t c E2).
    + simplify_eq. by destruct (inv_disj _ _ _ Hi _ _ _ t c E1).
  - intros c1 f1 h' t' c' [[<- [= <- <-]]|[Hn1 E1]]%lookup_insert_Some [Hp Ht]%Hsub.
    + by apply Ht, (inv_pend_inj _ _ _ Hi _ _ _ _ _ Hp Hc).
    + by apply (inv_disj _ _ _ Hi _ _ _ t' c' E1).
  - intros t1 t2 c1 c2 h' [H1 _]%Hsub [H2 _]%Hsub. by eapply (inv_pend_inj _ _ _ Hi).
  - intros h' Hl. rewrite replaced_lookup in Hl.
    assert (Hly : is_Some (live y !! h') /\ forall f0, loggers l !! c <> Some (f0, h')).
    { destruct (loggers l !! c) as [[f0 h0]|]; [|done]. destruct (decide (h' = h0)); [by destruct Hl|].
      split; [done|]. intros f1 [= _ ?]. done. }
    destruct Hly as [Hly Hne]. destruct (inv_live _ _ _ Hi h' Hly) as [(c1 & f1 & E)|(t1 & c1 & Hp)].
    + left. exists c1, f1. rewrite lookup_insert_ne; [done|]. intros <-. by apply (Hne f1).
    + destruct (decide (t1 = t)) as [->|]; [|right; exists t1, c1; by rewrite decide_False].
      left. exists c, fl. rewrite Hc in Hp. simplify_eq. apply lookup_insert_eq.
  - intros h' Hl. rewrite (proj1 (replaced_next l c y)). apply (inv_next _ _ _ Hi).
    rewrite replaced_lookup in Hl. destruct (loggers l !! c) as [[f0 h0]|]; [|done].
    destruct (decide (h' = h0)); [by destruct Hl|done].
Qed.

(** ** Operations *)

Lemma filters_insert l c c' fl h :
  filters (mkMacOsLogger (<[c := (fl, h)]> (loggers l)) (subsystem l)) c'
  = if decide (c' = c) then fl else filters l c'.
Proof.
  unfold filters. simpl. destruct (decide (c' = c)) as [->|Hn]; [by rewrite lookup_insert_eq|].
  by rewrite lookup_insert_ne.
Qed.

(** The same loggers are live. *)
Lemma inv_same l l' pend y y' :
  (forall c, snd <$> loggers l' !! c = snd <$> loggers l !! c) -> subsystem l' = subsystem l ->
  live y' = live y -> (next_log y <= next_log y')%nat -> inv l pend y -> inv l' pend y'.
Proof.
  intros Hl Hs Hlive Hn Hi.
  assert (Hto : forall c fl h, loggers l' !! c = Some (fl, h) -> exists fl0, loggers l !! c = Some (fl0, h)).
  { intros c fl h E. specialize (Hl c). rewrite E in Hl. destruct (loggers l !! c) as [[fl0 h0]|]; simplify_eq/=. by eexists. }
  split; rewrite ?Hs, ?Hlive.
  - intros c fl h (fl0 & E)%Hto. by eapply inv_map.
  - apply Hi.
  - intros c c' fl fl' h (f1 & E1)%Hto (f2 & E2)%Hto. by eapply (inv_inj _ _ _ Hi).
  - intros c fl h t c' (f1 & E1)%Hto. by eapply inv_disj.
  - apply Hi.
  - intros h [(c & fl & E)|?]%(inv_live _ _ _ Hi); [|by right]. left. exists c. specialize (Hl c).
    rewrite E in Hl. destruct (loggers l' !! c) as [[fl0 h0]|]; simplify_eq/=. by eexists.
  - intros h Hh%(inv_next _ _ _ Hi). lia.
Qed.

Lemma category_level_filter_ok c level l y :
  inv l (fun _ => None) y ->
  exists l' y', category_level_filter c level l y = (Ok l', y') /\ inv l' (fun _ => None) y' /\
    subsystem l' = subsystem l /\ entries y' = entries y /\
    forall c', filters l' c' = if decide (c' = c) then Some level else filters l c'.
Proof.
  intros Hi. unfold category_level_filter. rewrite log_new_ok. destruct (loggers l !! c) as [[fl h0]|] eqn:E.
  - eexists _, _. split; [done|]. split; [|split_and!; [done..|intros c'; apply filters_insert]].
    apply (inv_same l _ _ y); [|done| |simpl; lia|done]; simpl.
    + intros c'. destruct (decide (c' = c)) as [->|]; [by rewrite lookup_insert_eq, E|by rewrite lookup_insert_ne].
    + rewrite delete_insert_id; [done|]. by apply (inv_fresh l (fun _ => None)).
  - eexists _, _. split; [done|]. split; [|split_and!; [done..|intros c'; apply filters_insert]].
    pose proof (inv_insert l _ 0 c (next_log y) _ (Some level) (inv_new _ _ _ 0 c Hi eq_refl) eq_refl) as Hi'.
    unfold replaced in Hi'. rewrite E in Hi'. eapply inv_ext; [|exact Hi'].
    intros t. unfold set_pend. by destruct (decide _).
Qed.
Lemma add_filters_ok targets : forall l y,
  inv l (fun _ => None) y ->
  exists l' y', add_filters targets l y = (Ok l', y') /\ inv l' (fun _ => None) y' /\
    subsystem l' = subsystem l /\ entries y' = entries y /\
    forall c, filters l' c = if decide (c ∈ lit <$> targets) then Some (Some LvError) else filters l c.
Proof.
  induction targets as [|t targets IH]; intros l y Hi; cbn [add_filters].
  { eexists _, _. split_and!; [done..|]. intros c. by rewrite decide_False by set_solver. }
  unfold mbind, M_bind. destruct (category_level_filter_ok (lit t) (Some LvError) l y Hi)
    as (l1 & y1 & -> & Hi1 & Es1 & Ee1 & Hf1).
  destruct (IH l1 y1 Hi1) as (l' & y' & -> & Hi' & Es & Ee & Hf).
  eexists _, _. split_and!; [done|done|congruence|congruence|]. intros c. rewrite Hf, Hf1.
  repeat destruct (decide _); set_solver.
Qed.

(** ** Messages *)

Definition entry_of (r : LogRecord) : text * Z * text := (cstr (target r), mac_value (mac_level (level r)), cstr (args r)).
Lemma log_with_level_ok h l msg sub c y :
  live y !! h = Some (sub, c) ->
  log_with_level h l msg y = (Ok tt, mkSyslog (live y) (next_log y) (entries y ++ [(c, mac_value l, cstr msg)])).
Proof. intros E. unfold log_with_level. by rewrite to_cstr_ok, E. Qed.


(** A record that is to be shown, with the filters of categories. *)
Definition shown (max : LevelFilter) (flt : text -> option LevelFilter) (r : LogRecord) : bool :=
  level_le (level r) max && level_le (level r) (default max (flt (target r))).

(** What a call has made, what holds at each of its steps, what it has still to
    write, and how many steps it takes at most. *)
Definition made_by (c : Call) : option (text * nat) :=
  match c with Made r h | Written r h => Some (target r, h) | _ => None end.
Definition call_ok (max : LevelFilter) (flt : text -> option LevelFilter) (c : Call) : Prop :=
  match c with
  | Entered r => level_le (level r) max = true
  | Checked r => shown max flt r = true
  | Missing r | Made r _ => shown max flt r = true /\ flt (target r) = None
  | Written r _ => flt (target r) = None
  end.
Definition to_write (max : LevelFilter) (flt : text -> option LevelFilter) (o : option Call) : list LogRecord :=
  match o with
  | Some (Entered r) => if shown max flt r then [r] else []
  | Some (Checked r) | Some (Missing r) | Some (Made r _) => [r]
  | Some (Written _ _) | None => []
  end.
Definition steps_left (o : option Call) : nat :=
  match o with
  | Some (Entered _) => 5 | Some (Checked _) => 4 | Some (Missing _) => 3
  | Some (Made _ _) => 2 | Some (Written _ _) => 1 | None => 0
  end.

Lemma inv_unchanged l pend y t o : pend t = o -> inv l pend y -> inv l (set_pend t o pend) y.
Proof. intros Ht. apply inv_ext. intros t'. unfold set_pend. by destruct (decide (t' = t)) as [->|]. Qed.
Lemma inv_entries l pend y es : inv l pend y -> inv l pend (mkSyslog (live y) (next_log y) es).
Proof. by apply inv_same. Qed.

Lemma log_next_ok max flt l pend y t c :
  inv l pend y -> pend t = made_by c -> (forall x, filters l x = flt x) -> call_ok max flt c ->
  exists c' l' y' w, log_next max l c y = (Ok (c', l'), y') /\
    inv l' (set_pend t (c' ≫= made_by) pend) y' /\ (forall x, filters l' x = flt x) /\
    (forall c1, c' = Some c1 -> call_ok max flt c1) /\ (steps_left c' < steps_left (Some c))%nat /\
    entries y' = entries y ++ (entry_of <$> w) /\ to_write max flt (Some c) = w ++ to_write max flt c'.
Proof.
  intros Hi Hp Hf Hok. destruct c as [r|r|r|r h|r h]; cbn [log_next made_by call_ok to_write] in *.
  - unfold log_check, enabled. fold (filters l (target r)). rewrite Hf. unfold shown. rewrite Hok.
    destruct (level_le (level r) (default max _)) eqn:E; cbn [andb].
    + exists (Some (Checked r)), l, y, []. split_and!; [done|by apply inv_unchanged|done| |simpl; lia|by rewrite app_nil_r|done].
      intros c1 [= <-]. simpl. unfold shown. by rewrite Hok, E.
    + exists None, l, y, []. split_and!; [done|by apply inv_unchanged|done|done|simpl; lia|by rewrite app_nil_r|done].
  - unfold log_lookup, mbind, M_bind, mret, M_ret. destruct (loggers l !! target r) as [[fl h]|] eqn:E.
    + rewrite (log_with_level_ok _ _ _ _ _ _ (inv_map _ _ _ Hi _ _ _ E)).
      eexists None, l, _, [r]. split_and!; [done| |done|done|simpl; lia|done|done].
      by apply inv_unchanged, inv_entries.
    + exists (Some (Missing r)), l, y, []. split_and!; [done|by apply inv_unchanged|done| |simpl; lia|by rewrite app_nil_r|done].
      intros c1 [= <-]. split; [done|]. rewrite <- Hf. unfold filters. by rewrite E.
  - unfold log_make, mbind, M_bind, mret, M_ret. rewrite log_new_ok.
    eexists (Some (Made r _)), l, _, []. split_and!; [done|by apply inv_new|done| |simpl; lia|by rewrite app_nil_r|done].
    by intros c1 [= <-].
  - unfold log_write, mbind, M_bind, mret, M_ret. rewrite (log_with_level_ok _ _ _ _ _ _ (inv_pend _ _ _ Hi _ _ _ Hp)).
    eexists (Some (Written r h)), l, _, [r]. split_and!; [done| |done| |simpl; lia|done|done].
    + by apply inv_unchanged, inv_entries.
    + intros c1 [= <-]. apply Hok.
  - unfold log_insert. fold (replaced l (target r) y). eexists None, _, _, [].
    split_and!; [done|by apply inv_insert| |done|simpl; lia| |done].
    + intros x. rewrite filters_insert. destruct (decide (x = target r)) as [->|]; [by rewrite Hok|done].
    + rewrite app_nil_r. apply replaced_next.
Qed.

(** The state of the facade, with a logger with given filters. *)
Definition pend_of (cs : gmap nat Call) (t : nat) : option (text * nat) := cs !! t ≫= made_by.
Record facade_ok (max : LevelFilter) (flt : text -> option LevelFilter) (f : Facade) : Prop := {
  ok_max : max_level f = max;
  ok_logger : exists l, installed f = Some l /\ inv l (pend_of (calls f)) (syslog f) /\ forall c, filters l c = flt c;
  ok_calls t c : calls f !! t = Some c -> call_ok max flt c;
}.

Lemma pend_of_alter cs t o t' : pend_of (partial_alter (fun _ => o) t cs) t' = set_pend t (o ≫= made_by) (pend_of cs) t'.
Proof.
  unfold pend_of, set_pend. destruct (decide (t' = t)) as [->|]; [by rewrite lookup_partial_alter_eq|].
  by rewrite lookup_partial_alter_ne.
Qed.

Lemma log_advance_ok max flt f t c :
  facade_ok max flt f -> calls f !! t = Some c ->
  exists f' w, log_advance t f = (Ok tt, f') /\ facade_ok max flt f' /\
    (steps_left (calls f' !! t) < steps_left (Some c))%nat /\
    (forall t', t' <> t -> calls f' !! t' = calls f !! t') /\
    entries (syslog f') = entries (syslog f) ++ (entry_of <$> w) /\
    to_write max flt (Some c) = w ++ to_write max flt (calls f' !! t).
Proof.
  intros [Hm (l & El & Hi & Hf) Hc] Et. unfold log_advance. rewrite Et, El, Hm.
  destruct (log_next_ok max flt l _ _ t c Hi) as (c' & l' & y' & w & -> & Hi' & Hf' & Hok' & Hs & He & Hw);
    [unfold pend_of; by rewrite Et|done|by eapply Hc|].
  eexists _, w. split; [done|]. cbn [calls syslog]. rewrite lookup_partial_alter_eq.
  split_and!; [|done| |done|done].
  - split; [done| |].
    + exists l'. split; [done|]. split; [|done]. eapply inv_ext; [apply pend_of_alter|done].
    + cbn [calls]. intros t' c1. destruct (decide (t' = t)) as [->|].
      * rewrite lookup_partial_alter_eq. apply Hok'.
      * rewrite lookup_partial_alter_ne by done. apply Hc.
  - intros t' Ht. by rewrite lookup_partial_alter_ne by done.
Qed.

(** The records of a thread. *)
Definition records (t : nat) (rs : list (nat * LogRecord)) : list LogRecord := (filter (fun e => e.1 = t) rs).*2.
Lemma records_app t rs rs' : records t (rs ++ rs') = records t rs ++ records t rs'.
Proof. unfold records. by rewrite list.filter_app, fmap_app. Qed.
Lemma records_same t t' (w : list LogRecord) : records t ((t',.) <$> w) = if decide (t' = t) then w else [].
Proof.
  unfold records. induction w as [|r w IH]; [by destruct (decide _)|]. cbn [fmap list_fmap].
  rewrite list.filter_cons. cbn [fst]. destruct (decide (t' = t)); [|done]. cbn [fmap list_fmap snd]. by f_equal.
Qed.

(** [ws] is what has been written, thread by thread in the order of the calls. *)
Definition written (max : LevelFilter) (flt : text -> option LevelFilter) (rs ws : list (nat * LogRecord)) (f : Facade) : Prop :=
  forall t, records t ws ++ to_write max flt (calls f !! t) = filter (fun r => shown max flt r = true) (records t rs).

Lemma log_macro_ok max flt f t r rs ws :
  facade_ok max flt f -> calls f !! t = None -> written max flt rs ws f ->
  facade_ok max flt (log_macro t r f) /\ syslog (log_macro t r f) = syslog f /\
  written max flt (rs ++ [(t, r)]) ws (log_macro t r f).
Proof.
  intros Hok Et Hw. pose proof Hok as [Hm (l & El & Hi & Hf) Hc]. unfold log_macro. rewrite El, Hm. simpl.
  assert (Hrec : forall t', filter (fun r => shown max flt r = true) (records t' (rs ++ [(t, r)])) =
    filter (fun r => shown max flt r = true) (records t' rs) ++
    if decide (t = t') then if shown max flt r then [r] else [] else []).
  { intros t'. rewrite records_app. change [(t, r)] with ((t,.) <$> [r]). rewrite records_same, list.filter_app.
    f_equal. destruct (decide (t = t')); [|done]. rewrite list.filter_cons. by destruct (shown max flt r). }
  destruct (level_le (level r) max) eqn:Ele.
  - split_and!; [|done|].
    + split; [done| |].
      * exists l. split; [done|]. split; [|done]. eapply inv_ext; [|exact Hi]. intros t'. unfold pend_of. cbn [calls].
        destruct (decide (t' = t)) as [->|]; [by rewrite lookup_insert_eq, Et|by rewrite lookup_insert_ne].
      * cbn [calls]. intros t' c [[<- <-]|[_ E]]%lookup_insert_Some; [done|by eapply Hc].
    + intros t'. rewrite Hrec, <- Hw. cbn [calls]. destruct (decide (t = t')) as [<-|Hn].
      * by rewrite lookup_insert_eq, Et, app_nil_r.
      * by rewrite lookup_insert_ne, app_nil_r.
  - split_and!; [done..|]. intros t'. rewrite Hrec, <- Hw. unfold shown. rewrite Ele. cbn [andb].
    destruct (decide _); by rewrite app_nil_r.
Qed.

Lemma logs_ok max flt rs f f' :
  facade_ok max flt f -> calls f = ∅ -> logs rs f f' ->
  facade_ok max flt f' /\
  exists ws, entries (syslog f') = entries (syslog f) ++ (entry_of <$> ws.*2) /\ written max flt rs ws f'.
Proof.
  intros Hok He. induction 1 as [f|rs t r f f1 _ IH Et|rs t f f1 f2 _ IH E].
  - split; [done|]. exists []. rewrite app_nil_r. split; [done|]. intros t. by rewrite He, lookup_empty.
  - destruct (IH Hok He) as [Hok1 (ws & Hent & Hw)].
    destruct (log_macro_ok _ _ _ t r _ _ Hok1 Et Hw) as (Hok2 & Es & Hw2). split; [done|]. exists ws. by rewrite Es.
  - destruct (IH Hok He) as [Hok1 (ws & Hent & Hw)]. destruct (calls f1 !! t) as [c|] eqn:Et.
    2: { unfold log_advance in E. rewrite Et in E. simplify_eq. split; [done|]. by exists ws. }
    destruct (log_advance_ok _ _ _ _ _ Hok1 Et) as (f' & w & E' & Hok2 & _ & Ho & Hent2 & Htw).
    rewrite E in E'. simplify_eq. split; [done|]. exists (ws ++ ((t,.) <$> w)). split.
    + assert (Ew : ((t,.) <$> w).*2 = w) by (rewrite <- list_fmap_compose; apply list_fmap_id).
      by rewrite Hent2, Hent, !fmap_app, Ew, app_assoc.
    + intros t'. rewrite <- Hw, records_app, records_same, <- app_assoc. f_equal.
      destruct (decide (t = t')) as [<-|Hn]; [by rewrite Et, Htw|]. by rewrite Ho by auto.
Qed.

(** C40: the node's logger for macOS.  It is always set up.  From then on, whatever
    threads log, and however the steps of their calls interleave, every message of a
    level that is asked for is written exactly once to the system log, under its
    category and at the corresponding level, except those of some libraries that are
    not errors: what has been written is, thread by thread, what the thread has
    logged, in that order, but for the message of its present call if that is not
    written yet.  No step panics, and a call ends after at most five steps.  Once all
    calls have ended there is one live logger for each category, and no other. *)
Theorem mac_log_complete trace debug sub :
  let wanted r := level_le (level r) (Some (verbosity trace debug)) &&
    (level_le (level r) (Some LvError) || negb (bool_decide (target r ∈ lit <$> quiet_targets))) in
  exists f0, setup_macos_logger trace debug sub facade_initial = (Ok tt, f0) /\ calls f0 = ∅ /\
    forall rs f, logs rs f0 f ->
      (exists ws, entries (syslog f) = entry_of <$> ws.*2 /\
         forall t, exists rest, records t ws ++ rest = filter (fun r => wanted r = true) (records t rs) /\
           (length rest <= 1)%nat /\ (calls f !! t = None -> rest = [])) /\
      (forall t c, calls f !! t = Some c ->
         exists f', log_advance t f = (Ok tt, f') /\ (steps_left (calls f' !! t) < steps_left (Some c) <= 5)%nat /\
           forall t', t' <> t -> calls f' !! t' = calls f !! t') /\
      (calls f = ∅ -> exists l, installed f = Some l /\
         forall h, is_Some (live (syslog f) !! h) <-> exists c fl, loggers l !! c = Some (fl, h)).
Proof.
  intros wanted.
  assert (Hi0 : inv (logger_new sub) (fun _ => None) (mkSyslog ∅ 0 [])).
  { split; simpl; intros *; rewrite ?lookup_empty; try done; by intros []. }
  unfold setup_macos_logger. cbn [level_filter facade_initial syslog].
  destruct (add_filters_ok quiet_targets (logger_new sub) _ Hi0) as (l & y & -> & Hi & _ & Ee & Hf).
  cbn [max_level installed calls init]. eexists. split; [reflexivity|]. split; [done|]. intros rs f Hlogs.
  set (flt c := if decide (c ∈ lit <$> quiet_targets) then Some (Some LvError) else None : option LevelFilter).
  assert (Hok0 : facade_ok (Some (verbosity trace debug)) flt
    (mkFacade (Some (verbosity trace debug)) (Some l) y ∅)).
  { split; [done| |done]. exists l. split; [done|]. split; [done|].
    intros c. rewrite Hf. unfold flt. by destruct (decide _). }
  destruct (logs_ok _ _ _ _ _ Hok0 eq_refl Hlogs) as [Hok (ws & Hent & Hw)]. cbn [syslog] in Hent. rewrite Ee in Hent.
  assert (Hwanted : forall r, shown (Some (verbosity trace debug)) flt r = wanted r).
  { intros r. unfold wanted, shown, flt.
    destruct (decide (target r ∈ lit <$> quiet_targets)) as [Hin|Hin]; cbn [default].
    - by rewrite (bool_decide_eq_true_2 _ Hin), orb_false_r.
    - rewrite (bool_decide_eq_false_2 _ Hin), orb_true_r. by destruct (level_le _ (Some (verbosity _ _))). }
  split_and!.
  - exists ws. split; [done|]. intros t. eexists. split; [|split].
    + etrans; [apply (Hw t)|]. apply list_filter_iff. intros r. by rewrite Hwanted.
    + destruct (calls f !! t) as [[]|]; simpl; try case_match; simpl; lia.
    + by intros ->.
  - intros t c Et. destruct (log_advance_ok _ _ _ _ _ Hok Et) as (f' & _ & E & _ & Hs & Ho & _).
    exists f'. split_and!; [done..| |done]. destruct c; simpl; lia.
  - intros Hp. destruct Hok as [_ (l' & El & Hi' & _) _]. exists l'. split; [done|].
    assert (Hnone : forall t, pend_of (calls f) t = None) by (intros t; by rewrite Hp; unfold pend_of; rewrite lookup_empty).
    intros h. split.
    + intros [?|(t & c & E)]%(inv_live _ _ _ Hi'); [done|]. by rewrite Hnone in E.
    + intros (c & fl & E). rewrite (inv_map _ _ _ Hi' _ _ _ E). by eexists.
Qed.

(** ** What is not logged *)

(** A filter of a category that is more verbose than the default has no effect,
    though it is meant to override it. *)
Lemma verbose_category_hidden max flt r :
  (filter_ord max < level_ord (level r))%nat -> shown max flt r = false.
Proof. intros Hl. unfold shown, level_le at 1. by rewrite bool_decide_eq_false_2 by lia. Qed.
(** If no default is set nothing is logged. *)
Lemma no_default_logs_nothing l y cs t r :
  log_macro t r (mkFacade (max_level facade_initial) (Some l) y cs)
  = mkFacade (max_level facade_initial) (Some l) y cs.
Proof. unfold log_macro. simpl. by destruct (level r). Qed.

(** What is printed of the configuration is logged before there is a logger. *)
Lemma config_logged_too_early macos use_mac_log log_level init_file conf preferences l :
  print_config conf = true -> preferences conf = Ok tt ->
  get_config_and_logging_setup macos use_mac_log log_level init_file (Ok conf) preferences [] = (Ok conf, l) ->
  exists chosen start, l = [LogsConfig; SetsUp chosen; LogsStart start].
Proof.
  intros Hp Hpref. unfold get_config_and_logging_setup, mbind, M_bind, lift, modify. rewrite Hpref, Hp.
  destruct (match choose_logger _ _ _ _ with FileLog _ => _ | _ => _ end) as [[]| |]; [|done..].
  unfold mret, M_ret. intros [= <-]. simpl. eauto.
Qed.
