(* ===== verification/Boot.v ===== *)
(** * The bootstrapper and the bootstrap checker

    The binaries [concordium-node/src/bin/bootstrapper.rs] and
    [concordium-node/src/bin/bootstrap_checker.rs]: nodes without a consensus layer,
    of which the first helps others to find peers and the second raises an alarm if
    it finds none.  How a node's threads are joined
    ([concordium-node/src/p2p/maintenance.rs]), and the server for metrics
    ([concordium-node/src/stats_export_service.rs]). *)

From stdpp Require Import base tactics list gmap strings option numbers.
From Stdlib Require Import ZArith.
From S2P Require Import Prelude Text Common IpText Helpers LowLevel Wire Conn Buckets CatchUp Queues.
From S2P Require Import Config Container GrpcTypes GrpcTransactions Bans Node Callbacks Queries Connectivity.
From S2P Require Import Consensus Handlers Maintenance Stats ConfigEffects.

(** ** Joining threads *)

(** The handles that [threads] holds, by whether the thread ends with a panic; the
    lock may be poisoned.  [joined] are those that have been waited for. *)
Record Threads := mkThreads { poisoned : bool; handles : list bool; joined : list bool }.

(** [P2PNode::join]: the handles are taken; errors are logged. *)
Definition join (t : Threads) : Threads :=
  if poisoned t then t else mkThreads (poisoned t) [] (joined t ++ handles t).

(** ** The server for metrics *)

(** [StatsExportService::metrics]: the text that the encoder writes, which must not
    fail; nothing if that is no UTF-8. *)
Definition metrics {R} (encode : R -> option (list byte)) (registry : R) : outcome (list byte) :=
  match encode registry with
  | None => Panic
  | Some buffer => match from_utf8 buffer with Ok buf => Ok buf | _ => Ok [] end
  end.
(** [StatsExportService::index]. *)
Definition index (appname version : text) : text :=
  lit "<html><body><h1>Prometheus for " ++ appname ++ lit " v" ++ version
  ++ lit "</h1>Operational!</p></body></html>".
(** [StatsExportService::router]: the handler for a request. *)
Inductive Page := IndexPage | MetricsPage.
Definition router (get : bool) (path : text) : option Page :=
  if get then
    if decide (path = lit "/") then Some IndexPage
    else if decide (path = lit "/metrics") then Some MetricsPage
    else None
  else None.
(** [StatsExportService::start_server]: what it returns when the server ends, and
    whether the main thread is told; [listeners] are those for the signal. *)
Definition start_server (server_ok : bool) (listeners : nat) : (unit + unit) * bool :=
  if server_ok then (inl tt, false) else (inr tt, bool_decide (0 < listeners)%nat).

(** ** The binaries *)

(** Setting the limits on peers and threads. *)
Definition with_limits (max : option Z) (pool : Z) (c : ConnectionConfig) : ConnectionConfig :=
  mkConnectionConfig (desired_nodes c) max (max_allowed_nodes_percentage c) (cc_no_bootstrap_dns c)
    (cc_clear_bans c) (cc_relay_broadcast_percentage c) (connect_to c) (cc_disallow_multiple_peers_on_ip c)
    (dns_resolver c) (cc_bootstrap_nodes c) (cc_housekeeping_interval c) (cc_bootstrapping_interval c)
    (cc_max_latency c) (cc_hard_connection_limit c) (cc_conn_requests_batch_limit c)
    (cc_catch_up_batch_limit c) pool (cc_dedup_size_long c) (cc_dedup_size_short c)
    (cc_socket_write_size c) (cc_socket_read_size c) (cc_socket_so_linger c) (cc_events_queue_size c)
    (cc_deduplication_hashing_algorithm c) (max_normal_keep_alive c) (cc_clear_persisted_peers c).
Definition set_connection (c : ConnectionConfig) (conf : Config) : Config :=
  mkConfig (common conf) c (cli conf) (bootstrapper conf).

Section binaries.
Context `{External} `{Prometheus}.

(** What the operating system answers: the options, the file with the hashes of
    genesis blocks and its parser, and what a node is made from. *)
Record BootEnv := mkBootEnv {
  boot_config : outcome (Config * PrometheusConfig);
  boot_version : string;
  regenesis_block_hashes : option text;
  read_file : text -> option (list byte);
  parse_hashes : list byte -> option (list BlockHash);
  boot_id : P2PNodeId;
  own_ip : outcome IpAddr;
  resolve : string -> option (list SocketAddr);
  boot_seeds : Z * Z * Z * Z;
  boot_store : option Env;
  boot_stats : NodeStats;
  boot_queue : ConsensusQueues;
}.
Variable env : BootEnv.

(** The hashes: those of the file that is configured, or of one in the directory
    for data. *)
Definition genesis_hashes (data_dir : text) : outcome (list BlockHash) :=
  let fname := default (path_join data_dir (lit "genesis_hash")) (regenesis_block_hashes env) in
  bytes ← context (read_file env fname) "Could not open file with genesis hashes.";
  context (parse_hashes env bytes) "Could not parse genesis hashes.".

Definition boot_node (conf : Config) (t : PeerType) (blocks : list BlockHash) : outcome P2PNode :=
  a ← own_ip env;
  node_new (boot_id env) conf t a (resolve env) (boot_seeds env) (boot_store env) (boot_stats env)
    (regenesis_from_blocks blocks) (boot_queue env).

(** [main] of the bootstrapper: the node, whether it pushes its metrics, and where
    it serves them. *)
Record Started := mkStarted {
  st_node : P2PNode;
  st_pushes : bool;
  st_metrics : option SocketAddr;
}.
Definition bootstrapper_main : outcome Started :=
  '(conf, prometheus) ← boot_config env;
  let conf := set_connection (with_limits (Some (max_nodes (bootstrapper conf)))
                (cc_thread_pool_size (connection conf)) (connection conf)) conf in
  _ ← instantiate_stats_export_engine (boot_version env);
  blocks ← genesis_hashes (data_dir (common conf));
  _ ← ensure (0 <? Z.of_nat (length blocks)) "Bootstrapper can't run without specifying genesis hashes.";
  node ← match boot_node conf Bootstrapper blocks with
         | Err _ => bail "Failed to create the network node."
         | r => r
         end;
  Ok (mkStarted node (bool_decide (is_Some (prometheus_push_gateway prometheus)))
        (mkSocketAddr (prometheus_listen_addr prometheus) <$> prometheus_listen_port prometheus)).

(** [main] of the checker up to its loop; the variables are for the alarm. *)
Definition checker_start (pd_token pd_email pd_svcid : option text) : outcome P2PNode :=
  '(conf, prometheus) ← boot_config env;
  let conf := set_connection (with_limits (Some 0) 1 (connection conf)) conf in
  _ ← context pd_token "PD_TOKEN";
  _ ← context pd_email "PD_EMAIL";
  _ ← context pd_svcid "PD_SVCID";
  _ ← instantiate_stats_export_engine (boot_version env);
  blocks ← genesis_hashes (data_dir (common conf));
  _ ← ensure (0 <? Z.of_nat (length blocks)) "Bootstrapper can't run without specifying genesis hashes.";
  node ← match boot_node conf Node blocks with
         | Err _ => bail "Failed to create the node."
         | r => r
         end;
  Ok (if negb (cc_no_bootstrap_dns (connection conf)) then attempt_bootstrap (resolve env) node else node).
End binaries.

(** The loop of the checker, on whether there are connections and the uptime (in
    milliseconds) after each pause of 500 ms; [curl_runs] tells whether the alarm can
    be sent, which is expected.  [None] if the inputs are used up. *)
Inductive Verdict := Bootstrapped | Alarm.
Fixpoint checker_loop (curl_runs : bool) (polls : list (bool * Z)) : outcome (option Verdict) :=
  match polls with
  | [] => Ok None
  | (connected, uptime) :: polls' =>
      if connected : bool then Ok (Some Bootstrapped)
      else if 10000 <? uptime then (if curl_runs then Ok (Some Alarm) else Panic)
      else checker_loop curl_runs polls'
  end.

(** ** Correctness *)

Section correct.
Context `{External} `{Prometheus}.

Lemma boot_node_spec env conf t blocks n :
  boot_node env conf t blocks = Ok n ->
  node_type n = t /\ regenesis n = regenesis_from_blocks blocks /\ node_config conf t = Ok (config n).
Proof.
  unfold boot_node, mbind, outcome_bind. destruct (own_ip env); try done. apply node_new_spec.
Qed.
Lemma limits_used conf max pool t cfg :
  node_config (set_connection (with_limits (Some max) pool (connection conf)) conf) t = Ok cfg ->
  max_allowed_nodes cfg = max /\ thread_pool_size cfg = pool /\
  bootstrap_nodes cfg = cc_bootstrap_nodes (connection conf) /\ no_net cfg = no_network (cli conf).
Proof.
  unfold node_config, mbind, outcome_bind. cbn [common connection cli bootstrapper set_connection].
  destruct (network_ids _); [done|]. by intros [= <-].
Qed.

(** A bootstrapper that starts knows the genesis blocks of its networks, which are
    those of its file, and accepts as many peers as are configured for it. *)
Theorem bootstrapper_started env st :
  bootstrapper_main env = Ok st ->
  exists conf prometheus blocks, boot_config env = Ok (conf, prometheus) /\
    genesis_hashes env (data_dir (common conf)) = Ok blocks /\ blocks <> [] /\
    regenesis (st_node st) = regenesis_from_blocks blocks /\
    node_type (st_node st) = Bootstrapper /\
    max_allowed_nodes (config (st_node st)) = max_nodes (bootstrapper conf) /\
    (st_metrics st <> None <-> prometheus_listen_port prometheus <> None).
Proof.
  unfold bootstrapper_main, mbind, outcome_bind, ensure. intros E.
  destruct (boot_config env) as [[conf prometheus]| |]; try done. cbn [common set_connection] in E.
  destruct (instantiate_stats_export_engine _); try done. destruct (genesis_hashes env _) as [blocks| |] eqn:Eg; try done.
  destruct (0 <? Z.of_nat (length blocks)) eqn:El; [|done].
  destruct (boot_node env _ Bootstrapper blocks) as [n| |] eqn:En; try done. simplify_eq.
  apply boot_node_spec in En as (Ht & Hr & Hc). apply limits_used in Hc as (Hm & _).
  exists conf, prometheus, blocks. split_and!; try done.
  - by intros ->.
  - simpl. destruct (prometheus_listen_port prometheus); naive_solver.
Qed.

(** The limit of no peers does not keep the checker from connecting to bootstrap
    nodes. *)
Lemma bootstrap_unlimited a respect n :
  connect_checks Bootstrapper a respect n = connect_checks Bootstrapper a false n.
Proof. unfold connect_checks. by destruct respect. Qed.
End correct.

(** The checker decides at the latest at the first poll after ten seconds: it has
    bootstrapped exactly if there was a connection at that poll or before. *)
Theorem checker_decides early connected uptime late :
  Forall (fun p => p.2 <= 10000) early -> 10000 < uptime ->
  checker_loop true (early ++ (connected, uptime) :: late) =
    Ok (Some (if existsb fst early || connected then Bootstrapped else Alarm)).
Proof.
  intros He Hu. induction He as [|[c u] early Hp _ IH]; cbn [app checker_loop existsb fst snd].
  - destruct connected; [done|]. by rewrite (proj2 (Z.ltb_lt _ _)) by lia.
  - simpl in Hp. destruct c; [done|]. rewrite (proj2 (Z.ltb_ge _ _)) by lia. apply IH.
Qed.

(** [P2PNode::close_and_join]: the node is closed, which may block, and its threads
    have ended then, unless the lock is poisoned. *)
Definition close_and_join `{External} (n : P2PNode) (t : Threads) : option (P2PNode * Threads) :=
  (fun n' => (n', join t)) <$> close n.
Lemma close_and_join_all `{External} n t n' t' :
  poisoned t = false -> close_and_join n t = Some (n', t') -> handles t' = [] /\ joined t' = joined t ++ handles t.
Proof.
  unfold close_and_join. intros Hp E. destruct (close n); simplify_eq/=. unfold join. by rewrite Hp.
Qed.
