(* ===== verification/Services.v ===== *)
(** * Services

    How the servers of the node and of the collector backend are put together: the
    services of the gRPC server and its task, the endpoints for dumps of the network
    if that feature is on ([concordium-node/src/grpc2.rs]), the signals that shut the
    node down ([concordium-node/src/bin/cli.rs]), and the routes and the start of the
    collector backend ([collector-backend/src/bin/node-collector-backend.rs]). *)

From stdpp Require Import base tactics list gmap strings option numbers.
From Stdlib Require Import ZArith.
From S2P Require Import Prelude Text Dumper Grpc Collector.

(** ** The gRPC server *)

(** The services of the router, with whether they are also offered to browsers. *)
Inductive ServiceName := QueriesService | HealthService | GrpcHealthV1Service | ReflectionService.
Definition router_services (enable_grpc_web reflection_ok : bool) : outcome (list (ServiceName * bool)) :=
  let router := [(QueriesService, enable_grpc_web)] in
  _ ← ensure reflection_ok "Unable to start the GRPC2 reflection service.";
  Ok (router ++ ((fun s => (s, enable_grpc_web)) <$> [HealthService; GrpcHealthV1Service; ReflectionService])).

(** The task of the server: whether it tells the main thread of an error. *)
Definition server_task (result : bool) (listeners : nat) : bool * bool :=
  (result, negb result && bool_decide (0 < listeners)%nat).

(** *** Dumps *)

Section dumps.
Variable service_config : ServiceConfig.

(** [dump_start] and [dump_stop], with the feature [network_dump]. *)
Definition dump_start (file : text) (raw : bool) : M NetworkDumper unit := fun d =>
  if service_config Endpoint.dump_start then
    match file with
    | [] => (fail_with Code.InvalidArgument "The supplied path must be non-empty", d)
    | _ => match activate_dump file raw d with
           | (Ok _, d') => (Ok tt, d')
           | (Err _, d') => (fail_with Code.Internal "Could not start network dump", d')
           | (Panic, d') => (Panic, d')
           end
    end
  else (fail_with Code.Unimplemented "`DumpStart` is not enabled.", d).
Definition dump_stop : M NetworkDumper unit := fun d =>
  if service_config Endpoint.dump_stop then
    match stop_dump d with
    | (Ok _, d') => (Ok tt, d')
    | (Err _, d') => (fail_with Code.Internal "Could not stop network dump", d')
    | (Panic, d') => (Panic, d')
    end
  else (fail_with Code.Unimplemented "`DumpStop` is not enabled.", d).

(** Only stopping sends the message that ends the thread: a dump cannot be started
    with a path that does. *)
Lemma dump_start_switches file raw d r d' :
  dump_start file raw d = (r, d') ->
  d' = d \/ (r = Ok tt /\ file <> [] /\ switch_queue d' = switch_queue d ++ [(file, raw)] /\ log_dumper d' = true).
Proof.
  unfold dump_start, activate_dump, switch_send, mbind, M_bind, modify, bail. intros E.
  destruct (service_config _); [|by simplify_eq; left]. destruct file as [|c file]; [by simplify_eq; left|].
  destruct (thread_alive d); simplify_eq/=; [right|by left]. by split_and!.
Qed.
(** Once a dump has been stopped and the thread has seen it, none can be started. *)
Lemma no_dump_after_stop d d' file raw :
  dump_stop d = (Ok tt, d') -> switch_queue d = [] ->
  (dump_start file raw (thread_takes d')).1 <> Ok tt.
Proof.
  unfold dump_stop, stop_dump, switch_send, mbind, M_bind, modify, bail. intros E Eq.
  destruct (service_config Endpoint.dump_stop); [|done]. destruct (thread_alive d); [|done]. simplify_eq/=.
  unfold dump_start, activate_dump, switch_send, mbind, M_bind, bail. rewrite Eq. simpl.
  destruct (service_config _); [|done]. by destruct file.
Qed.
End dumps.

(** ** Signals *)

(** The task of [setup_shutdown_signal_handling], on whether a handler can be
    registered for each signal that arrives: how often it tells the [receivers], and
    whether it still runs. *)
Definition signal_task (receivers : nat) (signals : list bool) : nat * bool :=
  match signals with
  | [] => (0, true)
  | false :: _ => (0, false)
  | true :: later => if decide (receivers = 0)%nat then (0, false) else (1, forallb id later)
  end%nat.
(** However often a signal arrives, a shutdown is requested once. *)
Lemma one_shutdown receivers signals :
  (0 < receivers)%nat -> (signal_task receivers signals).1 = if decide (hd_error signals = Some true) then 1%nat else 0%nat.
Proof.
  intros Hr. destruct signals as [|[] later]; cbn; [done| |done]. by rewrite decide_False by lia.
Qed.

(** ** The collector backend *)

Inductive BackendPage := BackendIndex | NodesSummary | NodesBlocksInfo | NodesPost.
Definition backend_index (version : text) : text :=
  lit "<html><body><h1>Collector backend for concordium v" ++ version
  ++ lit "</h1><p>Operational!</p></body></html>".
(** [router]. *)
Inductive HttpMethod := HttpGet | HttpPost | HttpOther.
Definition backend_router (m : HttpMethod) (path : text) : option BackendPage :=
  match m with
  | HttpGet =>
      if decide (path = lit "/") then Some BackendIndex
      else if decide (path = lit "/nodesSummary") then Some NodesSummary
      else if decide (path = lit "/data/nodesSummary") then Some NodesSummary
      else if decide (path = lit "/nodesBlocksInfo") then Some NodesBlocksInfo
      else if decide (path = lit "/data/nodesBlocksInfo") then Some NodesBlocksInfo
      else None
  | HttpPost =>
      if decide (path = lit "/nodes/post") then Some NodesPost
      else if decide (path = lit "/post/nodes") then Some NodesPost
      else None
  | HttpOther => None
  end.

(** [main], up to the start of the server: the state that it is started with and the
    address; the file with the names is read if it is configured. *)
Definition backend_start (banned_node_names_file : option text) (read_to_string : text -> option text)
    (banned_versions : list text) (host port : text) (thread_ok : bool)
    : outcome (CollectorStateData * text) :=
  banned_node_names ← match banned_node_names_file with
                      | Some file => contents ← match read_to_string file with
                                                | Some s => Ok s
                                                | None => Err (IoError "read_to_string")
                                                end;
                                     Ok (lines contents)
                      | None => Ok []
                      end;
  _ ← (if thread_ok then Ok tt else Panic);
  Ok (mkCollector ∅ banned_versions banned_node_names, host ++ lit ":" ++ port).
