(* ===== verification/Abi.v ===== *)
(** The C interface between the node and the consensus library: the types that
    cross it, how a value of such a type is passed in a register, and when two
    declarations of one function, the [extern] block of
    [concordium-node/src/consensus_ffi/ffi.rs] and the [foreign export] of the
    Haskell library, describe the same call.

    The linker matches the two sides by name only; nothing compares the types.
    [sig_compat] is that comparison, and the lemmas of this file show that it
    is enough: what one side passes the other side reads.  The declarations of
    the two sides are in [AbiRust.v] and [AbiHaskell.v]. *)
From stdpp Require Import base tactics list gmap strings option numbers.
From Stdlib Require Import ZArith.
From S2P Require Import Prelude.

(** A type that fits in a register.  [SObj] is an opaque object, which occurs
    behind a pointer only, under the name its side gives it. *)
Inductive Scalar :=
  | SU8 | SI8 | SU32 | SI32 | SU64 | SI64 | SF64
  | SPtr (pointee : Scalar)
  | SObj (name : string).

(** An argument: a scalar, or a pointer to a function over scalars; [None] is
    the return type of a function that returns nothing. *)
Inductive CType :=
  | Scal (s : Scalar)
  | Callback (params : list Scalar) (result : option Scalar).

Coercion Scal : Scalar >-> CType.

Record Sig := mkSig { sig_params : list CType; sig_result : option Scalar }.

(** What the two sides take from outside this repository: the signedness of
    C's [char] on the target, and the Haskell base library's representation of
    [GenesisIndex] (documented as a [Word32]) and [Timestamp] (documented as a
    [Word64] of milliseconds). *)
Class ForeignTypes := {
  c_char : Scalar;
  GenesisIndex : Scalar;
  Timestamp : Scalar;
  c_char_byte : c_char = SI8 \/ c_char = SU8;
  GenesisIndex_word : GenesisIndex = SU32;
  Timestamp_word : Timestamp = SU64
}.

(** [char] is signed on x86-64 and unsigned on the ARM Linux targets. *)
Definition x86_64 : ForeignTypes :=
  {| c_char := SI8; GenesisIndex := SU32; Timestamp := SU64;
     c_char_byte := or_introl eq_refl; GenesisIndex_word := eq_refl; Timestamp_word := eq_refl |}.
Definition aarch64 : ForeignTypes :=
  {| c_char := SU8; GenesisIndex := SU32; Timestamp := SU64;
     c_char_byte := or_intror eq_refl; GenesisIndex_word := eq_refl; Timestamp_word := eq_refl |}.

(** ** Passing a value *)

Definition width (s : Scalar) : Z :=
  match s with
  | SU8 | SI8 => 8
  | SU32 | SI32 => 32
  | SU64 | SI64 | SF64 | SPtr _ | SObj _ => 64
  end.

Definition signed (s : Scalar) : bool :=
  match s with SI8 | SI32 | SI64 => true | _ => false end.

(** A value as a number: the integer itself, the address of a pointer, the bit
    pattern of a double. *)
Definition in_range (s : Scalar) (v : Z) : bool :=
  if signed s
  then (- 2 ^ (width s - 1) <=? v) && (v <? 2 ^ (width s - 1))
  else (0 <=? v) && (v <? 2 ^ width s).

(** The caller sets the low bits of the register; what is above them is
    unspecified, so it is an argument. *)
Definition pass (s : Scalar) (v junk : Z) : Z :=
  v mod 2 ^ width s + junk * 2 ^ width s.

(** The callee reads the low bits, as its own type. *)
Definition receive (s : Scalar) (r : Z) : Z :=
  let u := r mod 2 ^ width s in
  if signed s && (2 ^ (width s - 1) <=? u) then u - 2 ^ width s else u.

(** A pointer to a function is an address. *)
Definition register (t : CType) : Scalar :=
  match t with Scal s => s | Callback _ _ => SU64 end.

Definition pass_all (ts : list Scalar) (vs junk : list Z) : list Z :=
  zip_with (fun '(t, v) j => pass t v j) (zip ts vs) junk.

Definition receive_all (ts : list Scalar) (rs : list Z) : list Z :=
  zip_with receive ts rs.

(** ** Two declarations of one function *)

Section Compat.
(** The Rust name of an object of the Haskell side. *)
Variable object : string -> string.

Fixpoint compat (r h : Scalar) : bool :=
  match r, h with
  | (SU8 | SI8), (SU8 | SI8) => true
  | SU32, SU32 | SI32, SI32 | SU64, SU64 | SI64, SI64 | SF64, SF64 => true
  | SPtr r', SPtr h' => compat r' h'
  | SObj r', SObj h' => String.eqb r' (object h')
  | _, _ => false
  end.

Definition result_compat (r h : option Scalar) : bool :=
  match r, h with
  | Some r', Some h' => compat r' h'
  | None, None => true
  | _, _ => false
  end.

Fixpoint all_compat (rs hs : list Scalar) : bool :=
  match rs, hs with
  | [], [] => true
  | r :: rs', h :: hs' => compat r h && all_compat rs' hs'
  | _, _ => false
  end.

Definition type_compat (r h : CType) : bool :=
  match r, h with
  | Scal r', Scal h' => compat r' h'
  | Callback rp rr, Callback hp hr => all_compat rp hp && result_compat rr hr
  | _, _ => false
  end.

Fixpoint params_compat (rs hs : list CType) : bool :=
  match rs, hs with
  | [], [] => true
  | r :: rs', h :: hs' => type_compat r h && params_compat rs' hs'
  | _, _ => false
  end.

Definition sig_compat (r h : Sig) : bool :=
  params_compat (sig_params r) (sig_params h) && result_compat (sig_result r) (sig_result h).

End Compat.

(** ** A declaration that is compatible describes the same call *)

Lemma width_pos s : 0 < width s.
Proof. by destruct s. Qed.

(** A value in range of the type that reads it is read as it is, whatever the
    rest of the register holds. *)
Lemma receive_own s v junk : in_range s v = true -> receive s (pass s v junk) = v.
Proof.
  unfold in_range, receive, pass. intros Hv.
  rewrite Z_mod_plus_full, Z.mod_mod by (pose proof (width_pos s); lia).
  assert (Hw : 2 ^ width s = 2 * 2 ^ (width s - 1)) by (destruct s; reflexivity).
  assert (0 < 2 ^ (width s - 1)) by (destruct s; reflexivity).
  destruct (signed s); cbn [andb].
  - apply andb_prop in Hv as [?%Z.leb_le ?%Z.ltb_lt].
    destruct (decide (0 <= v)).
    + rewrite (Z.mod_small v) by lia.
      by rewrite (proj2 (Z.leb_gt _ _)) by lia.
    + replace (v mod 2 ^ width s) with (v + 2 ^ width s)
        by (rewrite <- (Z_mod_plus_full v 1), Z.mod_small; lia).
      rewrite (proj2 (Z.leb_le _ _)) by lia. lia.
  - apply andb_prop in Hv as [?%Z.leb_le ?%Z.ltb_lt]. apply Z.mod_small. lia.
Qed.

Section Calls.
Context (object : string -> string).

Lemma compat_width r h : compat object r h = true -> width r = width h.
Proof. by destruct r, h. Qed.

(** A value that both declarations can hold arrives. *)
Lemma scalar_arrives r h v junk :
  width r = width h -> in_range h v = true -> receive h (pass r v junk) = v.
Proof.
  intros Hw Hv. replace (pass r v junk) with (pass h v junk) by (unfold pass; by rewrite Hw).
  by apply receive_own.
Qed.

(** The types of one width differ in range only in the sign of a byte. *)
Lemma compat_range r h v :
  compat object r h = true -> r = h \/ width r <> 8 -> in_range r v = in_range h v.
Proof.
  intros Hc [-> | Hw]; [done|].
  destruct r, h; cbn in *; try discriminate Hc; try done; by destruct Hw.
Qed.

Lemma registers_arrive ts us vs junk :
  Forall2 (fun t u => width t = width u) ts us ->
  Forall2 (fun u v => in_range u v = true) us vs ->
  length junk = length vs ->
  receive_all us (pass_all ts vs junk) = vs.
Proof.
  intros Hw Hv. revert ts junk Hw.
  induction Hv as [|u v us vs Hv _ IH]; intros ts junk Hw Hj.
  - by inversion Hw.
  - inversion Hw as [|t ? ts' ? Ht Hts]; subst.
    destruct junk as [|j junk]; [discriminate|]. cbn in Hj.
    cbn. f_equal; [by apply scalar_arrives|]. apply IH; [done|lia].
Qed.

Lemma all_compat_widths rs hs :
  all_compat object rs hs = true -> Forall2 (fun t u => width t = width u) rs hs.
Proof.
  revert hs. induction rs as [|r rs IH]; intros [|h hs] Hc; try discriminate; [done|].
  apply andb_prop in Hc as [? ?]. constructor; [by apply compat_width|auto].
Qed.

Lemma params_compat_widths rs hs :
  params_compat object rs hs = true ->
  Forall2 (fun t u => width t = width u) (register <$> rs) (register <$> hs).
Proof.
  revert hs. induction rs as [|r rs IH]; intros [|h hs] Hc; try discriminate; [constructor|].
  apply andb_prop in Hc as [Ht ?]. constructor; [|auto].
  destruct r, h; try discriminate; [by apply compat_width|done].
Qed.

(** ** What it means that the two sides agree on a call *)

(** The arguments that one side passes are those that the other reads, if they
    are in range for both. *)
Definition arguments_arrive (from to : list Scalar) : Prop :=
  forall vs junk,
    Forall2 (fun t v => in_range t v = true) from vs ->
    Forall2 (fun t v => in_range t v = true) to vs ->
    length junk = length vs ->
    receive_all to (pass_all from vs junk) = vs.

(** Likewise for the result; a side that expects a result is given one. *)
Definition result_arrives (from to : option Scalar) : Prop :=
  match from, to with
  | Some f, Some t => forall v junk, in_range f v = true -> in_range t v = true -> receive t (pass f v junk) = v
  | None, None => True
  | _, _ => False
  end.

(** A function pointer that Rust hands over: Haskell calls it, Rust is called. *)
Definition callback_agrees (r h : CType) : Prop :=
  match r, h with
  | Callback rp rr, Callback hp hr => arguments_arrive hp rp /\ result_arrives rr hr
  | Scal _, Scal _ => True
  | _, _ => False
  end.

(** A pointer is read as a pointer to an object of the same layout: the same
    opaque object, or a cell of the same width. *)
Fixpoint same_layout (r h : Scalar) : Prop :=
  match r, h with
  | SPtr r', SPtr h' => same_layout r' h'
  | SObj r', SObj h' => r' = object h'
  | SPtr _, _ | _, SPtr _ | SObj _, _ | _, SObj _ => False
  | _, _ => width r = width h /\ (r = SF64 <-> h = SF64)
  end.

Definition layout_agrees (r h : CType) : Prop :=
  match r, h with
  | Scal r', Scal h' => same_layout r' h'
  | Callback rp _, Callback hp _ => Forall2 same_layout rp hp
  | _, _ => False
  end.

Record calls_agree (r h : Sig) : Prop := {
  ca_arguments : arguments_arrive (register <$> sig_params r) (register <$> sig_params h);
  ca_result : result_arrives (sig_result h) (sig_result r);
  ca_callbacks : Forall2 callback_agrees (sig_params r) (sig_params h);
  ca_layout : Forall2 layout_agrees (sig_params r) (sig_params h)
}.

Lemma widths_arguments from to :
  Forall2 (fun t u => width t = width u) from to -> arguments_arrive from to.
Proof. intros Hw vs junk _ Hv Hj. by apply registers_arrive. Qed.

Lemma result_compat_arrives r h :
  result_compat object r h = true -> result_arrives r h /\ result_arrives h r.
Proof.
  destruct r, h; try discriminate; [|done]. intros Hc%compat_width.
  split; intros v junk _ Hv; by apply scalar_arrives.
Qed.

Lemma compat_layout r h : compat object r h = true -> same_layout r h.
Proof.
  revert h. induction r; intros [] Hc; cbn in *; try discriminate Hc; try done; auto.
  by apply String.eqb_eq.
Qed.

Lemma all_compat_layout rs hs : all_compat object rs hs = true -> Forall2 same_layout rs hs.
Proof.
  revert hs. induction rs as [|r rs IH]; intros [|h hs] Hc; try discriminate; [done|].
  apply andb_prop in Hc as [? ?]. constructor; [by apply compat_layout|auto].
Qed.

Lemma type_compat_agrees r h :
  type_compat object r h = true -> callback_agrees r h /\ layout_agrees r h.
Proof.
  destruct r as [r|rp rr], h as [h|hp hr]; try discriminate; cbn.
  - intros ?%compat_layout. done.
  - intros [Hp [Hr _]%result_compat_arrives]%andb_prop. split; [split|]; [|done|by apply all_compat_layout].
    apply widths_arguments, Forall2_flip.
    eapply Forall2_impl; [|exact (all_compat_widths _ _ Hp)]. by cbn.
Qed.

(** Compatible declarations describe the same call. *)
Lemma sig_compat_agrees r h : sig_compat object r h = true -> calls_agree r h.
Proof.
  intros [Hp Hr]%andb_prop. split.
  - by apply widths_arguments, params_compat_widths.
  - by apply result_compat_arrives.
  - revert Hp. generalize (sig_params r) (sig_params h). intros rs.
    induction rs as [|x rs IH]; intros [|y hs] Hc; try discriminate; [constructor|].
    apply andb_prop in Hc as [[? _]%type_compat_agrees ?]. constructor; auto.
  - revert Hp. generalize (sig_params r) (sig_params h). intros rs.
    induction rs as [|x rs IH]; intros [|y hs] Hc; try discriminate; [constructor|].
    apply andb_prop in Hc as [[_ ?]%type_compat_agrees ?]. constructor; auto.
Qed.

End Calls.
