(* ===== verification/AbiRust.v ===== *)
(** The [extern] block of [concordium-node/src/consensus_ffi/ffi.rs]: what the node
    takes the functions of the consensus library to be, with the names of their
    parameters, and the types of the callbacks that it passes. *)

From stdpp Require Import base tactics list gmap strings option numbers.
From Stdlib Require Import ZArith.
From S2P Require Import Prelude Abi.

(** ** Rust's types *)

Definition u8 : Scalar := SU8.
Definition u32 : Scalar := SU32.
Definition u64 : Scalar := SU64.
Definition i32 : Scalar := SI32.
Definition i64 : Scalar := SI64.
Definition f64 : Scalar := SF64.
Definition const (t : Scalar) : Scalar := SPtr t.
Definition mut (t : Scalar) : Scalar := SPtr t.

(** Objects that are passed by pointer; a [Sender] is one for the bytes of messages.
    [LoadCallback] is a function of the smart contract engine, which is a pointer
    of that package's own. *)
Definition consensus_runner : Scalar := SObj "consensus_runner".
Definition execute_block : Scalar := SObj "execute_block".
Definition dry_run_handle : Scalar := SObj "dry_run_handle".
Definition Regenesis : Scalar := SObj "Regenesis".
Definition NotificationContext : Scalar := SObj "NotificationContext".
Definition NotifyUnsupportedUpdatesContext : Scalar := SObj "NotifyUnsupportedUpdatesContext".
Definition Vec_u8 : Scalar := SObj "Vec<u8>".
Definition Sender : Scalar := SObj "Sender<Result<Vec<u8>, Status>>".
Definition CryptographicParameters : Scalar := SObj "CryptographicParameters".
Definition Option_CryptographicParameters : Scalar := SObj "Option<CryptographicParameters>".
Definition Option_V1ContractStateReceiver : Scalar := SObj "Option<V1ContractStateReceiver>".
Definition PersistentState : Scalar := SObj "PersistentState".
Definition LoadCallback : Scalar := SPtr (SObj "LoadCallback").

(** [#[repr(transparent)]]. *)
Definition ExecuteBlockCallback : Scalar := mut execute_block.
Definition PeerIdFFI : Scalar := u64.

(** ** Declarations *)

Record ExternFn := mkFn {
  fn_name : string;
  fn_params : list (string * CType);
  fn_result : option Scalar;
}.
Definition arg (name : string) (t : CType) : string * CType := (name, t).
Definition fn : string -> list (string * CType) -> option Scalar -> ExternFn := mkFn.
Definition fn_sig (f : ExternFn) : Sig := mkSig (snd <$> fn_params f) (fn_result f).

Section declarations.
Context `{ForeignTypes}.

Definition LogCallback : CType := Callback [c_char; c_char; const u8] None.
Definition BroadcastCallback : CType := Callback [i64; u32; const u8; i64] None.
Definition CatchUpStatusCallback : CType := Callback [u32; const u8; i64] None.
Definition DirectMessageCallback : CType :=
  Callback [PeerIdFFI; i64; u32; const c_char; i64] None.
Definition RegenesisCallback : CType := Callback [const Regenesis; const u8] None.
Definition RegenesisFreeCallback : CType := Callback [const Regenesis] None.
Definition CopyToVecCallback : CType := Callback [mut Vec_u8; const u8; i64] None.
Definition CopyCryptographicParametersCallback : CType :=
  Callback [mut Option_CryptographicParameters; const CryptographicParameters] None.
Definition CopyV1ContractStateCallback : CType :=
  Callback [mut Option_V1ContractStateReceiver; mut PersistentState; LoadCallback] None.
Definition NotifyCallback : CType :=
  Callback [mut NotificationContext; u8; const u8; u64; u64; u8] None.
Definition NotifyUnsupportedUpdatesCallback : CType :=
  Callback [mut NotifyUnsupportedUpdatesContext; u64] None.

(** Starting and stopping, messages, transactions, the status of the baker. *)
Definition extern_consensus : list ExternFn :=
  [fn "startConsensus"
     [arg "max_block_size" u64; arg "block_construction_timeout" u64;
      arg "insertions_before_purging" u64; arg "transaction_keep_alive" u64;
      arg "transactions_purging_delay" u64; arg "accounts_cache_size" u32;
      arg "modules_cache_size" u32; arg "genesis_data" (const u8); arg "genesis_data_len" i64;
      arg "private_data" (const u8); arg "private_data_len" i64;
      arg "notify_context" (mut NotificationContext); arg "notify_callback" NotifyCallback;
      arg "unsupported_update_context" (mut NotifyUnsupportedUpdatesContext);
      arg "unsupported_update_callback" NotifyUnsupportedUpdatesCallback;
      arg "broadcast_callback" BroadcastCallback;
      arg "catchup_status_callback" CatchUpStatusCallback;
      arg "regenesis_arc" (const Regenesis); arg "free_regenesis_arc" RegenesisFreeCallback;
      arg "regenesis_callback" RegenesisCallback; arg "maximum_log_level" u8;
      arg "log_callback" LogCallback; arg "appdata_dir" (const u8); arg "appdata_dir_len" i64;
      arg "runner_ptr_ptr" (mut (mut consensus_runner))]
     (Some i64);
   fn "startConsensusPassive"
     [arg "max_block_size" u64; arg "block_construction_timeout" u64;
      arg "insertions_before_purging" u64; arg "transaction_keep_alive" u64;
      arg "transactions_purging_delay" u64; arg "accounts_cache_size" u32;
      arg "modules_cache_size" u32; arg "genesis_data" (const u8); arg "genesis_data_len" i64;
      arg "notify_context" (mut NotificationContext); arg "notify_callback" NotifyCallback;
      arg "unsupported_update_context" (mut NotifyUnsupportedUpdatesContext);
      arg "unsupported_update_callback" NotifyUnsupportedUpdatesCallback;
      arg "catchup_status_callback" CatchUpStatusCallback;
      arg "regenesis_arc" (const Regenesis); arg "free_regenesis_arc" RegenesisFreeCallback;
      arg "regenesis_callback" RegenesisCallback; arg "maximum_log_level" u8;
      arg "log_callback" LogCallback; arg "appdata_dir" (const u8); arg "appdata_dir_len" i64;
      arg "runner_ptr_ptr" (mut (mut consensus_runner))]
     (Some i64);
   fn "startBaker"
     [arg "consensus" (mut consensus_runner)]
     None;
   fn "receiveBlock"
     [arg "consensus" (mut consensus_runner); arg "genesis_index" u32;
      arg "block_data" (const u8); arg "data_length" u64;
      arg "execute_block_ptr_ptr" (mut (mut execute_block))]
     (Some i64);
   fn "executeBlock"
     [arg "consensus" (mut consensus_runner); arg "execute_block_callback" ExecuteBlockCallback]
     (Some i64);
   fn "receiveFinalizationMessage"
     [arg "consensus" (mut consensus_runner); arg "genesis_index" u32;
      arg "finalization_data" (const u8); arg "data_length" i64]
     (Some i64);
   fn "receiveFinalizationRecord"
     [arg "consensus" (mut consensus_runner); arg "genesis_index" u32;
      arg "finalization_data" (const u8); arg "data_length" i64]
     (Some i64);
   fn "receiveTransaction"
     [arg "consensus" (mut consensus_runner); arg "tx" (const u8); arg "data_length" i64;
      arg "out_hash" (mut u8)]
     (Some i64);
   fn "stopBaker"
     [arg "consensus" (mut consensus_runner)]
     None;
   fn "stopConsensus"
     [arg "consensus" (mut consensus_runner)]
     None;
   fn "getNumberOfNonFinalizedTransactions"
     [arg "consensus" (mut consensus_runner)]
     (Some u64);
   fn "freeCStr"
     [arg "hstring" (const c_char)]
     None;
   fn "getCatchUpStatus"
     [arg "consensus" (mut consensus_runner); arg "genesis_index" (mut u32);
      arg "msg" (mut (const u8))]
     (Some i64);
   fn "receiveCatchUpStatus"
     [arg "consensus" (mut consensus_runner); arg "peer_id" PeerIdFFI; arg "genesis_index" u32;
      arg "msg" (const u8); arg "msg_len" i64; arg "object_limit" i64;
      arg "direct_callback" DirectMessageCallback]
     (Some i64);
   fn "bakerStatusBestBlock"
     [arg "consensus" (mut consensus_runner); arg "baker_id" (mut u64);
      arg "has_baker_id" (mut u8); arg "baker_lottery_power" (mut f64)]
     (Some u8);
   fn "checkIfWeAreFinalizer"
     [arg "consensus" (mut consensus_runner)]
     (Some u8);
   fn "checkIfRunning"
     [arg "consensus" (mut consensus_runner)]
     (Some u8);
   fn "getLastFinalizedBlockHeight"
     [arg "consensus" (mut consensus_runner)]
     (Some u64);
   fn "importBlocks"
     [arg "consensus" (mut consensus_runner); arg "import_file_path" (const u8);
      arg "import_file_path_len" i64]
     (Some i64);
   fn "stopImportingBlocks"
     [arg "consensus" (mut consensus_runner)]
     None;
   fn "freeByteArray"
     [arg "hstring" (const u8)]
     None].

(** Accounts, the state of consensus, modules, the list of instances. *)
Definition extern_modules : list ExternFn :=
  [fn "getAccountInfoV2"
     [arg "consensus" (mut consensus_runner); arg "block_id_type" u8; arg "block_id" (const u8);
      arg "account_id_type" u8; arg "account_id" (const u8); arg "out_hash" (mut u8);
      arg "out" (mut Vec_u8); arg "copier" CopyToVecCallback]
     (Some i64);
   fn "getNextAccountSequenceNumberV2"
     [arg "consensus" (mut consensus_runner); arg "account_address_ptr" (const u8);
      arg "out" (mut Vec_u8); arg "copier" CopyToVecCallback]
     (Some i64);
   fn "getConsensusInfoV2"
     [arg "consensus" (mut consensus_runner); arg "out" (mut Vec_u8);
      arg "copier" CopyToVecCallback]
     (Some i64);
   fn "getCryptographicParametersV2"
     [arg "consensus" (mut consensus_runner); arg "block_id_type" u8; arg "block_id" (const u8);
      arg "out_hash" (mut u8); arg "out" (mut Option_CryptographicParameters);
      arg "copier" CopyCryptographicParametersCallback]
     (Some i64);
   fn "getModuleListV2"
     [arg "consensus" (mut consensus_runner); arg "stream" (mut Sender); arg "block_id_type" u8;
      arg "block_id" (const u8); arg "out_hash" (mut u8);
      arg "callback" (Callback [mut Sender; const u8; i64] (Some i32))]
     (Some i64);
   fn "getModuleSourceV2"
     [arg "consensus" (mut consensus_runner); arg "block_id_type" u8; arg "block_id" (const u8);
      arg "module_ref" (const u8); arg "out_hash" (mut u8); arg "out" (mut Vec_u8);
      arg "copier" CopyToVecCallback]
     (Some i64);
   fn "getInstanceListV2"
     [arg "consensus" (mut consensus_runner); arg "stream" (mut Sender); arg "block_id_type" u8;
      arg "block_id" (const u8); arg "out_hash" (mut u8);
      arg "callback" (Callback [mut Sender; const u8; i64] (Some i32))]
     (Some i64)].

(** Instances, ancestors, epochs. *)
Definition extern_instances : list ExternFn :=
  [fn "getInstanceInfoV2"
     [arg "consensus" (mut consensus_runner); arg "block_id_type" u8; arg "block_id" (const u8);
      arg "contract_address_index" u64; arg "contract_address_subindex" u64;
      arg "out_hash" (mut u8); arg "out" (mut Vec_u8); arg "copier" CopyToVecCallback]
     (Some i64);
   fn "getInstanceStateV2"
     [arg "consensus" (mut consensus_runner); arg "block_id_type" u8; arg "block_id" (const u8);
      arg "contract_address_index" u64; arg "contract_address_subindex" u64;
      arg "out_hash" (mut u8); arg "out_v0" (mut Vec_u8); arg "copier_v0" CopyToVecCallback;
      arg "out_v1" (mut Option_V1ContractStateReceiver);
      arg "copier_v1" CopyV1ContractStateCallback]
     (Some i64);
   fn "getAncestorsV2"
     [arg "consensus" (mut consensus_runner); arg "stream" (mut Sender); arg "block_id_type" u8;
      arg "block_id" (const u8); arg "depth" u64; arg "out_hash" (mut u8);
      arg "callback" (Callback [mut Sender; const u8; i64] (Some i32))]
     (Some i64);
   fn "getFirstBlockEpochV2"
     [arg "consensus" (mut consensus_runner); arg "query_type" u8; arg "query_data" (const u8);
      arg "out_hash" (mut u8)]
     (Some i64);
   fn "getWinningBakersEpochV2"
     [arg "consensus" (mut consensus_runner); arg "stream" (mut Sender); arg "query_type" u8;
      arg "query_data" (const u8);
      arg "callback" (Callback [mut Sender; const u8; i64] (Some i32))]
     (Some i64)].

(** Lists of accounts, the status of transactions, invocations, blocks, bakers, pools. *)
Definition extern_blocks : list ExternFn :=
  [fn "getAccountListV2"
     [arg "consensus" (mut consensus_runner); arg "stream" (mut Sender); arg "block_id_type" u8;
      arg "block_id" (const u8); arg "out_hash" (mut u8);
      arg "callback" (Callback [mut Sender; const u8; i64] (Some i32))]
     (Some i64);
   fn "getBlockItemStatusV2"
     [arg "consensus" (mut consensus_runner); arg "transaction_hash" (const u8);
      arg "out" (mut Vec_u8); arg "copier" CopyToVecCallback]
     (Some i64);
   fn "invokeInstanceV2"
     [arg "consensus" (mut consensus_runner); arg "block_id_type" u8; arg "block_id" (const u8);
      arg "contract_index" u64; arg "contract_subindex" u64; arg "invoker_address_type" u8;
      arg "invoker_account_address_ptr" (const u8); arg "invoker_contract_index" u64;
      arg "invoker_contract_subindex" u64; arg "amount" u64; arg "receive_name_ptr" (const u8);
      arg "receive_name_len" u32; arg "parameter_ptr" (const u8); arg "parameter_len" u32;
      arg "energy" u64; arg "out_hash" (mut u8); arg "out" (mut Vec_u8);
      arg "copier" CopyToVecCallback]
     (Some i64);
   fn "getBlockInfoV2"
     [arg "consensus" (mut consensus_runner); arg "block_id_type" u8; arg "block_id" (const u8);
      arg "out_hash" (mut u8); arg "out" (mut Vec_u8); arg "copier" CopyToVecCallback]
     (Some i64);
   fn "getBakerListV2"
     [arg "consensus" (mut consensus_runner); arg "stream" (mut Sender); arg "block_id_type" u8;
      arg "block_id" (const u8); arg "out_hash" (mut u8);
      arg "callback" (Callback [mut Sender; const u8; i64] (Some i32))]
     (Some i64);
   fn "getPoolInfoV2"
     [arg "consensus" (mut consensus_runner); arg "block_id_type" u8; arg "block_id" (const u8);
      arg "baker_id" u64; arg "out_hash" (mut u8); arg "out" (mut Vec_u8);
      arg "copier" CopyToVecCallback]
     (Some i64)].

(** Passive delegation, blocks at a height, tokenomics, delegators. *)
Definition extern_delegators : list ExternFn :=
  [fn "getPassiveDelegationInfoV2"
     [arg "consensus" (mut consensus_runner); arg "block_id_type" u8; arg "block_id" (const u8);
      arg "out_hash" (mut u8); arg "out" (mut Vec_u8); arg "copier" CopyToVecCallback]
     (Some i64);
   fn "getBlocksAtHeightV2"
     [arg "consensus" (mut consensus_runner); arg "height" u64; arg "genesis_index" u32;
      arg "restrict" u8; arg "out" (mut Vec_u8); arg "copier" CopyToVecCallback]
     (Some i64);
   fn "getTokenomicsInfoV2"
     [arg "consensus" (mut consensus_runner); arg "block_id_type" u8; arg "block_id" (const u8);
      arg "out_hash" (mut u8); arg "out" (mut Vec_u8); arg "copier" CopyToVecCallback]
     (Some i64);
   fn "getPoolDelegatorsV2"
     [arg "consensus" (mut consensus_runner); arg "stream" (mut Sender); arg "block_id_type" u8;
      arg "block_id" (const u8); arg "baker_id" u64; arg "out_hash" (mut u8);
      arg "callback" (Callback [mut Sender; const u8; i64] (Some i32))]
     (Some i64);
   fn "getPoolDelegatorsRewardPeriodV2"
     [arg "consensus" (mut consensus_runner); arg "stream" (mut Sender); arg "block_id_type" u8;
      arg "block_id" (const u8); arg "baker_id" u64; arg "out_hash" (mut u8);
      arg "callback" (Callback [mut Sender; const u8; i64] (Some i32))]
     (Some i64);
   fn "getPassiveDelegatorsV2"
     [arg "consensus" (mut consensus_runner); arg "stream" (mut Sender); arg "block_id_type" u8;
      arg "block_id" (const u8); arg "out_hash" (mut u8);
      arg "callback" (Callback [mut Sender; const u8; i64] (Some i32))]
     (Some i64)].

(** Delegators in a reward period, branches, elections, identity providers, anonymity revokers, the
    transactions of an account and of a block. *)
Definition extern_identities : list ExternFn :=
  [fn "getPassiveDelegatorsRewardPeriodV2"
     [arg "consensus" (mut consensus_runner); arg "stream" (mut Sender); arg "block_id_type" u8;
      arg "block_id" (const u8); arg "out_hash" (mut u8);
      arg "callback" (Callback [mut Sender; const u8; i64] (Some i32))]
     (Some i64);
   fn "getBranchesV2"
     [arg "consensus" (mut consensus_runner); arg "out" (mut Vec_u8);
      arg "copier" CopyToVecCallback]
     (Some i64);
   fn "getElectionInfoV2"
     [arg "consensus" (mut consensus_runner); arg "block_id_type" u8; arg "block_id" (const u8);
      arg "out_hash" (mut u8); arg "out" (mut Vec_u8); arg "copier" CopyToVecCallback]
     (Some i64);
   fn "getIdentityProvidersV2"
     [arg "consensus" (mut consensus_runner); arg "stream" (mut Sender); arg "block_id_type" u8;
      arg "block_id" (const u8); arg "out_hash" (mut u8);
      arg "callback" (Callback [mut Sender; const u8; i64] (Some i32))]
     (Some i64);
   fn "getAnonymityRevokersV2"
     [arg "consensus" (mut consensus_runner); arg "stream" (mut Sender); arg "block_id_type" u8;
      arg "block_id" (const u8); arg "out_hash" (mut u8);
      arg "callback" (Callback [mut Sender; const u8; i64] (Some i32))]
     (Some i64);
   fn "getAccountNonFinalizedTransactionsV2"
     [arg "consensus" (mut consensus_runner); arg "stream" (mut Sender);
      arg "account_address_ptr" (const u8);
      arg "callback" (Callback [mut Sender; const u8; i64] (Some i32))]
     (Some i64);
   fn "getBlockItemsV2"
     [arg "consensus" (mut consensus_runner); arg "stream" (mut Sender); arg "block_id_type" u8;
      arg "block_hash_ptr" (const u8); arg "out_hash" (mut u8);
      arg "callback" (Callback [mut Sender; const u8; i64] (Some i32))]
     (Some i64)].

(** Events, pending updates, parameters, finalization. *)
Definition extern_events : list ExternFn :=
  [fn "getBlockTransactionEventsV2"
     [arg "consensus" (mut consensus_runner); arg "stream" (mut Sender); arg "block_id_type" u8;
      arg "block_id" (const u8); arg "out_hash" (mut u8);
      arg "callback" (Callback [mut Sender; const u8; i64] (Some i32))]
     (Some i64);
   fn "getBlockSpecialEventsV2"
     [arg "consensus" (mut consensus_runner); arg "stream" (mut Sender); arg "block_id_type" u8;
      arg "block_id" (const u8); arg "out_hash" (mut u8);
      arg "callback" (Callback [mut Sender; const u8; i64] (Some i32))]
     (Some i64);
   fn "getBlockPendingUpdatesV2"
     [arg "consensus" (mut consensus_runner); arg "stream" (mut Sender); arg "block_id_type" u8;
      arg "block_id" (const u8); arg "out_hash" (mut u8);
      arg "callback" (Callback [mut Sender; const u8; i64] (Some i32))]
     (Some i64);
   fn "getNextUpdateSequenceNumbersV2"
     [arg "consensus" (mut consensus_runner); arg "block_id_type" u8; arg "block_id" (const u8);
      arg "out_hash" (mut u8); arg "out" (mut Vec_u8); arg "copier" CopyToVecCallback]
     (Some i64);
   fn "getBlockChainParametersV2"
     [arg "consensus" (mut consensus_runner); arg "block_id_type" u8; arg "block_id" (const u8);
      arg "out_hash" (mut u8); arg "out" (mut Vec_u8); arg "copier" CopyToVecCallback]
     (Some i64);
   fn "getBlockFinalizationSummaryV2"
     [arg "consensus" (mut consensus_runner); arg "block_id_type" u8; arg "block_id" (const u8);
      arg "out_hash" (mut u8); arg "out" (mut Vec_u8); arg "copier" CopyToVecCallback]
     (Some i64);
   fn "getLastFinalizedBlockSlotTimeV2"
     [arg "consensus" (mut consensus_runner)]
     (Some u64)].

(** Reward periods, certificates, the earliest win time. *)
Definition extern_certificates : list ExternFn :=
  [fn "getBakersRewardPeriodV2"
     [arg "consensus" (mut consensus_runner); arg "stream" (mut Sender); arg "block_id_type" u8;
      arg "block_id" (const u8); arg "out_hash" (mut u8);
      arg "callback" (Callback [mut Sender; const u8; i64] (Some i32))]
     (Some i64);
   fn "getBlockCertificatesV2"
     [arg "consensus" (mut consensus_runner); arg "block_id_type" u8; arg "block_id" (const u8);
      arg "out_hash" (mut u8); arg "out" (mut Vec_u8); arg "copier" CopyToVecCallback]
     (Some i64);
   fn "getBakerEarliestWinTimeV2"
     [arg "consensus" (mut consensus_runner); arg "baker_id" u64; arg "out" (mut Vec_u8);
      arg "copier" CopyToVecCallback]
     (Some i64)].

(** Dry runs. *)
Definition extern_dry_run : list ExternFn :=
  [fn "dryRunStart"
     [arg "consensus" (mut consensus_runner); arg "copier" CopyToVecCallback;
      arg "energy_quota" u64]
     (Some (mut dry_run_handle));
   fn "dryRunEnd"
     [arg "dry_run_handle" (mut dry_run_handle)]
     None;
   fn "dryRunLoadBlockState"
     [arg "dry_run_handle" (mut dry_run_handle); arg "block_id_type" u8;
      arg "block_id" (const u8); arg "out" (mut Vec_u8)]
     (Some i64);
   fn "dryRunGetAccountInfo"
     [arg "dry_run_handle" (mut dry_run_handle); arg "account_identifier_tag" u8;
      arg "account_identifier_data" (const u8); arg "out" (mut Vec_u8)]
     (Some i64);
   fn "dryRunGetInstanceInfo"
     [arg "dry_run_handle" (mut dry_run_handle); arg "contract_index" u64;
      arg "contract_subindex" u64; arg "out" (mut Vec_u8)]
     (Some i64);
   fn "dryRunInvokeInstance"
     [arg "dry_run_handle" (mut dry_run_handle); arg "contract_index" u64;
      arg "contract_subindex" u64; arg "invoker_address_type" u8;
      arg "invoker_account_address_ptr" (const u8); arg "invoker_contract_index" u64;
      arg "invoker_contract_subindex" u64; arg "amount" u64; arg "receive_name_ptr" (const u8);
      arg "receive_name_len" u32; arg "parameter_ptr" (const u8); arg "parameter_len" u32;
      arg "energy" u64; arg "out" (mut Vec_u8)]
     (Some i64);
   fn "dryRunSetTimestamp"
     [arg "dry_run_handle" (mut dry_run_handle); arg "new_timestamp" u64; arg "out" (mut Vec_u8)]
     (Some i64);
   fn "dryRunMintToAccount"
     [arg "dry_run_handle" (mut dry_run_handle); arg "account_address" (const u8);
      arg "amount" u64; arg "out" (mut Vec_u8)]
     (Some i64);
   fn "dryRunTransaction"
     [arg "dry_run_handle" (mut dry_run_handle); arg "sender_address_ptr" (const u8);
      arg "energy" u64; arg "payload" (const u8); arg "payload_length" u64;
      arg "signatures" (const u8); arg "signature_count" u64; arg "out" (mut Vec_u8)]
     (Some i64)].

(** The whole block. *)
Definition extern_block : list ExternFn :=
  extern_consensus ++ extern_modules ++ extern_instances ++ extern_blocks ++ extern_delegators
    ++ extern_identities ++ extern_events ++ extern_certificates ++ extern_dry_run.

End declarations.
