(* ===== verification/AbiHaskell.v ===== *)
(** What the consensus library exports: the [foreign export]s of
    [concordium-consensus/src-lib/Concordium/External.hs] and of the modules
    [External/GRPC2.hs] and [External/DryRun.hs], and the list of symbols that a
    Windows library exposes ([concordium-consensus/lib.def]). *)

From stdpp Require Import base tactics list gmap strings option numbers.
From Stdlib Require Import ZArith.
From S2P Require Import Prelude Abi.

(** ** Haskell's types *)

Definition Word8 : Scalar := SU8.
Definition Word32 : Scalar := SU32.
Definition Word64 : Scalar := SU64.
Definition Int32 : Scalar := SI32.
Definition Int64 : Scalar := SI64.
Definition Double : Scalar := SF64.
Definition Ptr (t : Scalar) : Scalar := SPtr t.
Definition StablePtr (t : Scalar) : Scalar := SPtr t.
Definition FunPtr (t : CType) : CType := t.
(** [type FinalizerPtr a = FunPtr (Ptr a -> IO ())]. *)
Definition FinalizerPtr (t : Scalar) : CType := FunPtr (Callback [Ptr t] None).

Definition ConsensusRunner : Scalar := SObj "ConsensusRunner".
Definition ExecuteBlock : Scalar := SObj "ExecuteBlock".
Definition DryRunHandle : Scalar := SObj "DryRunHandle".
Definition RegenesisArc : Scalar := SObj "RegenesisArc".
Definition NotifyContext : Scalar := SObj "NotifyContext".
Definition NotifyUnsupportedUpdatesContext : Scalar := SObj "NotifyUnsupportedUpdatesContext".
Definition ReceiverVec : Scalar := SObj "ReceiverVec".
Definition ForeignVec : Scalar := SObj "ForeignVec".
Definition SenderChannel : Scalar := SObj "SenderChannel".
Definition CryptographicParameters : Scalar := SObj "CryptographicParameters".
Definition ReceiverCryptographicParameters : Scalar := SObj "ReceiverCryptographicParameters".
Definition PersistentStateReceiver : Scalar := SObj "PersistentStateReceiver".
Definition PersistentState : Scalar := SObj "PersistentState".
Definition LoadCallback : Scalar := SPtr (SObj "LoadCallback").

Definition PeerID : Scalar := Word64.
Definition ReceiveResult : Scalar := Int64.

(** ** Declarations *)

Section declarations.
Context `{ForeignTypes}.

Definition CString : Scalar := Ptr c_char.

(** [t ~~> s] is a function that takes a [t] and then is [s]; [IO r] returns an [r]. *)
Definition arrow (t : CType) (s : Sig) : Sig := mkSig (t :: sig_params s) (sig_result s).
Definition IO (r : Scalar) : Sig := mkSig [] (Some r).
Definition IO_unit : Sig := mkSig [] None.
#[local] Notation "t ~~> s" := (arrow t s) (at level 55, right associativity).

Definition export (name : string) (s : Sig) : string * Sig := (name, s).

Definition LogCallback : CType := Callback [Word8; Word8; CString] None.
Definition BroadcastCallback : CType := Callback [Int64; GenesisIndex; CString; Int64] None.
Definition DirectMessageCallback : CType :=
  Callback [PeerID; Int64; GenesisIndex; CString; Int64] None.
Definition CatchUpStatusCallback : CType := Callback [GenesisIndex; CString; Int64] None.
Definition RegenesisCallback : CType := Callback [Ptr RegenesisArc; Ptr Word8] None.
Definition RegenesisFree : CType := FinalizerPtr RegenesisArc.
Definition NotifyCallback : CType :=
  Callback [Ptr NotifyContext; Word8; Ptr Word8; Word64; Word64; Word8] None.
Definition NotifyUnsupportedUpdatesCallback : CType :=
  Callback [Ptr NotifyUnsupportedUpdatesContext; Word64] None.
Definition CopyToVecCallback : CType := Callback [Ptr ReceiverVec; Ptr Word8; Int64] None.
Definition CopyCryptographicParametersCallback : CType :=
  Callback [Ptr ReceiverCryptographicParameters; Ptr CryptographicParameters] None.
Definition ChannelSendCallback : CType :=
  Callback [Ptr SenderChannel; Ptr Word8; Int64] (Some Int32).
Definition PersistentStateCopier : CType :=
  Callback [Ptr PersistentStateReceiver; Ptr PersistentState; LoadCallback] None.
Definition CopyToForeignVec : CType := Callback [Ptr ForeignVec; Ptr Word8; Int64] None.

(** The foreign exports of [External.hs]. *)
Definition exports_external : list (string * Sig) :=
  [export "startConsensus"
     (Word64 ~~> Word64 ~~> Word64 ~~> Word64 ~~> Word64 ~~> Word32 ~~> Word32 ~~> CString ~~>
      Int64 ~~> CString ~~> Int64 ~~> Ptr NotifyContext ~~> FunPtr NotifyCallback ~~>
      Ptr NotifyUnsupportedUpdatesContext ~~> FunPtr NotifyUnsupportedUpdatesCallback ~~>
      FunPtr BroadcastCallback ~~> FunPtr CatchUpStatusCallback ~~> Ptr RegenesisArc ~~>
      RegenesisFree ~~> FunPtr RegenesisCallback ~~> Word8 ~~> FunPtr LogCallback ~~>
      CString ~~> Int64 ~~> Ptr (StablePtr ConsensusRunner) ~~> IO Int64);
   export "startConsensusPassive"
     (Word64 ~~> Word64 ~~> Word64 ~~> Word64 ~~> Word64 ~~> Word32 ~~> Word32 ~~> CString ~~>
      Int64 ~~> Ptr NotifyContext ~~> FunPtr NotifyCallback ~~>
      Ptr NotifyUnsupportedUpdatesContext ~~> FunPtr NotifyUnsupportedUpdatesCallback ~~>
      FunPtr CatchUpStatusCallback ~~> Ptr RegenesisArc ~~> RegenesisFree ~~>
      FunPtr RegenesisCallback ~~> Word8 ~~> FunPtr LogCallback ~~> CString ~~> Int64 ~~>
      Ptr (StablePtr ConsensusRunner) ~~> IO Int64);
   export "stopConsensus"
     (StablePtr ConsensusRunner ~~> IO_unit);
   export "startBaker"
     (StablePtr ConsensusRunner ~~> IO_unit);
   export "stopBaker"
     (StablePtr ConsensusRunner ~~> IO_unit);
   export "receiveBlock"
     (StablePtr ConsensusRunner ~~> GenesisIndex ~~> CString ~~> Word64 ~~>
      Ptr (StablePtr ExecuteBlock) ~~> IO Int64);
   export "executeBlock"
     (StablePtr ConsensusRunner ~~> StablePtr ExecuteBlock ~~> IO Int64);
   export "receiveFinalizationMessage"
     (StablePtr ConsensusRunner ~~> GenesisIndex ~~> CString ~~> Int64 ~~> IO Int64);
   export "receiveFinalizationRecord"
     (StablePtr ConsensusRunner ~~> GenesisIndex ~~> CString ~~> Int64 ~~> IO Int64);
   export "receiveTransaction"
     (StablePtr ConsensusRunner ~~> CString ~~> Int64 ~~> Ptr Word8 ~~> IO Int64);
   export "getNumberOfNonFinalizedTransactions"
     (StablePtr ConsensusRunner ~~> IO Word64);
   export "getCatchUpStatus"
     (StablePtr ConsensusRunner ~~> Ptr GenesisIndex ~~> Ptr CString ~~> IO Int64);
   export "receiveCatchUpStatus"
     (StablePtr ConsensusRunner ~~> PeerID ~~> GenesisIndex ~~> CString ~~> Int64 ~~> Int64 ~~>
      FunPtr DirectMessageCallback ~~> IO ReceiveResult);
   export "getLastFinalizedBlockHeight"
     (StablePtr ConsensusRunner ~~> IO Word64);
   export "bakerStatusBestBlock"
     (StablePtr ConsensusRunner ~~> Ptr Word64 ~~> Ptr Word8 ~~> Ptr Double ~~> IO Word8);
   export "checkIfWeAreFinalizer"
     (StablePtr ConsensusRunner ~~> IO Word8);
   export "checkIfRunning"
     (StablePtr ConsensusRunner ~~> IO Word8);
   export "freeCStr"
     (CString ~~> IO_unit);
   export "importBlocks"
     (StablePtr ConsensusRunner ~~> CString ~~> Int64 ~~> IO Int64);
   export "stopImportingBlocks"
     (StablePtr ConsensusRunner ~~> IO_unit)].

(** Those of [GRPC2.hs]: accounts, modules, instances, epochs; *)
Definition exports_contracts : list (string * Sig) :=
  [export "getAccountInfoV2"
     (StablePtr ConsensusRunner ~~> Word8 ~~> Ptr Word8 ~~> Word8 ~~> Ptr Word8 ~~>
      Ptr Word8 ~~> Ptr ReceiverVec ~~>
      FunPtr (Callback [Ptr ReceiverVec; Ptr Word8; Int64] None) ~~> IO Int64);
   export "getAccountListV2"
     (StablePtr ConsensusRunner ~~> Ptr SenderChannel ~~> Word8 ~~> Ptr Word8 ~~> Ptr Word8 ~~>
      FunPtr (Callback [Ptr SenderChannel; Ptr Word8; Int64] (Some Int32)) ~~> IO Int64);
   export "getModuleListV2"
     (StablePtr ConsensusRunner ~~> Ptr SenderChannel ~~> Word8 ~~> Ptr Word8 ~~> Ptr Word8 ~~>
      FunPtr (Callback [Ptr SenderChannel; Ptr Word8; Int64] (Some Int32)) ~~> IO Int64);
   export "getModuleSourceV2"
     (StablePtr ConsensusRunner ~~> Word8 ~~> Ptr Word8 ~~> Ptr Word8 ~~> Ptr Word8 ~~>
      Ptr ReceiverVec ~~> FunPtr (Callback [Ptr ReceiverVec; Ptr Word8; Int64] None) ~~>
      IO Int64);
   export "getInstanceListV2"
     (StablePtr ConsensusRunner ~~> Ptr SenderChannel ~~> Word8 ~~> Ptr Word8 ~~> Ptr Word8 ~~>
      FunPtr (Callback [Ptr SenderChannel; Ptr Word8; Int64] (Some Int32)) ~~> IO Int64);
   export "getAncestorsV2"
     (StablePtr ConsensusRunner ~~> Ptr SenderChannel ~~> Word8 ~~> Ptr Word8 ~~> Word64 ~~>
      Ptr Word8 ~~> FunPtr (Callback [Ptr SenderChannel; Ptr Word8; Int64] (Some Int32)) ~~>
      IO Int64);
   export "getFirstBlockEpochV2"
     (StablePtr ConsensusRunner ~~> Word8 ~~> Ptr Word8 ~~> Ptr Word8 ~~> IO Int64);
   export "getWinningBakersEpochV2"
     (StablePtr ConsensusRunner ~~> Ptr SenderChannel ~~> Word8 ~~> Ptr Word8 ~~>
      FunPtr (Callback [Ptr SenderChannel; Ptr Word8; Int64] (Some Int32)) ~~> IO Int64);
   export "getInstanceInfoV2"
     (StablePtr ConsensusRunner ~~> Word8 ~~> Ptr Word8 ~~> Word64 ~~> Word64 ~~> Ptr Word8 ~~>
      Ptr ReceiverVec ~~> FunPtr (Callback [Ptr ReceiverVec; Ptr Word8; Int64] None) ~~>
      IO Int64)].

(** states, transactions, invocations, blocks, bakers; *)
Definition exports_blocks : list (string * Sig) :=
  [export "getInstanceStateV2"
     (StablePtr ConsensusRunner ~~> Word8 ~~> Ptr Word8 ~~> Word64 ~~> Word64 ~~> Ptr Word8 ~~>
      Ptr ReceiverVec ~~> FunPtr CopyToVecCallback ~~> Ptr PersistentStateReceiver ~~>
      FunPtr PersistentStateCopier ~~> IO Int64);
   export "getNextAccountSequenceNumberV2"
     (StablePtr ConsensusRunner ~~> Ptr Word8 ~~> Ptr ReceiverVec ~~>
      FunPtr (Callback [Ptr ReceiverVec; Ptr Word8; Int64] None) ~~> IO Int64);
   export "getBlockItemStatusV2"
     (StablePtr ConsensusRunner ~~> Ptr Word8 ~~> Ptr ReceiverVec ~~>
      FunPtr (Callback [Ptr ReceiverVec; Ptr Word8; Int64] None) ~~> IO Int64);
   export "getConsensusInfoV2"
     (StablePtr ConsensusRunner ~~> Ptr ReceiverVec ~~>
      FunPtr (Callback [Ptr ReceiverVec; Ptr Word8; Int64] None) ~~> IO Int64);
   export "invokeInstanceV2"
     (StablePtr ConsensusRunner ~~> Word8 ~~> Ptr Word8 ~~> Word64 ~~> Word64 ~~> Word8 ~~>
      Ptr Word8 ~~> Word64 ~~> Word64 ~~> Word64 ~~> Ptr Word8 ~~> Word32 ~~> Ptr Word8 ~~>
      Word32 ~~> Word64 ~~> Ptr Word8 ~~> Ptr ReceiverVec ~~> FunPtr CopyToVecCallback ~~>
      IO Int64);
   export "getCryptographicParametersV2"
     (StablePtr ConsensusRunner ~~> Word8 ~~> Ptr Word8 ~~> Ptr Word8 ~~>
      Ptr ReceiverCryptographicParameters ~~> FunPtr CopyCryptographicParametersCallback ~~>
      IO Int64);
   export "getBlockInfoV2"
     (StablePtr ConsensusRunner ~~> Word8 ~~> Ptr Word8 ~~> Ptr Word8 ~~> Ptr ReceiverVec ~~>
      FunPtr CopyToVecCallback ~~> IO Int64);
   export "getBakerListV2"
     (StablePtr ConsensusRunner ~~> Ptr SenderChannel ~~> Word8 ~~> Ptr Word8 ~~> Ptr Word8 ~~>
      FunPtr ChannelSendCallback ~~> IO Int64);
   export "getPoolInfoV2"
     (StablePtr ConsensusRunner ~~> Word8 ~~> Ptr Word8 ~~> Word64 ~~> Ptr Word8 ~~>
      Ptr ReceiverVec ~~> FunPtr CopyToVecCallback ~~> IO Int64)].

(** delegation, tokenomics, elections, identity providers; *)
Definition exports_pools : list (string * Sig) :=
  [export "getPassiveDelegationInfoV2"
     (StablePtr ConsensusRunner ~~> Word8 ~~> Ptr Word8 ~~> Ptr Word8 ~~> Ptr ReceiverVec ~~>
      FunPtr CopyToVecCallback ~~> IO Int64);
   export "getBlocksAtHeightV2"
     (StablePtr ConsensusRunner ~~> Word64 ~~> Word32 ~~> Word8 ~~> Ptr ReceiverVec ~~>
      FunPtr CopyToVecCallback ~~> IO Int64);
   export "getTokenomicsInfoV2"
     (StablePtr ConsensusRunner ~~> Word8 ~~> Ptr Word8 ~~> Ptr Word8 ~~> Ptr ReceiverVec ~~>
      FunPtr CopyToVecCallback ~~> IO Int64);
   export "getPoolDelegatorsV2"
     (StablePtr ConsensusRunner ~~> Ptr SenderChannel ~~> Word8 ~~> Ptr Word8 ~~> Word64 ~~>
      Ptr Word8 ~~> FunPtr ChannelSendCallback ~~> IO Int64);
   export "getPoolDelegatorsRewardPeriodV2"
     (StablePtr ConsensusRunner ~~> Ptr SenderChannel ~~> Word8 ~~> Ptr Word8 ~~> Word64 ~~>
      Ptr Word8 ~~> FunPtr ChannelSendCallback ~~> IO Int64);
   export "getPassiveDelegatorsV2"
     (StablePtr ConsensusRunner ~~> Ptr SenderChannel ~~> Word8 ~~> Ptr Word8 ~~> Ptr Word8 ~~>
      FunPtr ChannelSendCallback ~~> IO Int64);
   export "getPassiveDelegatorsRewardPeriodV2"
     (StablePtr ConsensusRunner ~~> Ptr SenderChannel ~~> Word8 ~~> Ptr Word8 ~~> Ptr Word8 ~~>
      FunPtr ChannelSendCallback ~~> IO Int64);
   export "getBranchesV2"
     (StablePtr ConsensusRunner ~~> Ptr ReceiverVec ~~> FunPtr CopyToVecCallback ~~> IO Int64);
   export "getElectionInfoV2"
     (StablePtr ConsensusRunner ~~> Word8 ~~> Ptr Word8 ~~> Ptr Word8 ~~> Ptr ReceiverVec ~~>
      FunPtr CopyToVecCallback ~~> IO Int64);
   export "getIdentityProvidersV2"
     (StablePtr ConsensusRunner ~~> Ptr SenderChannel ~~> Word8 ~~> Ptr Word8 ~~> Ptr Word8 ~~>
      FunPtr ChannelSendCallback ~~> IO Int64);
   export "getAnonymityRevokersV2"
     (StablePtr ConsensusRunner ~~> Ptr SenderChannel ~~> Word8 ~~> Ptr Word8 ~~> Ptr Word8 ~~>
      FunPtr ChannelSendCallback ~~> IO Int64)].

(** events, updates, parameters, certificates. *)
Definition exports_events : list (string * Sig) :=
  [export "getAccountNonFinalizedTransactionsV2"
     (StablePtr ConsensusRunner ~~> Ptr SenderChannel ~~> Ptr Word8 ~~>
      FunPtr ChannelSendCallback ~~> IO Int64);
   export "getBlockItemsV2"
     (StablePtr ConsensusRunner ~~> Ptr SenderChannel ~~> Word8 ~~> Ptr Word8 ~~> Ptr Word8 ~~>
      FunPtr ChannelSendCallback ~~> IO Int64);
   export "getBlockTransactionEventsV2"
     (StablePtr ConsensusRunner ~~> Ptr SenderChannel ~~> Word8 ~~> Ptr Word8 ~~> Ptr Word8 ~~>
      FunPtr ChannelSendCallback ~~> IO Int64);
   export "getBlockSpecialEventsV2"
     (StablePtr ConsensusRunner ~~> Ptr SenderChannel ~~> Word8 ~~> Ptr Word8 ~~> Ptr Word8 ~~>
      FunPtr ChannelSendCallback ~~> IO Int64);
   export "getBlockPendingUpdatesV2"
     (StablePtr ConsensusRunner ~~> Ptr SenderChannel ~~> Word8 ~~> Ptr Word8 ~~> Ptr Word8 ~~>
      FunPtr ChannelSendCallback ~~> IO Int64);
   export "getNextUpdateSequenceNumbersV2"
     (StablePtr ConsensusRunner ~~> Word8 ~~> Ptr Word8 ~~> Ptr Word8 ~~> Ptr ReceiverVec ~~>
      FunPtr CopyToVecCallback ~~> IO Int64);
   export "getBlockChainParametersV2"
     (StablePtr ConsensusRunner ~~> Word8 ~~> Ptr Word8 ~~> Ptr Word8 ~~> Ptr ReceiverVec ~~>
      FunPtr CopyToVecCallback ~~> IO Int64);
   export "getBlockFinalizationSummaryV2"
     (StablePtr ConsensusRunner ~~> Word8 ~~> Ptr Word8 ~~> Ptr Word8 ~~> Ptr ReceiverVec ~~>
      FunPtr CopyToVecCallback ~~> IO Int64);
   export "getLastFinalizedBlockSlotTimeV2"
     (StablePtr ConsensusRunner ~~> IO Timestamp);
   export "getBakersRewardPeriodV2"
     (StablePtr ConsensusRunner ~~> Ptr SenderChannel ~~> Word8 ~~> Ptr Word8 ~~> Ptr Word8 ~~>
      FunPtr ChannelSendCallback ~~> IO Int64);
   export "getBlockCertificatesV2"
     (StablePtr ConsensusRunner ~~> Word8 ~~> Ptr Word8 ~~> Ptr Word8 ~~> Ptr ReceiverVec ~~>
      FunPtr CopyToVecCallback ~~> IO Int64);
   export "getBakerEarliestWinTimeV2"
     (StablePtr ConsensusRunner ~~> Word64 ~~> Ptr ReceiverVec ~~> FunPtr CopyToVecCallback ~~>
      IO Int64)].

(** Those of [DryRun.hs]. *)
Definition exports_dry_run : list (string * Sig) :=
  [export "dryRunStart"
     (StablePtr ConsensusRunner ~~> FunPtr CopyToForeignVec ~~> Word64 ~~>
      IO (StablePtr DryRunHandle));
   export "dryRunEnd"
     (StablePtr DryRunHandle ~~> IO_unit);
   export "dryRunLoadBlockState"
     (StablePtr DryRunHandle ~~> Word8 ~~> Ptr Word8 ~~> Ptr ForeignVec ~~> IO Int64);
   export "dryRunGetAccountInfo"
     (StablePtr DryRunHandle ~~> Word8 ~~> Ptr Word8 ~~> Ptr ForeignVec ~~> IO Int64);
   export "dryRunGetInstanceInfo"
     (StablePtr DryRunHandle ~~> Word64 ~~> Word64 ~~> Ptr ForeignVec ~~> IO Int64);
   export "dryRunInvokeInstance"
     (StablePtr DryRunHandle ~~> Word64 ~~> Word64 ~~> Word8 ~~> Ptr Word8 ~~> Word64 ~~>
      Word64 ~~> Word64 ~~> Ptr Word8 ~~> Word32 ~~> Ptr Word8 ~~> Word32 ~~> Word64 ~~>
      Ptr ForeignVec ~~> IO Int64);
   export "dryRunSetTimestamp"
     (StablePtr DryRunHandle ~~> Word64 ~~> Ptr ForeignVec ~~> IO Int64);
   export "dryRunMintToAccount"
     (StablePtr DryRunHandle ~~> Ptr Word8 ~~> Word64 ~~> Ptr ForeignVec ~~> IO Int64);
   export "dryRunTransaction"
     (StablePtr DryRunHandle ~~> Ptr Word8 ~~> Word64 ~~> Ptr Word8 ~~> Word64 ~~> Ptr Word8 ~~>
      Word64 ~~> Ptr ForeignVec ~~> IO Int64)].

(** All of them. *)
Definition foreign_exports : list (string * Sig) :=
  exports_external ++ exports_contracts ++ exports_blocks ++ exports_pools
    ++ exports_events ++ exports_dry_run.

End declarations.

(** [lib.def]. *)
Definition lib_def : list string :=
  ["hs_init"; "hs_init_with_rtsopts"; "hs_exit"; "startConsensus"; "startConsensusPassive";
   "stopConsensus"; "startBaker"; "stopBaker"; "receiveBlock"; "executeBlock";
   "receiveFinalizationMessage"; "receiveFinalizationRecord"; "receiveTransaction";
   "getNumberOfNonFinalizedTransactions"; "getCatchUpStatus"; "receiveCatchUpStatus";
   "bakerStatusBestBlock"; "checkIfWeAreFinalizer"; "checkIfRunning"; "freeCStr";
   "importBlocks"; "stopImportingBlocks"; "getAccountInfoV2"; "getAccountListV2";
   "getModuleListV2"; "getModuleSourceV2"; "getInstanceListV2"; "getAncestorsV2";
   "getFirstBlockEpochV2"; "getWinningBakersEpochV2"; "getInstanceInfoV2"; "getInstanceStateV2";
   "getNextAccountSequenceNumberV2"; "getConsensusInfoV2"; "getBlockItemStatusV2";
   "getCryptographicParametersV2"; "getBlockInfoV2"; "getBakerListV2"; "getPoolInfoV2";
   "getPassiveDelegationInfoV2"; "getBlocksAtHeightV2"; "getTokenomicsInfoV2";
   "invokeInstanceV2"; "getPoolDelegatorsV2"; "getPoolDelegatorsRewardPeriodV2";
   "getPassiveDelegatorsV2"; "getPassiveDelegatorsRewardPeriodV2"; "getBranchesV2";
   "getElectionInfoV2"; "getIdentityProvidersV2"; "getAnonymityRevokersV2";
   "getAccountNonFinalizedTransactionsV2"; "getBlockTransactionEventsV2";
   "getBlockSpecialEventsV2"; "getBlockPendingUpdatesV2"; "getNextUpdateSequenceNumbersV2";
   "getBlockChainParametersV2"; "getBlockFinalizationSummaryV2"; "getBlockItemsV2";
   "getLastFinalizedBlockSlotTimeV2"; "getBakersRewardPeriodV2"; "getBlockCertificatesV2";
   "getBakerEarliestWinTimeV2"; "getLastFinalizedBlockHeight"; "dryRunStart"; "dryRunEnd";
   "dryRunGetAccountInfo"; "dryRunGetInstanceInfo"; "dryRunLoadBlockState";
   "dryRunInvokeInstance"; "dryRunSetTimestamp"; "dryRunMintToAccount"; "dryRunTransaction"].
