(* ===== verification/AbiProps.v ===== *)
(** The declarations of the node and the exports of the consensus library describe
    the same calls. *)

From stdpp Require Import base tactics list gmap strings option numbers.
From Stdlib Require Import ZArith.
From S2P Require Import Prelude Abi AbiRust AbiHaskell.

(** The object of the node that one of the library stands for. *)
Definition rust_object (name : string) : string :=
  default name (list_to_map (M := gmap string string)
    [("ConsensusRunner", "consensus_runner"); ("ExecuteBlock", "execute_block");
     ("DryRunHandle", "dry_run_handle"); ("RegenesisArc", "Regenesis");
     ("NotifyContext", "NotificationContext"); ("ReceiverVec", "Vec<u8>");
     ("ForeignVec", "Vec<u8>"); ("SenderChannel", "Sender<Result<Vec<u8>, Status>>");
     ("ReceiverCryptographicParameters", "Option<CryptographicParameters>");
     ("PersistentStateReceiver", "Option<V1ContractStateReceiver>")] !! name).

Section agreement.
Context `{ForeignTypes}.

(** What the linker finds under a name. *)
Definition exported (name : string) : option Sig :=
  snd <$> List.find (fun e => String.eqb name e.1) foreign_exports.

(** Two types that hold the same values. *)
Definition same_range (r h : Scalar) : bool :=
  (width r =? width h) && Bool.eqb (signed r) (signed h).

Definition exact_type (r h : CType) : bool :=
  match r, h with
  | Scal r', Scal h' => same_range r' h'
  | Callback rp rr, Callback hp hr =>
      (length rp =? length hp)%nat && forallb (fun p => same_range p.1 p.2) (zip rp hp) &&
      match rr, hr with Some r', Some h' => same_range r' h' | None, None => true | _, _ => false end
  | _, _ => false
  end.

(** The only types whose ranges may differ are those of the two bytes that the
    callback for logging receives. *)
Definition exact_params (f : ExternFn) (h : Sig) : bool :=
  (length (fn_params f) =? length (sig_params h))%nat &&
  forallb (fun p => String.eqb p.1.1 "log_callback" || exact_type p.1.2 p.2)
    (zip (fn_params f) (sig_params h)).

(** The checks of a declaration against the library. *)
Definition declaration_ok (f : ExternFn) : bool :=
  match exported (fn_name f) with
  | Some h =>
      sig_compat rust_object (fn_sig f) h && exact_params f h && bool_decide (fn_name f ∈ lib_def)
  | None => String.eqb (fn_name f) "freeByteArray"
  end.

Definition declared (name : string) : bool :=
  existsb (fun f => String.eqb (fn_name f) name) extern_block.

End agreement.

Lemma declarations_ok `{FT : ForeignTypes} :
  forallb declaration_ok extern_block = true /\ forallb (fun e => declared e.1) foreign_exports = true.
Proof.
  destruct FT as [c g t Hc -> ->]. destruct Hc as [-> | ->]; split; vm_compute; reflexivity.
Qed.

Lemma same_range_spec r h v : same_range r h = true -> in_range r v = in_range h v.
Proof.
  intros [Hw%Z.eqb_eq Hs%Bool.eqb_prop]%andb_prop. unfold in_range. by rewrite Hw, Hs.
Qed.

(** A parameter through which every value of the caller's type can be passed. *)
Definition lossless (r h : CType) : Prop :=
  match r, h with
  | Scal r', Scal h' => forall v, in_range r' v = in_range h' v
  | Callback rp _, Callback hp _ => Forall2 (fun a b => forall v, in_range a v = in_range b v) rp hp
  | _, _ => False
  end.

Lemma forallb_zip {A B} (P : A * B -> bool) (Q : A -> B -> Prop) xs ys :
  (forall a b, P (a, b) = true -> Q a b) ->
  length xs = length ys -> forallb P (zip xs ys) = true -> Forall2 Q xs ys.
Proof.
  intros HPQ. revert ys. induction xs as [|x xs IH]; intros [|y ys] Hl Hf; try discriminate; [constructor|].
  apply andb_prop in Hf as [? ?]. constructor; [by apply HPQ|]. apply IH; [by injection Hl|done].
Qed.

Lemma exact_type_spec r h : exact_type r h = true -> lossless r h.
Proof.
  destruct r as [r|rp rr], h as [h|hp hr]; try discriminate; cbn.
  - intros Hs v. by apply same_range_spec.
  - intros [[Hl%Nat.eqb_eq Hf]%andb_prop _]%andb_prop.
    refine (forallb_zip _ _ _ _ _ Hl Hf). intros a b Hs v. by apply same_range_spec.
Qed.

Lemma exact_params_spec f h :
  exact_params f h = true ->
  Forall2 (fun p t => p.1 = "log_callback" \/ lossless p.2 t) (fn_params f) (sig_params h).
Proof.
  intros [Hl%Nat.eqb_eq Hf]%andb_prop. refine (forallb_zip _ _ _ _ _ Hl Hf).
  intros p t [Hn|He]%orb_prop; [left; by apply String.eqb_eq|right; by apply exact_type_spec].
Qed.

(** C11: the linker resolves the node's calls into the consensus library by name
    alone, and the types fit.  Every function of the node's [extern] block is
    exported by the library, on Windows as well, with a type that describes the
    same call: each argument that the node passes is the one that the library
    reads, whatever the unused bits of the registers hold, and so is the result;
    each callback is called with what the library passes; pointers lead to objects
    of the same layout.  Nothing is lost, except that the bytes passed to the
    callback for logging must be in range for C's [char].  The one exception is
    [freeByteArray], which does not exist.  All that is exported is declared. *)
Theorem ffi_calls_agree `{ForeignTypes} :
  Forall (fun f =>
    match exported (fn_name f) with
    | Some h =>
        calls_agree rust_object (fn_sig f) h /\
        Forall2 (fun p t => p.1 = "log_callback" \/ lossless p.2 t) (fn_params f) (sig_params h) /\
        fn_name f ∈ lib_def
    | None => fn_name f = "freeByteArray"
    end) extern_block /\
  Forall (fun e => exists f, f ∈ extern_block /\ fn_name f = e.1) foreign_exports.
Proof.
  destruct declarations_ok as [Hr Hh]. split; apply Forall_forall.
  - intros f Hf. apply (proj1 (forallb_forall _ _) Hr) in Hf.
    unfold declaration_ok in Hf. destruct (exported (fn_name f)) as [h|]; [|by apply String.eqb_eq].
    apply andb_prop in Hf as [[Hc He]%andb_prop Hl%bool_decide_eq_true_1].
    eauto using sig_compat_agrees, exact_params_spec.
  - intros e He. apply (proj1 (forallb_forall _ _) Hh) in He.
    apply existsb_exists in He as (f & Hf & En%String.eqb_eq).
    exists f. by rewrite list_elem_of_In.
Qed.

(** On x86-64: the length of a block that the node passes to [receiveBlock] is what
    the library reads, also above the range of a signed number, and with any
    bits in the rest of the registers. *)
Lemma ffi_calls_agree_witness :
  exists f h, @extern_block x86_64 !! 3%nat = Some f /\ fn_name f = "receiveBlock" /\
    @exported x86_64 "receiveBlock" = Some h /\
    receive_all (register <$> sig_params h)
      (pass_all (register <$> sig_params (fn_sig f)) [4096; 7; 8192; 2 ^ 64 - 1; 0] [1; -3; 5; 7; 9])
    = [4096; 7; 8192; 2 ^ 64 - 1; 0].
Proof.
  pose proof (proj1 (@ffi_calls_agree x86_64)) as Ha.
  eapply Forall_lookup_1 with (i := 3%nat) in Ha; [|reflexivity].
  cbn [fn_name fn] in Ha. eexists _, _. split; [reflexivity|].
  split; [reflexivity|]. split; [reflexivity|].
  destruct Ha as [Ha _]. apply (ca_arguments _ _ _ Ha); [repeat constructor..|reflexivity].
Defined.
