(* ===== verification/AbiCodes.v ===== *)
(** The numbers that cross the interface between the node and the consensus library:
    the results of the library's functions
    ([concordium-consensus/src-lib/Concordium/External.hs], [External/GRPC2.hs] and
    [External/DryRun.hs], whose types are those of [Concordium/Skov/Monad.hs] and
    [Concordium/GlobalState/Persistent/TreeState.hs]) and the types of the messages
    that it sends.  Each enumeration is written twice, once on each side; what the
    node makes of the numbers is modelled in [Helpers.v], [Container.v],
    [Callbacks.v] and [Queries.v]. *)

From stdpp Require Import base tactics list gmap strings option numbers.
From Stdlib Require Import ZArith.
From S2P Require Import Prelude Text Common Helpers LowLevel Wire Conn Buckets CatchUp Queues Config.
From S2P Require Import Container Callbacks Queries.

(** ** Messages that are received *)

Inductive UpdateResult :=
| ResultSuccess
| ResultSerializationFail
| ResultInvalid
| ResultPendingBlock
| ResultPendingFinalization
| ResultAsync
| ResultDuplicate
| ResultStale
| ResultDuplicateNonce
| ResultNonceTooLarge
| ResultNonexistingSenderAccount
| ResultVerificationFailed
| ResultExpiryTooLate
| ResultTooLowEnergy
| ResultIncorrectFinalizationSession
| ResultUnverifiable
| ResultContinueCatchUp
| ResultEarlyBlock
| ResultMissingImportFile
| ResultConsensusShutDown
| ResultInvalidGenesisIndex
| ResultDuplicateAccountRegistrationID
| ResultCredentialDeploymentInvalidIP
| ResultCredentialDeploymentInvalidAR
| ResultCredentialDeploymentInvalidSignatures
| ResultCredentialDeploymentExpired
| ResultChainUpdateSequenceNumberTooOld
| ResultChainUpdateInvalidEffectiveTime
| ResultChainUpdateInvalidSignatures
| ResultEnergyExceeded
| ResultInsufficientFunds
| ResultDoubleSign.

Definition toReceiveResult (r : UpdateResult) : Z :=
  match r with
  | ResultSuccess => 0
  | ResultSerializationFail => 1
  | ResultInvalid => 2
  | ResultPendingBlock => 3
  | ResultPendingFinalization => 4
  | ResultAsync => 5
  | ResultDuplicate => 6
  | ResultStale => 7
  | ResultIncorrectFinalizationSession => 8
  | ResultUnverifiable => 9
  | ResultContinueCatchUp => 10
  | ResultEarlyBlock => 11
  | ResultMissingImportFile => 12
  | ResultConsensusShutDown => 13
  | ResultExpiryTooLate => 14
  | ResultVerificationFailed => 15
  | ResultNonexistingSenderAccount => 16
  | ResultDuplicateNonce => 17
  | ResultNonceTooLarge => 18
  | ResultTooLowEnergy => 19
  | ResultInvalidGenesisIndex => 20
  | ResultDuplicateAccountRegistrationID => 21
  | ResultCredentialDeploymentInvalidSignatures => 22
  | ResultCredentialDeploymentInvalidIP => 23
  | ResultCredentialDeploymentInvalidAR => 24
  | ResultCredentialDeploymentExpired => 25
  | ResultChainUpdateInvalidEffectiveTime => 26
  | ResultChainUpdateSequenceNumberTooOld => 27
  | ResultChainUpdateInvalidSignatures => 28
  | ResultEnergyExceeded => 29
  | ResultInsufficientFunds => 30
  | ResultDoubleSign => 31
  end.

(** The column [Forward?] of the table above [ReceiveResult]: whether the node is to
    forward a message with this result; [None] where forwarding does not apply. *)
Definition forward_documented (r : UpdateResult) (p : PacketType) : option bool :=
  match r with
  | ResultSuccess | ResultPendingFinalization | ResultAsync => Some true
  | ResultPendingBlock => Some (negb (bool_decide (p = Block)))
  | ResultContinueCatchUp | ResultMissingImportFile => None
  | _ => Some false
  end.

(** The response of the node that a result is meant to be. *)
Definition response_of (r : UpdateResult) : ConsensusFfiResponse :=
  match r with
  | ResultSuccess => Success
  | ResultSerializationFail => DeserializationError
  | ResultInvalid => InvalidResult
  | ResultPendingBlock => PendingBlock
  | ResultPendingFinalization => PendingFinalization
  | ResultAsync => Asynchronous
  | ResultDuplicate => DuplicateEntry
  | ResultStale => Stale
  | ResultDuplicateNonce => DuplicateNonce
  | ResultNonceTooLarge => NonceTooLarge
  | ResultNonexistingSenderAccount => NonexistingSenderAccount
  | ResultVerificationFailed => VerificationFailed
  | ResultExpiryTooLate => ExpiryTooLate
  | ResultTooLowEnergy => TooLowEnergy
  | ResultIncorrectFinalizationSession => IncorrectFinalizationSession
  | ResultUnverifiable => Unverifiable
  | ResultContinueCatchUp => ContinueCatchUp
  | ResultEarlyBlock => BlockTooEarly
  | ResultMissingImportFile => MissingImportFile
  | ResultConsensusShutDown => ConsensusShutDown
  | ResultInvalidGenesisIndex => InvalidGenesisIndex
  | ResultDuplicateAccountRegistrationID => DuplicateAccountRegistrationID
  | ResultCredentialDeploymentInvalidIP => CredentialDeploymentInvalidIP
  | ResultCredentialDeploymentInvalidAR => CredentialDeploymentInvalidAR
  | ResultCredentialDeploymentInvalidSignatures => CredentialDeploymentInvalidSignatures
  | ResultCredentialDeploymentExpired => CredentialDeploymentExpired
  | ResultChainUpdateSequenceNumberTooOld => ChainUpdateSequenceNumberTooOld
  | ResultChainUpdateInvalidEffectiveTime => ChainUpdateInvalidEffectiveTime
  | ResultChainUpdateInvalidSignatures => ChainUpdateInvalidSignatures
  | ResultEnergyExceeded => MaxBlockEnergyExceeded
  | ResultInsufficientFunds => InsufficientFunds
  | ResultDoubleSign => DoubleSign
  end.

(** ** Queries and dry runs *)

Inductive QueryResult :=
| QRInvalidArgument | QRInternalError | QRSuccess | QRNotFound | QRUnavailable | QRFutureEpoch.

Definition queryResultCode (q : QueryResult) : Z :=
  match q with
  | QRInvalidArgument => -2
  | QRInternalError => -1
  | QRSuccess => 0
  | QRNotFound => 1
  | QRUnavailable => 2
  | QRFutureEpoch => 3
  end.

Definition query_response_of (q : QueryResult) : ConsensusQueryResponse :=
  match q with
  | QRInvalidArgument => QInvalidArgument
  | QRInternalError => QInternalError
  | QRSuccess => QOk
  | QRNotFound => QNotFound
  | QRUnavailable => QUnavailable
  | QRFutureEpoch => QFutureEpoch
  end.

Inductive DryRunReturnCode := DryRunOK | InternalError | OutOfEnergyQuota.

(** [returnCode = fromIntegral . fromEnum]. *)
Definition returnCode (c : DryRunReturnCode) : Z :=
  match c with DryRunOK => 0 | InternalError => 1 | OutOfEnergyQuota => 2 end.

(** ** The status of the baker, and the types of messages *)

Inductive BakerStatus :=
| BSActiveInComittee | BSAddedButNotActiveInCommittee | BSNotInCommittee | BSAddedButWrongKeys.

Definition getBakerStatusCode (bs : BakerStatus) : Z :=
  match bs with
  | BSActiveInComittee => 0
  | BSNotInCommittee => 1
  | BSAddedButNotActiveInCommittee => 2
  | BSAddedButWrongKeys => 3
  end.

Definition committee_of (bs : BakerStatus) : BakingCommitteeResponse :=
  match bs with
  | BSActiveInComittee => ActiveInCommittee
  | BSNotInCommittee => NotInCommittee
  | BSAddedButNotActiveInCommittee => AddedButNotActiveInCommittee
  | BSAddedButWrongKeys => AddedButWrongKeys
  end.

(** [checkIfWeAreFinalizer] and [checkIfRunning], of what the query finds. *)
Definition checkIfWeAreFinalizer_code (isFinalizer : bool) : Z := if isFinalizer then 1 else 0.
Definition checkIfRunning_code (isShutDown : bool) : Z := if isShutDown then 0 else 1.

Inductive MessageType :=
| MessageBlock | MessageFinalization | MessageFinalizationRecord | MessageCatchUpStatus.

(** [mti] of [callBroadcastCallback], and of [callDirectMessageCallback]. *)
Definition broadcast_mti (mt : MessageType) : Z :=
  match mt with
  | MessageBlock => 0 | MessageFinalization => 1
  | MessageFinalizationRecord => 2 | MessageCatchUpStatus => 3
  end.
Definition direct_mti (mt : MessageType) : Z :=
  match mt with
  | MessageBlock => 0 | MessageFinalization => 1
  | MessageFinalizationRecord => 2 | MessageCatchUpStatus => 3
  end.

Definition packet_of (mt : MessageType) : PacketType :=
  match mt with
  | MessageBlock => Block
  | MessageFinalization => FinalizationMessage
  | MessageFinalizationRecord => FinalizationRecord
  | MessageCatchUpStatus => CatchUpStatus
  end.

(** ** Starting *)

(** The exceptions carry a description, or the hash of a block. *)
Inductive InitException :=
| BlockStatePathDir
| BlockStatePermissionError
| TreeStatePermissionError
| DatabaseOpeningError (err : string)
| GenesisBlockNotInDataBaseError
| GenesisBlockIncorrect (ieIs : list byte)
| DatabaseInvariantViolation (err : string)
| IncorrectDatabaseVersion (err : string)
| AccountMapPermissionError.

Inductive StartResult :=
| StartSuccess
| StartGenesisFailure
| StartBakerIdentityFailure
| StartIOException
| StartInitException (ie : InitException).

Definition toStartResult (s : StartResult) : Z :=
  match s with
  | StartSuccess => 0
  | StartGenesisFailure => 1
  | StartBakerIdentityFailure => 2
  | StartIOException => 3
  | StartInitException ie =>
      match ie with
      | BlockStatePathDir => 4
      | BlockStatePermissionError => 5
      | TreeStatePermissionError => 6
      | DatabaseOpeningError _ => 7
      | GenesisBlockNotInDataBaseError => 8
      | GenesisBlockIncorrect _ => 9
      | DatabaseInvariantViolation _ => 10
      | IncorrectDatabaseVersion _ => 11
      | AccountMapPermissionError => 12
      end
  end.

(** The node's explanation of a failure. *)
Definition start_message (s : StartResult) : option string :=
  match s with
  | StartSuccess => None
  | StartGenesisFailure => Some "Cannot decode given genesis data."
  | StartBakerIdentityFailure => Some "Cannot decode baker keys."
  | StartIOException => Some "Error reading database files."
  | StartInitException ie =>
      match ie with
      | BlockStatePathDir => Some "Given block state path is a directory, not a file."
      | BlockStatePermissionError =>
          Some "Cannot read block state database due to incorrect permissions."
      | TreeStatePermissionError =>
          Some "Cannot read tree state database due to incorrect permissions."
      | DatabaseOpeningError _ => Some "Cannot open supplied tree state database."
      | GenesisBlockNotInDataBaseError =>
          Some "Genesis block is not in the supplied tree state database."
      | GenesisBlockIncorrect _ =>
          Some "Database genesis block does not align with the supplied genesis data."
      | DatabaseInvariantViolation _ => Some "Database invariant violation. See logs for details."
      | IncorrectDatabaseVersion _ =>
          Some "Block state database has incorrect version information."
      | AccountMapPermissionError => None
      end
  end.
