(* ===== verification/AbiCodesProps.v ===== *)
(** The node understands every number that the consensus library gives it, but one. *)

From stdpp Require Import base tactics list gmap strings option numbers.
From Stdlib Require Import ZArith.
From S2P Require Import Prelude Text Common Helpers LowLevel Wire Conn Buckets CatchUp Queues Config.
From S2P Require Import QueuesProps Container GrpcTypes Callbacks Queries GrpcProps AbiCodes.

Lemma receive_code_known u :
  ConsensusFfiResponse_try_from (toReceiveResult u) = Ok (response_of u).
Proof. by destruct u. Qed.

Lemma response_of_inj u v : response_of u = response_of v -> u = v.
Proof. by destruct u, v. Qed.

(** [BakerNotFound] is the only response that the library does not give. *)
Lemma response_of_surj r : r = BakerNotFound \/ exists u, response_of u = r.
Proof.
  destruct r; [by left|right..];
    first [by exists ResultSuccess | by exists ResultSerializationFail | by exists ResultInvalid
          |by exists ResultPendingBlock | by exists ResultPendingFinalization | by exists ResultAsync
          |by exists ResultDuplicate | by exists ResultStale | by exists ResultDuplicateNonce
          |by exists ResultNonceTooLarge | by exists ResultNonexistingSenderAccount
          |by exists ResultVerificationFailed | by exists ResultExpiryTooLate
          |by exists ResultTooLowEnergy | by exists ResultIncorrectFinalizationSession
          |by exists ResultUnverifiable | by exists ResultContinueCatchUp | by exists ResultEarlyBlock
          |by exists ResultMissingImportFile | by exists ResultConsensusShutDown
          |by exists ResultInvalidGenesisIndex | by exists ResultDuplicateAccountRegistrationID
          |by exists ResultCredentialDeploymentInvalidIP | by exists ResultCredentialDeploymentInvalidAR
          |by exists ResultCredentialDeploymentInvalidSignatures
          |by exists ResultCredentialDeploymentExpired
          |by exists ResultChainUpdateSequenceNumberTooOld
          |by exists ResultChainUpdateInvalidEffectiveTime
          |by exists ResultChainUpdateInvalidSignatures | by exists ResultEnergyExceeded
          |by exists ResultInsufficientFunds | by exists ResultDoubleSign].
Qed.

Lemma receive_result_inj u v : toReceiveResult u = toReceiveResult v -> u = v.
Proof.
  intros Hc. apply response_of_inj. pose proof (receive_code_known u) as Hu.
  rewrite Hc, receive_code_known in Hu. congruence.
Qed.

(** The node forwards what the library's table says it is to forward. *)
Lemma forwarding_as_documented u p b :
  forward_documented u p = Some b -> response_is_rebroadcastable (response_of u) p = b.
Proof. by destruct u, p; cbn; intros [= <-]. Qed.

Lemma query_code_known q :
  ConsensusQueryResponse_try_from (queryResultCode q) = Ok (query_response_of q).
Proof. by destruct q. Qed.

Lemma query_code_ok q what : ensure_ok (query_response_of q) what = Ok tt <-> q = QRSuccess.
Proof. by destruct q. Qed.

Lemma dry_run_code c origin :
  check_result (returnCode c) origin =
    match c with
    | DryRunOK => Ok tt
    | InternalError => fail_with Code.Internal ("Internal error: " +:+ origin +:+ " could not be completed")
    | OutOfEnergyQuota => fail_with Code.ResourceExhausted "Energy quota exceeded"
    end.
Proof. by destruct c. Qed.

Lemma committee_code_known bs :
  BakingCommitteeResponse_try_from (getBakerStatusCode bs) = Ok (committee_of bs).
Proof. by destruct bs. Qed.

Lemma message_code_known mt :
  callback_variant <$> CallbackType_try_from (u8_wrap (broadcast_mti mt)) = Ok (packet_of mt) /\
  callback_variant <$> CallbackType_try_from (u8_wrap (direct_mti mt)) = Ok (packet_of mt).
Proof. by destruct mt. Qed.

Section start.
Context `{ConsensusRuntime}.

(** What the library answers when it is started, as a baker or as a passive node. *)
Definition start_answer (params : ConsensusRuntimeParameters) (start_config : StartConsensusConfig)
    (private_data : option (list byte)) (dir : text) : Z * Runner :=
  let level := log_level_u8 (maximum_log_level start_config) in
  match private_data with
  | Some bytes =>
      startConsensus params (start_genesis_data start_config) bytes
        (has_notification_context start_config) (has_unsupported_update_context start_config) level dir
  | None =>
      startConsensusPassive params (start_genesis_data start_config)
        (has_notification_context start_config) (has_unsupported_update_context start_config) level dir
  end.

(** The node starts if the library does, and otherwise tells the reason; but an
    account map that cannot be read is an unknown error. *)
Lemma start_code params start_config private_data dir s runner :
  start_answer params start_config private_data dir = (toStartResult s, runner) ->
  get_consensus_ptr params start_config private_data (Some dir) =
    match s with
    | StartSuccess => Ok runner
    | _ => bail (default "Unknown error code" (start_message s))
    end.
Proof.
  unfold start_answer, get_consensus_ptr. cbn [mbind outcome_bind].
  destruct private_data; intros ->; destruct s as [| | | |[]]; reflexivity.
Qed.

(** ** The calls of a container *)

(** What the functions of the library return: each of those that process a message
    ends with [toReceiveResult], the status of the baker is one of its codes, and
    truth values are 0 and 1. *)
Record library_codes : Prop := {
  lc_block g d r : exists u, (receiveBlock g d r).1.1 = toReceiveResult u;
  lc_execute b r : exists u, (executeBlock b r).1 = toReceiveResult u;
  lc_message g d r : exists u, (receiveFinalizationMessage g d r).1 = toReceiveResult u;
  lc_record g d r : exists u, (receiveFinalizationRecord g d r).1 = toReceiveResult u;
  lc_catch_up p g d l r : exists u, (receiveCatchUpStatus p g d l r).1 = toReceiveResult u;
  lc_status r : exists bs, (bakerStatusBestBlock r).1 = getBakerStatusCode bs;
  lc_finalizer r : exists b, checkIfWeAreFinalizer r = checkIfWeAreFinalizer_code b;
  lc_running r : exists b, checkIfRunning r = checkIfRunning_code b;
}.

Lemma runner_call_understood f c u :
  (f (consensus c)).1 = toReceiveResult u -> (runner_call f c).1 = Ok (response_of u).
Proof.
  unfold runner_call, response_or_panic. destruct (f (consensus c)) as [code r].
  cbn [fst]. intros ->. by rewrite receive_code_known.
Qed.

(** Such a library keeps what [rpc_safe] asks of it. *)
Lemma library_speaks_protocol `{ChainTypes} ffi :
  library_codes ->
  (forall data r, exists u, ret_code (ffi (receiveTransaction data) r).1 = toReceiveResult u) ->
  speaks_protocol ffi.
Proof.
  intros L Ht. split.
  - intros data r. destruct (Ht data r) as [u ->]. by rewrite receive_code_known.
  - intros r. destruct (lc_running L r) as [[] ->]; cbn; auto.
  - intros r. destruct (lc_finalizer L r) as [[] ->]; cbn; auto.
  - intros r. destruct (lc_status L r) as [bs ->]. by rewrite committee_code_known.
Qed.


End start.

